(** * firefly-telegram-bot: the transaction parser, the name resolver, the
      arithmetic evaluator and the snapshot cache, embedded from
      [src/bot/models.py], [src/bot/database.py], [src/bot/firefly.py] and
      [src/bot/handlers.py].

    A Python [str] is a sequence of Unicode code points; a [dict] keyed by
    the user identifier is a finite map; an exception is a value of [exn]
    carried by the [outcome] of a call. *)

From Stdlib Require Import ZArith NArith List String Ascii Bool Lia Decimal.
From Stdlib Require Import DecimalPos DecimalN.
From Stdlib Require Import Floats.SpecFloat.
From stdpp Require Import base option list gmap.

Local Open Scope N_scope.

(** ** Python strings *)

Module pystr.

(** A character is its code point. *)
Abbreviation char := N.
Abbreviation str := (list N).

(** An ASCII literal as a Python string. *)
Definition py (s : string) : str := map N_of_ascii (list_ascii_of_string s).

Definition in_range (lo hi c : N) : bool := (lo <=? c) && (c <=? hi).

(** [str.isspace] on one character; the same set is what [\s] matches in
    a [str] pattern and what [str.strip()] removes. *)
Definition isspace (c : char) : bool :=
  in_range 0x09 0x0d c || in_range 0x1c 0x20 c || (c =? 0x85) || (c =? 0xa0)
  || (c =? 0x1680) || in_range 0x2000 0x200a c || (c =? 0x2028)
  || (c =? 0x2029) || (c =? 0x202f) || (c =? 0x205f) || (c =? 0x3000).

Fixpoint lstrip (s : str) : str :=
  match s with
  | c :: s' => if isspace c then lstrip s' else s
  | [] => []
  end.

Definition rstrip (s : str) : str := rev (lstrip (rev s)).

(** [s.strip()] *)
Definition strip (s : str) : str := rstrip (lstrip s).

(** [s.split(sep)] for a one-character separator: consecutive separators
    delimit empty strings, and the result is never empty. *)
Fixpoint split (sep : char) (s : str) : list str :=
  match s with
  | [] => [[]]
  | c :: s' =>
      if c =? sep then [] :: split sep s'
      else match split sep s' with
           | w :: ws => (c :: w) :: ws
           | [] => [[c]]
           end
  end.

Fixpoint uint_chars (u : Decimal.uint) : str :=
  match u with
  | Nil => []
  | D0 u => 0x30 :: uint_chars u
  | D1 u => 0x31 :: uint_chars u
  | D2 u => 0x32 :: uint_chars u
  | D3 u => 0x33 :: uint_chars u
  | D4 u => 0x34 :: uint_chars u
  | D5 u => 0x35 :: uint_chars u
  | D6 u => 0x36 :: uint_chars u
  | D7 u => 0x37 :: uint_chars u
  | D8 u => 0x38 :: uint_chars u
  | D9 u => 0x39 :: uint_chars u
  end.

(** [str(n)] for an [int]. *)
Definition str_of_N (n : N) : str := uint_chars (N.to_uint n).
Definition str_of_Z (n : Z) : str :=
  match n with
  | Zneg p => 0x2d :: str_of_N (Npos p)
  | _ => str_of_N (Z.to_N n)
  end.

End pystr.
Export pystr.

(** ** Exceptions and outcomes *)

(** The exception classes that the modelled code raises or lets through.
    [UnsafeEval] is the bare [Exception("Unsafe eval")] of
    [safe_math_eval]; the next four are the classes of [models.py];
    [ConnectionError] is that of [requests]; the others are Python's own. *)
Inductive exn : Type :=
| UnsafeEval
| CategoryError
| SourceError
| DestinationError
| StartError
| KeyError
| ValueError
| TypeError
| SyntaxError
| ZeroDivisionError
| OverflowError
| IndexError
| AttributeError
| ConnectionError.

Global Instance exn_eq_dec : EqDecision exn.
Proof. solve_decision. Defined.

(** The result of a call: a value, an exception, or [Beyond] when the call
    leaves the embedded fragment (an operation whose result is computed by
    the platform's C library, a source or a number past the sizes the
    interpreter is sure to take, or a stored text that is not a JSON
    document of the shape [save_data] writes). *)
Inductive outcome (A : Type) : Type :=
| Return (a : A)
| Raise (e : exn)
| Beyond.
Arguments Return {A} a.
Arguments Raise {A} e.
Arguments Beyond {A}.

Definition bind {A B} (x : outcome A) (f : A -> outcome B) : outcome B :=
  match x with
  | Return a => f a
  | Raise e => Raise e
  | Beyond => Beyond
  end.

Notation "'let*' x ':=' c 'in' k" := (bind c (fun x => k))
  (at level 10, x name, c at level 100, k at level 200).
Notation "'let*' ' p ':=' c 'in' k" := (bind c (fun x => let 'p := x in k))
  (at level 10, p strict pattern, c at level 100, k at level 200).

(** A dict subscript [d[k]]. *)
Definition subscript {V} (d : gmap str V) (k : str) : outcome V :=
  match d !! k with
  | Some v => Return v
  | None => Raise KeyError
  end.

(** ** The fragment of [re] that the parser's pattern uses *)

Module re.

Inductive regex : Type :=
| In_ (cls : char -> bool)        (* [set]    one character of a set *)
| Plus (cls : char -> bool)       (* [set]+   greedy repetition of a set *)
| Seq (r1 r2 : regex)             (* r1 r2 *)
| Group (i : nat) (r : regex)     (* ( r )    capturing group number i *)
| Opt (r : regex)                 (* (?: r )? greedy option *)
| Bol                             (* ^ *)
| Eol.                            (* $ *)

(** Where the matcher stands: characters consumed, characters left, and
    the groups captured so far. *)
Abbreviation groups := (gmap nat str).
Abbreviation state := (nat * str * groups)%type.

(** The ends of a greedy [set]*, longest first: the order in which a
    backtracking matcher tries them. *)
Fixpoint star (cls : char -> bool) (pos : nat) (s : str) : list (nat * str) :=
  match s with
  | c :: s' => if cls c then star cls (S pos) s' ++ [(pos, s)] else [(pos, s)]
  | [] => [(pos, s)]
  end.

(** All the ways [r] matches at a state, in the order backtracking
    explores them. *)
Fixpoint run (r : regex) (st : state) : list state :=
  let '(pos, s, g) := st in
  match r with
  | In_ cls =>
      match s with
      | c :: s' => if cls c then [(S pos, s', g)] else []
      | [] => []
      end
  | Plus cls =>
      match s with
      | c :: s' => if cls c then map (fun e => (e, g)) (star cls (S pos) s') else []
      | [] => []
      end
  | Seq r1 r2 => flat_map (run r2) (run r1 st)
  | Group i r0 =>
      map (fun '(pos', s', g') => (pos', s', <[i := take (pos' - pos) s]> g'))
          (run r0 st)
  | Opt r0 => run r0 st ++ [st]
  | Bol => match pos with O => [st] | _ => [] end
  | Eol =>
      match s with
      | [] => [st]
      | [c] => if c =? 0x0a then [st] else []
      | _ => []
      end
  end.

(** [re.compile(r).match(s)]: the first way the pattern matches at the
    start of [s], if any; the groups are those of the match object. *)
Definition match_ (r : regex) (s : str) : option groups :=
  match run r (O, s, ∅) with
  | (_, _, g) :: _ => Some g
  | [] => None
  end.

(** [m.group(i)]: [None] for a group that took no part in the match. *)
Definition group (g : groups) (i : nat) : option str := g !! i.

End re.

(** ** The parser's pattern, [firefly.py] line 281 *)

(** [a-zA-ZÀ-ÿñÑ] *)
Definition letter (c : char) : bool :=
  in_range 0x61 0x7a c || in_range 0x41 0x5a c || in_range 0xc0 0xff c
  || (c =? 0xf1) || (c =? 0xd1).

(** [a-zA-ZÀ-ÿñÑ\s] *)
Definition desc_char (c : char) : bool := letter c || isspace c.

(** [0-9-.\+\*\/\(\)] *)
Definition amount_char (c : char) : bool :=
  in_range 0x30 0x39 c || (c =? 0x2d) || (c =? 0x2e) || (c =? 0x2b)
  || (c =? 0x2a) || (c =? 0x2f) || (c =? 0x28) || (c =? 0x29).

(** (?:\s+([a-zA-ZÀ-ÿñÑ]+))? *)
Definition token_opt (i : nat) : re.regex :=
  re.Opt (re.Seq (re.Plus isspace) (re.Group i (re.Plus letter))).

(** ^([a-zA-ZÀ-ÿñÑ\s]+)\s+([0-9-.\+\*\/\(\)]+)(?:\s+([a-zA-ZÀ-ÿñÑ]+))?(?:\s+([a-zA-ZÀ-ÿñÑ]+))?(?:\s+([a-zA-ZÀ-ÿñÑ]+))?$ *)
Definition pattern : re.regex :=
  re.Seq re.Bol
 (re.Seq (re.Group 1 (re.Plus desc_char))
 (re.Seq (re.Plus isspace)
 (re.Seq (re.Group 2 (re.Plus amount_char))
 (re.Seq (token_opt 3)
 (re.Seq (token_opt 4)
 (re.Seq (token_opt 5)
  re.Eol)))))).

(** ** Python's [eval] on the characters [safe_math_eval] lets through *)

Module pyeval.

(** *** Numbers *)

(** A Python [float] is an IEEE 754 binary64 number. *)
Definition prec : Z := 53.
Definition emax : Z := 1024.

Inductive value : Type :=
| VInt (n : Z)
| VFloat (x : spec_float)
| VTuple                        (* the empty tuple [()] *)
| VEllipsis.                    (* [...] *)

(** [repr(v)]: an [int] of more than [int_max_str_digits] digits is
    refused, with [ValueError]; every other value has one. *)
Definition int_max_str_digits : Z := 4300.

Definition printable (v : value) : bool :=
  match v with
  | VInt n => (Z.abs n <? 10 ^ int_max_str_digits)%Z
  | _ => true
  end.

Definition is_zero (x : spec_float) : bool :=
  match x with S754_zero _ => true | _ => false end.

(** [float(n)] for an [int]: rounded to nearest even, [OverflowError]
    when out of range. *)
Definition float_of_int (n : Z) : outcome spec_float :=
  match binary_normalize prec emax n 0 false with
  | S754_infinity _ => Raise OverflowError
  | x => Return x
  end.

(** [a / b] on two [int]s: the correctly rounded quotient. *)
Definition int_true_divide (a b : Z) : outcome spec_float :=
  match a, b with
  | _, Z0 => Raise ZeroDivisionError
  | Z0, _ => Return (S754_zero (b <? 0)%Z)
  | _, _ =>
      match SFdiv prec emax
              (S754_finite (a <? 0)%Z (Z.to_pos (Z.abs a)) 0)
              (S754_finite (b <? 0)%Z (Z.to_pos (Z.abs b)) 0) with
      | S754_infinity _ => Raise OverflowError
      | x => Return x
      end
  end.

(** The float literal with digits [m] and [k] of them after the point:
    the double nearest to [m / 10^k]. *)
Definition float_literal (m : N) (k : nat) : spec_float :=
  match m with
  | N0 => S754_zero false
  | Npos p =>
      SFdiv prec emax (S754_finite false p 0)
            (S754_finite false (Z.to_pos (10 ^ Z.of_nat k)) 0)
  end.

(** *** Tokens *)

Inductive token : Type :=
| TInt (n : N)
| TFloat (m : N) (k : nat)      (* the digits and how many follow the point *)
| TPlus | TMinus | TStar | TSlash | TDStar | TDSlash
| TLPar | TRPar | TDot | TEllipsis.

Definition is_digit (c : char) : bool := in_range 0x30 0x39 c.

(** The value of a run of decimal digits, most significant first. *)
Definition digits_value (ds : list N) : N :=
  fold_left (fun acc d => 10 * acc + (d - 0x30)) ds 0.

(** What the tokenizer has read of the token it is in; digit runs are
    kept in reading order. *)
Inductive lex_state : Type :=
| LIdle
| LInt (ds : list N)
| LFrac (ds fs : list N)
| LStar
| LSlash
| LDot
| LDotDot.

(** A decimal integer literal may not have a leading zero unless it is
    all zeros. *)
Definition int_token (ds : list N) : outcome token :=
  match ds with
  | 0x30 :: _ :: _ =>
      if forallb (N.eqb 0x30) ds then Return (TInt 0) else Raise SyntaxError
  | _ => Return (TInt (digits_value ds))
  end.

Definition frac_token (ds fs : list N) : token :=
  TFloat (digits_value (ds ++ fs)) (length fs).

(** Reading character [c] with nothing pending. *)
Definition start (c : char) : outcome (list token * lex_state) :=
  if is_digit c then Return ([], LInt [c])
  else if c =? 0x20 then Return ([], LIdle)
  else if c =? 0x2b then Return ([TPlus], LIdle)
  else if c =? 0x2d then Return ([TMinus], LIdle)
  else if c =? 0x28 then Return ([TLPar], LIdle)
  else if c =? 0x29 then Return ([TRPar], LIdle)
  else if c =? 0x2a then Return ([], LStar)
  else if c =? 0x2f then Return ([], LSlash)
  else if c =? 0x2e then Return ([], LDot)
  else Beyond.

Definition emit_then (t : token) (c : char) : outcome (list token * lex_state) :=
  let* '(ts, st) := start c in Return (t :: ts, st).

(** One character: the tokens completed by it and the new state. *)
Definition step (st : lex_state) (c : char) : outcome (list token * lex_state) :=
  match st with
  | LIdle => start c
  | LInt ds =>
      if is_digit c then Return ([], LInt (ds ++ [c]))
      else if c =? 0x2e then Return ([], LFrac ds [])
      else let* t := int_token ds in emit_then t c
  | LFrac ds fs =>
      if is_digit c then Return ([], LFrac ds (fs ++ [c]))
      else emit_then (frac_token ds fs) c
  | LStar => if c =? 0x2a then Return ([TDStar], LIdle) else emit_then TStar c
  | LSlash => if c =? 0x2f then Return ([TDSlash], LIdle) else emit_then TSlash c
  | LDot =>
      if is_digit c then Return ([], LFrac [] [c])
      else if c =? 0x2e then Return ([], LDotDot)
      else emit_then TDot c
  | LDotDot =>
      if c =? 0x2e then Return ([TEllipsis], LIdle)
      else if is_digit c then Return ([TDot], LFrac [] [c])
      else let* '(ts, st') := emit_then TDot c in Return (TDot :: ts, st')
  end.

(** At the end of the input. *)
Definition flush (st : lex_state) : outcome (list token) :=
  match st with
  | LIdle => Return []
  | LInt ds => let* t := int_token ds in Return [t]
  | LFrac ds fs => Return [frac_token ds fs]
  | LStar => Return [TStar]
  | LSlash => Return [TSlash]
  | LDot => Return [TDot]
  | LDotDot => Return [TDot; TDot]
  end.

Fixpoint lex (st : lex_state) (s : str) : outcome (list token) :=
  match s with
  | [] => flush st
  | c :: s' =>
      let* '(ts, st') := step st c in
      let* rest := lex st' s' in
      Return (ts ++ rest)
  end.

Definition tokenize (s : str) : outcome (list token) := lex LIdle s.

(** *** Expressions *)

Inductive unop : Type := Pos_ | Neg.
Inductive binop : Type := Add | Sub | Mul | Div | FloorDiv | Pow.

Inductive expr : Type :=
| Const (v : value)
| Unary (op : unop) (e : expr)
| Binary (op : binop) (l r : expr)
| Call (f : expr)                        (* f() *)
| CallArg (f a : expr).                  (* f(a), f( *a), f( **a) *)

Inductive parsed : Type :=
| Parsed (e : expr) (rest : list token)
| NoParse
| NoFuel.

(** Then [k] on a parse, failures passed on. *)
Definition and_then (p : parsed) (k : expr -> list token -> parsed) : parsed :=
  match p with
  | Parsed e rest => k e rest
  | NoParse => NoParse
  | NoFuel => NoFuel
  end.

Definition expect_rpar (k : expr -> list token -> parsed) (e : expr)
    (rest : list token) : parsed :=
  match rest with
  | TRPar :: rest' => k e rest'
  | _ => NoParse
  end.

(** The grammar of Python expressions over these tokens:
<<
    sum     : sum ('+'|'-') term | term
    term    : term ('*'|'/'|'//') factor | factor
    factor  : ('+'|'-') factor | power
    power   : primary ['**' factor]
    primary : primary '(' [ ['*'|'**'] sum ] ')' | atom
    atom    : NUMBER | '...' | '(' ')' | '(' sum ')'
>>
    Every call spends one unit of fuel. *)
Fixpoint parse_sum (fuel : nat) (ts : list token) : parsed :=
  match fuel with
  | O => NoFuel
  | S fuel => and_then (parse_term fuel ts) (sum_rest fuel)
  end
with sum_rest (fuel : nat) (l : expr) (ts : list token) : parsed :=
  match fuel with
  | O => NoFuel
  | S fuel =>
      match ts with
      | TPlus :: ts' =>
          and_then (parse_term fuel ts') (fun r => sum_rest fuel (Binary Add l r))
      | TMinus :: ts' =>
          and_then (parse_term fuel ts') (fun r => sum_rest fuel (Binary Sub l r))
      | _ => Parsed l ts
      end
  end
with parse_term (fuel : nat) (ts : list token) : parsed :=
  match fuel with
  | O => NoFuel
  | S fuel => and_then (parse_factor fuel ts) (term_rest fuel)
  end
with term_rest (fuel : nat) (l : expr) (ts : list token) : parsed :=
  match fuel with
  | O => NoFuel
  | S fuel =>
      match ts with
      | TStar :: ts' =>
          and_then (parse_factor fuel ts') (fun r => term_rest fuel (Binary Mul l r))
      | TSlash :: ts' =>
          and_then (parse_factor fuel ts') (fun r => term_rest fuel (Binary Div l r))
      | TDSlash :: ts' =>
          and_then (parse_factor fuel ts')
                   (fun r => term_rest fuel (Binary FloorDiv l r))
      | _ => Parsed l ts
      end
  end
with parse_factor (fuel : nat) (ts : list token) : parsed :=
  match fuel with
  | O => NoFuel
  | S fuel =>
      match ts with
      | TPlus :: ts' =>
          and_then (parse_factor fuel ts') (fun e => Parsed (Unary Pos_ e))
      | TMinus :: ts' =>
          and_then (parse_factor fuel ts') (fun e => Parsed (Unary Neg e))
      | _ => parse_power fuel ts
      end
  end
with parse_power (fuel : nat) (ts : list token) : parsed :=
  match fuel with
  | O => NoFuel
  | S fuel =>
      and_then (parse_primary fuel ts) (fun b rest =>
        match rest with
        | TDStar :: rest' =>
            and_then (parse_factor fuel rest') (fun e => Parsed (Binary Pow b e))
        | _ => Parsed b rest
        end)
  end
with parse_primary (fuel : nat) (ts : list token) : parsed :=
  match fuel with
  | O => NoFuel
  | S fuel => and_then (parse_atom fuel ts) (trailers fuel)
  end
with trailers (fuel : nat) (f : expr) (ts : list token) : parsed :=
  match fuel with
  | O => NoFuel
  | S fuel =>
      match ts with
      | TLPar :: TRPar :: ts' => trailers fuel (Call f) ts'
      | TLPar :: TStar :: ts' | TLPar :: TDStar :: ts' | TLPar :: ts' =>
          and_then (parse_sum fuel ts')
                   (expect_rpar (fun a => trailers fuel (CallArg f a)))
      | _ => Parsed f ts
      end
  end
with parse_atom (fuel : nat) (ts : list token) : parsed :=
  match fuel with
  | O => NoFuel
  | S fuel =>
      match ts with
      | TInt n :: ts' => Parsed (Const (VInt (Z.of_N n))) ts'
      | TFloat m k :: ts' => Parsed (Const (VFloat (float_literal m k))) ts'
      | TEllipsis :: ts' => Parsed (Const VEllipsis) ts'
      | TLPar :: TRPar :: ts' => Parsed (Const VTuple) ts'
      | TLPar :: ts' => and_then (parse_sum fuel ts') (expect_rpar Parsed)
      | _ => NoParse
      end
  end.

(** *** Evaluation *)

Definition float2 (op : spec_float -> spec_float -> outcome value)
    (a b : outcome spec_float) : outcome value :=
  let* x := a in let* y := b in op x y.

Definition fadd (x y : spec_float) : outcome value :=
  Return (VFloat (SFadd prec emax x y)).
Definition fsub (x y : spec_float) : outcome value :=
  Return (VFloat (SFsub prec emax x y)).
Definition fmul (x y : spec_float) : outcome value :=
  Return (VFloat (SFmul prec emax x y)).
Definition fdiv (x y : spec_float) : outcome value :=
  if is_zero y then Raise ZeroDivisionError
  else Return (VFloat (SFdiv prec emax x y)).
(** Floor division of floats goes through C's [fmod] and [floor]. *)
Definition ffloordiv (x y : spec_float) : outcome value :=
  if is_zero y then Raise ZeroDivisionError else Beyond.
(** A power with a float operand or a negative exponent is C's [pow]. *)
Definition fpow (x y : spec_float) : outcome value := Beyond.

(** [() * n]: the count is first converted to a C [ssize_t]. *)
Definition tuple_repeat (n : Z) : outcome value :=
  if ((- 2 ^ 63 <=? n) && (n <? 2 ^ 63))%Z then Return VTuple
  else Raise OverflowError.

(** [m ** n] for two [int]s, [n] not negative. The result takes up to
    [n] times the bits of [m], and CPython computes it for as long as
    memory lasts: a power that may take more than [pow_bits] bits leaves
    the fragment. *)
Definition pow_bits : Z := 2 ^ 24.

Definition int_pow (m n : Z) : outcome value :=
  if (n * Z.log2 (Z.abs m) <=? pow_bits)%Z then Return (VInt (m ^ n))
  else Beyond.

Definition binary (op : binop) (a b : value) : outcome value :=
  match op, a, b with
  | Add, VInt m, VInt n => Return (VInt (m + n))
  | Sub, VInt m, VInt n => Return (VInt (m - n))
  | Mul, VInt m, VInt n => Return (VInt (m * n))
  | Div, VInt m, VInt n => let* x := int_true_divide m n in Return (VFloat x)
  | FloorDiv, VInt m, VInt n =>
      if (n =? 0)%Z then Raise ZeroDivisionError else Return (VInt (m / n))
  | Pow, VInt m, VInt n =>
      if (0 <=? n)%Z then int_pow m n
      else float2 fpow (float_of_int m) (float_of_int n)
  | Add, VTuple, VTuple => Return VTuple
  | Mul, VTuple, VInt n | Mul, VInt n, VTuple => tuple_repeat n
  | _, VInt m, VFloat y =>
      float2 match op with
             | Add => fadd | Sub => fsub | Mul => fmul | Div => fdiv
             | FloorDiv => ffloordiv | Pow => fpow
             end (float_of_int m) (Return y)
  | _, VFloat x, VInt n =>
      float2 match op with
             | Add => fadd | Sub => fsub | Mul => fmul | Div => fdiv
             | FloorDiv => ffloordiv | Pow => fpow
             end (Return x) (float_of_int n)
  | _, VFloat x, VFloat y =>
      match op with
      | Add => fadd | Sub => fsub | Mul => fmul | Div => fdiv
      | FloorDiv => ffloordiv | Pow => fpow
      end x y
  | _, _, _ => Raise TypeError
  end.

Definition unary (op : unop) (a : value) : outcome value :=
  match op, a with
  | Pos_, VInt _ | Pos_, VFloat _ => Return a
  | Neg, VInt n => Return (VInt (- n))
  | Neg, VFloat x => Return (VFloat (SFopp x))
  | _, _ => Raise TypeError
  end.

(** Operands left to right; no value of this fragment is callable. *)
Fixpoint eval_expr (e : expr) : outcome value :=
  match e with
  | Const v => Return v
  | Unary op e1 => let* a := eval_expr e1 in unary op a
  | Binary op l r =>
      let* a := eval_expr l in let* b := eval_expr r in binary op a b
  | Call f => let* _ := eval_expr f in Raise TypeError
  | CallArg f a =>
      let* _ := eval_expr f in let* _ := eval_expr a in Raise TypeError
  end.

Definition parse_fuel (ts : list token) : nat := 10 * length ts + 10.

(** The whole token list must be one expression. *)
Definition parse (ts : list token) : outcome expr :=
  match parse_sum (parse_fuel ts) ts with
  | Parsed e [] => Return e
  | Parsed _ (_ :: _) | NoParse => Raise SyntaxError
  | NoFuel => Beyond
  end.

(** [eval(s)]: the source is compiled, then run. CPython does not compile
    every source: its tokenizer refuses the 201st parenthesis left open
    ([SyntaxError]), its parser and its compiler give up at a depth of
    nesting that changes with the version and with the stack in use
    ([RecursionError], [MemoryError]), and a numeral of more than 4300
    digits is refused. A source of at most [source_limit] characters
    reaches none of these bounds; a longer one leaves the fragment. *)
Definition source_limit : nat := 200.

Definition eval (s : str) : outcome value :=
  if (length s <=? source_limit)%nat then
    let* ts := tokenize s in
    let* e := parse ts in
    eval_expr e
  else Beyond.

End pyeval.

(** ** [models.py] *)

Module models.

(** "0123456789+-*(). /" *)
Definition allowed_chars : str :=
  [0x30; 0x31; 0x32; 0x33; 0x34; 0x35; 0x36; 0x37; 0x38; 0x39;
   0x2b; 0x2d; 0x2a; 0x28; 0x29; 0x2e; 0x20; 0x2f].

(** [char in allowed_chars] *)
Definition allowed (c : char) : bool := existsb (N.eqb c) allowed_chars.

(** The loop of [safe_math_eval]: the first character that is not
    allowed raises, before anything is evaluated. *)
Fixpoint check_chars (s : str) : outcome unit :=
  match s with
  | [] => Return tt
  | c :: s' => if allowed c then check_chars s' else Raise UnsafeEval
  end.

Definition safe_math_eval (s : str) : outcome pyeval.value :=
  let* _ := check_chars s in pyeval.eval s.

End models.

(** ** [json.dumps] and [json.loads] on the documents the cache stores *)

Module json.

(** *** Encoding, with the default [ensure_ascii=True] *)

Definition hex_digit (d : N) : char :=
  if d <? 10 then 0x30 + d else 0x61 + (d - 10).

(** ['{0:04x}'.format(n)] *)
Definition hex4 (n : N) : str :=
  [hex_digit (N.shiftr n 12 mod 16); hex_digit (N.shiftr n 8 mod 16);
   hex_digit (N.shiftr n 4 mod 16); hex_digit (n mod 16)].

(** The replacement of one character by [encode_basestring_ascii]. *)
Definition escape (c : char) : str :=
  if c =? 0x22 then [0x5c; 0x22]
  else if c =? 0x5c then py "\\"
  else if c =? 0x0a then py "\n"
  else if c =? 0x0d then py "\r"
  else if c =? 0x09 then py "\t"
  else if c =? 0x08 then py "\b"
  else if c =? 0x0c then py "\f"
  else if in_range 0x20 0x7e c then [c]
  else if c <? 0x10000 then py "\u" ++ hex4 c
  else
    let n := c - 0x10000 in
    let s1 := N.lor 0xd800 (N.land (N.shiftr n 10) 0x3ff) in
    let s2 := N.lor 0xdc00 (N.land n 0x3ff) in
    py "\u" ++ hex4 s1 ++ py "\u" ++ hex4 s2.

Definition dumps_str (s : str) : str :=
  [0x22] ++ flat_map escape s ++ [0x22].

(** [', '.join(items)] *)
Fixpoint join (items : list str) : str :=
  match items with
  | [] => []
  | [x] => x
  | x :: rest => x ++ py ", " ++ join rest
  end.

(** [json.dumps(l)] for a list of strings. *)
Definition dumps_list (l : list str) : str :=
  py "[" ++ join (map dumps_str l) ++ py "]".

(** [json.dumps(d)] for a dict from strings to strings; the members are
    written in the order of [map_to_list]. *)
Definition dumps_dict (d : gmap str str) : str :=
  py "{"
  ++ join (map (fun kv => dumps_str kv.1 ++ py ": " ++ dumps_str kv.2)
               (map_to_list d))
  ++ py "}".

(** *** Decoding *)

Inductive token : Type :=
| TString (s : str)
| TLBracket | TRBracket | TLBrace | TRBrace | TComma | TColon.

(** Where the scanner is: between tokens, or inside a string literal
    with [acc] decoded so far, possibly within an escape, possibly
    holding back a high surrogate [hi] to see whether its pair follows. *)
Inductive scan_state : Type :=
| SIdle
| SStr (acc : str)
| SEsc (acc : str)
| SHex (acc : str) (hs : list N)
| SHigh (acc : str) (hi : N)
| SHighEsc (acc : str) (hi : N)
| SHighHex (acc : str) (hi : N) (hs : list N).

Definition hex_value (c : char) : option N :=
  if in_range 0x30 0x39 c then Some (c - 0x30)
  else if in_range 0x61 0x66 c then Some (c - 0x61 + 10)
  else if in_range 0x41 0x46 c then Some (c - 0x41 + 10)
  else None.

Definition hex_number (hs : list N) : N :=
  fold_left (fun acc h => 16 * acc + h) hs 0.

Definition is_high (u : N) : bool := in_range 0xd800 0xdbff u.
Definition is_low (u : N) : bool := in_range 0xdc00 0xdfff u.

(** [0x10000 + (((hi - 0xd800) << 10) | (lo - 0xdc00))] *)
Definition join_surrogates (hi lo : N) : N :=
  0x10000 + N.lor (N.shiftl (hi - 0xd800) 10) (lo - 0xdc00).

Definition is_ws (c : char) : bool :=
  (c =? 0x20) || (c =? 0x09) || (c =? 0x0a) || (c =? 0x0d).

(** A character inside a string literal, outside any escape. *)
Definition in_string (acc : str) (c : char) : option (list token * scan_state) :=
  if c =? 0x22 then Some ([TString acc], SIdle)
  else if c =? 0x5c then Some ([], SEsc acc)
  else if c <? 0x20 then None
  else Some ([], SStr (acc ++ [c])).

(** The character after a backslash. *)
Definition in_escape (acc : str) (c : char) : option (list token * scan_state) :=
  if (c =? 0x22) || (c =? 0x5c) || (c =? 0x2f) then Some ([], SStr (acc ++ [c]))
  else if c =? 0x62 then Some ([], SStr (acc ++ [0x08]))
  else if c =? 0x66 then Some ([], SStr (acc ++ [0x0c]))
  else if c =? 0x6e then Some ([], SStr (acc ++ [0x0a]))
  else if c =? 0x72 then Some ([], SStr (acc ++ [0x0d]))
  else if c =? 0x74 then Some ([], SStr (acc ++ [0x09]))
  else if c =? 0x75 then Some ([], SHex acc [])
  else None.

(** A code unit read from [\uXXXX]: a high surrogate is held back. *)
Definition unit_read (acc : str) (u : N) : scan_state :=
  if is_high u then SHigh acc u else SStr (acc ++ [u]).

Definition scan_step (st : scan_state) (c : char)
    : option (list token * scan_state) :=
  match st with
  | SIdle =>
      if is_ws c then Some ([], SIdle)
      else if c =? 0x22 then Some ([], SStr [])
      else if c =? 0x5b then Some ([TLBracket], SIdle)
      else if c =? 0x5d then Some ([TRBracket], SIdle)
      else if c =? 0x7b then Some ([TLBrace], SIdle)
      else if c =? 0x7d then Some ([TRBrace], SIdle)
      else if c =? 0x2c then Some ([TComma], SIdle)
      else if c =? 0x3a then Some ([TColon], SIdle)
      else None
  | SStr acc => in_string acc c
  | SEsc acc => in_escape acc c
  | SHex acc hs =>
      match hex_value c with
      | Some h =>
          if (length hs =? 3)%nat
          then Some ([], unit_read acc (hex_number (hs ++ [h])))
          else Some ([], SHex acc (hs ++ [h]))
      | None => None
      end
  | SHigh acc hi =>
      if c =? 0x5c then Some ([], SHighEsc acc hi) else in_string (acc ++ [hi]) c
  | SHighEsc acc hi =>
      if c =? 0x75 then Some ([], SHighHex acc hi []) else in_escape (acc ++ [hi]) c
  | SHighHex acc hi hs =>
      match hex_value c with
      | Some h =>
          if (length hs =? 3)%nat
          then let lo := hex_number (hs ++ [h]) in
               if is_low lo then Some ([], SStr (acc ++ [join_surrogates hi lo]))
               else Some ([], unit_read (acc ++ [hi]) lo)
          else Some ([], SHighHex acc hi (hs ++ [h]))
      | None => None
      end
  end.

Fixpoint scan (st : scan_state) (s : str) : option (list token) :=
  match s with
  | [] => match st with SIdle => Some [] | _ => None end
  | c :: s' =>
      match scan_step st c with
      | Some (ts, st') => app ts <$> scan st' s'
      | None => None
      end
  end.

(** The elements of an array after its first. *)
Fixpoint more_strings (ts : list token) : option (list str) :=
  match ts with
  | [TRBracket] => Some []
  | TComma :: TString s :: ts' => cons s <$> more_strings ts'
  | _ => None
  end.

Definition array_of_strings (ts : list token) : option (list str) :=
  match ts with
  | [TLBracket; TRBracket] => Some []
  | TLBracket :: TString s :: ts' => cons s <$> more_strings ts'
  | _ => None
  end.

(** The members of an object after its first; a repeated key keeps its
    last value. *)
Fixpoint more_members (d : gmap str str) (ts : list token) : option (gmap str str) :=
  match ts with
  | [TRBrace] => Some d
  | TComma :: TString k :: TColon :: TString v :: ts' => more_members (<[k := v]> d) ts'
  | _ => None
  end.

Definition object_of_strings (ts : list token) : option (gmap str str) :=
  match ts with
  | [TLBrace; TRBrace] => Some ∅
  | TLBrace :: TString k :: TColon :: TString v :: ts' => more_members {[k := v]} ts'
  | _ => None
  end.

Definition decoded {A} (x : option A) : outcome A :=
  match x with Some a => Return a | None => Beyond end.

(** [json.loads(text)] where the text is an array of strings. *)
Definition loads_list (text : str) : outcome (list str) :=
  decoded (scan SIdle text ≫= array_of_strings).

(** [json.loads(text)] where the text is an object of strings. *)
Definition loads_dict (text : str) : outcome (gmap str str) :=
  decoded (scan SIdle text ≫= object_of_strings).

End json.

(** ** The state the program runs in *)

(** A row of table [session]: [ff_url], [ff_api], [default_account]. *)
Definition session_row : Type := str * str * str.

(** A user's snapshot, in the order of the columns of table [data] and of
    the tuple [get_data] returns. *)
Record snapshot : Type := Snapshot {
  snap_categories : list str;
  snap_source_accounts : list str;
  snap_destination_accounts : list str;
  snap_asset_accounts : list str;
  snap_expense_accounts : list str;
  snap_revenue_accounts : list str;
  snap_account_ids : gmap str str
}.

(** A row of table [data]: seven TEXT columns holding JSON. *)
Record data_row : Type := DataRow {
  col_categories : str;
  col_source_accounts : str;
  col_destination_accounts : str;
  col_asset_accounts : str;
  col_expense_accounts : str;
  col_revenue_accounts : str;
  col_account_ids : str
}.

(** The SQLite file: both tables, keyed by [user_id]. *)
Record tables : Type := Tables {
  session : gmap str session_row;
  data : gmap str data_row
}.

(** The attributes of a [FireFlyTelegram] object: dicts keyed by user. *)
Record FireFlyTelegram : Type := Bot {
  ff_url : gmap str str;
  ff_api : gmap str str;
  default_accounts : gmap str str;
  categories : gmap str (list str);
  source_accounts : gmap str (list str);
  destination_accounts : gmap str (list str);
  asset_accounts : gmap str (list str);
  expense_accounts : gmap str (list str);
  revenue_accounts : gmap str (list str);
  account_ids : gmap str (gmap str str)
}.

Inductive kind : Type := withdrawal | deposit | transfer.

Definition kind_str (k : kind) : str :=
  match k with
  | withdrawal => py "withdrawal"
  | deposit => py "deposit"
  | transfer => py "transfer"
  end.

(** The dict [extract_info] returns and [new_transaction] takes; [None]
    is the Python [None]. *)
Record transaction : Type := Transaction {
  description : str;
  number : pyeval.value;
  category : option str;
  source : option str;
  destination : option str;
  type : kind
}.

(** The pieces of a formatted log message. *)
Inductive piece : Type :=
| Text (s : str)
| Exc (e : exn)
| Info (t : transaction).

Inductive level : Type := DEBUG | INFO | WARNING | ERROR.

(** What [send_message] is given as its first argument. *)
Inductive recipient : Type :=
| ChatId (id : Z)
| MessageObject.

(** An inline keyboard: rows of buttons, each a text and callback data. *)
Definition keyboard : Type := list (list (str * str)).

(** What the program does to the outside, in order. *)
Inductive event : Type :=
| Log (lvl : level) (msg : list piece)
| SendMessage (to : recipient) (text : str) (reply_markup : option keyboard)
| ReplyTo (text : str)
| Post (url : str) (info : transaction).

Record world : Type := World {
  bot : FireFlyTelegram;
  db : tables;
  trace : list event
}.

(** A computation: it ends in an outcome and leaves a world. *)
Definition M (A : Type) : Type := world -> outcome A * world.

Definition ret {A} (a : A) : M A := fun w => (Return a, w).
Definition raise {A} (e : exn) : M A := fun w => (Raise e, w).
Definition lift {A} (x : outcome A) : M A := fun w => (x, w).

Definition mbind_ {A B} (m : M A) (k : A -> M B) : M B :=
  fun w =>
    match m w with
    | (Return a, w') => k a w'
    | (Raise e, w') => (Raise e, w')
    | (Beyond, w') => (Beyond, w')
    end.

Notation "x <- m ;; k" := (mbind_ m (fun x => k))
  (at level 100, m at next level, right associativity).
Notation "m ;;; k" := (mbind_ m (fun _ => k))
  (at level 100, right associativity).

(** [try: body except ...]: [handler e] is the clause that catches [e],
    if any; it runs in the world the body left. *)
Definition try_except {A} (body : M A) (handler : exn -> option (M A)) : M A :=
  fun w =>
    match body w with
    | (Raise e, w') =>
        match handler e with
        | Some h => h w'
        | None => (Raise e, w')
        end
    | r => r
    end.

Definition emit (e : event) : M unit :=
  fun w => (Return tt, World (bot w) (db w) (trace w ++ [e])).
Definition log (lvl : level) (msg : list piece) : M unit := emit (Log lvl msg).

Definition get_bot : M FireFlyTelegram := fun w => (Return (bot w), w).
Definition set_bot (f : FireFlyTelegram -> FireFlyTelegram) : M unit :=
  fun w => (Return tt, World (f (bot w)) (db w) (trace w)).
Definition get_db : M tables := fun w => (Return (db w), w).
Definition set_db (f : tables -> tables) : M unit :=
  fun w => (Return tt, World (bot w) (f (db w)) (trace w)).

(** [self.field[user]] *)
Definition self {V} (field : FireFlyTelegram -> gmap str V) (user : str) : M V :=
  b <- get_bot ;; lift (subscript (field b) user).

(** Assignments and deletions on the attributes. *)
Definition set_ff_url (f : gmap str str -> gmap str str) (b : FireFlyTelegram) :=
  Bot (f (ff_url b)) (ff_api b) (default_accounts b) (categories b)
      (source_accounts b) (destination_accounts b) (asset_accounts b)
      (expense_accounts b) (revenue_accounts b) (account_ids b).
Definition set_ff_api (f : gmap str str -> gmap str str) (b : FireFlyTelegram) :=
  Bot (ff_url b) (f (ff_api b)) (default_accounts b) (categories b)
      (source_accounts b) (destination_accounts b) (asset_accounts b)
      (expense_accounts b) (revenue_accounts b) (account_ids b).
Definition set_default_accounts (f : gmap str str -> gmap str str) (b : FireFlyTelegram) :=
  Bot (ff_url b) (ff_api b) (f (default_accounts b)) (categories b)
      (source_accounts b) (destination_accounts b) (asset_accounts b)
      (expense_accounts b) (revenue_accounts b) (account_ids b).
Definition set_categories (f : gmap str (list str) -> gmap str (list str)) (b : FireFlyTelegram) :=
  Bot (ff_url b) (ff_api b) (default_accounts b) (f (categories b))
      (source_accounts b) (destination_accounts b) (asset_accounts b)
      (expense_accounts b) (revenue_accounts b) (account_ids b).
Definition set_source_accounts (f : gmap str (list str) -> gmap str (list str)) (b : FireFlyTelegram) :=
  Bot (ff_url b) (ff_api b) (default_accounts b) (categories b)
      (f (source_accounts b)) (destination_accounts b) (asset_accounts b)
      (expense_accounts b) (revenue_accounts b) (account_ids b).
Definition set_destination_accounts (f : gmap str (list str) -> gmap str (list str)) (b : FireFlyTelegram) :=
  Bot (ff_url b) (ff_api b) (default_accounts b) (categories b)
      (source_accounts b) (f (destination_accounts b)) (asset_accounts b)
      (expense_accounts b) (revenue_accounts b) (account_ids b).
Definition set_asset_accounts (f : gmap str (list str) -> gmap str (list str)) (b : FireFlyTelegram) :=
  Bot (ff_url b) (ff_api b) (default_accounts b) (categories b)
      (source_accounts b) (destination_accounts b) (f (asset_accounts b))
      (expense_accounts b) (revenue_accounts b) (account_ids b).
Definition set_expense_accounts (f : gmap str (list str) -> gmap str (list str)) (b : FireFlyTelegram) :=
  Bot (ff_url b) (ff_api b) (default_accounts b) (categories b)
      (source_accounts b) (destination_accounts b) (asset_accounts b)
      (f (expense_accounts b)) (revenue_accounts b) (account_ids b).
Definition set_revenue_accounts (f : gmap str (list str) -> gmap str (list str)) (b : FireFlyTelegram) :=
  Bot (ff_url b) (ff_api b) (default_accounts b) (categories b)
      (source_accounts b) (destination_accounts b) (asset_accounts b)
      (expense_accounts b) (f (revenue_accounts b)) (account_ids b).
Definition set_account_ids (f : gmap str (gmap str str) -> gmap str (gmap str str)) (b : FireFlyTelegram) :=
  Bot (ff_url b) (ff_api b) (default_accounts b) (categories b)
      (source_accounts b) (destination_accounts b) (asset_accounts b)
      (expense_accounts b) (revenue_accounts b) (f (account_ids b)).

(** ** [database.py] *)

Module database.

(** [get_session(user_id)]: the row, or [None]. *)
Definition get_session (user_id : str) : M (option session_row) :=
  d <- get_db ;;
  let row := session d !! user_id in
  match row with
  | Some _ => log DEBUG [Text (py "Session retrieved for user "); Text user_id]
  | None => log ERROR [Text (py "No session found for user "); Text user_id]
  end ;;;
  ret row.

(** REPLACE INTO session *)
Definition save_session (user_id ff_url ff_api default_account : str) : M unit :=
  set_db (fun d => Tables (<[user_id := (ff_url, ff_api, default_account)]> (session d))
                          (data d)) ;;;
  log DEBUG [Text (py "Session saved for user "); Text user_id].

(** [get_data(user_id)]: the seven columns decoded, or [None]. *)
Definition get_data (user_id : str) : M (option snapshot) :=
  d <- get_db ;;
  match data d !! user_id with
  | Some row =>
      log DEBUG [Text (py "Data retrieved for user "); Text user_id] ;;;
      c <- lift (json.loads_list (col_categories row)) ;;
      s <- lift (json.loads_list (col_source_accounts row)) ;;
      t <- lift (json.loads_list (col_destination_accounts row)) ;;
      a <- lift (json.loads_list (col_asset_accounts row)) ;;
      e <- lift (json.loads_list (col_expense_accounts row)) ;;
      r <- lift (json.loads_list (col_revenue_accounts row)) ;;
      i <- lift (json.loads_dict (col_account_ids row)) ;;
      ret (Some (Snapshot c s t a e r i))
  | None =>
      log ERROR [Text (py "No data found for user "); Text user_id] ;;;
      ret None
  end.

(** REPLACE INTO data, each argument through [json.dumps]. *)
Definition row_of (x : snapshot) : data_row :=
  DataRow (json.dumps_list (snap_categories x))
          (json.dumps_list (snap_source_accounts x))
          (json.dumps_list (snap_destination_accounts x))
          (json.dumps_list (snap_asset_accounts x))
          (json.dumps_list (snap_expense_accounts x))
          (json.dumps_list (snap_revenue_accounts x))
          (json.dumps_dict (snap_account_ids x)).

Definition save_data (user_id : str) (x : snapshot) : M unit :=
  set_db (fun d => Tables (session d) (<[user_id := row_of x]> (data d))) ;;;
  log DEBUG [Text (py "Data saved for user "); Text user_id].

End database.

(** ** What the ledger's HTTP API answers *)

(** One element of a response's ['data']: the values under ['id'] and
    ['attributes'], [None] for a key that is missing. *)
Record item : Type := Item {
  item_id : option str;
  item_attributes : option (gmap str str)
}.

(** A response's ['data'] and ['meta']['pagination']['total_pages']. *)
Record page : Type := Page {
  page_data : list item;
  total_pages : Z
}.

(** [requests.get(...).json()] and the subscripts on it: the page, or the
    exception raised on the way (no connection, not JSON, a key missing). *)
Inductive reply : Type :=
| Failed (e : exn)
| Replied (p : page).

(** What [requests.post] comes to when it returns. For a status other than
    200, [response.json()] as the log formats it, or the exception it
    raises on a body that is not JSON. For the status 200, the message
    formatted from the ledger's record of the transaction, and the
    transaction's identifier. *)
Inductive posted : Type :=
| Refused (body : outcome str)
| Created (response_message transaction_id : str).

(** ** [firefly.py] *)

Module firefly.
Section FireFlyTelegram.

(** [slugify] of the [python-slugify] package. *)
Variable slugify : str -> str.

(** The ledger: [http_get url api_key page] is the answer to a GET with
    the bearer key and the [page] parameter; [http_post url api_key info]
    is the answer to the POST of a transaction, or the exception raised
    by the request or, after a status 200, on the way from the response
    to the message. *)
Variable http_get : str -> str -> option Z -> reply.
Variable http_post : str -> str -> transaction -> outcome posted.

Definition clear_user_session (user_id : str) : M unit :=
  set_bot (set_ff_url (delete user_id)) ;;;
  set_bot (set_ff_api (delete user_id)) ;;;
  set_bot (set_default_accounts (delete user_id)).

Definition clear_user_data (user_id : str) : M unit :=
  set_bot (set_categories (delete user_id)) ;;;
  set_bot (set_source_accounts (delete user_id)) ;;;
  set_bot (set_destination_accounts (delete user_id)) ;;;
  set_bot (set_asset_accounts (delete user_id)) ;;;
  set_bot (set_expense_accounts (delete user_id)) ;;;
  set_bot (set_revenue_accounts (delete user_id)) ;;;
  set_bot (set_account_ids (delete user_id)).

Definition load_session (user_id : str) : M unit :=
  row <- database.get_session user_id ;;
  match row with
  | Some (url, api, account) =>
      set_bot (set_ff_url <[user_id := url]>) ;;;
      set_bot (set_ff_api <[user_id := api]>) ;;;
      set_bot (set_default_accounts <[user_id := account]>)
  | None => ret tt
  end.

Definition load_data (user_id : str) : M unit :=
  x <- database.get_data user_id ;;
  match x with
  | Some x =>
      set_bot (set_categories <[user_id := snap_categories x]>) ;;;
      set_bot (set_source_accounts <[user_id := snap_source_accounts x]>) ;;;
      set_bot (set_destination_accounts <[user_id := snap_destination_accounts x]>) ;;;
      set_bot (set_asset_accounts <[user_id := snap_asset_accounts x]>) ;;;
      set_bot (set_expense_accounts <[user_id := snap_expense_accounts x]>) ;;;
      set_bot (set_revenue_accounts <[user_id := snap_revenue_accounts x]>) ;;;
      set_bot (set_account_ids <[user_id := snap_account_ids x]>)
  | None => ret tt
  end.

(** [if user_id not in d: d[user_id] = ''] *)
Definition setdefault_empty (user_id : str) (d : gmap str str) : gmap str str :=
  match d !! user_id with
  | Some _ => d
  | None => <[user_id := []]> d
  end.

Definition save_session (user_id : str) : M unit :=
  set_bot (set_ff_url (setdefault_empty user_id)) ;;;
  set_bot (set_ff_api (setdefault_empty user_id)) ;;;
  set_bot (set_default_accounts (setdefault_empty user_id)) ;;;
  url <- self ff_url user_id ;;
  api <- self ff_api user_id ;;
  account <- self default_accounts user_id ;;
  database.save_session user_id url api account.

Definition save_data (user_id : str) : M unit :=
  c <- self categories user_id ;;
  s <- self source_accounts user_id ;;
  t <- self destination_accounts user_id ;;
  a <- self asset_accounts user_id ;;
  e <- self expense_accounts user_id ;;
  r <- self revenue_accounts user_id ;;
  i <- self account_ids user_id ;;
  database.save_data user_id (Snapshot c s t a e r i).

(** *** [get_ff_data] *)

Definition received (r : reply) : M page :=
  match r with
  | Failed e => raise e
  | Replied p => ret p
  end.

(** [for page in range(2, total_pages + 1): data += ...['data']] *)
Fixpoint more_pages (api url : str) (total : Z) (pages : list Z)
    (data : list item) : M (list item) :=
  match pages with
  | [] => ret data
  | n :: pages' =>
      log DEBUG [Text (py "Fetching page "); Text (str_of_Z n);
                 Text (py " of "); Text (str_of_Z total)] ;;;
      p <- received (http_get url api (Some n)) ;;
      more_pages api url total pages' (data ++ page_data p)
  end.

Definition fetch_all_pages (api url : str) : M (list item) :=
  log DEBUG [Text (py "Fetching all pages from URL: "); Text url] ;;;
  response <- received (http_get url api None) ;;
  more_pages api url (total_pages response)
             (seqZ 2 (total_pages response - 1)) (page_data response).

(** [item['attributes'][attribute_name]] *)
Definition attribute (x : item) (attribute_name : str) : outcome str :=
  match item_attributes x with
  | Some attrs => subscript attrs attribute_name
  | None => Raise KeyError
  end.

(** A list comprehension [[f(x) for x in l]] whose element may raise. *)
Fixpoint comprehension {A B} (f : A -> outcome B) (l : list A) : outcome (list B) :=
  match l with
  | [] => Return []
  | x :: l' =>
      let* y := f x in
      let* ys := comprehension f l' in
      Return (y :: ys)
  end.

Definition extract_attributes (data : list item) (attribute_name : str)
    : M (list str) :=
  log DEBUG [Text (py "Extracting attribute '"); Text attribute_name;
             Text (py "' from data")] ;;;
  lift (comprehension (fun x => attribute x attribute_name) data).

(** [{acc['attributes']['name']: acc['id'] for acc in accounts_data}] *)
Fixpoint ids_by_name (accounts_data : list item) (d : gmap str str)
    : outcome (gmap str str) :=
  match accounts_data with
  | [] => Return d
  | acc :: rest =>
      let* name := attribute acc (py "name") in
      match item_id acc with
      | Some id => ids_by_name rest (<[name := id]> d)
      | None => Raise KeyError
      end
  end.

(** [[acc['attributes']['name'] for acc in accounts_data
      if acc['attributes']['type'] in types]] *)
Fixpoint names_of_type (types : list str) (accounts_data : list item)
    : outcome (list str) :=
  match accounts_data with
  | [] => Return []
  | acc :: rest =>
      let* ty := attribute acc (py "type") in
      if bool_decide (ty ∈ types) then
        let* name := attribute acc (py "name") in
        let* names := names_of_type types rest in
        Return (name :: names)
      else names_of_type types rest
  end.

Definition get_ff_data (user : str) : M unit :=
  log DEBUG [Text (py "Fetching FireFlyIII data for user "); Text user] ;;;
  api <- self ff_api user ;;
  try_except
    (url <- self ff_url user ;;
     categories_data <- fetch_all_pages api (url ++ py "categories") ;;
     names <- extract_attributes categories_data (py "name") ;;
     set_bot (set_categories <[user := names]>) ;;;
     log DEBUG [Text (py "Fetched and stored categories for user "); Text user] ;;;
     url <- self ff_url user ;;
     accounts_data <- fetch_all_pages api (url ++ py "accounts") ;;
     ids <- lift (ids_by_name accounts_data ∅) ;;
     set_bot (set_account_ids <[user := ids]>) ;;;
     log DEBUG [Text (py "Fetched and stored account IDs for user "); Text user] ;;;
     l <- lift (names_of_type [py "revenue"; py "asset"] accounts_data) ;;
     set_bot (set_source_accounts <[user := l]>) ;;;
     l <- lift (names_of_type [py "expense"; py "asset"] accounts_data) ;;
     set_bot (set_destination_accounts <[user := l]>) ;;;
     l <- lift (names_of_type [py "asset"] accounts_data) ;;
     set_bot (set_asset_accounts <[user := l]>) ;;;
     l <- lift (names_of_type [py "expense"] accounts_data) ;;
     set_bot (set_expense_accounts <[user := l]>) ;;;
     l <- lift (names_of_type [py "revenue"] accounts_data) ;;
     set_bot (set_revenue_accounts <[user := l]>) ;;;
     log DEBUG [Text (py "Stored account information for user "); Text user] ;;;
     save_data user ;;;
     log DEBUG [Text (py "Data saved for user "); Text user])
    (fun e =>
       Some (log ERROR [Text (py "Error fetching FireFlyIII data for user ");
                        Text user; Text (py ": "); Exc e])).

(** *** The name resolver *)

(** [l.index(x)] *)
Fixpoint index (x : str) (l : list str) : outcome nat :=
  match l with
  | [] => Raise ValueError
  | y :: l' =>
      if bool_decide (y = x) then Return O
      else let* i := index x l' in Return (S i)
  end.

(** [l[i]] *)
Definition getitem (l : list str) (i : nat) : outcome str :=
  match l !! i with
  | Some x => Return x
  | None => Raise IndexError
  end.

(** [table[user][[slugify(i) for i in table[user]].index(slugify(name))]] *)
Definition lookup_name (table : FireFlyTelegram -> gmap str (list str))
    (name user : str) : M str :=
  l <- self table user ;;
  l' <- self table user ;;
  i <- lift (index (slugify name) (map slugify l')) ;;
  lift (getitem l i).

Definition get_category (category user : str) : M str :=
  try_except (lookup_name categories category user)
    (fun e => match e with
              | ValueError => Some (raise CategoryError)
              | KeyError => Some (raise StartError)
              | _ => None
              end).

Definition get_source_account (account user : str) : M str :=
  try_except (lookup_name source_accounts account user)
    (fun e => match e with
              | ValueError => Some (raise SourceError)
              | KeyError => Some (raise StartError)
              | _ => None
              end).

Definition get_destination_account (account user : str) : M str :=
  try_except (lookup_name destination_accounts account user)
    (fun e => match e with
              | ValueError => Some (raise DestinationError)
              | KeyError => Some (raise StartError)
              | _ => None
              end).

(** *** [new_transaction] *)

(** [f"{info}"]: the [repr] of the dict, which formats the number. *)
Definition format_info (info : transaction) : outcome piece :=
  if pyeval.printable (number info) then Return (Info info)
  else Raise ValueError.

Definition new_transaction (info : transaction) (user : str)
    : M (option (str * str)) :=
  shown <- lift (format_info info) ;;
  log INFO [Text (py "Creating new transaction for user "); Text user;
            Text (py " with info: "); shown] ;;;
  api <- self ff_api user ;;
  url <- self ff_url user ;;
  emit (Post (url ++ py "transactions") info) ;;;
  response <- lift (http_post (url ++ py "transactions") api info) ;;
  match response with
  | Refused body =>
      answer <- lift body ;;
      log ERROR [Text (py "Error creating transaction. Response: ");
                 Text answer] ;;;
      ret None
  | Created response_message tid => ret (Some (response_message, tid))
  end.

(** *** [extract_info] *)

(** [x in l] where [x] may be [None] and [l] holds strings. *)
Definition py_in (x : option str) (l : list str) : bool :=
  match x with
  | Some s => bool_decide (s ∈ l)
  | None => false
  end.

(** A method call or subscript on a group, which raises on [None]. *)
Definition some_or {A} (e : exn) (x : option A) : outcome A :=
  match x with
  | Some a => Return a
  | None => Raise e
  end.

(** [f(t, user) if t is not None else otherwise] *)
Definition resolved (f : str -> str -> M str) (t : option str) (user : str)
    (otherwise : M (option str)) : M (option str) :=
  match t with
  | Some t => x <- f t user ;; ret (Some x)
  | None => otherwise
  end.

Definition default_account (user : str) : M (option str) :=
  a <- self default_accounts user ;; ret (Some a).

Definition extract_info (input_string user : str) : M (option transaction) :=
  log DEBUG [Text (py "Extracting info from input string: "); Text input_string] ;;;
  match re.match_ pattern input_string with
  | Some m =>
      g1 <- lift (some_or AttributeError (re.group m 1)) ;;
      let description := strip g1 in
      g2 <- lift (some_or TypeError (re.group m 2)) ;;
      c <- lift (some_or IndexError (head g2)) ;;
      sd <- (if c =? 0x2b then
               d <- resolved get_destination_account (re.group m 4) user
                             (default_account user) ;;
               s <- resolved get_source_account (re.group m 5) user (ret None) ;;
               ret (s, d)
             else
               s <- resolved get_source_account (re.group m 4) user
                             (default_account user) ;;
               d <- resolved get_destination_account (re.group m 5) user (ret None) ;;
               ret (s, d)) ;;
      let source := sd.1 in
      let destination := sd.2 in
      number <- lift (models.safe_math_eval g2) ;;
      category <- resolved get_category (re.group m 3) user (ret None) ;;
      assets <- self asset_accounts user ;;
      let kind :=
        if py_in source assets && negb (py_in destination assets) then withdrawal
        else if negb (py_in source assets) && py_in destination assets then deposit
        else transfer in
      ret (Some (Transaction description number category source destination kind))
  | None => ret None
  end.

End FireFlyTelegram.
End firefly.

(** ** [handlers.py] *)

Record message : Type := Message {
  text : str;
  chat_id : Z;
  from_user_id : Z;
  username : str
}.

Module handlers.
Section register_handlers.

Variable slugify : str -> str.
Variable http_get : str -> str -> option Z -> reply.
Variable http_post : str -> str -> transaction -> outcome posted.

(** [str.isdigit] on one character, from the Unicode database. *)
Variable isdigit : char -> bool.

Let load_session := firefly.load_session.
Let load_data := firefly.load_data.
Let clear_user_data := firefly.clear_user_data.
Let clear_user_session := firefly.clear_user_session.
Let get_ff_data := firefly.get_ff_data http_get.
Let get_source_account := firefly.get_source_account slugify.
Let get_destination_account := firefly.get_destination_account slugify.
Let new_transaction := firefly.new_transaction http_post.
Let extract_info := firefly.extract_info slugify.

(** [response, transaction_id = ...]: unpacking [None] raises. *)
Definition unpack (r : option (str * str)) : M (str * str) :=
  match r with
  | Some p => ret p
  | None => raise TypeError
  end.

Definition update_data (message : message) : M unit :=
  let user_id := str_of_Z (from_user_id message) in
  load_session user_id ;;;
  load_data user_id ;;;
  log DEBUG [Text (py "Received /update command from user "); Text user_id] ;;;
  get_ff_data user_id ;;;
  emit (ReplyTo (py "Categories and accounts updated!")) ;;;
  clear_user_data user_id ;;;
  clear_user_session user_id.

(** The [except] clauses of [echo_transfer]: the exception class and
    the text sent; the reply is addressed with the message object. *)
Definition echo_transfer_except (e : exn) : option str :=
  match e with
  | SourceError =>
      Some (py "Add the source account to FireFlyIII and run /update before!")
  | DestinationError =>
      Some (py "Add the destination account to FireFlyIII and run /update before!")
  | StartError => Some (py "Run /start first!")
  | _ => None
  end.

(** The [try] statement of [echo_transfer]. *)
Definition echo_transfer_try (message : message) (user : str) : M unit :=
  let chat_id := chat_id message in
  try_except
    (match split 0x20 (text message) with
     | [text0; text1; text2] =>
         source <- get_source_account text1 user ;;
         destination <- get_destination_account text2 user ;;
         number <- lift (models.safe_math_eval text0) ;;
         r <- new_transaction
                (Transaction (py "Transfer") number None (Some source)
                             (Some destination) transfer) user ;;
         p <- unpack r ;;
         let response := p.1 in
         let transaction_id := p.2 in
         log INFO [Text (username message); Text (py " - ");
                   Text transaction_id; Text (py " - "); Text response] ;;;
         emit (SendMessage (ChatId chat_id) response
                 (Some [[(py "Delete", py "delete_" ++ transaction_id)]]))
     | _ => emit (SendMessage (ChatId chat_id) (py "Invalid Input!") None)
     end)
    (fun e =>
       match echo_transfer_except e with
       | Some reply => Some (emit (SendMessage MessageObject reply None))
       | None => None
       end).

Definition echo_transfer (message : message) : M unit :=
  let user := str_of_Z (from_user_id message) in
  load_session user ;;;
  load_data user ;;;
  log DEBUG [Text (py "Processing transaction input from user "); Text user;
             Text (py ": "); Text (text message)] ;;;
  echo_transfer_try message user ;;;
  clear_user_data user ;;;
  clear_user_session user.

(** The buttons under a created transaction. *)
Definition transaction_keyboard (transaction_id : str) (k : kind) : keyboard :=
  let suffix := transaction_id ++ py "_" ++ kind_str k in
  [[(py "Delete", py "delete_" ++ transaction_id);
    (py "Set Category", py "set_category_" ++ suffix)];
   [(py "Asset Account", py "set_asset_" ++ suffix);
    match k with
    | withdrawal => (py "Expense Account", py "set_expense_" ++ suffix)
    | _ => (py "Revenue Account", py "set_revenue_" ++ suffix)
    end]].

(** The [except] clauses of [echo_all]: the exception class, the text
    logged and the text sent to the chat. *)
Definition echo_all_except (e : exn) : option (str * str) :=
  match e with
  | CategoryError =>
      Some (py "Category not found. Please update before.",
            py "Add the category to FireFlyIII and run /update before!")
  | SourceError =>
      Some (py "Source account not found. Please update before.",
            py "Add the source account to FireFlyIII and run /update before!")
  | DestinationError =>
      Some (py "Destination account not found. Please update before.",
            py "Add the destination account to FireFlyIII and run /update before!")
  | StartError =>
      Some (py "User not found. Please initialize before.",
            py "Run /start first!")
  | _ => None
  end.

(** The [try] statement of [echo_all]. *)
Definition echo_all_try (message : message) (user : str) : M unit :=
  let chat_id := chat_id message in
  try_except
    (info <- extract_info (text message) user ;;
     match info with
     | Some info =>
         r <- new_transaction info user ;;
         p <- unpack r ;;
         let response := p.1 in
         let transaction_id := p.2 in
         log INFO [Text (username message); Text (py " - ");
                   Text transaction_id; Text (py " - "); Text response] ;;;
         emit (SendMessage (ChatId chat_id) response
                 (Some (transaction_keyboard transaction_id (type info))))
     | None =>
         log ERROR [Text (py "Invalid Input: "); Text (text message)] ;;;
         emit (SendMessage (ChatId chat_id) (py "Invalid Input!") None)
     end)
    (fun e =>
       match echo_all_except e with
       | Some (logged, reply) =>
           Some (log ERROR [Text logged] ;;;
                 emit (SendMessage (ChatId chat_id) reply None))
       | None => None
       end).

Definition echo_all (message : message) : M unit :=
  let user := str_of_Z (from_user_id message) in
  load_session user ;;;
  load_data user ;;;
  log DEBUG [Text (py "Processing message from user "); Text user;
             Text (py ": "); Text (text message)] ;;;
  echo_all_try message user ;;;
  clear_user_data user ;;;
  clear_user_session user.

(** The two handlers registered with a [func] filter, in the order of
    registration: [message.text[0].isdigit()] picks [echo_transfer], its
    negation [echo_all]. *)
Definition on_text (message : message) : M unit :=
  c <- lift (firefly.some_or IndexError (head (text message))) ;;
  if isdigit c then echo_transfer message else echo_all message.

End register_handlers.
End handlers.

(** * The setup conversation and the inline keyboards

    [send_welcome], [process_url], [process_api_key],
    [send_account_keyboard] and [process_callback_query] of
    [src/bot/handlers.py], with [delete_transaction] and the four
    [update_transaction_*] methods of [src/bot/firefly.py] that the
    callbacks call. They do more to the outside than the handlers above:
    they register next-step handlers, delete and edit messages, and send
    DELETE and PUT requests. *)

(** [s.startswith(prefix)] *)
Fixpoint startswith (s prefix : str) {struct prefix} : bool :=
  match prefix, s with
  | [], _ => true
  | p :: prefix', c :: s' => (c =? p) && startswith s' prefix'
  | _ :: _, [] => false
  end.

(** [a, b = l]: anything but two items raises. *)
Definition unpack2 (l : list str) : outcome (str * str) :=
  match l with
  | [a; b] => Return (a, b)
  | _ => Raise ValueError
  end.

(** [_, a, b, c = l]: anything but four items raises. *)
Definition unpack4 (l : list str) : outcome (str * str * str) :=
  match l with
  | [_; a; b; c] => Return (a, b, c)
  | _ => Raise ValueError
  end.

(** A value that [response.json()] holds. A number is kept as it was
    written; the program passes numbers on and never computes with them
    here. *)
Local Unset Elimination Schemes.
Inductive json_value : Type :=
| JNull
| JBool (b : bool)
| JNumber (written : str)
| JString (s : str)
| JArray (items : list json_value)
| JObject (members : list (str * json_value)).
Local Set Elimination Schemes.

(** The handlers that [register_next_step_handler] is given. *)
Inductive next_step : Type := to_process_url | to_process_api_key.

(** What these handlers do to the outside, in order: what the handlers
    above do, the other calls on the Telegram bot, and the requests that
    change the ledger. *)
Inductive effect : Type :=
| Did (e : event)
| RegisterNextStepHandler (chat : Z) (handler : next_step)
| DeleteMessage (chat message_id : Z)
| EditMessageReplyMarkup (chat message_id : Z) (reply_markup : option keyboard)
| EditMessageText (chat : Z) (text : str) (message_id : Z)
                  (reply_markup : option keyboard)
| Delete (url : str)
| Put (url : str) (data : list (str * json_value)).

Record scene : Type := Scene {
  scene_bot : FireFlyTelegram;
  scene_db : tables;
  effects : list effect
}.

(** A computation over a scene. *)
Definition T (A : Type) : Type := scene -> outcome A * scene.

Global Instance T_ret : MRet T := fun A (a : A) s => (Return a, s).

Global Instance T_bind : MBind T :=
  fun A B (k : A -> T B) (m : T A) s =>
    match m s with
    | (Return a, s') => k a s'
    | (Raise e, s') => (Raise e, s')
    | (Beyond, s') => (Beyond, s')
    end.

(** A computation of the handlers above, run here: it sees the attributes
    and the tables, and what it logged and sent is appended. *)
Definition old {A} (m : M A) : T A :=
  fun s =>
    let r := m (World (scene_bot s) (scene_db s) []) in
    (r.1, Scene (bot r.2) (db r.2) (effects s ++ map Did (trace r.2))).

Definition tell (e : effect) : T unit :=
  fun s => (Return tt, Scene (scene_bot s) (scene_db s) (effects s ++ [e])).

(** An answer from outside, which may depend on all that was done before. *)
Definition ask {A} (f : list effect -> outcome A) : T A :=
  fun s => (f (effects s), s).

(** [d.setdefault(user_id, v)] as the [if user_id not in d: d[user_id] = v]
    of the source. *)
Definition setdefault {V} (user_id : str) (v : V) (d : gmap str V) : gmap str V :=
  match d !! user_id with
  | Some _ => d
  | None => <[user_id := v]> d
  end.

(** [requests.put(...)]: its status code and, as the log message shows
    it, its [json()], which may raise. *)
Record response : Type := Response {
  status_code : Z;
  json_text : outcome str
}.

(** ** More of [firefly.py] *)

Module transactions.
Section more_methods.

(** [requests.delete(url, headers=...).status_code], the first argument
    being what was done so far. *)
Variable http_delete : list effect -> str -> str -> outcome Z.

(** [requests.get(url, headers=...).json()['data']['attributes']['transactions'][0]] *)
Variable http_get_transaction
  : list effect -> str -> str -> outcome (gmap str json_value).

(** [requests.put(url, headers=..., json={'transactions': [data]})] *)
Variable http_put
  : list effect -> str -> str -> list (str * json_value) -> outcome response.

(** The f-string
    [{float(t["amount"]):.2f}{t["currency_symbol"]} {t["source_name"]} → {t["destination_name"]} ({t["category_name"]})]
    on a fetched transaction. *)
Variable response_message : gmap str json_value -> outcome str.

Definition delete_transaction (transaction_id user : str) : T unit :=
  old (log INFO [Text (py "Deleting transaction "); Text transaction_id;
                 Text (py " for user "); Text user]) ;;
  api ← old (self ff_api user) ;
  url ← old (self ff_url user) ;
  tell (Delete (url ++ py "transactions/" ++ transaction_id)) ;;
  status ← ask (fun h => http_delete h (url ++ py "transactions/" ++ transaction_id) api) ;
  if (status =? 204)%Z then
    old (log INFO [Text (py "Transaction Deleted: "); Text transaction_id])
  else
    old (log ERROR [Text (py "Error deleting transaction.")]).

(** The four updates: the transaction is fetched, the dict [data] is
    made of its fields and of the new value, sent with PUT, and the
    transaction is fetched again for the message returned. A status
    other than 200 is logged and changes nothing else. *)
Definition update_transaction_category (transaction_id category user : str) : T str :=
  old (log INFO [Text (py "Updating category for transaction "); Text transaction_id;
                 Text (py " to "); Text category; Text (py " for user "); Text user]) ;;
  api ← old (self ff_api user) ;
  url ← old (self ff_url user) ;
  transaction ← ask (fun h => http_get_transaction h
                                (url ++ py "transactions/" ++ transaction_id) api) ;
  v_type ← old (lift (subscript transaction (py "type"))) ;
  v_amount ← old (lift (subscript transaction (py "amount"))) ;
  v_source_name ← old (lift (subscript transaction (py "source_name"))) ;
  v_destination_name ← old (lift (subscript transaction (py "destination_name"))) ;
  v_description ← old (lift (subscript transaction (py "description"))) ;
  v_date ← old (lift (subscript transaction (py "date"))) ;
  let data := [(py "type", v_type);
               (py "amount", v_amount);
               (py "source_name", v_source_name);
               (py "destination_name", v_destination_name);
               (py "description", v_description);
               (py "category_name", JString category);
               (py "date", v_date)] in
  url ← old (self ff_url user) ;
  tell (Put (url ++ py "transactions/" ++ transaction_id) data) ;;
  response ← ask (fun h => http_put h (url ++ py "transactions/" ++ transaction_id)
                             api data) ;
  (if (status_code response =? 200)%Z then mret tt
   else
     body ← old (lift (json_text response)) ;
     old (log ERROR [Text (py "Error updating transaction category. Response: ");
                     Text body])) ;;
  url ← old (self ff_url user) ;
  transaction ← ask (fun h => http_get_transaction h
                                (url ++ py "transactions/" ++ transaction_id) api) ;
  old (lift (response_message transaction)).

Definition update_transaction_asset (transaction_id asset_account user : str) : T str :=
  old (log INFO [Text (py "Updating asset account for transaction "); Text transaction_id;
                 Text (py " to "); Text asset_account; Text (py " for user "); Text user]) ;;
  api ← old (self ff_api user) ;
  url ← old (self ff_url user) ;
  transaction ← ask (fun h => http_get_transaction h
                                (url ++ py "transactions/" ++ transaction_id) api) ;
  v_type ← old (lift (subscript transaction (py "type"))) ;
  v_amount ← old (lift (subscript transaction (py "amount"))) ;
  ids ← old (self account_ids user) ;
  v_source_id ← old (lift (subscript ids asset_account)) ;
  v_destination_id ← old (lift (subscript transaction (py "destination_id"))) ;
  v_description ← old (lift (subscript transaction (py "description"))) ;
  v_category_name ← old (lift (subscript transaction (py "category_name"))) ;
  v_date ← old (lift (subscript transaction (py "date"))) ;
  let data := [(py "type", v_type);
               (py "amount", v_amount);
               (py "source_id", JString v_source_id);
               (py "destination_id", v_destination_id);
               (py "description", v_description);
               (py "category_name", v_category_name);
               (py "date", v_date)] in
  url ← old (self ff_url user) ;
  tell (Put (url ++ py "transactions/" ++ transaction_id) data) ;;
  response ← ask (fun h => http_put h (url ++ py "transactions/" ++ transaction_id)
                             api data) ;
  (if (status_code response =? 200)%Z then mret tt
   else
     body ← old (lift (json_text response)) ;
     old (log ERROR [Text (py "Error updating transaction asset. Response: ");
                     Text body])) ;;
  url ← old (self ff_url user) ;
  transaction ← ask (fun h => http_get_transaction h
                                (url ++ py "transactions/" ++ transaction_id) api) ;
  old (lift (response_message transaction)).

Definition update_transaction_expense (transaction_id expense_account user : str) : T str :=
  old (log INFO [Text (py "Updating expense account for transaction "); Text transaction_id;
                 Text (py " to "); Text expense_account; Text (py " for user "); Text user]) ;;
  api ← old (self ff_api user) ;
  url ← old (self ff_url user) ;
  transaction ← ask (fun h => http_get_transaction h
                                (url ++ py "transactions/" ++ transaction_id) api) ;
  v_type ← old (lift (subscript transaction (py "type"))) ;
  v_amount ← old (lift (subscript transaction (py "amount"))) ;
  v_source_id ← old (lift (subscript transaction (py "source_id"))) ;
  ids ← old (self account_ids user) ;
  v_destination_id ← old (lift (subscript ids expense_account)) ;
  v_description ← old (lift (subscript transaction (py "description"))) ;
  v_category_name ← old (lift (subscript transaction (py "category_name"))) ;
  v_date ← old (lift (subscript transaction (py "date"))) ;
  let data := [(py "type", v_type);
               (py "amount", v_amount);
               (py "source_id", v_source_id);
               (py "destination_id", JString v_destination_id);
               (py "description", v_description);
               (py "category_name", v_category_name);
               (py "date", v_date)] in
  url ← old (self ff_url user) ;
  tell (Put (url ++ py "transactions/" ++ transaction_id) data) ;;
  response ← ask (fun h => http_put h (url ++ py "transactions/" ++ transaction_id)
                             api data) ;
  (if (status_code response =? 200)%Z then mret tt
   else
     body ← old (lift (json_text response)) ;
     old (log ERROR [Text (py "Error updating transaction expense. Response: ");
                     Text body])) ;;
  url ← old (self ff_url user) ;
  transaction ← ask (fun h => http_get_transaction h
                                (url ++ py "transactions/" ++ transaction_id) api) ;
  old (lift (response_message transaction)).

Definition update_transaction_revenue (transaction_id revenue_account user : str) : T str :=
  old (log INFO [Text (py "Updating revenue account for transaction "); Text transaction_id;
                 Text (py " to "); Text revenue_account; Text (py " for user "); Text user]) ;;
  api ← old (self ff_api user) ;
  url ← old (self ff_url user) ;
  transaction ← ask (fun h => http_get_transaction h
                                (url ++ py "transactions/" ++ transaction_id) api) ;
  v_type ← old (lift (subscript transaction (py "type"))) ;
  v_amount ← old (lift (subscript transaction (py "amount"))) ;
  ids ← old (self account_ids user) ;
  v_source_id ← old (lift (subscript ids revenue_account)) ;
  v_destination_id ← old (lift (subscript transaction (py "destination_id"))) ;
  v_description ← old (lift (subscript transaction (py "description"))) ;
  v_category_name ← old (lift (subscript transaction (py "category_name"))) ;
  v_date ← old (lift (subscript transaction (py "date"))) ;
  let data := [(py "type", v_type);
               (py "amount", v_amount);
               (py "source_id", JString v_source_id);
               (py "destination_id", v_destination_id);
               (py "description", v_description);
               (py "category_name", v_category_name);
               (py "date", v_date)] in
  url ← old (self ff_url user) ;
  tell (Put (url ++ py "transactions/" ++ transaction_id) data) ;;
  response ← ask (fun h => http_put h (url ++ py "transactions/" ++ transaction_id)
                             api data) ;
  (if (status_code response =? 200)%Z then mret tt
   else
     body ← old (lift (json_text response)) ;
     old (log ERROR [Text (py "Error updating transaction revenue. Response: ");
                     Text body])) ;;
  url ← old (self ff_url user) ;
  transaction ← ask (fun h => http_get_transaction h
                                (url ++ py "transactions/" ++ transaction_id) api) ;
  old (lift (response_message transaction)).

End more_methods.
End transactions.

(** ** More of [handlers.py] *)

(** A callback query: [call.data], [call.message.chat.id],
    [call.message.message_id], [call.from_user.id] and
    [call.from_user.username]. *)
Record callback_query : Type := CallbackQuery {
  call_data : str;
  call_chat_id : Z;
  call_message_id : Z;
  call_from_user_id : Z;
  call_username : str
}.

Module conversation.
Section more_handlers.

Variable http_get : str -> str -> option Z -> reply.
Variable http_delete : list effect -> str -> str -> outcome Z.
Variable http_get_transaction
  : list effect -> str -> str -> outcome (gmap str json_value).
Variable http_put
  : list effect -> str -> str -> list (str * json_value) -> outcome response.
Variable response_message : gmap str json_value -> outcome str.

Let load_session (user : str) : T unit := old (firefly.load_session user).
Let load_data (user : str) : T unit := old (firefly.load_data user).
Let save_session (user : str) : T unit := old (firefly.save_session user).
Let clear_user_data (user : str) : T unit := old (firefly.clear_user_data user).
Let clear_user_session (user : str) : T unit :=
  old (firefly.clear_user_session user).
Let get_ff_data (user : str) : T unit := old (firefly.get_ff_data http_get user).
Let delete_transaction := transactions.delete_transaction http_delete.
Let update_transaction_category :=
  transactions.update_transaction_category http_get_transaction http_put response_message.
Let update_transaction_asset :=
  transactions.update_transaction_asset http_get_transaction http_put response_message.
Let update_transaction_expense :=
  transactions.update_transaction_expense http_get_transaction http_put response_message.
Let update_transaction_revenue :=
  transactions.update_transaction_revenue http_get_transaction http_put response_message.

(** [tg_bot.send_message(chat_id, text, reply_markup=...)] and
    [logger.<level>(...)], as the handlers above record them. *)
Let send_message (chat_id : Z) (text : string) (reply_markup : option keyboard)
    : T unit :=
  old (emit (SendMessage (ChatId chat_id) (py text) reply_markup)).
Let logger (lvl : level) (msg : list piece) : T unit := old (log lvl msg).

(** [if user not in ff_bot.attribute: ff_bot.attribute[user] = v] *)
Let assign (f : FireFlyTelegram -> FireFlyTelegram) : T unit := old (set_bot f).

Definition send_welcome (message : message) : T unit :=
  let chat_id := chat_id message in
  let user_id := str_of_Z (from_user_id message) in
  logger DEBUG [Text (py "Received /start command from user ");
                Text (str_of_Z chat_id)] ;;
  load_session user_id ;;
  load_data user_id ;;
  assign (set_ff_url (setdefault user_id [])) ;;
  assign (set_ff_api (setdefault user_id [])) ;;
  assign (set_default_accounts (setdefault user_id [])) ;;
  assign (set_categories (setdefault user_id [])) ;;
  assign (set_source_accounts (setdefault user_id [])) ;;
  assign (set_destination_accounts (setdefault user_id [])) ;;
  assign (set_asset_accounts (setdefault user_id [])) ;;
  assign (set_expense_accounts (setdefault user_id [])) ;;
  assign (set_revenue_accounts (setdefault user_id [])) ;;
  assign (set_account_ids (setdefault user_id ∅)) ;;
  send_message chat_id "Enter your FireFlyIII URL." None ;;
  tell (RegisterNextStepHandler chat_id to_process_url) ;;
  clear_user_data user_id ;;
  clear_user_session user_id.

Definition process_url (message : message) : T unit :=
  let chat_id := chat_id message in
  let user := str_of_Z (from_user_id message) in
  load_session user ;;
  assign (set_ff_url (setdefault user [])) ;;
  c ← old (lift (firefly.some_or IndexError (last (text message)))) ;
  let url := if c =? 0x2f then removelast (text message) else text message in
  assign (set_ff_url <[user := url ++ py "/api/v1/"]>) ;;
  save_session user ;;
  logger DEBUG [Text (py "Processed URL for user "); Text user;
                Text (py ": "); Text url] ;;
  send_message chat_id "Please enter your FireFlyIII API Key." None ;;
  tell (RegisterNextStepHandler chat_id to_process_api_key) ;;
  clear_user_data user ;;
  clear_user_session user.

Definition send_account_keyboard (chat_id : Z) (account_list : list str) : T unit :=
  let markup := map (fun account => [(account, py "set_account_" ++ account)])
                    account_list in
  logger DEBUG [Text (py "Sending account keyboard to chat ");
                Text (str_of_Z chat_id)] ;;
  send_message chat_id "Choose your default account:" (Some markup).

Definition process_api_key (message : message) : T unit :=
  let chat_id := chat_id message in
  let user := str_of_Z (from_user_id message) in
  load_session user ;;
  assign (set_ff_api (setdefault user [])) ;;
  assign (set_ff_api <[user := text message]>) ;;
  save_session user ;;
  logger DEBUG [Text (py "Processed API key for user "); Text user] ;;
  get_ff_data user ;;
  account_list ← old (self asset_accounts user) ;
  send_account_keyboard chat_id account_list ;;
  clear_user_data user ;;
  clear_user_session user.

(** The keyboard put back under a transaction after an update; [kind]
    is the last piece of the callback data. *)
Definition updated_keyboard (transaction_id kind : str) : keyboard :=
  let suffix := transaction_id ++ py "_" ++ kind in
  [[(py "Delete", py "delete_" ++ transaction_id);
    (py "Set Category", py "set_category_" ++ suffix)];
   [(py "Asset Account", py "set_asset_" ++ suffix);
    if bool_decide (kind = py "withdrawal")
    then (py "Expense Account", py "set_expense_" ++ suffix)
    else (py "Revenue Account", py "set_revenue_" ++ suffix)]].

(** The keyboard of choices: a button for each name, its callback data
    made of the prefix, the transaction, the name and the kind. *)
Definition choices (prefix : string) (transaction_id kind : str)
    (names : list str) : keyboard :=
  map (fun name => [(name, py prefix ++ transaction_id ++ py "_" ++ name
                             ++ py "_" ++ kind)]) names.

(** [for i in range(5): tg_bot.delete_message(chat_id, message_id - i)] *)
Fixpoint delete_messages (chat_id message_id : Z) (range : list Z) : T unit :=
  match range with
  | [] => mret tt
  | i :: range' =>
      tell (DeleteMessage chat_id (message_id - i)) ;;
      delete_messages chat_id message_id range'
  end.

Definition process_callback_query (call : callback_query) : T unit :=
  let chat_id := call_chat_id call in
  let user := str_of_Z (call_from_user_id call) in
  let pieces := split 0x5f (call_data call) in
  load_session user ;;
  load_data user ;;
  logger DEBUG [Text (py "Processing callback query from user "); Text user;
                Text (py ": "); Text (call_data call)] ;;
  (if startswith (call_data call) (py "delete_") then
     transaction_id ← old (lift (firefly.getitem pieces 1)) ;
     delete_transaction transaction_id user ;;
     tell (DeleteMessage chat_id (call_message_id call))

   else if startswith (call_data call) (py "set_account_") then
     default_account ← old (lift (firefly.getitem pieces 2)) ;
     assets ← old (self asset_accounts user) ;
     (if bool_decide (default_account ∈ assets) then
        assign (set_default_accounts <[user := default_account]>) ;;
        save_session user ;;
        send_message chat_id
          "Configuration saved successfully! Run /help to know how to use the bot."
          None
      else mret tt) ;;
     tell (EditMessageReplyMarkup chat_id (call_message_id call) None) ;;
     delete_messages chat_id (call_message_id call) (seqZ 0 5) ;;
     send_message chat_id "Setup completed. Run /help to see the commands." None

   else if startswith (call_data call) (py "set_category_") then
     '(transaction_id, kind) ← old (lift (unpack2 (drop 2 pieces))) ;
     names ← old (self categories user) ;
     send_message chat_id "Select a category:"
       (Some (choices "category_" transaction_id kind names))

   else if startswith (call_data call) (py "category_") then
     '(transaction_id, category, kind) ← old (lift (unpack4 pieces)) ;
     response ← update_transaction_category transaction_id category user ;
     logger INFO [Text (call_username call); Text (py " - ");
                  Text transaction_id; Text (py " - "); Text response] ;;
     tell (DeleteMessage chat_id (call_message_id call - 1)) ;;
     tell (EditMessageText chat_id response (call_message_id call)
             (Some (updated_keyboard transaction_id kind)))

   else if startswith (call_data call) (py "set_asset_") then
     '(transaction_id, kind) ← old (lift (unpack2 (drop 2 pieces))) ;
     names ← old (self asset_accounts user) ;
     send_message chat_id "Select the asset account:"
       (Some (choices "asset_" transaction_id kind names))

   else if startswith (call_data call) (py "asset_") then
     '(transaction_id, asset_account, kind) ← old (lift (unpack4 pieces)) ;
     response ← update_transaction_asset transaction_id asset_account user ;
     logger INFO [Text (call_username call); Text (py " - ");
                  Text transaction_id; Text (py " - "); Text response] ;;
     tell (DeleteMessage chat_id (call_message_id call - 1)) ;;
     tell (EditMessageText chat_id response (call_message_id call)
             (Some (updated_keyboard transaction_id kind)))

   else if startswith (call_data call) (py "set_expense_") then
     '(transaction_id, kind) ← old (lift (unpack2 (drop 2 pieces))) ;
     names ← old (self expense_accounts user) ;
     send_message chat_id "Select an expense account:"
       (Some (choices "expense_" transaction_id kind names))

   else if startswith (call_data call) (py "expense_") then
     '(transaction_id, expense_account, kind) ← old (lift (unpack4 pieces)) ;
     response ← update_transaction_expense transaction_id expense_account user ;
     logger INFO [Text (call_username call); Text (py " - ");
                  Text transaction_id; Text (py " - "); Text response] ;;
     tell (DeleteMessage chat_id (call_message_id call - 1)) ;;
     tell (EditMessageText chat_id response (call_message_id call)
             (Some (updated_keyboard transaction_id kind)))

   else if startswith (call_data call) (py "set_revenue_") then
     '(transaction_id, kind) ← old (lift (unpack2 (drop 2 pieces))) ;
     names ← old (self revenue_accounts user) ;
     send_message chat_id "Select a revenue account:"
       (Some (choices "revenue_" transaction_id kind names))

   else if startswith (call_data call) (py "revenue_") then
     '(transaction_id, revenue_account, kind) ← old (lift (unpack4 pieces)) ;
     response ← update_transaction_revenue transaction_id revenue_account user ;
     logger INFO [Text (call_username call); Text (py " - ");
                  Text transaction_id; Text (py " - "); Text response] ;;
     tell (DeleteMessage chat_id (call_message_id call - 1)) ;;
     tell (EditMessageText chat_id response (call_message_id call) None) ;;
     tell (EditMessageReplyMarkup chat_id (call_message_id call)
             (Some (updated_keyboard transaction_id kind)))

   else mret tt) ;;
  clear_user_data user ;;
  clear_user_session user.

End more_handlers.
End conversation.

(** * Vocabulary of the properties *)

(** What it is for [r] to take the matcher from one state to another. *)
Fixpoint derives (r : re.regex) (st st' : re.state) : Prop :=
  match r with
  | re.In_ cls =>
      ∃ c, st.1.2 = c :: st'.1.2 ∧ cls c = true
           ∧ st'.1.1 = S st.1.1 ∧ st'.2 = st.2
  | re.Plus cls =>
      ∃ w, w ≠ [] ∧ Forall (λ c, cls c = true) w ∧ st.1.2 = w ++ st'.1.2
           ∧ st'.1.1 = (st.1.1 + length w)%nat ∧ st'.2 = st.2
  | re.Seq r1 r2 => ∃ mid, derives r1 st mid ∧ derives r2 mid st'
  | re.Group i r0 =>
      ∃ g0, derives r0 st (st'.1, g0)
            ∧ st'.2 = <[i := take (st'.1.1 - st.1.1) st.1.2]> g0
  | re.Opt r0 => derives r0 st st' ∨ st' = st
  | re.Bol => st.1.1 = O ∧ st' = st
  | re.Eol => (st.1.2 = [] ∨ st.1.2 = [0x0a]) ∧ st' = st
  end.

(** A non-empty run of characters of a set. *)
Definition run_of (cls : char -> bool) (w : str) : Prop :=
  w ≠ [] ∧ Forall (λ c, cls c = true) w.

(** The text one optional trailing token takes: nothing, or whitespace
    and a word of letters. *)
Definition opt_token (t : str) : Prop :=
  t = [] ∨ ∃ sp w, t = sp ++ w ∧ run_of isspace sp ∧ run_of letter w.

(** The shape of an accepted line: a run of letters and whitespace,
    whitespace, the amount run, up to three tokens, and possibly one final
    newline. *)
Definition shape (line : str) : Prop :=
  ∃ d sp a t3 t4 t5 nl,
    line = d ++ sp ++ a ++ t3 ++ t4 ++ t5 ++ nl
    ∧ run_of desc_char d ∧ run_of isspace sp ∧ run_of amount_char a
    ∧ opt_token t3 ∧ opt_token t4 ∧ opt_token t5
    ∧ (nl = [] ∨ nl = [0x0a]).

(** The groups of a match, read off the line. *)
Definition token_text (sp_w : option (str * str)) : str :=
  match sp_w with Some (sp, w) => sp ++ w | None => [] end.

Definition token_ok (sp_w : option (str * str)) : Prop :=
  match sp_w with
  | Some (sp, w) => run_of isspace sp ∧ run_of letter w
  | None => True
  end.

Definition with_group (i : nat) (sp_w : option (str * str)) (g : re.groups)
    : re.groups :=
  match sp_w with Some (_, w) => <[i := w]> g | None => g end.

(** The first candidate whose slug equals the token's. *)
Definition first_match (slugify : str -> str) (token : str)
    (candidates : list str) : option str :=
  List.find (λ c, bool_decide (slugify c = slugify token)) candidates.

(** What resolving [name] for [user] against [table] comes to: the first
    match; [not_found] when the user's list holds none; [StartError] when
    the user has no list. *)
Definition resolution (slugify : str -> str) (not_found : exn)
    (table : gmap str (list str)) (name user : str) : outcome str :=
  match table !! user with
  | None => Raise StartError
  | Some candidates =>
      match first_match slugify name candidates with
      | Some c => Return c
      | None => Raise not_found
      end
  end.

(** A token resolved in its role, or the fallback when it is absent. *)
Definition in_role (slugify : str -> str) (not_found : exn)
    (table : gmap str (list str)) (t : option str) (user : str)
    (otherwise : outcome (option str)) : outcome (option str) :=
  match t with
  | Some t => let* x := resolution slugify not_found table t user in Return (Some x)
  | None => otherwise
  end.

Definition configured_default (b : FireFlyTelegram) (user : str) : outcome (option str) :=
  let* a := subscript (default_accounts b) user in Return (Some a).

Definition classify (source destination : option str) (assets : list str) : kind :=
  if firefly.py_in source assets && negb (firefly.py_in destination assets) then withdrawal
  else if negb (firefly.py_in source assets) && firefly.py_in destination assets then deposit
  else transfer.

Definition parse_result (slugify : str -> str) (b : FireFlyTelegram)
    (line user : str) : outcome (option transaction) :=
  match re.match_ pattern line with
  | Some m =>
      let* g1 := firefly.some_or AttributeError (re.group m 1) in
      let* g2 := firefly.some_or TypeError (re.group m 2) in
      let* c := firefly.some_or IndexError (head g2) in
      let* sd :=
        (if c =? 0x2b then
           let* d := in_role slugify DestinationError (destination_accounts b)
                             (re.group m 4) user (configured_default b user) in
           let* s := in_role slugify SourceError (source_accounts b)
                             (re.group m 5) user (Return None) in
           Return (s, d)
         else
           let* s := in_role slugify SourceError (source_accounts b)
                             (re.group m 4) user (configured_default b user) in
           let* d := in_role slugify DestinationError (destination_accounts b)
                             (re.group m 5) user (Return None) in
           Return (s, d)) in
      let* number := models.safe_math_eval g2 in
      let* category := in_role slugify CategoryError (categories b)
                               (re.group m 3) user (Return None) in
      let* assets := subscript (asset_accounts b) user in
      Return (Some (Transaction (strip g1) number category sd.1 sd.2
                                (classify sd.1 sd.2 assets)))
  | None => Return None
  end.

(** The world after one more event. *)
Definition after (w : world) (e : event) : world :=
  World (bot w) (db w) (trace w ++ [e]).

Definition entering (line : str) : event :=
  Log DEBUG [Text (py "Extracting info from input string: "); Text line].

(** An instance of the slug function: ASCII capitals lowered. *)
Definition ascii_slug (s : str) : str :=
  map (λ c, if in_range 0x41 0x5a c then c + 32 else c) s.

Definition alice : str := py "42".

Definition alice_snapshot : snapshot :=
  Snapshot [py "Food"; py "Income"]
           [py "Checking"; py "Savings"; py "Job"]
           [py "Checking"; py "Savings"; py "Shop"]
           [py "Checking"; py "Savings"]
           [py "Shop"]
           [py "Job"]
           (<[py "Checking" := py "1"]> (<[py "Savings" := py "2"]>
            (<[py "Shop" := py "3"]> (<[py "Job" := py "4"]> ∅)))).

(** The attributes once Alice's session (no default account chosen) and
    snapshot are loaded. *)
Definition alice_loaded : FireFlyTelegram :=
  Bot {[alice := py "http://ledger/api/v1/"]} {[alice := py "key"]}
      {[alice := []]}
      {[alice := snap_categories alice_snapshot]}
      {[alice := snap_source_accounts alice_snapshot]}
      {[alice := snap_destination_accounts alice_snapshot]}
      {[alice := snap_asset_accounts alice_snapshot]}
      {[alice := snap_expense_accounts alice_snapshot]}
      {[alice := snap_revenue_accounts alice_snapshot]}
      {[alice := snap_account_ids alice_snapshot]}.

Definition nobody_loaded : FireFlyTelegram := Bot ∅ ∅ ∅ ∅ ∅ ∅ ∅ ∅ ∅ ∅.

Definition empty_tables : tables := Tables ∅ ∅.

Definition alice_ready : world := World alice_loaded empty_tables [].

(** The absolute value of a number. *)
Definition absolute (v : pyeval.value) : pyeval.value :=
  match v with
  | pyeval.VInt n => pyeval.VInt (Z.abs n)
  | pyeval.VFloat x => pyeval.VFloat (SFabs x)
  | _ => v
  end.

(** [x] names one of [assets]. *)
Definition is_asset (x : option str) (assets : list str) : Prop :=
  ∃ s, x = Some s ∧ s ∈ assets.

(** The account a token stands for in a role: the first match in the
    user's list when the token is present, else the fallback. *)
Definition assigned (slugify : str -> str) (table : gmap str (list str))
    (user : str) (t : option str) (fallback : option str) : option str :=
  match t with
  | Some t => table !! user ≫= first_match slugify t
  | None => fallback
  end.

(** [c] is the first element of [l] with property [P]. *)
Definition first_with {A} (P : A -> Prop) (l : list A) (c : A) : Prop :=
  ∃ l1 l2, l = l1 ++ c :: l2 ∧ P c ∧ Forall (λ x, ¬ P x) l1.

(** What it is for [f] to resolve names against [table] in a role whose
    failure is [not_found]. *)
Definition resolves (slugify : str -> str) (f : str -> str -> M str)
    (table : FireFlyTelegram -> gmap str (list str)) (not_found : exn) : Prop :=
  ∀ name user w,
    (f name user w).2 = w
    ∧ match table (bot w) !! user with
      | None => (f name user w).1 = Raise StartError
      | Some candidates =>
          (∀ c, (f name user w).1 = Return c
                ↔ first_with (λ x, slugify x = slugify name) candidates c)
          ∧ ((f name user w).1 = Raise not_found
             ↔ Forall (λ x, slugify x ≠ slugify name) candidates)
          ∧ ((∃ c, (f name user w).1 = Return c)
             ∨ (f name user w).1 = Raise not_found)
      end.

Definition coffee : transaction :=
  Transaction (py "Coffee") (pyeval.VFloat (pyeval.float_literal 45 1))
              (Some (py "Food")) (Some (py "Checking")) None withdrawal.

Definition salary : transaction :=
  Transaction (py "Salary") (pyeval.VInt 1500)
              (Some (py "Income")) None (Some (py "Checking")) deposit.

(** The four classes of [models.py]. *)
Definition typed (e : exn) : Prop :=
  e = CategoryError ∨ e = SourceError ∨ e = DestinationError ∨ e = StartError.

(** Alice's rows as [save_session] and [save_data] write them. *)
Definition alice_tables : tables :=
  Tables {[alice := (py "http://ledger/api/v1/", py "key", [])]}
         {[alice := DataRow (json.dumps_list (snap_categories alice_snapshot))
                            (json.dumps_list (snap_source_accounts alice_snapshot))
                            (json.dumps_list (snap_destination_accounts alice_snapshot))
                            (json.dumps_list (snap_asset_accounts alice_snapshot))
                            (json.dumps_list (snap_expense_accounts alice_snapshot))
                            (json.dumps_list (snap_revenue_accounts alice_snapshot))
                            (json.dumps_dict (snap_account_ids alice_snapshot))]}.

(** Between two operations: nothing loaded, the rows in the file. *)
Definition alice_at_rest : world := World nobody_loaded alice_tables [].

(** A ledger that accepts every transaction. *)
Definition accepting (url api : str) (info : transaction) : outcome posted :=
  Return (Created (py "ok") (py "7")).

Definition says (s : string) : message := Message (py s) 5 42 (py "alice").

Definition sent (e : event) : bool :=
  match e with SendMessage _ _ _ => true | _ => false end.

(** A description as [extract_info] leaves it: letters and whitespace
    only, with no whitespace at either end. *)
Definition trimmed_words (d : str) : Prop :=
  Forall (λ c, desc_char c = true) d
  ∧ (∀ c, head d = Some c → isspace c = false)
  ∧ (∀ c, last d = Some c → isspace c = false).

(** [Q] holds of the outcome and the world [m] ends in. *)
Definition post {A} (m : M A) (w : world) (Q : outcome A -> world -> Prop) : Prop :=
  Q (m w).1 (m w).2.

Definition is_debug (e : event) : Prop :=
  match e with Log DEBUG _ => True | _ => False end.

(** The refresh as a function of what the ledger answers. *)
Section ledger.

Variable http_get : str -> str -> option Z -> reply.

(** The pages after the first, as [more_pages] gathers them. *)
Fixpoint fetched_more (api url : str) (pages : list Z) (data : list item)
    : outcome (list item) :=
  match pages with
  | [] => Return data
  | n :: pages' =>
      match http_get url api (Some n) with
      | Failed e => Raise e
      | Replied p => fetched_more api url pages' (data ++ page_data p)
      end
  end.

(** All the pages of a listing. *)
Definition fetched (api url : str) : outcome (list item) :=
  match http_get url api None with
  | Failed e => Raise e
  | Replied p =>
      fetched_more api url (seqZ 2 (total_pages p - 1)) (page_data p)
  end.

(** The snapshot a refresh arrives at when every fetch and every
    partition step succeeds; else the exception of the first that fails. *)
Definition refreshed (api url : str) : outcome snapshot :=
  let* categories_data := fetched api (url ++ py "categories") in
  let* names := firefly.comprehension (λ x, firefly.attribute x (py "name"))
                                      categories_data in
  let* accounts_data := fetched api (url ++ py "accounts") in
  let* ids := firefly.ids_by_name accounts_data ∅ in
  let* sources := firefly.names_of_type [py "revenue"; py "asset"] accounts_data in
  let* destinations := firefly.names_of_type [py "expense"; py "asset"] accounts_data in
  let* assets := firefly.names_of_type [py "asset"] accounts_data in
  let* expenses := firefly.names_of_type [py "expense"] accounts_data in
  let* revenues := firefly.names_of_type [py "revenue"] accounts_data in
  Return (Snapshot names sources destinations assets expenses revenues ids).

End ledger.

(** [t'] is [t] and then debug records only. *)
Definition extends (t t' : list event) : Prop :=
  ∃ evs, t' = t ++ evs ∧ Forall is_debug evs.

(** The record [get_ff_data] writes when the refresh fails. *)
Definition refresh_error (user : str) (e : exn) : event :=
  Log ERROR [Text (py "Error fetching FireFlyIII data for user ");
             Text user; Text (py ": "); Exc e].

(** The attributes after a refresh that arrived at [x]. *)
Definition installed (user : str) (x : snapshot) (b : FireFlyTelegram) : Prop :=
  categories b !! user = Some (snap_categories x)
  ∧ source_accounts b !! user = Some (snap_source_accounts x)
  ∧ destination_accounts b !! user = Some (snap_destination_accounts x)
  ∧ asset_accounts b !! user = Some (snap_asset_accounts x)
  ∧ expense_accounts b !! user = Some (snap_expense_accounts x)
  ∧ revenue_accounts b !! user = Some (snap_revenue_accounts x)
  ∧ account_ids b !! user = Some (snap_account_ids x).

(** What a refresh leaves, given what the fetch-and-partition steps
    come to. *)
Definition refresh_outcome (user : str) (w w' : world)
    (steps : outcome snapshot) : Prop :=
  session (db w') = session (db w)
  ∧ match steps with
    | Return x =>
        data (db w') = <[user := database.row_of x]> (data (db w))
        ∧ installed user x (bot w')
        ∧ extends (trace w) (trace w')
    | Raise e =>
        data (db w') = data (db w)
        ∧ ∃ t', trace w' = t' ++ [refresh_error user e] ∧ extends (trace w) t'
    | Beyond => False
    end.

(** A ledger that cannot be reached. *)
Definition unreachable (url api : str) (page : option Z) : reply :=
  Failed ConnectionError.

(** [str(message.from_user.id)] *)
Definition sender (message : message) : str :=
  str_of_Z (from_user_id message).

(** The record [echo_transfer] writes of the message it handles. *)
Definition processing (message : message) : event :=
  Log DEBUG [Text (py "Processing transaction input from user ");
             Text (sender message); Text (py ": "); Text (text message)].

(** The record [new_transaction] writes on entry. *)
Definition creating (user : str) (info : transaction) : event :=
  Log INFO [Text (py "Creating new transaction for user "); Text user;
            Text (py " with info: "); Info info].

(** The dict [echo_transfer] hands to [new_transaction]. *)
Definition transfer_of (n : pyeval.value) (src dst : str) : transaction :=
  Transaction (py "Transfer") n None (Some src) (Some dst) transfer.

Definition is_post (e : event) : bool :=
  match e with Post _ _ => true | _ => false end.

(** The record [extract_info] writes on entry, whatever the line. *)
Definition is_entering (e : event) : bool :=
  match e with
  | Log DEBUG [Text s; Text _] =>
      bool_decide (s = py "Extracting info from input string: ")
  | _ => false
  end.

(** [m] only adds events, and only events with property [P]. *)
Definition emits (P : event -> Prop) {A} (m : M A) : Prop :=
  ∀ w, ∃ evs, trace (m w).2 = trace w ++ evs ∧ Forall P evs.

Definition quiet (e : event) : Prop := is_entering e = false.

(** Arithmetic expressions: integer numerals, negation, the four
    operations, explicit parentheses, blanks around an operand, and
    decimal numerals [n.f], with [f] the digits after the point. *)
Inductive arith : Type :=
| Lit (n : N)
| Opp (a : arith)
| Sum (a b : arith)
| Diff (a b : arith)
| Prod (a b : arith)
| Quot (a b : arith)
| Group (a : arith)
| Pad (a : arith)
| Dec (n : N) (f : Decimal.uint).

(** The digits of [n.f] read as one number: [n.f] is this number
    divided by ten to the number of digits of [f]. *)
Definition decimal_digits (n : N) (f : Decimal.uint) : N :=
  n * 10 ^ N.of_nat (Decimal.nb_digits f) + N.of_uint f.

(** Parentheses around a text, and around tokens, when [b] holds. *)
Definition parens (b : bool) (s : str) : str :=
  if b then py "(" ++ s ++ py ")" else s.

Definition parens_tokens (b : bool) (ts : list pyeval.token) : list pyeval.token :=
  if b then pyeval.TLPar :: ts ++ [pyeval.TRPar] else ts.

(** The expression written out as an operand of level [p]: 0 where a sum
    may stand, 1 where a product may, 2 where only a signed operand may.
    The operators are left associative, and parentheses go around a sum
    or a product that stands where it may not. *)
Fixpoint written (p : nat) (e : arith) : str :=
  match e with
  | Lit n => str_of_N n
  | Opp a => py "-" ++ written 2 a
  | Sum a b => parens (0 <? p)%nat (written 0 a ++ py "+" ++ written 1 b)
  | Diff a b => parens (0 <? p)%nat (written 0 a ++ py "-" ++ written 1 b)
  | Prod a b => parens (1 <? p)%nat (written 1 a ++ py "*" ++ written 2 b)
  | Quot a b => parens (1 <? p)%nat (written 1 a ++ py "/" ++ written 2 b)
  | Group a => py "(" ++ written 0 a ++ py ")"
  | Pad a => py " " ++ written p a ++ py " "
  | Dec n f => str_of_N n ++ py "." ++ uint_chars f
  end.

(** The same as tokens. *)
Fixpoint tokens (p : nat) (e : arith) : list pyeval.token :=
  match e with
  | Lit n => [pyeval.TInt n]
  | Opp a => pyeval.TMinus :: tokens 2 a
  | Sum a b => parens_tokens (0 <? p)%nat (tokens 0 a ++ pyeval.TPlus :: tokens 1 b)
  | Diff a b => parens_tokens (0 <? p)%nat (tokens 0 a ++ pyeval.TMinus :: tokens 1 b)
  | Prod a b => parens_tokens (1 <? p)%nat (tokens 1 a ++ pyeval.TStar :: tokens 2 b)
  | Quot a b => parens_tokens (1 <? p)%nat (tokens 1 a ++ pyeval.TSlash :: tokens 2 b)
  | Group a => pyeval.TLPar :: tokens 0 a ++ [pyeval.TRPar]
  | Pad a => tokens p a
  | Dec n f => [pyeval.TFloat (decimal_digits n f) (Decimal.nb_digits f)]
  end.

(** The expression as Python's syntax tree. *)
Fixpoint tree (e : arith) : pyeval.expr :=
  match e with
  | Lit n => pyeval.Const (pyeval.VInt (Z.of_N n))
  | Opp a => pyeval.Unary pyeval.Neg (tree a)
  | Sum a b => pyeval.Binary pyeval.Add (tree a) (tree b)
  | Diff a b => pyeval.Binary pyeval.Sub (tree a) (tree b)
  | Prod a b => pyeval.Binary pyeval.Mul (tree a) (tree b)
  | Quot a b => pyeval.Binary pyeval.Div (tree a) (tree b)
  | Group a | Pad a => tree a
  | Dec n f =>
      pyeval.Const (pyeval.VFloat (pyeval.float_literal (decimal_digits n f)
                                                        (Decimal.nb_digits f)))
  end.

(** The value of an expression in Python's numbers: operands left to
    right, [int] results exact, [/] the correctly rounded [float], a
    decimal numeral the [float] of its digits and their scale. *)
Fixpoint value_of (e : arith) : outcome pyeval.value :=
  match e with
  | Lit n => Return (pyeval.VInt (Z.of_N n))
  | Opp a => let* x := value_of a in pyeval.unary pyeval.Neg x
  | Sum a b =>
      let* x := value_of a in let* y := value_of b in pyeval.binary pyeval.Add x y
  | Diff a b =>
      let* x := value_of a in let* y := value_of b in pyeval.binary pyeval.Sub x y
  | Prod a b =>
      let* x := value_of a in let* y := value_of b in pyeval.binary pyeval.Mul x y
  | Quot a b =>
      let* x := value_of a in let* y := value_of b in pyeval.binary pyeval.Div x y
  | Group a | Pad a => value_of a
  | Dec n f =>
      Return (pyeval.VFloat (pyeval.float_literal (decimal_digits n f)
                                                  (Decimal.nb_digits f)))
  end.

(** The value in the integers of an expression without division. *)
Fixpoint integer_value (e : arith) : option Z :=
  match e with
  | Lit n => Some (Z.of_N n)
  | Opp a => Z.opp <$> integer_value a
  | Sum a b => x ← integer_value a; y ← integer_value b; Some (x + y)%Z
  | Diff a b => x ← integer_value a; y ← integer_value b; Some (x - y)%Z
  | Prod a b => x ← integer_value a; y ← integer_value b; Some (x * y)%Z
  | Quot _ _ | Dec _ _ => None
  | Group a | Pad a => integer_value a
  end.

(** The exceptions evaluation can end in. *)
Definition evaluation_error (e : exn) : Prop :=
  e = SyntaxError ∨ e = ZeroDivisionError ∨ e = TypeError ∨ e = OverflowError.

(** [ts] before the tokens of [r]. *)
Definition before (ts : list pyeval.token) (r : outcome (list pyeval.token))
    : outcome (list pyeval.token) :=
  let* x := r in Return (ts ++ x).

(** A text after which a numeral ends: empty, or not starting with a digit
    or a point. *)
Definition boundary (s : str) : Prop :=
  match s with
  | [] => True
  | c :: _ => pyeval.is_digit c = false ∧ c ≠ 0x2e
  end.

(** A text that does not go on with [*] or [/]. *)
Definition operand (s : str) : Prop :=
  match s with
  | [] => True
  | c :: _ => c ≠ 0x2a ∧ c ≠ 0x2f
  end.

(** The first character of a written expression. *)
Definition opening (c : char) : Prop :=
  pyeval.is_digit c = true ∨ c = 0x2d ∨ c = 0x28 ∨ c = 0x20.

(** [f], given at least [n] units of fuel, comes to [r]. *)
Definition from (n : nat) (f : nat -> pyeval.parsed) (r : pyeval.parsed) : Prop :=
  ∀ fuel, (n ≤ fuel)%nat → f fuel = r.

(** Tokens that may follow a factor, and a term. *)
Definition after_factor (rest : list pyeval.token) : Prop :=
  match rest with
  | pyeval.TLPar :: _ | pyeval.TDStar :: _ => False
  | _ => True
  end.

Definition after_term (rest : list pyeval.token) : Prop :=
  match rest with
  | pyeval.TLPar :: _ | pyeval.TDStar :: _ | pyeval.TStar :: _
  | pyeval.TSlash :: _ | pyeval.TDSlash :: _ => False
  | _ => True
  end.

Definition after_sum (rest : list pyeval.token) : Prop :=
  match rest with
  | pyeval.TPlus :: _ | pyeval.TMinus :: _ => False
  | _ => after_term rest
  end.

(** Fuel enough to parse [e] written at level [p]. *)
Fixpoint cost (p : nat) (e : arith) : nat :=
  match e with
  | Lit _ | Dec _ _ => 4 + 2 * (2 - p)
  | Opp a => cost 2 a + 1 + 2 * (2 - p)
  | Sum a b | Diff a b =>
      cost 0 a + cost 1 b + 2 * (2 - p) + (if (0 <? p)%nat then 10 else 0)
  | Prod a b | Quot a b =>
      cost 1 a + cost 2 b + 2 * (2 - p) + (if (1 <? p)%nat then 10 else 0)
  | Group a => cost 0 a + 5 + 2 * (2 - p)
  | Pad a => cost p a
  end%nat.

(** What reading [e] at each of the three levels comes to. *)
Definition reads_factor (e : arith) : Prop :=
  ∀ rest, after_factor rest →
    from (cost 2 e) (λ fuel, pyeval.parse_factor fuel (tokens 2 e ++ rest))
         (pyeval.Parsed (tree e) rest).

Definition reads_term (e : arith) : Prop :=
  ∀ rest n r, after_factor rest →
    from n (λ fuel, pyeval.term_rest fuel (tree e) rest) r →
    from (n + cost 1 e) (λ fuel, pyeval.parse_term fuel (tokens 1 e ++ rest)) r.

Definition reads_sum (e : arith) : Prop :=
  ∀ rest n r, after_term rest →
    from n (λ fuel, pyeval.sum_rest fuel (tree e) rest) r →
    from (n + cost 0 e) (λ fuel, pyeval.parse_sum fuel (tokens 0 e ++ rest)) r.

(** The characters the evaluator lets through: the digits and
    [+ - * / ( ) .] and the blank. *)
Definition permitted (c : char) : Prop :=
  (0x30 ≤ c ∧ c ≤ 0x39) ∨ c ∈ py "+-*/(). ".

(** The [float] 2.0. *)
Definition two : spec_float := S754_finite false 4503599627370496 (-51).

(** The positive [float] [m] times two to the [e]. *)
Definition double (m : positive) (e : Z) : pyeval.value :=
  pyeval.VFloat (S754_finite false m e).

(** [x] is the double nearest to [m / 10^k], a tie going to the even
    significand. For [m] positive, [x] is a normal double [mx * 2^ex] with
    53 significant bits; with [m / 10^k] as [r], [x] as [v] and the gap
    to the next double above as [u], all three multiplied by [10^k] and
    by the power of two that makes them integers, [r] is within half a
    gap of [v], the gap below a power of two being half as wide. *)
Definition nearest (m : N) (k : nat) (x : spec_float) : bool :=
  match m, x with
  | N0, S754_zero false => true
  | Npos p, S754_finite false mx ex =>
      let s := Z.max 0 (- ex) in
      let t := Z.max 0 ex in
      let r := (Zpos p * 2 ^ s)%Z in
      let v := (Zpos mx * 10 ^ Z.of_nat k * 2 ^ t)%Z in
      let u := (10 ^ Z.of_nat k * 2 ^ t)%Z in
      let d := Z.abs (r - v) in
      let narrow := (r <? v)%Z && (Zpos mx =? 2 ^ 52)%Z && (-1074 <? ex)%Z in
      let d2 := if narrow then (4 * d)%Z else (2 * d)%Z in
      (2 ^ 52 <=? Zpos mx)%Z && (Zpos mx <? 2 ^ 53)%Z
      && (-1074 <=? ex)%Z && (ex <=? 971)%Z
      && ((d2 <? u)%Z || ((d2 =? u)%Z && Z.even (Zpos mx)))
  | _, _ => false
  end.

(** [P] holds of every number below [bound]. *)
Definition all_below (bound : nat) (P : N -> bool) : bool :=
  forallb (λ i, P (N.of_nat i)) (seq 0 bound).

(** A high surrogate directly followed by a low one. *)
Fixpoint paired (s : str) : bool :=
  match s with
  | a :: (b :: _) as s' => (json.is_high a && json.is_low b) || paired s'
  | _ => false
  end.

(** A string of code points in which no two surrogates form a pair. *)
Definition unpaired (s : str) : Prop :=
  Forall (λ c, c < 0x110000) s ∧ paired s = false.

(** A snapshot whose names, keys and identifiers are all such strings. *)
Definition plain (x : snapshot) : Prop :=
  Forall unpaired (snap_categories x)
  ∧ Forall unpaired (snap_source_accounts x)
  ∧ Forall unpaired (snap_destination_accounts x)
  ∧ Forall unpaired (snap_asset_accounts x)
  ∧ Forall unpaired (snap_expense_accounts x)
  ∧ Forall unpaired (snap_revenue_accounts x)
  ∧ map_Forall (λ k v, unpaired k ∧ unpaired v) (snap_account_ids x).

(** The scanner inside a string literal of which [acc] is read; a state
    that holds a high surrogate back must not be followed by a low one. *)
Definition reading (st : json.scan_state) (acc : str) (next_low : bool) : Prop :=
  st = json.SStr acc
  ∨ ∃ a hi, st = json.SHigh a hi ∧ acc = a ++ [hi] ∧ next_low = false.

(** Whether the string starts with a low surrogate. *)
Definition starts_low (s : str) : bool :=
  match s with c :: _ => json.is_low c | [] => false end.

(** The tokens of items separated by commas. *)
Fixpoint separated (items : list (list json.token)) : list json.token :=
  match items with
  | [] => []
  | [x] => x
  | x :: rest => x ++ json.TComma :: separated rest
  end.

(** A text that the scanner, between tokens, reads as the tokens [ts]. *)
Definition scans (text : str) (ts : list json.token) : Prop :=
  ∀ tail, json.scan json.SIdle (text ++ tail) = app ts <$> json.scan json.SIdle tail.

(** The members of a dict put in one after the other. *)
Definition put_all (d : gmap str str) (l : list (str * str)) : gmap str str :=
  foldl (λ d kv, <[kv.1 := kv.2]> d) d l.

(** The snapshot whose only category is U+D83D U+DE00. *)
Definition surrogates : snapshot :=
  Snapshot [[0xd83d; 0xde00]] [] [] [] [] [] ∅.

(** From the world a computation starts in to the one it ends in, the
    two are related by [R], whatever the outcome. *)
Definition keeps (R : world -> world -> Prop) {A} (m : M A) : Prop :=
  ∀ w, R w (m w).2.

(** The database is the same. *)
Definition same_db (w w' : world) : Prop := db w' = db w.

(** The attributes are the same. *)
Definition same_bot (w w' : world) : Prop := bot w' = bot w.

(** What the ten attributes hold for one user. *)
Definition entries (v : str) (b : FireFlyTelegram) :=
  (ff_url b !! v, ff_api b !! v, default_accounts b !! v,
   categories b !! v, source_accounts b !! v, destination_accounts b !! v,
   asset_accounts b !! v, expense_accounts b !! v, revenue_accounts b !! v,
   account_ids b !! v).

(** The rows of one user. *)
Definition rows (v : str) (d : tables) := (session d !! v, data d !! v).

(** Whatever belongs to a user other than [u] is the same. *)
Definition same_others (u : str) (w w' : world) : Prop :=
  ∀ v, v ≠ u → entries v (bot w') = entries v (bot w)
               ∧ rows v (db w') = rows v (db w).

(** Nothing is held for the user. *)
Definition forgotten (u : str) (b : FireFlyTelegram) : Prop :=
  entries u b = (None, None, None, None, None, None, None, None, None, None).

(** A relation that every step of a computation can be checked against:
    it holds of a world and itself, it composes, and it does not look at
    what was logged or sent. *)
Class Invariant (R : world -> world -> Prop) : Prop := {
  invariant_refl : ∀ w, R w w;
  invariant_trans : ∀ w1 w2 w3, R w1 w2 → R w2 w3 → R w1 w3;
  invariant_emit : ∀ w e, R w (after w e)
}.

(** An update of the attributes, or of the tables, that changes nothing
    of the users other than [u]. *)
Definition local (u : str) (f : FireFlyTelegram -> FireFlyTelegram) : Prop :=
  ∀ b v, v ≠ u → entries v (f b) = entries v b.

Definition local_db (u : str) (g : tables -> tables) : Prop :=
  ∀ d v, v ≠ u → rows v (g d) = rows v d.

(** [R] holds across every update local to [u]: of the attributes, and of
    the tables. *)
Definition across_attributes (R : world -> world -> Prop) (u : str) : Prop :=
  ∀ f w, local u f → R w (World (f (bot w)) (db w) (trace w)).

Definition across_tables (R : world -> world -> Prop) (u : str) : Prop :=
  ∀ g w, local_db u g → R w (World (bot w) (g (db w)) (trace w)).

(** A world in which a second user has a row and a loaded address while
    the first is at rest. *)
Definition neighbours : world :=
  World (set_ff_url <[py "7" := py "http://other/api/v1/"]> nobody_loaded)
        (Tables (<[py "7" := (py "http://other/api/v1/", py "k", py "Bank")]>
                   (session alice_tables))
                (data alice_tables))
        [].

(** What [new_transaction] logs and requests when the ledger answers
    with a status other than 200 and the JSON body [answer]. *)
Definition rejection (user url : str) (info : transaction) (answer : str)
    : list event :=
  [Log INFO [Text (py "Creating new transaction for user "); Text user;
             Text (py " with info: "); Info info];
   Post (url ++ py "transactions") info;
   Log ERROR [Text (py "Error creating transaction. Response: ");
              Text answer]].

(** A ledger that answers every new transaction with a status other than
    200 and a JSON body. *)
Definition rejecting (url api : str) (info : transaction) : outcome posted :=
  Return (Refused (Return (py "{'message': 'Unauthenticated.'}"))).

(** The capturing groups of a pattern. *)
Fixpoint captures (r : re.regex) : list nat :=
  match r with
  | re.Seq r1 r2 => captures r1 ++ captures r2
  | re.Group i r0 => i :: captures r0
  | re.Opt r0 => captures r0
  | _ => []
  end.

(** Whitespace and a word captured as group [i]. *)
Definition word_token (i : nat) : re.regex :=
  re.Seq (re.Plus isspace) (re.Group i (re.Plus letter)).

(** The end of the pattern from the token with group [i] on. *)
Definition ending (i : nat) : re.regex :=
  match i with
  | 3%nat => re.Seq (token_opt 3) (re.Seq (token_opt 4) (re.Seq (token_opt 5) re.Eol))
  | 4%nat => re.Seq (token_opt 4) (re.Seq (token_opt 5) re.Eol)
  | 5%nat => re.Seq (token_opt 5) re.Eol
  | _ => re.Eol
  end.

(** A ledger with one category and three accounts, the accounts on two
    pages. *)
Definition account (id name type : string) : item :=
  Item (Some (py id)) (Some (<[py "name" := py name]> {[py "type" := py type]})).

Definition small_ledger (url api : str) (page : option Z) : reply :=
  if bool_decide (url = py "http://ledger/api/v1/categories") then
    Replied (Page [Item (Some (py "1")) (Some {[py "name" := py "Food"]})] 1)
  else if bool_decide (url = py "http://ledger/api/v1/accounts") then
    match page with
    | None => Replied (Page [account "1" "Checking" "asset";
                             account "3" "Shop" "expense"] 2)
    | Some _ => Replied (Page [account "4" "Job" "revenue"] 2)
    end
  else Failed ConnectionError.

(** What the refresh arrives at with that ledger. *)
Definition small_snapshot : snapshot :=
  Snapshot [py "Food"] [py "Checking"; py "Job"] [py "Checking"; py "Shop"]
           [py "Checking"] [py "Shop"] [py "Job"]
           (<[py "Checking" := py "1"]> (<[py "Shop" := py "3"]>
            {[py "Job" := py "4"]})).

(** The record of the request for page [n] of [total]. *)
Definition paging (total n : Z) : event :=
  Log DEBUG [Text (py "Fetching page "); Text (str_of_Z n);
             Text (py " of "); Text (str_of_Z total)].

(** Text that sqlite3 can bind as a parameter: it is passed as UTF-8,
    which a string holding a surrogate code point does not have. *)
Definition bindable (s : str) : bool :=
  forallb (λ c, negb (in_range 0xd800 0xdfff c)) s.

(** The session in force for a user once [load_session] has run: the
    stored row, or without one what the attributes hold, the empty
    string for each that holds nothing. *)
Definition held (user : str) (s : scene) : session_row :=
  match session (scene_db s) !! user with
  | Some row => row
  | None => (default [] (ff_url (scene_bot s) !! user),
             default [] (ff_api (scene_bot s) !! user),
             default [] (default_accounts (scene_bot s) !! user))
  end.

(** What [get_session] logs. *)
Definition session_read (user : str) (s : scene) : effect :=
  match session (scene_db s) !! user with
  | Some _ => Did (Log DEBUG [Text (py "Session retrieved for user "); Text user])
  | None => Did (Log ERROR [Text (py "No session found for user "); Text user])
  end.

(** The attributes once [load_session] has run. *)
Definition with_session (user : str) (s : scene) : FireFlyTelegram :=
  match session (scene_db s) !! user with
  | Some (url, api, account) =>
      set_default_accounts <[user := account]>
        (set_ff_api <[user := api]> (set_ff_url <[user := url]> (scene_bot s)))
  | None => scene_bot s
  end.

(** The attributes once [clear_user_data] and [clear_user_session] have
    run. *)
Definition at_rest (user : str) (b : FireFlyTelegram) : FireFlyTelegram :=
  set_default_accounts (delete user)
    (set_ff_api (delete user)
       (set_ff_url (delete user)
          (set_account_ids (delete user)
             (set_revenue_accounts (delete user)
                (set_expense_accounts (delete user)
                   (set_asset_accounts (delete user)
                      (set_destination_accounts (delete user)
                         (set_source_accounts (delete user)
                            (set_categories (delete user) b))))))))).

Definition session_saved (user : str) : effect :=
  Did (Log DEBUG [Text (py "Session saved for user "); Text user]).

(** What is logged and nothing else. *)
Definition logged (e : effect) : Prop :=
  match e with
  | Did (Log _ _) => True
  | _ => False
  end.

(** The user has a session and a refreshed snapshot in the database. *)
Definition stored (user : str) (row : session_row) (x : snapshot) (s : scene) : Prop :=
  session (scene_db s) !! user = Some row
  ∧ data (scene_db s) !! user = Some (database.row_of x)
  ∧ plain x.

(** The attributes once [load_session] and [load_data] have read them. *)
Definition loaded (user : str) (row : session_row) (x : snapshot)
    (b : FireFlyTelegram) : FireFlyTelegram :=
  set_account_ids <[user := snap_account_ids x]>
    (set_revenue_accounts <[user := snap_revenue_accounts x]>
       (set_expense_accounts <[user := snap_expense_accounts x]>
          (set_asset_accounts <[user := snap_asset_accounts x]>
             (set_destination_accounts <[user := snap_destination_accounts x]>
                (set_source_accounts <[user := snap_source_accounts x]>
                   (set_categories <[user := snap_categories x]>
                      (set_default_accounts <[user := row.2]>
                         (set_ff_api <[user := row.1.2]>
                            (set_ff_url <[user := row.1.1]> b))))))))).

(** What every callback logs first. *)
Definition callback_opening (user data : str) : list effect :=
  [Did (Log DEBUG [Text (py "Session retrieved for user "); Text user]);
   Did (Log DEBUG [Text (py "Data retrieved for user "); Text user]);
   Did (Log DEBUG [Text (py "Processing callback query from user "); Text user;
                   Text (py ": "); Text data])].

(** The four menus. *)
Inductive choice : Type := Category | Asset | Expense | Revenue.

Definition choice_prefix (c : choice) : string :=
  match c with
  | Category => "category_"
  | Asset => "asset_"
  | Expense => "expense_"
  | Revenue => "revenue_"
  end.

(** The fields of the fetched transaction that go into the request as
    they are. *)
Definition copied (tx : gmap str json_value) (keys : list str)
    : list (str * json_value) :=
  omap (λ k, (λ v, (k, v)) <$> tx !! k) keys.

(** The fields an update reads from the fetched transaction. *)
Definition read_fields (c : choice) : list str :=
  match c with
  | Category =>
      [py "type"; py "amount"; py "source_name"; py "destination_name"; py "description"; py "date"]
  | Asset | Revenue =>
      [py "type"; py "amount"; py "destination_id"; py "description"; py "category_name"; py "date"]
  | Expense =>
      [py "type"; py "amount"; py "source_id"; py "description"; py "category_name"; py "date"]
  end.

(** What an update puts to the ledger: [n] is the name chosen and [id]
    the identifier of the account of that name. *)
Definition payload (c : choice) (tx : gmap str json_value) (n id : str)
    : list (str * json_value) :=
  match c with
  | Category =>
      copied tx [py "type"; py "amount"; py "source_name"; py "destination_name"; py "description"]
      ++ [(py "category_name", JString n)] ++ copied tx [py "date"]
  | Asset | Revenue =>
      copied tx [py "type"; py "amount"] ++ [(py "source_id", JString id)]
      ++ copied tx [py "destination_id"; py "description"; py "category_name"; py "date"]
  | Expense =>
      copied tx [py "type"; py "amount"; py "source_id"] ++ [(py "destination_id", JString id)]
      ++ copied tx [py "description"; py "category_name"; py "date"]
  end.

Definition update_log (c : choice) (tid n user : str) : effect :=
  Did (Log INFO [Text (py match c with
                          | Category => "Updating category for transaction "
                          | Asset => "Updating asset account for transaction "
                          | Expense => "Updating expense account for transaction "
                          | Revenue => "Updating revenue account for transaction "
                          end);
                 Text tid; Text (py " to "); Text n; Text (py " for user ");
                 Text user]).

Definition update_error (c : choice) (body : str) : effect :=
  Did (Log ERROR [Text (py match c with
                           | Category => "Error updating transaction category. Response: "
                           | Asset => "Error updating transaction asset. Response: "
                           | Expense => "Error updating transaction expense. Response: "
                           | Revenue => "Error updating transaction revenue. Response: "
                           end);
                  Text body]).

(** How the message is edited once the update is done. *)
Definition shown (c : choice) (chat mid : Z) (msg : str) (markup : keyboard)
    : list effect :=
  match c with
  | Revenue => [EditMessageText chat msg mid None;
                EditMessageReplyMarkup chat mid (Some markup)]
  | _ => [EditMessageText chat msg mid (Some markup)]
  end.

Definition is_put (e : effect) : bool :=
  match e with
  | Put _ _ => true
  | _ => false
  end.

Definition is_log (e : event) : bool :=
  match e with
  | Log _ _ => true
  | _ => false
  end.

(** Alice between two operations: nothing loaded, her rows in the file,
    nothing done yet. *)
Definition alice_waiting : scene := Scene nobody_loaded alice_tables [].

Definition alice_row : session_row := (py "http://ledger/api/v1/", py "key", []).

(** A ledger that deletes what it is asked to. *)
Definition deleting (h : list effect) (url api : str) : outcome Z := Return 204%Z.

(** A deposit as the ledger shows it, before and after its source is
    changed. *)
Definition salary_before : gmap str json_value :=
  list_to_map [(py "type", JString (py "deposit")); (py "amount", JString (py "5"));
               (py "source_id", JString (py "4"));
               (py "destination_id", JString (py "1"));
               (py "description", JString (py "Salary"));
               (py "category_name", JNull);
               (py "date", JString (py "2024-05-01T00:00:00+00:00"))].

Definition salary_after : gmap str json_value :=
  <[py "source_id" := JString (py "1")]> salary_before.

(** A ledger that shows the deposit, changed once something was put. *)
Definition showing (h : list effect) (url api : str) : outcome (gmap str json_value) :=
  Return (if existsb is_put h then salary_after else salary_before).

(** A ledger that refuses every update. *)
Definition refusing (h : list effect) (url api : str) (data : list (str * json_value))
    : outcome response :=
  Return (Response 422 (Return (py "{'message': 'invalid'}"))).

Definition formatted (t : gmap str json_value) : outcome str :=
  Return (py "5.00 Checking -> Checking (None)").

(** * Properties *)

(** ** The matcher against a declarative reading of the pattern *)

Section regex_facts.
Import re.

Lemma star_spec cls s : ∀ pos e,
  In e (star cls pos s) ↔
  ∃ w, Forall (λ c, cls c = true) w ∧ s = w ++ e.2
       ∧ e.1 = (pos + length w)%nat.
Proof.
  induction s as [|c s IH]; intros pos [p' s']; simpl.
  - split.
    + intros [[= <- <-]|[]]. exists []. simpl. split; [constructor|]. split; [done|lia].
    + intros (w & _ & Hw & Hp). destruct w; [|done]. simpl in *. subst. left.
      f_equal. lia.
  - destruct (cls c) eqn:Hc.
    + rewrite in_app_iff, IH. simpl. split.
      * intros [(w & Hf & -> & Hp)|[[= <- <-]|[]]].
        -- exists (c :: w). simpl. split; [by constructor|]. split; [done|lia].
        -- exists []. simpl. split; [constructor|]. split; [done|lia].
      * intros (w & Hf & Hw & Hp). destruct w as [|c' w]; simpl in *.
        -- right. left. subst. f_equal. lia.
        -- left. injection Hw as -> ->. exists w. inversion Hf; subst.
           split; [done|]. split; [done|lia].
    + simpl. split.
      * intros [[= <- <-]|[]]. exists []. simpl. split; [constructor|].
        split; [done|lia].
      * intros (w & Hf & Hw & Hp). destruct w as [|c' w]; simpl in *.
        -- left. subst. f_equal. lia.
        -- injection Hw as -> ->. inversion Hf; subst. congruence.
Qed.

Lemma run_derives r : ∀ st st', In st' (run r st) ↔ derives r st st'.
Proof.
  induction r as [cls|cls|r1 IH1 r2 IH2|i r IH|r IH| |];
    intros [[pos s] g] [[pos' s'] g']; simpl.
  - destruct s as [|c s]; simpl.
    + split; [done|]. by intros (c & ? & _).
    + destruct (cls c) eqn:Hc; simpl.
      * split.
        -- intros [[= <- <- <-]|[]]. exists c. by rewrite Hc.
        -- intros (c' & [= <- <-] & _ & -> & ->). by left.
      * split; [done|]. intros (c' & [= <- <-] & ? & _). congruence.
  - destruct s as [|c s]; simpl.
    + split; [done|]. intros (w & Hne & _ & Hw & _). by destruct w.
    + destruct (cls c) eqn:Hc; simpl.
      * rewrite in_map_iff. split.
        -- intros ([p1 s1] & [= <- <- <-] & Hin).
           apply star_spec in Hin as (w & Hf & -> & Hp). simpl in *.
           exists (c :: w). simpl. split; [done|]. split; [by constructor|].
           split; [done|]. split; [lia|done].
        -- intros (w & Hne & Hf & Hw & -> & ->).
           destruct w as [|c' w]; [done|]. injection Hw as <- ->.
           exists ((pos + length (c :: w))%nat, s'). split; [done|].
           apply star_spec. exists w. inversion Hf; subst. simpl.
           split; [done|]. split; [done|]. lia.
      * split; [done|]. intros (w & Hne & Hf & Hw & _).
        destruct w as [|c' w]; [done|]. injection Hw as <- ->.
        inversion Hf; subst. congruence.
  - rewrite in_flat_map. split.
    + intros (mid & H1 & H2). exists mid. by rewrite <- IH1, <- IH2.
    + intros (mid & H1 & H2). exists mid. by rewrite IH1, IH2.
  - rewrite in_map_iff. split.
    + intros ([[p1 s1] g1] & [= <- <- <-] & Hin). exists g1.
      split; [by apply IH|done].
    + intros (g0 & Hd & ->). exists (pos', s', g0). split; [done|by apply IH].
  - rewrite in_app_iff, IH. simpl. split.
    + intros [?|[<-|[]]]; [by left|by right].
    + intros [?|<-]; [by left|right; by left].
  - destruct pos; simpl.
    + split; [intros [<-|[]]; done|]. intros [_ <-]. by left.
    + split; [done|]. by intros [? _].
  - destruct s as [|c [|c' s]]; simpl.
    + split; [intros [<-|[]]; split; [by left|done]|]. intros [_ <-]. by left.
    + destruct (N.eqb_spec c 0x0a) as [->|Hc]; simpl.
      * split; [intros [<-|[]]; split; [by right|done]|]. intros [_ <-]. by left.
      * split; [done|]. intros [[|[= ?]] _]; done.
    + split; [done|]. intros [[|] _]; done.
Qed.

Lemma match_None r s :
  match_ r s = None ↔ ¬ ∃ st', derives r (O, s, ∅) st'.
Proof.
  unfold match_. destruct (run r (O, s, ∅)) as [|[[p' s'] g'] l] eqn:Hrun.
  - split; [|done]. intros _ [st' Hd]. apply run_derives in Hd.
    rewrite Hrun in Hd. destruct Hd.
  - split; [done|]. intros Hno. exfalso. apply Hno. exists (p', s', g').
    apply run_derives. rewrite Hrun. by left.
Qed.

Lemma match_Some r s g :
  match_ r s = Some g → ∃ pos' s', derives r (O, s, ∅) (pos', s', g).
Proof.
  unfold match_. destruct (run r (O, s, ∅)) as [|[[p' s'] g'] l] eqn:Hrun; [done|].
  intros [= <-]. exists p', s'. apply run_derives. rewrite Hrun. by left.
Qed.

End regex_facts.

(** ** The lines the pattern matches *)

Section pattern_facts.
Import re.

Lemma plus_spec cls p s g p' s' g' :
  derives (Plus cls) (p, s, g) (p', s', g') ↔
  ∃ w, run_of cls w ∧ s = w ++ s' ∧ p' = (p + length w)%nat ∧ g' = g.
Proof.
  simpl. unfold run_of. split.
  - intros (w & ? & ? & ? & ? & ?). by exists w.
  - intros (w & [? ?] & ? & ? & ?). by exists w.
Qed.

Lemma group_plus_spec i cls p s g p' s' g' :
  derives (Group i (Plus cls)) (p, s, g) (p', s', g') ↔
  ∃ w, run_of cls w ∧ s = w ++ s' ∧ p' = (p + length w)%nat
       ∧ g' = <[i := w]> g.
Proof.
  change (derives (Group i (Plus cls)) (p, s, g) (p', s', g')) with
    (∃ g0, derives (Plus cls) (p, s, g) (p', s', g0)
           ∧ g' = <[i := take (p' - p) s]> g0).
  split.
  - intros (g0 & (w & Hw & -> & -> & ->)%plus_spec & ->). exists w.
    replace (p + length w - p)%nat with (length w) by lia.
    by rewrite take_app_length.
  - intros (w & Hw & -> & -> & ->). exists g. split.
    + apply plus_spec. by exists w.
    + replace (p + length w - p)%nat with (length w) by lia.
      by rewrite take_app_length.
Qed.

Lemma token_opt_spec i p s g p' s' g' :
  derives (token_opt i) (p, s, g) (p', s', g') ↔
  (p', s', g') = (p, s, g)
  ∨ ∃ sp w, run_of isspace sp ∧ run_of letter w ∧ s = sp ++ w ++ s'
            ∧ p' = (p + length sp + length w)%nat ∧ g' = <[i := w]> g.
Proof.
  change (derives (token_opt i) (p, s, g) (p', s', g')) with
    ((∃ mid, derives (Plus isspace) (p, s, g) mid
             ∧ derives (Group i (Plus letter)) mid (p', s', g'))
     ∨ (p', s', g') = (p, s, g)).
  split.
  - intros [([[p1 s1] g1] & (sp & Hsp & -> & -> & ->)%plus_spec
             & (w & Hw & -> & -> & ->)%group_plus_spec)|?]; [|by left].
    right. by exists sp, w.
  - intros [?|(sp & w & Hsp & Hw & -> & -> & ->)]; [by right|]. left.
    exists ((p + length sp)%nat, w ++ s', g). split.
    + apply plus_spec. by exists sp.
    + apply group_plus_spec. by exists w.
Qed.

Lemma token_opt_spec' i p s g p' s' g' :
  derives (token_opt i) (p, s, g) (p', s', g') ↔
  ∃ t, token_ok t ∧ s = token_text t ++ s'
       ∧ p' = (p + length (token_text t))%nat ∧ g' = with_group i t g.
Proof.
  rewrite token_opt_spec. split.
  - intros [[= -> -> ->]|(sp & w & Hsp & Hw & -> & -> & ->)].
    + exists None. simpl. split; [done|]. split; [done|]. split; [lia|done].
    + exists (Some (sp, w)). simpl. split; [done|].
      rewrite <- app_assoc, length_app. split; [done|]. split; [lia|done].
  - intros ([[sp w]|] & Hok & -> & -> & ->); simpl in *.
    + right. exists sp, w. destruct Hok.
      rewrite <- app_assoc, length_app.
      split; [done|]. split; [done|]. split; [done|]. split; [lia|done].
    + left. by rewrite Nat.add_0_r.
Qed.

Lemma pattern_spec line s' m :
  (∃ p', derives pattern (O, line, ∅) (p', s', m)) ↔
  ∃ d sp a t3 t4 t5,
    line = d ++ sp ++ a ++ token_text t3 ++ token_text t4 ++ token_text t5 ++ s'
    ∧ run_of desc_char d ∧ run_of isspace sp ∧ run_of amount_char a
    ∧ token_ok t3 ∧ token_ok t4 ∧ token_ok t5
    ∧ (s' = [] ∨ s' = [0x0a])
    ∧ m = with_group 5 t5 (with_group 4 t4 (with_group 3 t3
            (<[2%nat := a]> (<[1%nat := d]> ∅)))).
Proof.
  change (∃ p', derives pattern (O, line, ∅) (p', s', m)) with
    (∃ p' m0, derives Bol (O, line, ∅) m0 ∧
     ∃ m1, derives (Group 1 (Plus desc_char)) m0 m1 ∧
     ∃ m2, derives (Plus isspace) m1 m2 ∧
     ∃ m3, derives (Group 2 (Plus amount_char)) m2 m3 ∧
     ∃ m4, derives (token_opt 3) m3 m4 ∧
     ∃ m5, derives (token_opt 4) m4 m5 ∧
     ∃ m6, derives (token_opt 5) m5 m6 ∧
           derives Eol m6 (p', s', m)).
  split.
  - intros (p' & m0 & [_ ->] & [[p1 s1] g1] & (d & Hd & -> & -> & ->)%group_plus_spec
            & [[p2 s2] g2] & (sp & Hsp & -> & -> & ->)%plus_spec
            & [[p3 s3] g3] & (a & Ha & -> & -> & ->)%group_plus_spec
            & [[p4 s4] g4] & (t3 & H3 & -> & -> & ->)%token_opt_spec'
            & [[p5 s5] g5] & (t4 & H4 & -> & -> & ->)%token_opt_spec'
            & [[p6 s6] g6] & (t5 & H5 & -> & -> & ->)%token_opt_spec'
            & [Hnl [= -> -> ->]]).
    exists d, sp, a, t3, t4, t5. simpl in Hnl.
    do 8 (split; [done|]). done.
  - intros (d & sp & a & t3 & t4 & t5 & -> & Hd & Hsp & Ha & H3 & H4 & H5 & Hnl & ->).
    eexists. eexists. split; [by split|].
    eexists (_, _, _). split; [apply group_plus_spec; by exists d|].
    eexists (_, _, _). split; [apply plus_spec; by exists sp|].
    eexists (_, _, _). split; [apply group_plus_spec; by exists a|].
    eexists (_, _, _). split; [apply token_opt_spec'; by exists t3|].
    eexists (_, _, _). split; [apply token_opt_spec'; by exists t4|].
    eexists (_, _, _). split; [apply token_opt_spec'; by exists t5|].
    split; [done|]. reflexivity.
Qed.

Lemma derives_shape line :
  (∃ st', derives pattern (O, line, ∅) st') ↔ shape line.
Proof.
  split.
  - intros [[[p' s'] m] Hd].
    destruct (proj1 (pattern_spec line s' m)) as
      (d & sp & a & t3 & t4 & t5 & -> & Hd' & Hsp & Ha & H3 & H4 & H5 & Hnl & _);
      [by exists p'|].
    exists d, sp, a, (token_text t3), (token_text t4), (token_text t5), s'.
    assert (Hopt : ∀ t, token_ok t → opt_token (token_text t)).
    { intros [[sp' w]|] Hok; [right; by exists sp', w|by left]. }
    do 4 (split; [done|]). auto.
  - intros (d & sp & a & t3 & t4 & t5 & nl & -> & Hd & Hsp & Ha & H3 & H4 & H5 & Hnl).
    assert (Hopt : ∀ t, opt_token t → ∃ t', token_ok t' ∧ t = token_text t').
    { intros t [->|(sp' & w & -> & ? & ?)]; [by exists None|by exists (Some (sp', w))]. }
    destruct (Hopt _ H3) as (t3' & ? & ->).
    destruct (Hopt _ H4) as (t4' & ? & ->).
    destruct (Hopt _ H5) as (t5' & ? & ->).
    destruct (proj2 (pattern_spec
      (d ++ sp ++ a ++ token_text t3' ++ token_text t4' ++ token_text t5' ++ nl)
      nl (with_group 5 t5' (with_group 4 t4' (with_group 3 t3'
            (<[2%nat := a]> (<[1%nat := d]> ∅))))))) as [p' Hp']; [|by eexists].
    exists d, sp, a, t3', t4', t5'. do 8 (split; [done|]). reflexivity.
Qed.

Lemma match_shape line : match_ pattern line = None ↔ ¬ shape line.
Proof. rewrite match_None. apply not_iff_compat, derives_shape. Qed.

Lemma match_Some_shape line m : match_ pattern line = Some m → shape line.
Proof.
  intros (p' & s' & Hd)%match_Some. apply derives_shape. by eexists.
Qed.

(** The groups a match object holds. *)
Lemma match_groups line m :
  match_ pattern line = Some m →
  ∃ d a,
    group m 1 = Some d ∧ run_of desc_char d
    ∧ group m 2 = Some a ∧ run_of amount_char a
    ∧ ∀ i t, group m i = Some t → (3 ≤ i)%nat → run_of letter t.
Proof.
  intros (p' & s' & Hd)%match_Some.
  destruct (proj1 (pattern_spec line s' m)) as
    (d & sp & a & t3 & t4 & t5 & _ & Hd' & _ & Ha & H3 & H4 & H5 & _ & ->);
    [by exists p'|].
  assert (Hw : ∀ i (t : option (str * str)) (g : groups) j,
             (j < i)%nat → with_group i t g !! j = g !! j).
  { intros i [[? ?]|] g j Hj; simpl; [|done]. apply lookup_insert_ne. lia. }
  exists d, a. unfold group. rewrite !Hw by lia.
  rewrite lookup_insert_ne by done. rewrite lookup_insert_eq.
  rewrite lookup_insert_eq. do 4 (split; [done|]).
  intros i t Hi Hge.
  assert (Hstep : ∀ j (x : option (str * str)) (g : groups),
            token_ok x → with_group j x g !! i = Some t →
            run_of letter t ∨ g !! i = Some t).
  { intros j [[sp' w]|] g Hok; simpl; [|by right].
    destruct Hok as [_ Hok]. rewrite lookup_insert. case_decide.
    - intros [= <-]. by left.
    - by right. }
  destruct (Hstep _ _ _ H5 Hi) as [?|Hi5]; [done|].
  destruct (Hstep _ _ _ H4 Hi5) as [?|Hi4]; [done|].
  destruct (Hstep _ _ _ H3 Hi4) as [?|Hi3]; [done|].
  rewrite !lookup_insert_ne, lookup_empty in Hi3 by lia. done.
Qed.

End pattern_facts.

(** ** The name resolver *)

Ltac run_step :=
  unfold mbind_, try_except, self, get_bot, get_db, set_bot, set_db, lift,
    ret, raise, log, emit; simpl.

Section resolver.
Variable slugify : str -> str.

Lemma index_getitem name : ∀ l,
  (let* i := firefly.index (slugify name) (map slugify l) in firefly.getitem l i)
  = match first_match slugify name l with
    | Some c => Return c
    | None => Raise ValueError
    end.
Proof.
  induction l as [|y l IH]; simpl; [done|].
  unfold first_match in *. simpl. case_bool_decide; simpl; [done|].
  rewrite <- IH. destruct (firefly.index _ _); done.
Qed.

Lemma lookup_name_run table name user w :
  firefly.lookup_name slugify table name user w
  = (match table (bot w) !! user with
     | None => Raise KeyError
     | Some l =>
         match first_match slugify name l with
         | Some c => Return c
         | None => Raise ValueError
         end
     end, w).
Proof.
  unfold firefly.lookup_name. run_step. unfold subscript.
  destruct (table (bot w) !! user) as [l|]; simpl; [|done].
  pose proof (index_getitem name l) as H. unfold bind in H.
  destruct (firefly.index _ _); simpl; rewrite <- H; done.
Qed.

Lemma get_category_run name user w :
  firefly.get_category slugify name user w
  = (resolution slugify CategoryError (categories (bot w)) name user, w).
Proof.
  unfold firefly.get_category, try_except, resolution.
  rewrite lookup_name_run.
  destruct (categories (bot w) !! user); [|done].
  by destruct (first_match _ _ _).
Qed.

Lemma get_source_account_run name user w :
  firefly.get_source_account slugify name user w
  = (resolution slugify SourceError (source_accounts (bot w)) name user, w).
Proof.
  unfold firefly.get_source_account, try_except, resolution.
  rewrite lookup_name_run.
  destruct (source_accounts (bot w) !! user); [|done].
  by destruct (first_match _ _ _).
Qed.

Lemma get_destination_account_run name user w :
  firefly.get_destination_account slugify name user w
  = (resolution slugify DestinationError (destination_accounts (bot w)) name user, w).
Proof.
  unfold firefly.get_destination_account, try_except, resolution.
  rewrite lookup_name_run.
  destruct (destination_accounts (bot w) !! user); [|done].
  by destruct (first_match _ _ _).
Qed.

End resolver.

(** ** What [extract_info] returns, as a function of the attributes *)

Section extract_info_run.
Variable slugify : str -> str.

Lemma resolved_run f not_found table t user otherwise otherwise' w :
  (∀ n w, f n user w = (resolution slugify not_found (table (bot w)) n user, w)) →
  otherwise w = (otherwise', w) →
  firefly.resolved f t user otherwise w
  = (in_role slugify not_found (table (bot w)) t user otherwise', w).
Proof.
  intros Hf Ho. destruct t as [t|]; simpl; [|done].
  run_step. rewrite Hf. by destruct (resolution _ _ _ _ _).
Qed.

Lemma default_account_run user w :
  firefly.default_account user w = (configured_default (bot w) user, w).
Proof.
  unfold firefly.default_account, configured_default. run_step.
  by destruct (subscript _ _).
Qed.

Lemma mbind_Return {A B} (m : M A) (k : A → M B) w b w' :
  mbind_ m k w = (Return b, w') →
  ∃ a w1, m w = (Return a, w1) ∧ k a w1 = (Return b, w').
Proof.
  unfold mbind_. destruct (m w) as [[a|e|] w1]; try done. by exists a, w1.
Qed.

Lemma mbind_run {A B} (m : M A) (k : A → M B) w r w' :
  m w = (r, w') →
  mbind_ m k w = match r with
                 | Return a => k a w'
                 | Raise e => (Raise e, w')
                 | Beyond => (Beyond, w')
                 end.
Proof. unfold mbind_. by intros ->. Qed.

Lemma roles_run f4 f5 e4 e5 tb4 tb5 t4 t5 user
    (k : option str → option str → option str * option str) w :
  (∀ n w, f4 n user w = (resolution slugify e4 (tb4 (bot w)) n user, w)) →
  (∀ n w, f5 n user w = (resolution slugify e5 (tb5 (bot w)) n user, w)) →
  (x <- firefly.resolved f4 t4 user (firefly.default_account user) ;;
   y <- firefly.resolved f5 t5 user (ret None) ;;
   ret (k x y)) w
  = (let* x := in_role slugify e4 (tb4 (bot w)) t4 user (configured_default (bot w) user) in
     let* y := in_role slugify e5 (tb5 (bot w)) t5 user (Return None) in
     Return (k x y), w).
Proof.
  intros H4 H5.
  erewrite mbind_run by (eapply resolved_run; [apply H4|apply default_account_run]).
  destruct (in_role _ e4 _ _ _ _); simpl; try done.
  erewrite mbind_run by (eapply resolved_run; [apply H5|reflexivity]).
  by destruct (in_role _ e5 _ _ _ _).
Qed.

Lemma extract_info_run line user w :
  firefly.extract_info slugify line user w
  = (parse_result slugify (bot w) line user, after w (entering line)).
Proof.
  unfold firefly.extract_info, parse_result.
  erewrite mbind_run by reflexivity. simpl.
  fold (after w (entering line)). set (w1 := after w (entering line)).
  change (bot w) with (bot w1).
  destruct (re.match_ pattern line) as [m|]; [|done].
  erewrite mbind_run by reflexivity.
  destruct (firefly.some_or AttributeError _) as [g1| |]; simpl; try done.
  erewrite mbind_run by reflexivity.
  destruct (firefly.some_or TypeError _) as [g2| |]; simpl; try done.
  erewrite mbind_run by reflexivity.
  destruct (firefly.some_or IndexError _) as [c| |]; simpl; try done.
  destruct (c =? 43).
  - erewrite mbind_run by
      (apply (roles_run _ _ DestinationError SourceError destination_accounts
                source_accounts _ _ _ (λ d s, (s, d)));
       intros; [apply get_destination_account_run|apply get_source_account_run]).
    destruct (in_role _ DestinationError _ _ _ _) as [d| |]; simpl; try done.
    destruct (in_role _ SourceError _ _ _ _) as [s| |]; simpl; try done.
    erewrite mbind_run by reflexivity.
    destruct (models.safe_math_eval g2) as [n| |]; simpl; try done.
    erewrite mbind_run by
      (eapply (resolved_run _ CategoryError categories);
       [intros; apply get_category_run|reflexivity]).
    destruct (in_role _ CategoryError _ _ _ _) as [cat| |]; simpl; try done.
    erewrite mbind_run by reflexivity.
    by destruct (subscript _ _).
  - erewrite mbind_run by
      (apply (roles_run _ _ SourceError DestinationError source_accounts
                destination_accounts _ _ _ (λ s d, (s, d)));
       intros; [apply get_source_account_run|apply get_destination_account_run]).
    destruct (in_role _ SourceError _ _ _ _) as [s| |]; simpl; try done.
    destruct (in_role _ DestinationError _ _ _ _) as [d| |]; simpl; try done.
    erewrite mbind_run by reflexivity.
    destruct (models.safe_math_eval g2) as [n| |]; simpl; try done.
    erewrite mbind_run by
      (eapply (resolved_run _ CategoryError categories);
       [intros; apply get_category_run|reflexivity]).
    destruct (in_role _ CategoryError _ _ _ _) as [cat| |]; simpl; try done.
    erewrite mbind_run by reflexivity.
    by destruct (subscript _ _).
Qed.

End extract_info_run.

(** ** A user for the examples *)

Section parser.
Variable slugify : str -> str.

Lemma in_role_Return not_found table t user otherwise x :
  in_role slugify not_found table t user otherwise = Return x →
  match t with
  | Some t => ∃ c, x = Some c ∧ table !! user ≫= first_match slugify t = Some c
  | None => otherwise = Return x
  end.
Proof.
  destruct t as [t|]; simpl; [|done]. unfold resolution.
  destruct (table !! user) as [l|]; simpl; [|done].
  destruct (first_match slugify t l) as [c|]; simpl; [|done].
  intros [= <-]. by exists c.
Qed.

Lemma in_role_Raise not_found table t user otherwise e :
  in_role slugify not_found table t user otherwise = Raise e →
  e = not_found ∨ e = StartError ∨ otherwise = Raise e.
Proof.
  destruct t as [t|]; simpl; [|by auto]. unfold resolution.
  destruct (table !! user) as [l|]; simpl; [|intros [= <-]; by auto].
  destruct (first_match slugify t l) as [c|]; simpl; [done|].
  intros [= <-]. by auto.
Qed.

Lemma in_role_not_Beyond not_found table t user otherwise :
  in_role slugify not_found table t user otherwise = Beyond → otherwise = Beyond.
Proof.
  destruct t as [t|]; simpl; [|done]. unfold resolution.
  destruct (table !! user) as [l|]; simpl; [|done].
  by destruct (first_match slugify t l).
Qed.

(** What a returned transaction was made from. *)
Lemma parse_result_Some b line user tx :
  parse_result slugify b line user = Return (Some tx) →
  ∃ m g1 g2 c assets,
    re.match_ pattern line = Some m
    ∧ re.group m 1 = Some g1 ∧ re.group m 2 = Some g2 ∧ head g2 = Some c
    ∧ description tx = strip g1
    ∧ models.safe_math_eval g2 = Return (number tx)
    ∧ in_role slugify CategoryError (categories b) (re.group m 3) user (Return None)
      = Return (category tx)
    ∧ (if c =? 0x2b then
         in_role slugify DestinationError (destination_accounts b) (re.group m 4)
                 user (configured_default b user) = Return (destination tx)
         ∧ in_role slugify SourceError (source_accounts b) (re.group m 5)
                   user (Return None) = Return (source tx)
       else
         in_role slugify SourceError (source_accounts b) (re.group m 4)
                 user (configured_default b user) = Return (source tx)
         ∧ in_role slugify DestinationError (destination_accounts b) (re.group m 5)
                   user (Return None) = Return (destination tx))
    ∧ asset_accounts b !! user = Some assets
    ∧ type tx = classify (source tx) (destination tx) assets.
Proof.
  unfold parse_result.
  destruct (re.match_ pattern line) as [m|]; [|done].
  destruct (re.group m 1) as [g1|] eqn:H1; simpl; [|done].
  destruct (re.group m 2) as [g2|] eqn:H2; simpl; [|done].
  destruct (head g2) as [c|] eqn:Hc; simpl; [|done].
  intros H. exists m, g1, g2, c.
  destruct (c =? 43) eqn:Hplus.
  - destruct (in_role _ DestinationError _ _ _ _) as [d| |] eqn:Hd; simpl in H; try done.
    destruct (in_role _ SourceError _ _ _ _) as [s| |] eqn:Hs; simpl in H; try done.
    destruct (models.safe_math_eval g2) as [n| |] eqn:Hn; simpl in H; try done.
    destruct (in_role _ CategoryError _ _ _ _) as [cat| |] eqn:Hcat; simpl in H; try done.
    unfold subscript in H.
    destruct (asset_accounts b !! user) as [assets|] eqn:Ha; simpl in H; [|done].
    injection H as <-. exists assets. simpl. by repeat split.
  - destruct (in_role _ SourceError _ _ _ _) as [s| |] eqn:Hs; simpl in H; try done.
    destruct (in_role _ DestinationError _ _ _ _) as [d| |] eqn:Hd; simpl in H; try done.
    destruct (models.safe_math_eval g2) as [n| |] eqn:Hn; simpl in H; try done.
    destruct (in_role _ CategoryError _ _ _ _) as [cat| |] eqn:Hcat; simpl in H; try done.
    unfold subscript in H.
    destruct (asset_accounts b !! user) as [assets|] eqn:Ha; simpl in H; [|done].
    injection H as <-. exists assets. simpl. by repeat split.
Qed.

Lemma py_in_is_asset x assets :
  firefly.py_in x assets = true ↔ is_asset x assets.
Proof.
  unfold firefly.py_in, is_asset. destruct x as [s|].
  - rewrite bool_decide_eq_true. split.
    + intros ?. by exists s.
    + by intros (? & [= <-] & ?).
  - split; [done|]. by intros (? & ? & _).
Qed.

End parser.

Section parsed_transactions.
Variable slugify : str -> str.

Lemma first_match_Some name l c :
  first_match slugify name l = Some c
  ↔ first_with (λ x, slugify x = slugify name) l c.
Proof.
  unfold first_match, first_with. induction l as [|y l IH]; simpl.
  - split; [done|]. intros (l1 & l2 & H & _). by destruct l1.
  - case_bool_decide as Hy.
    + split.
      * intros [= <-]. exists [], l. by repeat split.
      * intros ([|z l1] & l2 & H & Hc & Hl1); simpl in H.
        -- by injection H as ->.
        -- injection H as -> ->. by inversion Hl1.
    + rewrite IH. split.
      * intros (l1 & l2 & -> & Hc & Hl1). exists (y :: l1), l2.
        split; [done|]. split; [done|]. by constructor.
      * intros ([|z l1] & l2 & H & Hc & Hl1); simpl in H.
        -- injection H as -> ->. done.
        -- injection H as -> ->. exists l1, l2. by inversion Hl1.
Qed.

Lemma first_match_None name l :
  first_match slugify name l = None
  ↔ Forall (λ x, slugify x ≠ slugify name) l.
Proof.
  unfold first_match. induction l as [|y l IH]; simpl.
  - split; [by constructor|done].
  - case_bool_decide as Hy.
    + split; [done|]. by inversion 1.
    + rewrite IH. split; [by constructor|by inversion 1].
Qed.

Lemma resolution_resolves f table not_found :
  not_found ≠ StartError →
  (∀ name user w,
     f name user w = (resolution slugify not_found (table (bot w)) name user, w)) →
  resolves slugify f table not_found.
Proof.
  intros Hne Hf name user w. rewrite Hf. simpl. split; [done|].
  unfold resolution. destruct (table (bot w) !! user) as [l|]; [|done].
  destruct (first_match slugify name l) as [c|] eqn:Hfm.
  - split; [|split].
    + intros c'. rewrite <- first_match_Some, Hfm. split; congruence.
    + rewrite <- first_match_None, Hfm. split; [done|done].
    + left. by exists c.
  - split; [|split].
    + intros c'. rewrite <- first_match_Some, Hfm. split; [done|done].
    + rewrite <- first_match_None. split; [done|done].
    + by right.
Qed.

(** C5. Name resolution returns the first candidate whose slug equals
    the token's slug; when the user's list is present and holds no such
    candidate (the empty list included) it fails with the error of its
    role, [CategoryError], [SourceError] or [DestinationError], and not
    with [StartError]; it fails with [StartError] exactly when the user
    has no list. *)
Theorem name_resolution :
  resolves slugify (firefly.get_category slugify) categories CategoryError
  ∧ resolves slugify (firefly.get_source_account slugify) source_accounts SourceError
  ∧ resolves slugify (firefly.get_destination_account slugify)
             destination_accounts DestinationError.
Proof.
  split; [|split]; apply resolution_resolves; try done; intros.
  - apply get_category_run.
  - apply get_source_account_run.
  - apply get_destination_account_run.
Qed.

(** C1, as amended. The amount of a returned transaction is the value
    of the whole amount expression, its leading sign included, as
    [safe_math_eval] gives it: no absolute value is taken. *)
Theorem amount_is_the_evaluated_expression line user w tx w' :
  firefly.extract_info slugify line user w = (Return (Some tx), w') →
  ∃ m amount,
    re.match_ pattern line = Some m
    ∧ re.group m 2 = Some amount
    ∧ models.safe_math_eval amount = Return (number tx).
Proof.
  rewrite extract_info_run. intros [= H _].
  apply parse_result_Some in H
    as (m & g1 & g2 & c & assets & Hm & _ & H2 & _ & _ & Hn & _).
  by exists m, g2.
Qed.

Lemma role_with_default not_found table t user b x :
  in_role slugify not_found table t user (configured_default b user) = Return x →
  x = assigned slugify table user t (default_accounts b !! user).
Proof.
  intros H%in_role_Return. destruct t as [t|].
  - destruct H as (c & -> & Hc). simpl. by rewrite Hc.
  - simpl. unfold configured_default, subscript in H.
    destruct (default_accounts b !! user); simpl in H; [|done]. by injection H.
Qed.

Lemma role_without_default not_found table t user x :
  in_role slugify not_found table t user (Return None) = Return x →
  x = assigned slugify table user t None.
Proof.
  intros H%in_role_Return. destruct t as [t|].
  - destruct H as (c & -> & Hc). simpl. by rewrite Hc.
  - simpl. by injection H.
Qed.

(** C2. In a returned transaction the third token, when present, is the
    category it resolves to; when the amount expression starts with '+'
    the fourth token resolves against the destination accounts, the
    user's default account standing in when it is absent, and the fifth
    against the source accounts, with no source when it is absent;
    otherwise the two roles are swapped. *)
Theorem sign_rule line user w tx w' :
  firefly.extract_info slugify line user w = (Return (Some tx), w') →
  ∃ m amount first,
    re.match_ pattern line = Some m
    ∧ re.group m 2 = Some amount ∧ head amount = Some first
    ∧ category tx
      = assigned slugify (categories (bot w)) user (re.group m 3) None
    ∧ if first =? 0x2b then
        destination tx
        = assigned slugify (destination_accounts (bot w)) user (re.group m 4)
                   (default_accounts (bot w) !! user)
        ∧ source tx
          = assigned slugify (source_accounts (bot w)) user (re.group m 5) None
      else
        source tx
        = assigned slugify (source_accounts (bot w)) user (re.group m 4)
                   (default_accounts (bot w) !! user)
        ∧ destination tx
          = assigned slugify (destination_accounts (bot w)) user (re.group m 5) None.
Proof.
  rewrite extract_info_run. intros [= H _].
  apply parse_result_Some in H
    as (m & g1 & g2 & c & assets & Hm & _ & H2 & Hc & _ & _ & Hcat & Hsd & _).
  exists m, g2, c. do 3 (split; [done|]).
  split; [by apply role_without_default in Hcat|].
  destruct (c =? 43); destruct Hsd as [H4 H5];
    apply role_with_default in H4; apply role_without_default in H5; done.
Qed.

Lemma classify_spec s d assets :
  (classify s d assets = withdrawal ↔ is_asset s assets ∧ ¬ is_asset d assets)
  ∧ (classify s d assets = deposit ↔ ¬ is_asset s assets ∧ is_asset d assets)
  ∧ (classify s d assets = transfer
     ↔ (is_asset s assets ∧ is_asset d assets)
       ∨ (¬ is_asset s assets ∧ ¬ is_asset d assets)).
Proof.
  unfold classify. rewrite <- !py_in_is_asset.
  destruct (firefly.py_in s assets), (firefly.py_in d assets); simpl;
    repeat split; try done; try tauto; intuition congruence.
Qed.

(** C3. The kind of a returned transaction is 'withdrawal' exactly when
    its source is one of the user's asset accounts and its destination
    is not, 'deposit' exactly when its source is not and its destination
    is, and 'transfer' in the two remaining cases. *)
Theorem kind_of_a_parsed_transaction line user w tx w' :
  firefly.extract_info slugify line user w = (Return (Some tx), w') →
  ∃ assets,
    asset_accounts (bot w) !! user = Some assets
    ∧ (type tx = withdrawal
       ↔ is_asset (source tx) assets ∧ ¬ is_asset (destination tx) assets)
    ∧ (type tx = deposit
       ↔ ¬ is_asset (source tx) assets ∧ is_asset (destination tx) assets)
    ∧ (type tx = transfer
       ↔ (is_asset (source tx) assets ∧ is_asset (destination tx) assets)
         ∨ (¬ is_asset (source tx) assets ∧ ¬ is_asset (destination tx) assets)).
Proof.
  rewrite extract_info_run. intros [= H _].
  apply parse_result_Some in H
    as (m & g1 & g2 & c & assets & _ & _ & _ & _ & _ & _ & _ & _ & Ha & ->).
  exists assets. split; [done|]. apply classify_spec.
Qed.

End parsed_transactions.

Lemma coffee_parsed :
  (firefly.extract_info ascii_slug (py "Coffee 4.5 Food Checking") alice alice_ready).1
  = Return (Some coffee).
Proof. vm_compute. reflexivity. Qed.

Lemma salary_parsed :
  (firefly.extract_info ascii_slug (py "Salary +1500 Income Checking") alice alice_ready).1
  = Return (Some salary).
Proof. vm_compute. reflexivity. Qed.

Lemma amount_is_the_evaluated_expression_witness :
  ∃ m amount,
    re.match_ pattern (py "Coffee 4.5 Food Checking") = Some m
    ∧ re.group m 2 = Some amount
    ∧ models.safe_math_eval amount = Return (number coffee).
Proof.
  eapply (amount_is_the_evaluated_expression ascii_slug
            (py "Coffee 4.5 Food Checking") alice alice_ready coffee).
  vm_compute. reflexivity.
Defined.

(** C1, as stated, fails: the amount of "Coffee -5" is -5. *)
Lemma amount_keeps_its_sign :
  ∃ tx w',
    firefly.extract_info ascii_slug (py "Coffee -5") alice alice_ready
    = (Return (Some tx), w')
    ∧ models.safe_math_eval (py "-5") = Return (pyeval.VInt (-5))
    ∧ number tx = pyeval.VInt (-5)
    ∧ number tx ≠ absolute (pyeval.VInt (-5)).
Proof.
  eexists. eexists. split; [vm_compute; reflexivity|].
  split; [vm_compute; reflexivity|]. split; [reflexivity|]. simpl. discriminate.
Qed.

Lemma sign_rule_witness :
  ∃ m amount first,
    re.match_ pattern (py "Salary +1500 Income Checking") = Some m
    ∧ re.group m 2 = Some amount ∧ head amount = Some first
    ∧ category salary
      = assigned ascii_slug (categories (bot alice_ready)) alice (re.group m 3) None
    ∧ if first =? 0x2b then
        destination salary
        = assigned ascii_slug (destination_accounts (bot alice_ready)) alice (re.group m 4)
                   (default_accounts (bot alice_ready) !! alice)
        ∧ source salary
          = assigned ascii_slug (source_accounts (bot alice_ready)) alice (re.group m 5) None
      else
        source salary
        = assigned ascii_slug (source_accounts (bot alice_ready)) alice (re.group m 4)
                   (default_accounts (bot alice_ready) !! alice)
        ∧ destination salary
          = assigned ascii_slug (destination_accounts (bot alice_ready)) alice (re.group m 5) None.
Proof.
  eapply (sign_rule ascii_slug (py "Salary +1500 Income Checking")
            alice alice_ready salary).
  vm_compute. reflexivity.
Defined.

Lemma kind_of_a_parsed_transaction_witness :
  ∃ assets,
    asset_accounts (bot alice_ready) !! alice = Some assets
    ∧ (type coffee = withdrawal
       ↔ is_asset (source coffee) assets ∧ ¬ is_asset (destination coffee) assets)
    ∧ (type coffee = deposit
       ↔ ¬ is_asset (source coffee) assets ∧ is_asset (destination coffee) assets)
    ∧ (type coffee = transfer
       ↔ (is_asset (source coffee) assets ∧ is_asset (destination coffee) assets)
         ∨ (¬ is_asset (source coffee) assets ∧ ¬ is_asset (destination coffee) assets)).
Proof.
  eapply (kind_of_a_parsed_transaction ascii_slug (py "Coffee 4.5 Food Checking")
            alice alice_ready coffee).
  vm_compute. reflexivity.
Defined.

Section parse_failures.
Variable slugify : str -> str.
Variable http_post : str -> str -> transaction -> outcome posted.

Lemma configured_default_Raise b user e :
  is_Some (default_accounts b !! user) → configured_default b user ≠ Raise e.
Proof.
  intros [a Ha]. unfold configured_default, subscript. by rewrite Ha.
Qed.

(** Where an exception of [extract_info] comes from, for a user whose
    default account and asset accounts are loaded. *)
Lemma parse_result_Raise b line user e :
  parse_result slugify b line user = Raise e →
  is_Some (default_accounts b !! user) →
  is_Some (asset_accounts b !! user) →
  typed e
  ∨ ∃ m amount,
      re.match_ pattern line = Some m ∧ re.group m 2 = Some amount
      ∧ models.safe_math_eval amount = Raise e.
Proof.
  unfold parse_result. intros H Hdef [assets Hassets].
  destruct (re.match_ pattern line) as [m|] eqn:Hm; [|done].
  destruct (match_groups _ _ Hm) as (d & a & H1 & _ & H2 & [Hne _] & _).
  rewrite H1, H2 in H. simpl in H.
  destruct a as [|c a]; [done|]. simpl in H.
  assert (Hrole : ∀ nf tb t fb x,
            in_role slugify nf tb t user fb = Raise x →
            (nf = SourceError ∨ nf = DestinationError ∨ nf = CategoryError) →
            fb ≠ Raise x → typed x).
  { intros nf tb t fb x Hx Hnf Hfb.
    apply in_role_Raise in Hx as [->|[->|?]]; unfold typed; [tauto|tauto|done]. }
  assert (Hsd : ∀ nf4 tb4 nf5 tb5 (k : option str → option str → option str * option str)
                  (rest : option str * option str → outcome (option transaction)),
            (nf4 = SourceError ∨ nf4 = DestinationError ∨ nf4 = CategoryError) →
            (nf5 = SourceError ∨ nf5 = DestinationError ∨ nf5 = CategoryError) →
            (let* sd := (let* x := in_role slugify nf4 tb4 (re.group m 4) user
                                           (configured_default b user) in
                         let* y := in_role slugify nf5 tb5 (re.group m 5) user
                                           (Return None) in
                         Return (k x y)) in rest sd) = Raise e →
            typed e ∨ ∃ sd, rest sd = Raise e).
  { intros nf4 tb4 nf5 tb5 k rest Hn4 Hn5 Hr.
    destruct (in_role slugify nf4 _ _ _ _) as [x| |] eqn:H4; simpl in Hr; try done.
    - destruct (in_role slugify nf5 _ _ _ _) as [y| |] eqn:H5; simpl in Hr; try done.
      + right. by eexists.
      + injection Hr as ->. left. by eapply Hrole.
    - injection Hr as ->. left. eapply Hrole; [done|done|].
      by apply configured_default_Raise. }
  assert (Hrest : ∀ sd : option str * option str,
            (let* number := models.safe_math_eval (c :: a) in
             let* category := in_role slugify CategoryError (categories b)
                                      (re.group m 3) user (Return None) in
             let* assets := subscript (asset_accounts b) user in
             Return (Some (Transaction (strip d) number category sd.1 sd.2
                                       (classify sd.1 sd.2 assets)))) = Raise e →
            typed e ∨ models.safe_math_eval (c :: a) = Raise e).
  { intros sd Hr.
    destruct (models.safe_math_eval (c :: a)) as [n| |]; simpl in Hr; try done.
    - destruct (in_role slugify CategoryError _ _ _ _) as [cat| |] eqn:Hcat;
        simpl in Hr; try done.
      + unfold subscript in Hr. by rewrite Hassets in Hr.
      + injection Hr as ->. left. eapply Hrole; [done|auto|done].
    - right. by injection Hr as ->. }
  destruct (c =? 43).
  - apply (Hsd DestinationError _ SourceError _ (λ d s, (s, d))) in H
      as [?|[sd Hsd']]; [by left| |by auto|by auto].
    apply Hrest in Hsd' as [?|?]; [by left|]. right. by exists m, (c :: a).
  - apply (Hsd SourceError _ DestinationError _ (λ s d, (s, d))) in H
      as [?|[sd Hsd']]; [by left| |by auto|by auto].
    apply Hrest in Hsd' as [?|?]; [by left|]. right. by exists m, (c :: a).
Qed.

Lemma typed_is_caught e :
  typed e ↔ is_Some (handlers.echo_all_except e).
Proof.
  unfold typed. split.
  - intros [-> | [-> | [-> | ->]]]; by eexists.
  - destruct e; simpl; intros [? ?]; try done; tauto.
Qed.

Lemma reply_names_its_class e1 e2 x1 x2 reply :
  handlers.echo_all_except e1 = Some (x1, reply) →
  handlers.echo_all_except e2 = Some (x2, reply) →
  e1 = e2.
Proof.
  destruct e1; simpl; try done; destruct e2; simpl; try done;
    intros [= <- <-] [= _ H]; try reflexivity; vm_compute in H; discriminate.
Qed.

(** C4, as amended. When parsing a line raises, for a user whose default
    account and asset accounts are loaded: either the exception is one
    of [CategoryError], [SourceError], [DestinationError], [StartError],
    and the chat handler catches it, logs it and sends the one reply
    that belongs to that class; or it is the exception the evaluator
    raised on the amount expression, which is of none of these classes
    and leaves the handler uncaught, with nothing sent. *)
Theorem parse_failures message user w e w1 :
  firefly.extract_info slugify (text message) user w = (Raise e, w1) →
  is_Some (default_accounts (bot w) !! user) →
  is_Some (asset_accounts (bot w) !! user) →
  match handlers.echo_all_except e with
  | Some (logged, reply) =>
      typed e
      ∧ handlers.echo_all_try slugify http_post message user w
        = (Return tt,
           after (after w1 (Log ERROR [Text logged]))
                 (SendMessage (ChatId (chat_id message)) reply None))
      ∧ ∀ e' x, handlers.echo_all_except e' = Some (x, reply) → e' = e
  | None =>
      ¬ typed e
      ∧ (∃ m amount,
           re.match_ pattern (text message) = Some m
           ∧ re.group m 2 = Some amount
           ∧ models.safe_math_eval amount = Raise e)
      ∧ handlers.echo_all_try slugify http_post message user w = (Raise e, w1)
  end.
Proof.
  intros Hex Hdef Hassets.
  assert (Hbody : handlers.echo_all_try slugify http_post message user w
                  = match handlers.echo_all_except e with
                    | Some (logged, reply) =>
                        (Return tt,
                         after (after w1 (Log ERROR [Text logged]))
                               (SendMessage (ChatId (chat_id message)) reply None))
                    | None => (Raise e, w1)
                    end).
  { unfold handlers.echo_all_try, try_except.
    erewrite mbind_run by apply Hex. cbv beta iota.
    destruct (handlers.echo_all_except e) as [[? ?]|]; reflexivity. }
  rewrite extract_info_run in Hex. injection Hex as Hex _.
  apply parse_result_Raise in Hex as [Hty|Heval]; [| |done|done].
  - pose proof (proj1 (typed_is_caught e) Hty) as [[logged reply] Hc].
    rewrite Hc in *. split; [done|]. split; [done|].
    intros e' x He'. by eapply reply_names_its_class.
  - destruct (handlers.echo_all_except e) as [[logged reply]|] eqn:Hc.
    + split; [apply typed_is_caught; by rewrite Hc|]. split; [done|].
      intros e' x He'. by eapply reply_names_its_class.
    + split; [|by split]. rewrite typed_is_caught, Hc. by intros [? ?].
Qed.

End parse_failures.

Lemma parse_failures_witness :
  typed CategoryError
  ∧ handlers.echo_all_try ascii_slug accepting (says "Coffee 5 Nope") alice alice_ready
    = (Return tt,
       after (after (after alice_ready (entering (py "Coffee 5 Nope")))
                    (Log ERROR [Text (py "Category not found. Please update before.")]))
             (SendMessage (ChatId 5)
                (py "Add the category to FireFlyIII and run /update before!") None))
  ∧ ∀ e' x, handlers.echo_all_except e'
            = Some (x, py "Add the category to FireFlyIII and run /update before!")
            → e' = CategoryError.
Proof.
  apply (parse_failures ascii_slug accepting (says "Coffee 5 Nope") alice alice_ready
           CategoryError (after alice_ready (entering (py "Coffee 5 Nope")))).
  - vm_compute. reflexivity.
  - by eexists.
  - by eexists.
Defined.

(** C4, as stated, fails: a division by zero in the amount is of no typed
    class, is caught by no clause, and ends the handler with nothing sent. *)
Lemma bad_amount_escapes :
  ∃ w',
    handlers.echo_all ascii_slug accepting (says "Coffee 1/0") alice_at_rest
    = (Raise ZeroDivisionError, w')
    ∧ ¬ typed ZeroDivisionError
    ∧ handlers.echo_all_except ZeroDivisionError = None
    ∧ List.filter sent (trace w') = [].
Proof.
  eexists. split; [vm_compute; reflexivity|]. split.
  - unfold typed. intros [|[|[|]]]; done.
  - split; reflexivity.
Qed.

(** The same handler for a user who never ran /start: the missing default
    account surfaces as a [KeyError], not as [StartError]. *)
Lemma unstarted_user_escapes :
  ∃ w',
    handlers.echo_all ascii_slug accepting (says "Coffee 5") (World nobody_loaded empty_tables [])
    = (Raise KeyError, w')
    ∧ List.filter sent (trace w') = [].
Proof. eexists. split; [vm_compute; reflexivity|reflexivity]. Qed.

Section strip_facts.

Lemma lstrip_suffix s : ∃ sp, s = sp ++ lstrip s.
Proof.
  induction s as [|c s [sp IH]]; simpl; [by exists []|].
  destruct (isspace c); [|by exists []].
  exists (c :: sp). simpl. by rewrite <- IH.
Qed.

Lemma lstrip_head s c : head (lstrip s) = Some c → isspace c = false.
Proof.
  induction s as [|x s IH]; simpl; [done|].
  destruct (isspace x) eqn:Hx; [done|]. simpl. by intros [= <-].
Qed.

Lemma rstrip_prefix s : ∃ sp, s = rstrip s ++ sp.
Proof.
  unfold rstrip. destruct (lstrip_suffix (rev s)) as [sp H].
  exists (rev sp). rewrite <- rev_app_distr, <- H. by rewrite rev_involutive.
Qed.

Lemma rstrip_last s c : last (rstrip s) = Some c → isspace c = false.
Proof.
  unfold rstrip. destruct (lstrip (rev s)) as [|x l] eqn:Hl; simpl; [done|].
  rewrite last_snoc. intros [= <-]. apply (lstrip_head (rev s)). by rewrite Hl.
Qed.

Lemma strip_trimmed d :
  Forall (λ c, desc_char c = true) d → trimmed_words (strip d).
Proof.
  intros Hd. unfold strip.
  destruct (lstrip_suffix d) as [sp1 H1].
  destruct (rstrip_prefix (lstrip d)) as [sp2 H2].
  split; [|split].
  - rewrite H1, H2 in Hd. apply Forall_app in Hd as [_ Hd].
    by apply Forall_app in Hd as [Hd _].
  - intros c Hc. apply (lstrip_head d). rewrite H2.
    destruct (rstrip (lstrip d)); [done|]. done.
  - apply rstrip_last.
Qed.

End strip_facts.

Section no_match.
Variable slugify : str -> str.

Lemma parse_result_None b line user :
  parse_result slugify b line user = Return None
  ↔ re.match_ pattern line = None.
Proof.
  unfold parse_result. destruct (re.match_ pattern line) as [m|]; [|done].
  split; [|done]. intros H. exfalso.
  destruct (firefly.some_or AttributeError _) as [g1| |]; simpl in H; try done.
  destruct (firefly.some_or TypeError _) as [g2| |]; simpl in H; try done.
  destruct (firefly.some_or IndexError _) as [c| |]; simpl in H; try done.
  destruct (c =? 43).
  - destruct (in_role _ DestinationError _ _ _ _) as [d| |]; simpl in H; try done.
    destruct (in_role _ SourceError _ _ _ _) as [s| |]; simpl in H; try done.
    destruct (models.safe_math_eval g2) as [n| |]; simpl in H; try done.
    destruct (in_role _ CategoryError _ _ _ _) as [cat| |]; simpl in H; try done.
    by destruct (subscript _ _).
  - destruct (in_role _ SourceError _ _ _ _) as [s| |]; simpl in H; try done.
    destruct (in_role _ DestinationError _ _ _ _) as [d| |]; simpl in H; try done.
    destruct (models.safe_math_eval g2) as [n| |]; simpl in H; try done.
    destruct (in_role _ CategoryError _ _ _ _) as [cat| |]; simpl in H; try done.
    by destruct (subscript _ _).
Qed.

(** C7, as amended. [extract_info] returns [None] for exactly the lines
    that are not of the pattern's shape: a non-empty run of letters
    (a-z, A-Z, U+00C0 to U+00FF) and whitespace, then whitespace, then a
    non-empty run of digits and . + - * / ( ), then up to three tokens,
    each whitespace and a word of letters, then possibly one newline;
    "just words no amount" is such a line; and the description of an
    accepted line is made of letters and whitespace with none at either
    end, so of zero or more words. *)
Theorem no_match_for_other_shapes line user w :
  ((firefly.extract_info slugify line user w).1 = Return None ↔ ¬ shape line)
  ∧ (firefly.extract_info slugify (py "just words no amount") user w).1
    = Return None
  ∧ ∀ tx, (firefly.extract_info slugify line user w).1 = Return (Some tx) →
          shape line ∧ trimmed_words (description tx).
Proof.
  rewrite !extract_info_run. simpl. split; [|split].
  - by rewrite parse_result_None, match_shape.
  - by apply parse_result_None.
  - intros tx H. split.
    + destruct (re.match_ pattern line) as [m|] eqn:Hm.
      * by eapply match_Some_shape.
      * apply (parse_result_None (bot w) line user) in Hm. congruence.
    + apply parse_result_Some in H
        as (m & g1 & g2 & c & assets & Hm & H1 & _ & _ & -> & _).
      destruct (match_groups _ _ Hm) as (d & a & H1' & [_ Hd] & _).
      rewrite H1 in H1'. injection H1' as ->. by apply strip_trimmed.
Qed.

End no_match.

Lemma no_match_for_other_shapes_witness :
  shape (py "Coffee 4.5 Food Checking") ∧ trimmed_words (description coffee).
Proof.
  apply (no_match_for_other_shapes ascii_slug (py "Coffee 4.5 Food Checking")
           alice alice_ready).
  vm_compute. reflexivity.
Defined.

(** C7, as stated, fails: a line of two spaces and an amount is accepted,
    and its description is empty. *)
Lemma blank_description_accepted :
  ∃ tx w',
    firefly.extract_info ascii_slug (py "  5") alice alice_ready
    = (Return (Some tx), w')
    ∧ description tx = [].
Proof. eexists. eexists. split; [vm_compute; reflexivity|reflexivity]. Qed.

(** ** The refresh *)

Section refresh.
Variable http_get : str -> str -> option Z -> reply.

Lemma post_bind {A B} (m : M A) (k : A → M B) w Q :
  post m w (λ r w1, match r with
                    | Return a => post (k a) w1 Q
                    | Raise e => Q (Raise e) w1
                    | Beyond => Q Beyond w1
                    end) →
  post (mbind_ m k) w Q.
Proof. unfold post, mbind_. destruct (m w) as [[a|e|] w1]; done. Qed.

Lemma post_log lvl msg b d t (Q : outcome unit → world → Prop) :
  Q (Return tt) (World b d (t ++ [Log lvl msg])) →
  post (log lvl msg) (World b d t) Q.
Proof. done. Qed.

Lemma post_self {V} (field : FireFlyTelegram → gmap str V) user w
    (Q : outcome V → world → Prop) :
  Q (subscript (field (bot w)) user) w → post (self field user) w Q.
Proof. unfold post, self, mbind_, get_bot, lift. simpl. done. Qed.

Lemma post_lift {A} (x : outcome A) w (Q : outcome A → world → Prop) :
  Q x w → post (lift x) w Q.
Proof. done. Qed.

Lemma post_set_bot f b d t (Q : outcome unit → world → Prop) :
  Q (Return tt) (World (f b) d t) → post (set_bot f) (World b d t) Q.
Proof. done. Qed.

Lemma post_more_pages api url total : ∀ pages data b d t
    (Q : outcome (list item) → world → Prop),
  (∀ evs, Forall is_debug evs →
          Q (fetched_more http_get api url pages data) (World b d (t ++ evs))) →
  post (firefly.more_pages http_get api url total pages data) (World b d t) Q.
Proof.
  induction pages as [|n pages IH]; intros data b d t Q HQ; simpl.
  - unfold post. simpl. specialize (HQ [] (Forall_nil_2 _)).
    by rewrite app_nil_r in HQ.
  - simpl in HQ. apply post_bind, post_log. apply post_bind.
    destruct (http_get url api (Some n)) as [e|p] eqn:Hget; unfold post; simpl.
    + specialize (HQ [Log DEBUG [Text (py "Fetching page "); Text (str_of_Z n);
                                Text (py " of "); Text (str_of_Z total)]]).
      apply HQ. by repeat constructor.
    + apply IH. intros evs Hevs. rewrite <- app_assoc. apply HQ.
      by repeat constructor.
Qed.

Lemma post_fetch_all_pages api url b d t
    (Q : outcome (list item) → world → Prop) :
  (∀ evs, Forall is_debug evs →
          Q (fetched http_get api url) (World b d (t ++ evs))) →
  post (firefly.fetch_all_pages http_get api url) (World b d t) Q.
Proof.
  intros HQ. unfold firefly.fetch_all_pages. unfold fetched in HQ.
  apply post_bind, post_log. apply post_bind.
  destruct (http_get url api None) as [e|p] eqn:Hget; unfold post; simpl.
  - apply HQ. by repeat constructor.
  - apply post_more_pages. intros evs Hevs. rewrite <- app_assoc. apply HQ.
    by repeat constructor.
Qed.

Lemma post_try {A} (body : M A) handler w (Q : outcome A → world → Prop) :
  post body w (λ r w1, match r with
                       | Raise e =>
                           match handler e with
                           | Some h => post h w1 Q
                           | None => Q (Raise e) w1
                           end
                       | _ => Q r w1
                       end) →
  post (try_except body handler) w Q.
Proof.
  unfold post, try_except. destruct (body w) as [[a|e|] w1]; simpl; try done.
  by destruct (handler e).
Qed.

Lemma extends_refl t : extends t t.
Proof. exists []. by rewrite app_nil_r. Qed.

Lemma extends_snoc t t' lvl msg :
  lvl = DEBUG → extends t t' → extends t (t' ++ [Log lvl msg]).
Proof.
  intros -> (evs & -> & H). exists (evs ++ [Log DEBUG msg]).
  rewrite app_assoc. split; [done|]. apply Forall_app. by repeat constructor.
Qed.

Lemma extends_app t t' evs :
  Forall is_debug evs → extends t t' → extends t (t' ++ evs).
Proof.
  intros Hevs (evs' & -> & H). exists (evs' ++ evs).
  rewrite app_assoc. split; [done|]. by apply Forall_app.
Qed.

Lemma fetched_more_not_Beyond api url : ∀ pages data,
  fetched_more http_get api url pages data ≠ Beyond.
Proof.
  induction pages as [|n pages IH]; intros data; simpl; [done|].
  by destruct (http_get url api (Some n)).
Qed.

Lemma fetched_not_Beyond api url : fetched http_get api url ≠ Beyond.
Proof.
  unfold fetched. destruct (http_get url api None); [done|].
  apply fetched_more_not_Beyond.
Qed.

Lemma comprehension_not_Beyond {A B} (f : A → outcome B) l :
  (∀ x, f x ≠ Beyond) → firefly.comprehension f l ≠ Beyond.
Proof.
  intros Hf. induction l as [|x l IH]; simpl; [done|].
  specialize (Hf x). destruct (f x); simpl; try done.
  by destruct (firefly.comprehension f l).
Qed.

Lemma attribute_not_Beyond x name : firefly.attribute x name ≠ Beyond.
Proof.
  unfold firefly.attribute, subscript. destruct (item_attributes x) as [a|]; [|done].
  by destruct (a !! name).
Qed.

Lemma ids_by_name_not_Beyond : ∀ l d, firefly.ids_by_name l d ≠ Beyond.
Proof.
  induction l as [|x l IH]; intros d; simpl; [done|].
  pose proof (attribute_not_Beyond x (py "name")).
  destruct (firefly.attribute x (py "name")); simpl; try done.
  destruct (item_id x); [apply IH|done].
Qed.

Lemma names_of_type_not_Beyond types : ∀ l, firefly.names_of_type types l ≠ Beyond.
Proof.
  induction l as [|x l IH]; simpl; [done|].
  pose proof (attribute_not_Beyond x (py "type")).
  destruct (firefly.attribute x (py "type")); simpl; try done.
  case_bool_decide; [|done].
  pose proof (attribute_not_Beyond x (py "name")).
  destruct (firefly.attribute x (py "name")); simpl; try done.
  by destruct (firefly.names_of_type types l).
Qed.

Ltac extended :=
  repeat first
    [ apply extends_refl
    | apply extends_snoc; [reflexivity|]
    | apply extends_app; [assumption|] ].

Ltac failed :=
  simpl; apply post_log; split; [reflexivity|]; split; [reflexivity|];
  split; [reflexivity|]; eexists; split; [reflexivity|]; simpl; extended.

(** C8. With the user's session loaded, a refresh returns normally
    whatever the ledger answers. If any fetch or partition step fails,
    the failure is logged and both tables are as they were; the user's
    row of table [data] is replaced only when every step succeeded, by
    the snapshot the steps arrived at. *)
Theorem refresh_failure_leaves_the_snapshot user w api :
  ff_api (bot w) !! user = Some api →
  ∃ w',
    firefly.get_ff_data http_get user w = (Return tt, w')
    ∧ refresh_outcome user w w'
        (let* url := subscript (ff_url (bot w)) user in refreshed http_get api url).
Proof.
  intros Hapi.
  cut (post (firefly.get_ff_data http_get user) w
         (λ r w', r = Return tt
                  ∧ refresh_outcome user w w'
                      (let* url := subscript (ff_url (bot w)) user in
                       refreshed http_get api url))).
  { unfold post. intros [Hr Hw]. eexists. split; [|exact Hw].
    rewrite <- Hr. by destruct (firefly.get_ff_data http_get user w). }
  destruct w as [b d t]. unfold firefly.get_ff_data, refresh_outcome, refreshed.
  simpl in Hapi. simpl bot. simpl db. simpl trace.
  apply post_bind, post_log. apply post_bind, post_self. simpl.
  unfold subscript. rewrite Hapi. apply post_try.
  apply post_bind, post_self. simpl. unfold subscript.
  destruct (ff_url b !! user) as [url|] eqn:Hurl; [|failed].
  simpl. apply post_bind, post_fetch_all_pages. intros evs1 H1.
  pose proof (fetched_not_Beyond api (url ++ py "categories")).
  destruct (fetched http_get api (url ++ py "categories")) as [cats|e|]; [|failed|done].
  simpl. apply post_bind. unfold firefly.extract_attributes.
  apply post_bind, post_log. apply post_lift.
  pose proof (comprehension_not_Beyond (λ x, firefly.attribute x (py "name")) cats
                (λ x, attribute_not_Beyond x (py "name"))).
  destruct (firefly.comprehension _ cats) as [names|e|]; [|failed|done].
  simpl. apply post_bind, post_set_bot. apply post_bind, post_log.
  apply post_bind, post_self. simpl. unfold subscript. rewrite Hurl.
  simpl. apply post_bind, post_fetch_all_pages. intros evs2 H2.
  pose proof (fetched_not_Beyond api (url ++ py "accounts")).
  destruct (fetched http_get api (url ++ py "accounts")) as [accs|e|]; [|failed|done].
  simpl. apply post_bind, post_lift.
  pose proof (ids_by_name_not_Beyond accs ∅).
  destruct (firefly.ids_by_name accs ∅) as [ids|e|]; [|failed|done].
  simpl. apply post_bind, post_set_bot. apply post_bind, post_log.
  apply post_bind, post_lift.
  pose proof (names_of_type_not_Beyond [py "revenue"; py "asset"] accs).
  destruct (firefly.names_of_type [py "revenue"; py "asset"] accs)
    as [sources|e|]; [|failed|done].
  simpl. apply post_bind, post_set_bot. apply post_bind, post_lift.
  pose proof (names_of_type_not_Beyond [py "expense"; py "asset"] accs).
  destruct (firefly.names_of_type [py "expense"; py "asset"] accs)
    as [destinations|e|]; [|failed|done].
  simpl. apply post_bind, post_set_bot. apply post_bind, post_lift.
  pose proof (names_of_type_not_Beyond [py "asset"] accs).
  destruct (firefly.names_of_type [py "asset"] accs) as [assets|e|]; [|failed|done].
  simpl. apply post_bind, post_set_bot. apply post_bind, post_lift.
  pose proof (names_of_type_not_Beyond [py "expense"] accs).
  destruct (firefly.names_of_type [py "expense"] accs) as [expenses|e|]; [|failed|done].
  simpl. apply post_bind, post_set_bot. apply post_bind, post_lift.
  pose proof (names_of_type_not_Beyond [py "revenue"] accs).
  destruct (firefly.names_of_type [py "revenue"] accs) as [revenues|e|]; [|failed|done].
  simpl. apply post_bind, post_set_bot. apply post_bind, post_log.
  apply post_bind. unfold firefly.save_data.
  do 7 (apply post_bind, post_self; simpl; unfold subscript;
        rewrite lookup_insert_eq; simpl).
  unfold database.save_data. apply post_bind. unfold post. simpl.
  split; [reflexivity|]. split; [reflexivity|]. split; [reflexivity|].
  split; [unfold installed; simpl; by rewrite !lookup_insert_eq|]. extended.
Qed.
End refresh.

Lemma refresh_failure_leaves_the_snapshot_witness :
  ∃ w',
    firefly.get_ff_data unreachable alice alice_ready = (Return tt, w')
    ∧ refresh_outcome alice alice_ready w'
        (let* url := subscript (ff_url (bot alice_ready)) alice in
         refreshed unreachable (py "key") url).
Proof.
  apply (refresh_failure_leaves_the_snapshot unreachable alice alice_ready (py "key")).
  reflexivity.
Defined.

(** ** Messages that start with a digit *)

Section emits_facts.
Variable P : event -> Prop.

Lemma emits_ret {A} (a : A) : emits P (ret a).
Proof. intros w. exists []. by rewrite app_nil_r. Qed.

Lemma emits_raise {A} e : emits P (@raise A e).
Proof. intros w. exists []. by rewrite app_nil_r. Qed.

Lemma emits_lift {A} (x : outcome A) : emits P (lift x).
Proof. intros w. exists []. by rewrite app_nil_r. Qed.

Lemma emits_get_bot : emits P get_bot.
Proof. intros w. exists []. by rewrite app_nil_r. Qed.

Lemma emits_get_db : emits P get_db.
Proof. intros w. exists []. by rewrite app_nil_r. Qed.

Lemma emits_set_bot f : emits P (set_bot f).
Proof. intros w. exists []. by rewrite app_nil_r. Qed.

Lemma emits_set_db f : emits P (set_db f).
Proof. intros w. exists []. by rewrite app_nil_r. Qed.

Lemma emits_emit e : P e → emits P (emit e).
Proof. intros He w. exists [e]. by repeat constructor. Qed.

Lemma emits_log lvl msg : P (Log lvl msg) → emits P (log lvl msg).
Proof. apply emits_emit. Qed.

Lemma emits_bind {A B} (m : M A) (k : A → M B) :
  emits P m → (∀ a, emits P (k a)) → emits P (mbind_ m k).
Proof.
  intros Hm Hk w. unfold mbind_. destruct (Hm w) as (evs & Ht & Hevs).
  destruct (m w) as [[a|e|] w1]; simpl in *; [|by exists evs..].
  destruct (Hk a w1) as (evs' & Ht' & Hevs'). exists (evs ++ evs').
  rewrite Ht', Ht, app_assoc. split; [done|]. by apply Forall_app.
Qed.

Lemma emits_try {A} (body : M A) handler :
  emits P body → (∀ e h, handler e = Some h → emits P h) →
  emits P (try_except body handler).
Proof.
  intros Hm Hh w. unfold try_except. destruct (Hm w) as (evs & Ht & Hevs).
  destruct (body w) as [[a|e|] w1]; simpl in *; [by exists evs| |by exists evs].
  destruct (handler e) as [h|] eqn:He; [|by exists evs].
  destruct (Hh e h He w1) as (evs' & Ht' & Hevs'). exists (evs ++ evs').
  rewrite Ht', Ht, app_assoc. split; [done|]. by apply Forall_app.
Qed.

Lemma emits_self {V} (field : FireFlyTelegram → gmap str V) user :
  emits P (self field user).
Proof. apply emits_bind; [apply emits_get_bot|intros; apply emits_lift]. Qed.

End emits_facts.

Ltac emits_step :=
  first
    [ apply emits_bind; [|intros ?]
    | apply emits_ret | apply emits_raise | apply emits_lift
    | apply emits_get_bot | apply emits_get_db
    | apply emits_set_bot | apply emits_set_db | apply emits_self
    | apply emits_log; reflexivity
    | apply emits_emit; reflexivity
    | match goal with
      | |- emits _ (match ?x with _ => _ end) => destruct x
      | |- emits _ (let (_, _) := ?x in _) => destruct x
      end ].

Section digit_messages.
Variable slugify : str -> str.
Variable http_post : str -> str -> transaction -> outcome posted.
Variable isdigit : char -> bool.

Lemma emits_load_session user : emits quiet (firefly.load_session user).
Proof.
  unfold firefly.load_session, database.get_session. repeat emits_step.
Qed.

Lemma emits_load_data user : emits quiet (firefly.load_data user).
Proof.
  unfold firefly.load_data, database.get_data. repeat emits_step.
Qed.

Lemma emits_clear_user_data user : emits quiet (firefly.clear_user_data user).
Proof. unfold firefly.clear_user_data. repeat emits_step. Qed.

Lemma emits_clear_user_session user : emits quiet (firefly.clear_user_session user).
Proof. unfold firefly.clear_user_session. repeat emits_step. Qed.

Lemma emits_lookup_name table name user :
  emits quiet (firefly.lookup_name slugify table name user).
Proof. unfold firefly.lookup_name. repeat emits_step. Qed.

Lemma emits_new_transaction info user :
  emits quiet (firefly.new_transaction http_post info user).
Proof. unfold firefly.new_transaction. repeat emits_step. Qed.

Lemma emits_echo_transfer_try message user :
  emits quiet (handlers.echo_transfer_try slugify http_post message user).
Proof.
  unfold handlers.echo_transfer_try. apply emits_try.
  - destruct (split 32 (text message)) as [|t0 [|t1 [|t2 [|t3 l]]]];
      try (apply emits_emit; reflexivity).
    apply emits_bind; [|intros src].
    { unfold firefly.get_source_account. apply emits_try;
        [apply emits_lookup_name|].
      intros e h. destruct e; intros [= <-]; apply emits_raise. }
    apply emits_bind; [|intros dst].
    { unfold firefly.get_destination_account. apply emits_try;
        [apply emits_lookup_name|].
      intros e h. destruct e; intros [= <-]; apply emits_raise. }
    apply emits_bind; [apply emits_lift|intros n].
    apply emits_bind; [apply emits_new_transaction|intros r].
    unfold handlers.unpack. repeat emits_step.
  - intros e h. destruct (handlers.echo_transfer_except e); intros [= <-].
    apply emits_emit. reflexivity.
Qed.

Lemma emits_echo_transfer message :
  emits quiet (handlers.echo_transfer slugify http_post message).
Proof.
  unfold handlers.echo_transfer.
  apply emits_bind; [apply emits_load_session|intros _].
  apply emits_bind; [apply emits_load_data|intros _].
  apply emits_bind; [apply emits_log; reflexivity|intros _].
  apply emits_bind; [apply emits_echo_transfer_try|intros _].
  apply emits_bind; [apply emits_clear_user_data|intros _].
  apply emits_clear_user_session.
Qed.

Lemma invalid_input message user w :
  length (split 0x20 (text message)) ≠ 3%nat →
  handlers.echo_transfer_try slugify http_post message user w
  = (Return tt,
     after w (SendMessage (ChatId (chat_id message)) (py "Invalid Input!") None)).
Proof.
  unfold handlers.echo_transfer_try.
  by destruct (split 32 (text message)) as [|t0 [|t1 [|t2 [|t3 l]]]].
Qed.

(** The two clearing calls return and leave the database and the
    trace as they are. *)
Lemma clears_run user w :
  ∃ b, (firefly.clear_user_data user ;;; firefly.clear_user_session user) w
       = (Return tt, World b (db w) (trace w)).
Proof.
  unfold firefly.clear_user_data, firefly.clear_user_session. run_step.
  by eexists.
Qed.

(** The [try] statement on a transfer whose names resolve and whose
    amount evaluates and can be printed, by what the ledger answers. *)
Lemma transfer_try_run message user w amount t1 t2 src dst n api url :
  split 0x20 (text message) = [amount; t1; t2] →
  (firefly.get_source_account slugify t1 user w).1 = Return src →
  (firefly.get_destination_account slugify t2 user w).1 = Return dst →
  models.safe_math_eval amount = Return n →
  pyeval.printable n = true →
  ff_api (bot w) !! user = Some api →
  ff_url (bot w) !! user = Some url →
  handlers.echo_transfer_try slugify http_post message user w
  = let info := transfer_of n src dst in
    let w2 := after (after w (creating user info))
                    (Post (url ++ py "transactions") info) in
    let failed e :=
      match handlers.echo_transfer_except e with
      | Some reply => (Return tt, after w2 (SendMessage MessageObject reply None))
      | None => (Raise e, w2)
      end in
    match http_post (url ++ py "transactions") api info with
    | Return (Created r tid) =>
        (Return tt,
         after (after w2 (Log INFO [Text (username message); Text (py " - ");
                                    Text tid; Text (py " - "); Text r]))
               (SendMessage (ChatId (chat_id message)) r
                  (Some [[(py "Delete", py "delete_" ++ tid)]])))
    | Return (Refused (Return answer)) =>
        (Raise TypeError,
         after w2 (Log ERROR [Text (py "Error creating transaction. Response: ");
                              Text answer]))
    | Return (Refused (Raise e)) | Raise e => failed e
    | Return (Refused Beyond) | Beyond => (Beyond, w2)
    end.
Proof.
  intros Hsplit Hsrc Hdst Hn Hp Hapi Hurl.
  rewrite get_source_account_run in Hsrc.
  rewrite get_destination_account_run in Hdst. simpl in Hsrc, Hdst.
  unfold handlers.echo_transfer_try. rewrite Hsplit. unfold try_except.
  erewrite mbind_run by apply get_source_account_run. rewrite Hsrc.
  erewrite mbind_run by apply get_destination_account_run. rewrite Hdst.
  erewrite mbind_run by reflexivity. rewrite Hn.
  unfold firefly.new_transaction, firefly.format_info.
  change (Transaction (py "Transfer") n None (Some src) (Some dst) transfer)
    with (transfer_of n src dst).
  set (info := transfer_of n src dst).
  assert (pyeval.printable (number info) = true) as -> by exact Hp.
  destruct w as [b d t]. cbn [bot] in Hapi, Hurl.
  unfold mbind_, self, get_bot, lift, log, emit, subscript, ret, raise, after,
    creating, handlers.unpack.
  repeat first [ progress unfold mbind_ | progress cbv beta iota
               | progress cbn [bot db trace] | rewrite Hapi | rewrite Hurl ].
  destruct (http_post (url ++ py "transactions") api info)
    as [[[answer|e|]|r tid]|e|];
    try (destruct (handlers.echo_transfer_except e));
    repeat first [ progress unfold mbind_, ret, raise, emit, log
                 | progress cbv beta iota zeta
                 | progress cbn [bot db trace handlers.unpack] ];
    rewrite <- ?app_assoc; reflexivity.
Qed.

(** C10. A message whose first character is a digit goes to
    [echo_transfer], which never enters [extract_info]. Once the
    handler has loaded the sender's session and data and logged the
    message: when the text splits on single spaces into three parts,
    the second resolves as a source account, the third as a destination
    account and the first evaluates to a number that can be printed,
    the handler posts one transaction to the ledger, of kind
    'transfer', description 'Transfer', no category and the two resolved
    accounts, whether or not either is an asset account, and when the
    ledger creates it the handler returns after sending the ledger's
    message with a Delete button; with any other number of parts the
    handler returns and its only effect is the reply 'Invalid Input!'. *)
Theorem digit_messages message w c :
  head (text message) = Some c → isdigit c = true →
  handlers.on_text slugify http_post isdigit message w
  = handlers.echo_transfer slugify http_post message w
  ∧ (∃ evs,
       trace (handlers.echo_transfer slugify http_post message w).2
       = trace w ++ evs
       ∧ ∀ line, entering line ∉ evs)
  ∧ ∀ w0,
      (firefly.load_session (sender message) ;;;
       firefly.load_data (sender message)) w = (Return tt, w0) →
      (∀ amount t1 t2 src dst n api url,
         split 0x20 (text message) = [amount; t1; t2] →
         (firefly.get_source_account slugify t1 (sender message) w0).1
         = Return src →
         (firefly.get_destination_account slugify t2 (sender message) w0).1
         = Return dst →
         models.safe_math_eval amount = Return n →
         pyeval.printable n = true →
         ff_api (bot w0) !! sender message = Some api →
         ff_url (bot w0) !! sender message = Some url →
         (∃ evs,
            trace (handlers.echo_transfer slugify http_post message w).2
            = trace (after w0 (processing message)) ++ evs
            ∧ List.filter is_post evs
              = [Post (url ++ py "transactions") (transfer_of n src dst)])
         ∧ ∀ r tid,
             http_post (url ++ py "transactions") api (transfer_of n src dst)
             = Return (Created r tid) →
             (handlers.echo_transfer slugify http_post message w).1 = Return tt
             ∧ trace (handlers.echo_transfer slugify http_post message w).2
               = trace (after w0 (processing message))
                 ++ [creating (sender message) (transfer_of n src dst);
                     Post (url ++ py "transactions") (transfer_of n src dst);
                     Log INFO [Text (username message); Text (py " - ");
                               Text tid; Text (py " - "); Text r];
                     SendMessage (ChatId (chat_id message)) r
                       (Some [[(py "Delete", py "delete_" ++ tid)]])])
      ∧ (length (split 0x20 (text message)) ≠ 3%nat →
         (handlers.echo_transfer slugify http_post message w).1 = Return tt
         ∧ trace (handlers.echo_transfer slugify http_post message w).2
           = trace (after w0 (processing message))
             ++ [SendMessage (ChatId (chat_id message))
                             (py "Invalid Input!") None]).
Proof.
  intros Hc Hd. split; [|split].
  - unfold handlers.on_text. erewrite mbind_run by reflexivity.
    rewrite Hc. simpl. by rewrite Hd.
  - destruct (emits_echo_transfer message w) as (evs & Ht & Hevs).
    exists evs. split; [done|]. intros line Hin.
    rewrite Forall_forall in Hevs. specialize (Hevs _ Hin).
    unfold quiet, is_entering, entering in Hevs.
    by rewrite bool_decide_eq_false in Hevs.
  - intros w0 Hload.
    apply mbind_Return in Hload as ([] & wa & Hsession & Hdata).
    assert (∀ r w3,
      handlers.echo_transfer_try slugify http_post message (sender message)
        (after w0 (processing message)) = (r, w3) →
      (handlers.echo_transfer slugify http_post message w).1 = r
      ∧ trace (handlers.echo_transfer slugify http_post message w).2
        = trace w3) as Hrest.
    { intros r w3 Htry. unfold handlers.echo_transfer.
      fold (sender message).
      erewrite mbind_run by exact Hsession. cbv beta iota.
      erewrite mbind_run by exact Hdata. cbv beta iota.
      erewrite mbind_run by reflexivity. cbv beta iota.
      erewrite mbind_run by exact Htry.
      destruct r as [[]|e|]; [|done..].
      destruct (clears_run (sender message) w3) as (b & ->). done. }
    split.
    + intros amount t1 t2 src dst n api url Hs Hsrc Hdst Hn Hp Hapi Hurl.
      pose proof (transfer_try_run message (sender message)
                    (after w0 (processing message)) amount t1 t2 src dst n
                    api url Hs) as Hrun.
      rewrite !get_source_account_run, !get_destination_account_run in *.
      specialize (Hrun Hsrc Hdst Hn Hp Hapi Hurl). cbv zeta in Hrun.
      split.
      * destruct (http_post (url ++ py "transactions") api
                    (transfer_of n src dst)) as [[[answer|e|]|r tid]|e|];
          try (destruct (handlers.echo_transfer_except e));
          apply Hrest in Hrun as [_ ->]; unfold after; cbn [trace];
          set (base := trace w0 ++ [processing message]);
          rewrite <- ?app_assoc; eexists; (split; [reflexivity|]);
          reflexivity.
      * intros r tid Hpost. rewrite Hpost in Hrun.
        apply Hrest in Hrun as [-> ->]. split; [done|].
        unfold after. cbn [trace].
        set (base := trace w0 ++ [processing message]).
        by rewrite <- !app_assoc.
    + intros Hlen.
      pose proof (invalid_input message (sender message)
                    (after w0 (processing message)) Hlen) as Hrun.
      by apply Hrest in Hrun as [-> ->].
Qed.

End digit_messages.

(** The same at "100 Checking Shop" from alice, whose rows are stored: the
    transfer goes from Checking to Shop, although Shop is no asset
    account; and at "100 Checking", which has two parts. *)
Lemma digit_messages_witness :
  handlers.on_text ascii_slug accepting pyeval.is_digit
                   (says "100 Checking Shop") alice_at_rest
  = handlers.echo_transfer ascii_slug accepting (says "100 Checking Shop") alice_at_rest
  ∧ (∃ evs,
       List.filter is_post evs
       = [Post (py "http://ledger/api/v1/transactions")
               (transfer_of (pyeval.VInt 100) (py "Checking") (py "Shop"))]
       ∧ List.filter sent evs
         = [SendMessage (ChatId 5) (py "ok")
                        (Some [[(py "Delete", py "delete_7")]])]
       ∧ ∃ w0, trace (handlers.echo_transfer ascii_slug accepting
                        (says "100 Checking Shop") alice_at_rest).2
               = trace (after w0 (processing (says "100 Checking Shop"))) ++ evs)
  ∧ ∃ w0, trace (handlers.echo_transfer ascii_slug accepting
                   (says "100 Checking") alice_at_rest).2
          = trace (after w0 (processing (says "100 Checking")))
            ++ [SendMessage (ChatId 5) (py "Invalid Input!") None].
Proof.
  pose proof (digit_messages ascii_slug accepting pyeval.is_digit
                (says "100 Checking Shop") alice_at_rest 0x31
                eq_refl eq_refl) as (Hto & _ & Hthree).
  pose proof (digit_messages ascii_slug accepting pyeval.is_digit
                (says "100 Checking") alice_at_rest 0x31
                eq_refl eq_refl) as (_ & _ & Htwo).
  split; [exact Hto|]. split.
  - edestruct Hthree as [Hposted _]; [vm_compute; reflexivity|].
    edestruct (Hposted (py "100") (py "Checking") (py "Shop") (py "Checking")
                 (py "Shop") (pyeval.VInt 100) (py "key")
                 (py "http://ledger/api/v1/")) as [_ Hcreated];
      [vm_compute; reflexivity..|].
    destruct (Hcreated (py "ok") (py "7") eq_refl) as [_ Htrace].
    eexists. split; [|split; [|eexists; exact Htrace]]; reflexivity.
  - edestruct Htwo as [_ Hother]; [vm_compute; reflexivity|].
    destruct Hother as [_ Htrace]; [vm_compute; lia|].
    eexists. exact Htrace.
Defined.

(** What the handler does with "100 Checking Shop" from rest. *)
Lemma transfer_example :
  List.filter (λ e, negb (match e with Log _ _ => true | _ => false end))
    (trace (handlers.echo_transfer ascii_slug accepting
              (says "100 Checking Shop") alice_at_rest).2)
  = [Post (py "http://ledger/api/v1/transactions")
          (Transaction (py "Transfer") (pyeval.VInt 100) None
                       (Some (py "Checking")) (Some (py "Shop")) transfer);
     SendMessage (ChatId 5) (py "ok")
                 (Some [[(py "Delete", py "delete_7")]])].
Proof. vm_compute. reflexivity. Qed.

(** ** The arithmetic evaluator *)

Section evaluation_errors.
Import pyeval.

Lemma lex_raises : ∀ s st e, lex st s = Raise e → e = SyntaxError.
Proof.
  assert (Hint : ∀ ds e, int_token ds = Raise e → e = SyntaxError).
  { intros ds e. unfold int_token. repeat case_match; try done.
    by intros [= <-]. }
  assert (Hstart : ∀ c e, start c ≠ Raise e).
  { intros c e. unfold start. repeat case_match; done. }
  assert (Hemit : ∀ t c e, emit_then t c ≠ Raise e).
  { intros t c e. unfold emit_then. pose proof (Hstart c).
    destruct (start c) as [[ts st]| |]; simpl; try done; naive_solver. }
  assert (Hstep : ∀ st c e, step st c = Raise e → e = SyntaxError).
  { intros st c e. destruct st; simpl.
    - intros Hx. by apply Hstart in Hx.
    - repeat case_match; try done.
      destruct (int_token ds) as [t| |] eqn:Ht; simpl.
      + intros Hx. by apply Hemit in Hx.
      + intros [= <-]. by eapply (Hint ds).
      + done.
    - repeat case_match; try done. intros Hx. by apply Hemit in Hx.
    - repeat case_match; try done. intros Hx. by apply Hemit in Hx.
    - repeat case_match; try done. intros Hx. by apply Hemit in Hx.
    - repeat case_match; try done. intros Hx. by apply Hemit in Hx.
    - repeat case_match; try done.
      pose proof (Hemit TDot c).
      destruct (emit_then TDot c) as [[ts st]| |]; simpl; try done;
        naive_solver. }
  induction s as [|c s IH]; intros st e; simpl.
  - destruct st; simpl; try done.
    destruct (int_token ds) as [t| |] eqn:Ht; simpl; try done.
    intros [= <-]. by eapply (Hint ds).
  - destruct (step st c) as [[ts st']| |] eqn:Hs; simpl; try done.
    + destruct (lex st' s) as [r| |] eqn:Hl; simpl; try done.
      intros [= <-]. by eapply IH.
    + intros [= <-]. by eapply Hstep.
Qed.

Lemma float_of_int_raises n e : float_of_int n = Raise e → e = OverflowError.
Proof.
  unfold float_of_int. destruct (binary_normalize _ _ _ _ _); try done.
  by intros [= <-].
Qed.

Lemma int_true_divide_raises a b e :
  int_true_divide a b = Raise e → evaluation_error e.
Proof.
  unfold int_true_divide, evaluation_error.
  destruct a, b; try (intros [= <-]; tauto); try done;
    destruct (SFdiv _ _ _ _); try done; intros [= <-]; tauto.
Qed.

Lemma binary_raises op a b e : binary op a b = Raise e → evaluation_error e.
Proof.
  destruct a as [m|x| |], b as [n|y| |]; destruct op; simpl;
    unfold float2, fadd, fsub, fmul, fdiv, ffloordiv, fpow, tuple_repeat,
      int_pow;
    repeat match goal with
      | |- Return _ = Raise _ → _ => done
      | |- Beyond = Raise _ → _ => done
      | |- Raise _ = Raise _ → _ => intros [= <-]
      | |- bind ?a _ = Raise _ → _ => destruct a eqn:?; simpl
      | |- (if ?b then _ else _) = Raise _ → _ => destruct b eqn:?
      end;
    try (unfold evaluation_error; tauto);
    try (by eapply int_true_divide_raises);
    match goal with
    | H : float_of_int _ = Raise _ |- _ =>
        apply float_of_int_raises in H as ->; unfold evaluation_error; tauto
    end.
Qed.

Lemma unary_raises op a e : unary op a = Raise e → evaluation_error e.
Proof.
  destruct op, a; simpl; try done; intros [= <-]; unfold evaluation_error; tauto.
Qed.

Lemma eval_expr_raises x : ∀ e, eval_expr x = Raise e → evaluation_error e.
Proof.
  induction x as [v|op x IH|op l IHl r IHr|f IHf|f IHf a IHa]; intros e; simpl.
  - done.
  - destruct (eval_expr x) as [a| |]; simpl; try done.
    + apply unary_raises.
    + intros [= <-]. by apply IH.
  - destruct (eval_expr l) as [a| |]; simpl; try done.
    + destruct (eval_expr r) as [b| |]; simpl; try done.
      * apply binary_raises.
      * intros [= <-]. by apply IHr.
    + intros [= <-]. by apply IHl.
  - destruct (eval_expr f) as [a| |]; simpl; try done.
    + intros [= <-]. unfold evaluation_error. tauto.
    + intros [= <-]. by apply IHf.
  - destruct (eval_expr f) as [x| |]; simpl; try done.
    + destruct (eval_expr a) as [y| |]; simpl; try done.
      * intros [= <-]. unfold evaluation_error. tauto.
      * intros [= <-]. by apply IHa.
    + intros [= <-]. by apply IHf.
Qed.

Lemma eval_raises s e : eval s = Raise e → evaluation_error e.
Proof.
  unfold eval, tokenize. destruct (_ <=? _)%nat; [|done].
  destruct (lex LIdle s) as [ts| |] eqn:Hl; simpl; try done.
  - unfold parse.
    destruct (parse_sum _ ts) as [x [|t rest]| |]; simpl; try done;
      try (intros [= <-]; unfold evaluation_error; tauto).
    apply eval_expr_raises.
  - intros [= <-]. apply lex_raises in Hl as ->. unfold evaluation_error. tauto.
Qed.

End evaluation_errors.

Section lexing.
Import pyeval.

Lemma digits_value_acc u : ∀ acc,
  fold_left (λ acc d, 10 * acc + (d - 0x30)) (uint_chars u) (Npos acc)
  = Npos (Pos.of_uint_acc u acc).
Proof.
  induction u; intros acc; simpl; try done; rewrite <- IHu; f_equal; lia.
Qed.

Lemma digits_value_uint u : digits_value (uint_chars u) = N.of_uint u.
Proof.
  unfold digits_value, N.of_uint.
  induction u; simpl; try done; apply (digits_value_acc u).
Qed.

Lemma uint_chars_digits u : Forall (λ c, is_digit c = true) (uint_chars u).
Proof. induction u; simpl; constructor; done. Qed.

Lemma unorm_shape u :
  Decimal.unorm u = D0 Nil
  ∨ match Decimal.unorm u with Nil | D0 _ => False | _ => True end.
Proof. induction u; simpl; tauto. Qed.

Lemma int_token_str_of_N n : int_token (str_of_N n) = Return (TInt n).
Proof.
  unfold str_of_N.
  pose proof (DecimalN.Unsigned.of_to n) as Hn.
  pose proof (DecimalN.Unsigned.to_of (N.to_uint n)) as Hu.
  rewrite Hn in Hu.
  destruct (unorm_shape (N.to_uint n)) as [Hz|Hz]; rewrite <- Hu in Hz.
  - rewrite Hz in *. simpl in Hn. by subst n.
  - rewrite <- Hn at 2. rewrite <- digits_value_uint.
    destruct (N.to_uint n); try done.
Qed.

Lemma str_of_N_head n :
  ∃ c cs, str_of_N n = c :: cs ∧ is_digit c = true
          ∧ Forall (λ c, is_digit c = true) cs.
Proof.
  unfold str_of_N. pose proof (uint_chars_digits (N.to_uint n)) as Hd.
  destruct (uint_chars (N.to_uint n)) as [|c cs] eqn:Hc.
  - pose proof (int_token_str_of_N n) as Ht. unfold str_of_N in Ht.
    rewrite Hc in Ht. injection Ht as <-. done.
  - exists c, cs. by inversion Hd.
Qed.

Lemma before_nil r : before [] r = r.
Proof. by destruct r. Qed.

Lemma before_app ts us r : before (ts ++ us) r = before ts (before us r).
Proof. destruct r; simpl; try done. by rewrite app_assoc. Qed.

Lemma before_cons t ts r : before (t :: ts) r = before [t] (before ts r).
Proof. apply (before_app [t]). Qed.

Lemma lex_cons st c s :
  lex st (c :: s) = let* '(ts, st') := step st c in before ts (lex st' s).
Proof. done. Qed.

Lemma lex_digits cs : ∀ ds s,
  Forall (λ c, is_digit c = true) cs →
  lex (LInt ds) (cs ++ s) = lex (LInt (ds ++ cs)) s.
Proof.
  induction cs as [|c cs IH]; intros ds s Hcs.
  - by rewrite app_nil_r.
  - inversion Hcs as [|? ? Hc Hcs']; subst.
    rewrite <- app_comm_cons, lex_cons. simpl. rewrite Hc. simpl.
    rewrite before_nil, IH by done. by rewrite <- app_assoc.
Qed.

(** A completed token [t] when the next character starts afresh. *)
Lemma lex_emit_then t c s :
  (let* '(ts, st') := emit_then t c in before ts (lex st' s))
  = before [t] (lex LIdle (c :: s)).
Proof.
  rewrite lex_cons. unfold emit_then. simpl.
  destruct (start c) as [[ts st']| |]; simpl; try done.
  by destruct (lex st' s).
Qed.

Lemma lex_numeral n s :
  boundary s → lex LIdle (str_of_N n ++ s) = before [TInt n] (lex LIdle s).
Proof.
  intros Hs. pose proof (int_token_str_of_N n) as Ht.
  destruct (str_of_N_head n) as (c & cs & Heq & Hc & Hcs).
  rewrite Heq in *. rewrite <- app_comm_cons, lex_cons.
  change (step LIdle c) with (start c). unfold start. rewrite Hc.
  cbn [bind]. rewrite before_nil, lex_digits by done. cbn [app].
  destruct s as [|c' s].
  - change (lex (LInt (c :: cs)) []) with
      (let* t := int_token (c :: cs) in Return [t]).
    by rewrite Ht.
  - destruct Hs as [Hd Hp]. rewrite lex_cons. cbn [step]. rewrite Hd.
    apply N.eqb_neq in Hp as ->. rewrite Ht. apply lex_emit_then.
Qed.

Lemma lex_plus s : lex LIdle (0x2b :: s) = before [TPlus] (lex LIdle s).
Proof. done. Qed.

Lemma lex_minus s : lex LIdle (0x2d :: s) = before [TMinus] (lex LIdle s).
Proof. done. Qed.

Lemma lex_lpar s : lex LIdle (0x28 :: s) = before [TLPar] (lex LIdle s).
Proof. done. Qed.

Lemma lex_rpar s : lex LIdle (0x29 :: s) = before [TRPar] (lex LIdle s).
Proof. done. Qed.

Lemma lex_star s :
  operand s → lex LIdle (0x2a :: s) = before [TStar] (lex LIdle s).
Proof.
  destruct s as [|c s]; [done|]. intros Hc.
  change (lex LIdle (0x2a :: c :: s)) with (before [] (lex LStar (c :: s))).
  rewrite before_nil, lex_cons. cbn [step].
  replace (c =? 0x2a) with false; [apply lex_emit_then|].
  symmetry. apply N.eqb_neq. by destruct Hc.
Qed.

Lemma lex_slash s :
  operand s → lex LIdle (0x2f :: s) = before [TSlash] (lex LIdle s).
Proof.
  destruct s as [|c s]; [done|]. intros Hc.
  change (lex LIdle (0x2f :: c :: s)) with (before [] (lex LSlash (c :: s))).
  rewrite before_nil, lex_cons. cbn [step].
  replace (c =? 0x2f) with false; [apply lex_emit_then|].
  symmetry. apply N.eqb_neq. by destruct Hc.
Qed.

Lemma lex_space s : lex LIdle (0x20 :: s) = lex LIdle s.
Proof. change (lex LIdle (0x20 :: s)) with (before [] (lex LIdle s)). apply before_nil. Qed.

Lemma digits_value_from fs : ∀ acc,
  fold_left (λ acc d, 10 * acc + (d - 0x30)) fs acc
  = acc * 10 ^ N.of_nat (length fs) + digits_value fs.
Proof.
  unfold digits_value.
  induction fs as [|d fs IH]; intros acc.
  - cbn. lia.
  - cbn [fold_left length]. rewrite IH, (IH (10 * 0 + (d - 48))).
    rewrite Nat2N.inj_succ, N.pow_succ_r'. lia.
Qed.

Lemma digits_value_app ds fs :
  digits_value (ds ++ fs)
  = digits_value ds * 10 ^ N.of_nat (length fs) + digits_value fs.
Proof.
  unfold digits_value at 1. rewrite fold_left_app. apply digits_value_from.
Qed.

Lemma uint_chars_length u : length (uint_chars u) = Decimal.nb_digits u.
Proof. induction u; cbn; congruence. Qed.

Lemma digits_value_str_of_N n : digits_value (str_of_N n) = n.
Proof.
  unfold str_of_N. rewrite digits_value_uint. apply DecimalN.Unsigned.of_to.
Qed.

Lemma frac_token_decimal n f :
  frac_token (str_of_N n) (uint_chars f)
  = TFloat (decimal_digits n f) (Decimal.nb_digits f).
Proof.
  unfold frac_token, decimal_digits.
  by rewrite digits_value_app, digits_value_str_of_N, digits_value_uint,
    uint_chars_length.
Qed.

Lemma lex_frac_digits cs : ∀ ds fs s,
  Forall (λ c, is_digit c = true) cs →
  lex (LFrac ds fs) (cs ++ s) = lex (LFrac ds (fs ++ cs)) s.
Proof.
  induction cs as [|c cs IH]; intros ds fs s Hcs.
  - by rewrite app_nil_r.
  - inversion Hcs as [|? ? Hc Hcs']; subst.
    rewrite <- app_comm_cons, lex_cons. simpl. rewrite Hc. simpl.
    rewrite before_nil, IH by done. by rewrite <- app_assoc.
Qed.

Lemma lex_decimal n f s :
  boundary s →
  lex LIdle (str_of_N n ++ 0x2e :: uint_chars f ++ s)
  = before [TFloat (decimal_digits n f) (Decimal.nb_digits f)] (lex LIdle s).
Proof.
  intros Hs. pose proof (frac_token_decimal n f) as Ht.
  destruct (str_of_N_head n) as (c & cs & Heq & Hc & Hcs).
  rewrite Heq in *. rewrite <- app_comm_cons, lex_cons.
  change (step LIdle c) with (start c). unfold start. rewrite Hc.
  cbn [bind]. rewrite before_nil, lex_digits by done. cbn [app].
  rewrite lex_cons. cbn [step].
  change (is_digit 46) with false. change (46 =? 46) with true.
  cbn [bind]. rewrite before_nil.
  rewrite lex_frac_digits by apply uint_chars_digits. cbn [app].
  destruct s as [|c' s].
  - cbn [lex flush]. by rewrite Ht.
  - destruct Hs as [Hd _]. rewrite lex_cons. cbn [step]. rewrite Hd, Ht.
    apply lex_emit_then.
Qed.

Lemma opening_operand c s : opening c → operand (c :: s).
Proof. by intros [Hc|[->|[->| ->]]]; split; try intros ->. Qed.

Lemma written_opening e : ∀ p, ∃ c s, written p e = c :: s ∧ opening c.
Proof.
  unfold opening.
  induction e as [n|a IHa|a IHa b IHb|a IHa b IHb|a IHa b IHb|a IHa b IHb
                 |a IHa|a IHa|n f]; intros p; cbn [written];
    try (destruct (_ <? p)%nat; cbn [parens]);
    try (change (py "(") with [0x28]); try (change (py "-") with [0x2d]);
    try (change (py " ") with [0x20]); cbn [app]; eauto 7.
  - destruct (str_of_N_head n) as (c & cs & -> & Hc & _). eauto.
  - destruct (IHa 0%nat) as (c & s & -> & Hc). cbn [app]. eauto.
  - destruct (IHa 0%nat) as (c & s & -> & Hc). cbn [app]. eauto.
  - destruct (IHa 1%nat) as (c & s & -> & Hc). cbn [app]. eauto.
  - destruct (IHa 1%nat) as (c & s & -> & Hc). cbn [app]. eauto.
  - destruct (str_of_N_head n) as (c & cs & -> & Hc & _). cbn [app]. eauto.
Qed.

Lemma written_operand p e s : operand (written p e ++ s).
Proof.
  destruct (written_opening e p) as (c & s' & -> & Hc).
  by apply opening_operand.
Qed.

Lemma lex_written e : ∀ p s,
  boundary s → lex LIdle (written p e ++ s) = before (tokens p e) (lex LIdle s).
Proof.
  induction e as [n|a IHa|a IHa b IHb|a IHa b IHb|a IHa b IHb|a IHa b IHb
                 |a IHa|a IHa|n f]; intros p s Hs; cbn [written tokens];
    try (destruct (_ <? p)%nat; cbn [parens parens_tokens]);
    change (py "(") with [0x28]; change (py ")") with [0x29];
    change (py ".") with [0x2e];
    change (py "-") with [0x2d]; change (py "+") with [0x2b];
    change (py "*") with [0x2a]; change (py "/") with [0x2f];
    change (py " ") with [0x20];
    rewrite <- ?app_assoc; cbn [app];
    rewrite ?lex_lpar, ?lex_minus, ?lex_space;
    try (rewrite IHa by done);
    rewrite ?lex_plus, ?lex_minus, ?lex_rpar, ?lex_space;
    try (rewrite lex_star by apply written_operand);
    try (rewrite lex_slash by apply written_operand);
    try (rewrite IHb by done);
    rewrite ?lex_rpar;
    try (by apply lex_numeral);
    try (by apply lex_decimal);
    rewrite <- ?before_app; f_equal; cbn [app]; rewrite <- ?app_assoc; done.
Qed.

End lexing.

Section parsing.
Import pyeval.

Lemma from_mono n m f r : from n f r → (n ≤ m)%nat → from m f r.
Proof. intros H Hnm fuel Hf. apply H. lia. Qed.

Lemma factor_of_numeral n rest :
  after_factor rest →
  from 4 (λ fuel, parse_factor fuel (TInt n :: rest))
       (Parsed (Const (VInt (Z.of_N n))) rest).
Proof.
  intros Hr fuel Hf. do 4 (destruct fuel as [|fuel]; [lia|]).
  cbn. by destruct rest as [|[] rest].
Qed.

Lemma factor_of_decimal m k rest :
  after_factor rest →
  from 4 (λ fuel, parse_factor fuel (TFloat m k :: rest))
       (Parsed (Const (VFloat (float_literal m k))) rest).
Proof.
  intros Hr fuel Hf. do 4 (destruct fuel as [|fuel]; [lia|]).
  cbn [parse_factor parse_power parse_primary parse_atom and_then trailers].
  by destruct rest as [|[] rest].
Qed.

Lemma factor_of_minus n ts x rest :
  from n (λ fuel, parse_factor fuel ts) (Parsed x rest) →
  from (S n) (λ fuel, parse_factor fuel (TMinus :: ts))
       (Parsed (Unary Neg x) rest).
Proof.
  intros H fuel Hf. destruct fuel as [|fuel]; [lia|].
  cbn. rewrite H by lia. done.
Qed.

Lemma factor_of_group n ts x rest :
  match ts with TRPar :: _ | [] => False | _ => True end →
  after_factor rest →
  from n (λ fuel, parse_sum fuel (ts ++ TRPar :: rest))
       (Parsed x (TRPar :: rest)) →
  from (4 + n) (λ fuel, parse_factor fuel (TLPar :: ts ++ TRPar :: rest))
       (Parsed x rest).
Proof.
  intros Hts Hr H fuel Hf. do 4 (destruct fuel as [|fuel]; [lia|]).
  assert (parse_atom (S fuel) (TLPar :: ts ++ TRPar :: rest) = Parsed x rest)
    as Ha.
  { pose proof (H fuel ltac:(lia)) as Hs. cbn beta in Hs.
    destruct ts as [|t ts]; [done|].
    destruct t; try done; cbn [parse_atom app] in *; by rewrite Hs. }
  cbn [parse_factor parse_power parse_primary]. rewrite Ha. cbn [and_then].
  by destruct rest as [|[] rest].
Qed.

Lemma term_of_factor n m ts x rest r :
  from n (λ fuel, parse_factor fuel ts) (Parsed x rest) →
  from m (λ fuel, term_rest fuel x rest) r →
  from (S (n + m)) (λ fuel, parse_term fuel ts) r.
Proof.
  intros Hf Hr fuel Hfuel. destruct fuel as [|fuel]; [lia|].
  cbn [parse_term]. rewrite Hf by lia. apply Hr. lia.
Qed.

Lemma term_rest_star n m ts x y rest r :
  from n (λ fuel, parse_factor fuel ts) (Parsed y rest) →
  from m (λ fuel, term_rest fuel (Binary Mul x y) rest) r →
  from (S (n + m)) (λ fuel, term_rest fuel x (TStar :: ts)) r.
Proof.
  intros Hf Hr fuel Hfuel. destruct fuel as [|fuel]; [lia|].
  cbn [term_rest]. rewrite Hf by lia. apply Hr. lia.
Qed.

Lemma term_rest_slash n m ts x y rest r :
  from n (λ fuel, parse_factor fuel ts) (Parsed y rest) →
  from m (λ fuel, term_rest fuel (Binary Div x y) rest) r →
  from (S (n + m)) (λ fuel, term_rest fuel x (TSlash :: ts)) r.
Proof.
  intros Hf Hr fuel Hfuel. destruct fuel as [|fuel]; [lia|].
  cbn [term_rest]. rewrite Hf by lia. apply Hr. lia.
Qed.

Lemma term_rest_done x rest :
  after_term rest → from 1 (λ fuel, term_rest fuel x rest) (Parsed x rest).
Proof.
  intros Hr fuel Hf. destruct fuel as [|fuel]; [lia|].
  by destruct rest as [|[] rest].
Qed.

Lemma sum_of_term n m ts x rest r :
  from n (λ fuel, parse_term fuel ts) (Parsed x rest) →
  from m (λ fuel, sum_rest fuel x rest) r →
  from (S (n + m)) (λ fuel, parse_sum fuel ts) r.
Proof.
  intros Ht Hr fuel Hfuel. destruct fuel as [|fuel]; [lia|].
  cbn [parse_sum]. rewrite Ht by lia. apply Hr. lia.
Qed.

Lemma sum_rest_plus n m ts x y rest r :
  from n (λ fuel, parse_term fuel ts) (Parsed y rest) →
  from m (λ fuel, sum_rest fuel (Binary Add x y) rest) r →
  from (S (n + m)) (λ fuel, sum_rest fuel x (TPlus :: ts)) r.
Proof.
  intros Ht Hr fuel Hfuel. destruct fuel as [|fuel]; [lia|].
  cbn [sum_rest]. rewrite Ht by lia. apply Hr. lia.
Qed.

Lemma sum_rest_minus n m ts x y rest r :
  from n (λ fuel, parse_term fuel ts) (Parsed y rest) →
  from m (λ fuel, sum_rest fuel (Binary Sub x y) rest) r →
  from (S (n + m)) (λ fuel, sum_rest fuel x (TMinus :: ts)) r.
Proof.
  intros Ht Hr fuel Hfuel. destruct fuel as [|fuel]; [lia|].
  cbn [sum_rest]. rewrite Ht by lia. apply Hr. lia.
Qed.

Lemma sum_rest_done x rest :
  after_sum rest → from 1 (λ fuel, sum_rest fuel x rest) (Parsed x rest).
Proof.
  intros Hr fuel Hf. destruct fuel as [|fuel]; [lia|].
  by destruct rest as [|[] rest].
Qed.

Lemma after_term_factor rest : after_term rest → after_factor rest.
Proof. by destruct rest as [|[] rest]. Qed.

Lemma tokens_head e : ∀ p,
  match tokens p e with TRPar :: _ | [] => False | _ => True end.
Proof.
  induction e as [n|a IHa|a IHa b IHb|a IHa b IHb|a IHa b IHb|a IHa b IHb
                 |a IHa|a IHa|n f]; intros p; cbn [tokens]; try done;
    try (destruct (_ <? p)%nat; cbn [parens_tokens]; [done|]).
  - specialize (IHa 0%nat). by destruct (tokens 0 a) as [|[] ?].
  - specialize (IHa 0%nat). by destruct (tokens 0 a) as [|[] ?].
  - specialize (IHa 1%nat). by destruct (tokens 1 a) as [|[] ?].
  - specialize (IHa 1%nat). by destruct (tokens 1 a) as [|[] ?].
  - apply IHa.
Qed.

(** A parenthesised sum is a factor. *)
Lemma reads_group e ts k :
  reads_sum e → tokens 0 e = ts → (cost 0 e + 5 ≤ k)%nat →
  ∀ rest, after_factor rest →
    from k (λ fuel, parse_factor fuel ((TLPar :: ts ++ [TRPar]) ++ rest))
         (Parsed (tree e) rest).
Proof.
  intros He <- Hk rest Hr.
  rewrite <- app_comm_cons, <- app_assoc. cbn [app].
  eapply from_mono; [apply factor_of_group|]; [apply tokens_head|done| |].
  - apply (He (TRPar :: rest) 1%nat); [done|]. by apply sum_rest_done.
  - lia.
Qed.

(** A factor is a term, and a term is a sum. *)
Lemma reads_term_of_factor e :
  reads_factor e → tokens 1 e = tokens 2 e → (cost 2 e + 1 ≤ cost 1 e)%nat →
  reads_term e.
Proof.
  intros He Ht Hc rest n r Hr Hn. rewrite Ht.
  eapply from_mono; [eapply term_of_factor; [by apply He|done]|lia].
Qed.

Lemma reads_sum_of_term e :
  reads_term e → tokens 0 e = tokens 1 e → (cost 1 e + 2 ≤ cost 0 e)%nat →
  reads_sum e.
Proof.
  intros He Ht Hc rest n r Hr Hn. rewrite Ht.
  eapply from_mono; [eapply sum_of_term; [|done]|].
  - apply (He rest 1%nat); [by apply after_term_factor|].
    by apply term_rest_done.
  - lia.
Qed.

Lemma reads e : reads_factor e ∧ reads_term e ∧ reads_sum e.
Proof.
  induction e as [n|a (IHa2 & IHa1 & IHa0)
                 |a (IHa2 & IHa1 & IHa0) b (IHb2 & IHb1 & IHb0)
                 |a (IHa2 & IHa1 & IHa0) b (IHb2 & IHb1 & IHb0)
                 |a (IHa2 & IHa1 & IHa0) b (IHb2 & IHb1 & IHb0)
                 |a (IHa2 & IHa1 & IHa0) b (IHb2 & IHb1 & IHb0)
                 |a (IHa2 & IHa1 & IHa0)|a (IHa2 & IHa1 & IHa0)|n f].
  - (* a numeral *)
    assert (reads_factor (Lit n)) as H2.
    { intros rest Hr. by apply factor_of_numeral. }
    assert (reads_term (Lit n)) as H1.
    { apply reads_term_of_factor; [done..|cbn; lia]. }
    split_and!; [done..|]. apply reads_sum_of_term; [done..|cbn; lia].
  - (* a negation *)
    assert (reads_factor (Opp a)) as H2.
    { intros rest Hr. cbn [tokens tree cost]. rewrite <- app_comm_cons.
      eapply from_mono; [apply factor_of_minus, IHa2, Hr|lia]. }
    assert (reads_term (Opp a)) as H1.
    { apply reads_term_of_factor; [done..|cbn; lia]. }
    split_and!; [done..|]. apply reads_sum_of_term; [done..|cbn; lia].
  - (* a sum *)
    assert (reads_sum (Sum a b)) as H0.
    { intros rest n r Hr Hn. cbn [tokens tree cost Nat.ltb Nat.leb parens_tokens].
      rewrite <- app_assoc, <- app_comm_cons.
      eapply from_mono; [apply IHa0; [done|]|].
      - eapply sum_rest_plus; [|exact Hn].
        apply (IHb1 rest 1%nat); [by apply after_term_factor|].
        by apply term_rest_done.
      - cbn. lia. }
    assert (reads_factor (Sum a b)) as H2.
    { intros rest Hr. apply (reads_group (Sum a b)); [done..|cbn; lia|done]. }
    split_and!; [done| |done].
    apply reads_term_of_factor; [done..|cbn; lia].
  - (* a difference *)
    assert (reads_sum (Diff a b)) as H0.
    { intros rest n r Hr Hn. cbn [tokens tree cost Nat.ltb Nat.leb parens_tokens].
      rewrite <- app_assoc, <- app_comm_cons.
      eapply from_mono; [apply IHa0; [done|]|].
      - eapply sum_rest_minus; [|exact Hn].
        apply (IHb1 rest 1%nat); [by apply after_term_factor|].
        by apply term_rest_done.
      - cbn. lia. }
    assert (reads_factor (Diff a b)) as H2.
    { intros rest Hr. apply (reads_group (Diff a b)); [done..|cbn; lia|done]. }
    split_and!; [done| |done].
    apply reads_term_of_factor; [done..|cbn; lia].
  - (* a product *)
    assert (reads_term (Prod a b)) as H1.
    { intros rest n r Hr Hn. cbn [tokens tree cost Nat.ltb Nat.leb parens_tokens].
      rewrite <- app_assoc, <- app_comm_cons.
      eapply from_mono; [apply IHa1; [done|]|].
      - eapply term_rest_star; [|exact Hn]. by apply IHb2.
      - cbn. lia. }
    assert (reads_sum (Prod a b)) as H0.
    { apply reads_sum_of_term; [done..|cbn; lia]. }
    split_and!; [|done..].
    intros rest Hr. apply (reads_group (Prod a b)); [done..|cbn; lia|done].
  - (* a quotient *)
    assert (reads_term (Quot a b)) as H1.
    { intros rest n r Hr Hn. cbn [tokens tree cost Nat.ltb Nat.leb parens_tokens].
      rewrite <- app_assoc, <- app_comm_cons.
      eapply from_mono; [apply IHa1; [done|]|].
      - eapply term_rest_slash; [|exact Hn]. by apply IHb2.
      - cbn. lia. }
    assert (reads_sum (Quot a b)) as H0.
    { apply reads_sum_of_term; [done..|cbn; lia]. }
    split_and!; [|done..].
    intros rest Hr. apply (reads_group (Quot a b)); [done..|cbn; lia|done].
  - (* explicit parentheses *)
    assert (reads_factor (Group a)) as H2.
    { intros rest Hr. apply (reads_group a); [done..|cbn; lia|done]. }
    assert (reads_term (Group a)) as H1.
    { apply reads_term_of_factor; [done..|cbn; lia]. }
    split_and!; [done..|]. apply reads_sum_of_term; [done..|cbn; lia].
  - (* blanks *)
    done.
  - (* a decimal numeral *)
    assert (reads_factor (Dec n f)) as H2.
    { intros rest Hr. by apply factor_of_decimal. }
    assert (reads_term (Dec n f)) as H1.
    { apply reads_term_of_factor; [done..|cbn; lia]. }
    split_and!; [done..|]. apply reads_sum_of_term; [done..|cbn; lia].
Qed.

Lemma cost_tokens e : ∀ p, (cost p e ≤ 10 * length (tokens p e))%nat.
Proof.
  induction e as [n|a IHa|a IHa b IHb|a IHa b IHb|a IHa b IHb|a IHa b IHb
                 |a IHa|a IHa|n f]; intros p; cbn [cost tokens]; try done;
    try (destruct (_ <? p)%nat; cbn [parens_tokens]);
    cbn [length]; rewrite ?length_app; cbn [length];
    try pose proof (IHa 0%nat); try pose proof (IHa 1%nat);
    try pose proof (IHa 2%nat); try pose proof (IHb 1%nat);
    try pose proof (IHb 2%nat); lia.
Qed.

Lemma parse_tokens e : parse (tokens 0 e) = Return (tree e).
Proof.
  unfold parse.
  destruct (reads e) as (_ & _ & H0).
  rewrite <- (app_nil_r (tokens 0 e)) at 2.
  rewrite (H0 [] 1%nat (Parsed (tree e) [])); [done..| |].
  - by apply sum_rest_done.
  - unfold parse_fuel. pose proof (cost_tokens e 0). lia.
Qed.

(** An opening parenthesis that is never closed. *)
Lemma parse_unclosed e : parse (TLPar :: tokens 0 e) = Raise SyntaxError.
Proof.
  unfold parse.
  destruct (reads e) as (_ & _ & H0).
  specialize (H0 [] 1%nat (Parsed (tree e) []) I (sum_rest_done _ [] I)).
  rewrite app_nil_r in H0.
  pose proof (cost_tokens e 0) as Hc. pose proof (tokens_head e 0) as Hh.
  unfold parse_fuel. cbn [length].
  destruct (10 * S (length (tokens 0 e)) + 10)%nat as [|f1] eqn:Hf; [lia|].
  do 5 (destruct f1 as [|f1]; [lia|]).
  assert (parse_atom (S f1) (TLPar :: tokens 0 e) = NoParse) as Ha.
  { specialize (H0 f1 ltac:(lia)). cbn beta in H0.
    destruct (tokens 0 e) as [|t ts]; [done|].
    destruct t; try done; cbn [parse_atom]; by rewrite H0. }
  cbn [parse_sum parse_term parse_factor parse_power parse_primary].
  by rewrite Ha.
Qed.

End parsing.

Section evaluator.
Import pyeval models.

Lemma allowed_permitted c : allowed c = true ↔ permitted c.
Proof.
  unfold allowed, permitted. rewrite existsb_exists. split.
  - intros (x & Hx & ->%N.eqb_eq). vm_compute in Hx.
    repeat (destruct Hx as [<-|Hx]; [first [left; lia|right; vm_compute; set_solver]|]).
    done.
  - intros Hc. exists c. split; [|apply N.eqb_refl].
    destruct Hc as [Hc|Hc].
    + unfold allowed_chars. cbn [In]. lia.
    + apply list_elem_of_In in Hc. unfold allowed_chars.
      vm_compute in Hc. cbn [In]. lia.
Qed.

Lemma check_chars_forallb s :
  check_chars s = if forallb allowed s then Return tt else Raise UnsafeEval.
Proof.
  induction s as [|c s IH]; [done|]. cbn [check_chars forallb].
  by destruct (allowed c).
Qed.

Lemma safe_math_eval_forallb s :
  safe_math_eval s = if forallb allowed s then eval s else Raise UnsafeEval.
Proof.
  unfold safe_math_eval. rewrite check_chars_forallb.
  by destruct (forallb allowed s).
Qed.

Lemma forallb_permitted s :
  forallb allowed s = true ↔ ∀ c, c ∈ s → permitted c.
Proof.
  rewrite forallb_forall. split; intros H c Hc.
  - apply allowed_permitted, H. by apply list_elem_of_In.
  - apply allowed_permitted, H. by apply list_elem_of_In.
Qed.

Lemma digit_allowed c : is_digit c = true → allowed c = true.
Proof.
  intros Hc. apply allowed_permitted. left.
  unfold is_digit, in_range in Hc.
  apply andb_true_iff in Hc as [?%N.leb_le ?%N.leb_le]. done.
Qed.

Lemma digits_allowed u : forallb allowed (uint_chars u) = true.
Proof.
  apply forallb_forall. intros c Hc. apply digit_allowed.
  pose proof (uint_chars_digits u) as Hd.
  rewrite Forall_forall in Hd. apply Hd. by apply list_elem_of_In.
Qed.

Lemma written_allowed e : ∀ p, forallb allowed (written p e) = true.
Proof.
  induction e as [n|a IHa|a IHa b IHb|a IHa b IHb|a IHa b IHb|a IHa b IHb
                 |a IHa|a IHa|n f]; intros p; cbn [written];
    try (destruct (_ <? p)%nat; cbn [parens]);
    unfold str_of_N;
    rewrite ?forallb_app, ?IHa, ?IHb, ?digits_allowed; done.
Qed.

Lemma eval_expr_tree e : eval_expr (tree e) = value_of e.
Proof.
  induction e; cbn [tree eval_expr value_of]; rewrite ?IHe, ?IHe1, ?IHe2; done.
Qed.

Lemma eval_written e :
  (length (written 0 e) ≤ source_limit)%nat →
  eval (written 0 e) = value_of e.
Proof.
  intros Hlen. unfold eval, tokenize.
  apply Nat.leb_le in Hlen as ->.
  rewrite <- (app_nil_r (written 0 e)), lex_written by done.
  cbn [lex flush before bind]. rewrite app_nil_r, parse_tokens.
  apply eval_expr_tree.
Qed.

Lemma eval_unclosed e :
  (length (written 0 e) < source_limit)%nat →
  eval (0x28 :: written 0 e) = Raise SyntaxError.
Proof.
  intros Hlen. unfold eval, tokenize.
  replace (length (40%N :: written 0 e) <=? source_limit)%nat with true
    by (symmetry; apply Nat.leb_le; cbn [length]; lia).
  rewrite lex_lpar.
  rewrite <- (app_nil_r (written 0 e)), lex_written by done.
  cbn [lex flush before bind app]. rewrite app_nil_r.
  by rewrite parse_unclosed.
Qed.

Lemma value_of_integer e : ∀ z,
  integer_value e = Some z → value_of e = Return (VInt z).
Proof.
  induction e as [n|a IHa|a IHa b IHb|a IHa b IHb|a IHa b IHb|a IHa b IHb
                 |a IHa|a IHa|n f]; intros z; cbn [integer_value value_of];
    try done; try (by intros [= <-]); try apply IHa.
  - destruct (integer_value a) as [x|]; [|done]. intros [= <-].
    by rewrite (IHa x).
  - destruct (integer_value a) as [x|]; [|done].
    destruct (integer_value b) as [y|]; [|done]. intros [= <-].
    by rewrite (IHa x), (IHb y).
  - destruct (integer_value a) as [x|]; [|done].
    destruct (integer_value b) as [y|]; [|done]. intros [= <-].
    by rewrite (IHa x), (IHb y).
  - destruct (integer_value a) as [x|]; [|done].
    destruct (integer_value b) as [y|]; [|done]. intros [= <-].
    by rewrite (IHa x), (IHb y).
Qed.

(** An arithmetic expression has a number for its value. *)
Lemma value_of_number e v :
  value_of e = Return v → (∃ z, v = VInt z) ∨ (∃ x, v = VFloat x).
Proof.
  revert v.
  assert (∀ op x y v,
    ((∃ z, x = VInt z) ∨ (∃ f, x = VFloat f)) →
    ((∃ z, y = VInt z) ∨ (∃ f, y = VFloat f)) →
    op ≠ FloorDiv → op ≠ Pow →
    binary op x y = Return v → (∃ z, v = VInt z) ∨ (∃ f, v = VFloat f)) as Hb.
  { intros op x y v [[m ->]|[f ->]] [[n ->]|[g ->]] Hfd Hpw;
      destruct op; try done; cbn [binary];
      unfold float2, fadd, fsub, fmul, fdiv;
      repeat match goal with
        | |- Return _ = Return _ → _ => intros [= <-]; eauto
        | |- Raise _ = Return _ → _ => done
        | |- Beyond = Return _ → _ => done
        | |- bind ?a _ = Return _ → _ => destruct a eqn:?; cbn [bind]
        | |- (if ?b then _ else _) = Return _ → _ => destruct b eqn:?
        end. }
  induction e as [n|a IHa|a IHa b IHb|a IHa b IHb|a IHa b IHb|a IHa b IHb
                 |a IHa|a IHa|n f]; intros v; cbn [value_of]; try apply IHa;
    try (intros [= <-]; by eauto).
  - destruct (value_of a) as [x| |]; try done. cbn [bind].
    destruct (IHa x eq_refl) as [[z ->]|[f ->]]; intros [= <-]; eauto.
  - destruct (value_of a) as [x| |]; try done.
    destruct (value_of b) as [y| |]; try done. cbn [bind].
    apply Hb; eauto; done.
  - destruct (value_of a) as [x| |]; try done.
    destruct (value_of b) as [y| |]; try done. cbn [bind].
    apply Hb; eauto; done.
  - destruct (value_of a) as [x| |]; try done.
    destruct (value_of b) as [y| |]; try done. cbn [bind].
    apply Hb; eauto; done.
  - destruct (value_of a) as [x| |]; try done.
    destruct (value_of b) as [y| |]; try done. cbn [bind].
    apply Hb; eauto; done.
Qed.

Lemma division_by_zero a b x :
  value_of a = Return x → value_of b = Return (VInt 0) →
  value_of (Quot a b) = Raise ZeroDivisionError.
Proof.
  intros Ha Hb. cbn [value_of]. rewrite Ha, Hb. cbn [bind].
  destruct (value_of_number a x Ha) as [[z ->]|[f ->]]; [by destruct z|].
  done.
Qed.

Lemma evaluation_error_distinct x : evaluation_error x → x ≠ UnsafeEval.
Proof. by intros [->|[->|[->| ->]]]. Qed.

Lemma all_below_spec bound P :
  all_below bound P = true → ∀ m, m < N.of_nat bound → P m = true.
Proof.
  unfold all_below. rewrite forallb_forall. intros H m Hm.
  rewrite <- (N2Nat.id m). apply H. apply in_seq. lia.
Qed.

(** The digits of a numeral below ten with at most two digits after
    the point denote the nearest double. *)
Lemma literals_nearest m k :
  (k ≤ 2)%nat → m < 10 * 10 ^ N.of_nat k →
  nearest m k (float_literal m k) = true.
Proof.
  intros Hk Hm.
  destruct k as [|[|[|k]]]; [| | |lia].
  - revert m Hm. apply (all_below_spec 10). vm_compute. reflexivity.
  - revert m Hm. apply (all_below_spec 100). vm_compute. reflexivity.
  - revert m Hm. apply (all_below_spec 1000). vm_compute. reflexivity.
Qed.

End evaluator.



(** ** The snapshot cache *)

Section hexadecimal.
Import json.

Lemma hex_value_digit d : d < 16 → hex_value (hex_digit d) = Some d.
Proof.
  intros Hd. destruct d as [|p]; [done|].
  do 4 (destruct p as [p|p|]; try done); lia.
Qed.

Lemma hex_number_hex4 n :
  n < 0x10000 →
  hex_number [N.shiftr n 12 mod 16; N.shiftr n 8 mod 16;
              N.shiftr n 4 mod 16; n mod 16] = n.
Proof.
  intros Hn. unfold hex_number. cbn [fold_left].
  rewrite !N.shiftr_div_pow2.
  change (2 ^ 12) with 4096. change (2 ^ 8) with 256. change (2 ^ 4) with 16.
  assert (n / 256 / 16 = n / 4096) as H1 by (by rewrite N.Div0.div_div).
  assert (n / 16 / 16 = n / 256) as H2 by (by rewrite N.Div0.div_div).
  assert (n / 4096 < 16) as H3 by (apply N.Div0.div_lt_upper_bound; lia).
  pose proof (N.Div0.div_mod (n / 256) 16) as H4.
  pose proof (N.Div0.div_mod (n / 16) 16) as H5.
  pose proof (N.Div0.div_mod n 16) as H6.
  rewrite (N.mod_small (n / 4096)) by done.
  rewrite H1 in H4. rewrite H2 in H5. lia.
Qed.

Lemma lor_shiftl a b k : b < 2 ^ k → N.lor (N.shiftl a k) b = a * 2 ^ k + b.
Proof.
  intros Hb. rewrite <- N.shiftl_mul_pow2, <- N.lxor_lor, N.add_nocarry_lxor;
    try done; apply N.bits_inj_0; intros i; rewrite N.land_spec;
    destruct (N.lt_ge_cases i k) as [Hi|Hi].
  - by rewrite N.shiftl_spec_low.
  - rewrite <- (N.mod_small b (2 ^ k)), N.mod_pow2_bits_high by done.
    apply andb_false_r.
  - by rewrite N.shiftl_spec_low.
  - rewrite <- (N.mod_small b (2 ^ k)), N.mod_pow2_bits_high by done.
    apply andb_false_r.
Qed.

(** The two halves of a code point beyond the basic plane. *)
Lemma surrogates_of c :
  0x10000 ≤ c → c < 0x110000 →
  let n := c - 0x10000 in
  let s1 := N.lor 0xd800 (N.land (N.shiftr n 10) 0x3ff) in
  let s2 := N.lor 0xdc00 (N.land n 0x3ff) in
  is_high s1 = true ∧ is_low s2 = true ∧ s1 < 0x10000 ∧ s2 < 0x10000
  ∧ join_surrogates s1 s2 = c.
Proof.
  intros Hlo Hhi n s1 s2.
  assert (n < 0x100000) as Hn by (unfold n; lia).
  assert (s1 = 0xd800 + n / 1024) as Hs1.
  { unfold s1. change 0x3ff with (N.ones 10). rewrite N.land_ones.
    rewrite N.shiftr_div_pow2. change (2 ^ 10) with 1024.
    change 0xd800 with (N.shiftl 54 10).
    assert (n / 1024 < 1024) by (apply N.Div0.div_lt_upper_bound; lia).
    rewrite N.mod_small by done. rewrite lor_shiftl by done. done. }
  assert (s2 = 0xdc00 + n mod 1024) as Hs2.
  { unfold s2. change 0x3ff with (N.ones 10). rewrite N.land_ones.
    change (2 ^ 10) with 1024. change 0xdc00 with (N.shiftl 55 10).
    rewrite lor_shiftl by (apply N.mod_upper_bound; done). done. }
  assert (n / 1024 < 1024) by (apply N.Div0.div_lt_upper_bound; lia).
  pose proof (N.mod_upper_bound n 1024 ltac:(done)).
  pose proof (N.Div0.div_mod n 1024).
  unfold is_high, is_low, in_range, join_surrogates. rewrite Hs1, Hs2.
  assert (c = n + 0x10000) as Hc by (unfold n; lia).
  clearbody s1 s2 n. subst s1 s2.
  generalize dependent (n / 1024). generalize dependent (n mod 1024).
  intros r Hr q Hq Hqr.
  split_and!; try (apply andb_true_iff; split; apply N.leb_le; lia); try lia.
  replace (0xd800 + q - 0xd800) with q by lia.
  replace (0xdc00 + r - 0xdc00) with r by lia.
  rewrite lor_shiftl by done. change (2 ^ 10) with 1024. lia.
Qed.

End hexadecimal.

Section scanning.
Import json.

Lemma fmap_app_nil (o : option (list token)) : app [] <$> o = o.
Proof. by destruct o. Qed.

Lemma fmap_app_app ts us (o : option (list token)) :
  app ts <$> (app us <$> o) = app (ts ++ us) <$> o.
Proof. destruct o; [|done]. cbn. by rewrite app_assoc. Qed.

Lemma scan_silent st c st' s :
  scan_step st c = Some ([], st') → scan st (c :: s) = scan st' s.
Proof. intros H. cbn [scan]. rewrite H. apply fmap_app_nil. Qed.

Lemma scan_token st c t st' s :
  scan_step st c = Some ([t], st') → scan st (c :: s) = app [t] <$> scan st' s.
Proof. intros H. cbn [scan]. by rewrite H. Qed.

Lemma hex_digit_step (P : N → scan_state) d :
  d < 16 →
  match hex_value (hex_digit d) with
  | Some h => Some ([] : list token, P h)
  | None => None
  end = Some ([], P d).
Proof. intros Hd. by rewrite hex_value_digit. Qed.

Lemma scan_hex4 acc u tail :
  u < 0x10000 →
  scan (SHex acc []) (hex4 u ++ tail) = scan (unit_read acc u) tail.
Proof.
  intros Hu. unfold hex4. cbn [app].
  assert (∀ x, x mod 16 < 16) as Hd by (intros; by apply N.mod_upper_bound).
  do 4 (erewrite scan_silent;
        [|cbn [scan_step length Nat.eqb app];
          by rewrite hex_value_digit by apply Hd]).
  by rewrite hex_number_hex4.
Qed.

Lemma scan_high_hex4 acc hi u tail :
  u < 0x10000 →
  scan (SHighHex acc hi []) (hex4 u ++ tail)
  = scan (if is_low u then SStr (acc ++ [join_surrogates hi u])
          else unit_read (acc ++ [hi]) u) tail.
Proof.
  intros Hu. unfold hex4. cbn [app].
  assert (∀ x, x mod 16 < 16) as Hd by (intros; by apply N.mod_upper_bound).
  do 3 (erewrite scan_silent;
        [|cbn [scan_step length Nat.eqb app];
          by rewrite hex_value_digit by apply Hd]).
  cbn [scan scan_step length Nat.eqb app].
  rewrite hex_value_digit by apply Hd. rewrite hex_number_hex4 by done.
  destruct (is_low u); cbn; apply fmap_app_nil.
Qed.

Lemma high_not_low u : is_high u = true → is_low u = false.
Proof.
  unfold is_high, is_low, in_range.
  intros [?%N.leb_le ?%N.leb_le]%andb_true_iff.
  apply andb_false_iff. left. apply N.leb_gt. lia.
Qed.

Lemma unit_read_high acc u : is_high u = true → unit_read acc u = SHigh acc u.
Proof. unfold unit_read. by intros ->. Qed.

Lemma unit_read_other acc u :
  is_high u = false → unit_read acc u = SStr (acc ++ [u]).
Proof. unfold unit_read. by intros ->. Qed.

(** One character of the string, escaped, is read back as itself. *)
Lemma scan_escape st acc c tail :
  reading st acc (is_low c) → c < 0x110000 →
  scan st (escape c ++ tail) = scan (unit_read acc c) tail.
Proof.
  intros Hst Hc. unfold escape.
  change (py "\\") with [0x5c; 0x5c]. change (py "\n") with [0x5c; 0x6e].
  change (py "\r") with [0x5c; 0x72]. change (py "\t") with [0x5c; 0x74].
  change (py "\b") with [0x5c; 0x62]. change (py "\f") with [0x5c; 0x66].
  repeat match goal with
    | |- context [if ?x =? ?k then _ else _] =>
        destruct (N.eqb_spec x k) as [->|?];
        [destruct Hst as [->|(a & hi & -> & -> & _)]; cbn [app];
         do 2 (erewrite scan_silent by reflexivity); reflexivity|]
    end.
  destruct (in_range 0x20 0x7e c) eqn:Hp.
  { (* printable *)
    apply andb_true_iff in Hp as [Hp1%N.leb_le Hp2%N.leb_le].
    assert (in_string acc c = Some ([], SStr (acc ++ [c]))) as Hin.
    { unfold in_string.
      rewrite (proj2 (N.eqb_neq c 0x22)), (proj2 (N.eqb_neq c 0x5c)) by done.
      by rewrite (proj2 (N.ltb_ge c 0x20)) by done. }
    rewrite unit_read_other
      by (apply andb_false_iff; left; apply N.leb_gt; lia).
    cbn [app]. apply scan_silent.
    destruct Hst as [->|(a & hi & -> & -> & _)]; cbn [scan_step]; [done|].
    by rewrite (proj2 (N.eqb_neq c 0x5c)) by done. }
  destruct (c <? 0x10000) eqn:Hb.
  { (* the basic plane *)
    apply N.ltb_lt in Hb. change (py "\u") with [0x5c; 0x75]. cbn [app].
    destruct Hst as [->|(a & hi & -> & -> & Hlow)];
      do 2 (erewrite scan_silent by reflexivity).
    - by apply scan_hex4.
    - rewrite scan_high_hex4 by done. by rewrite Hlow. }
  (* beyond it *)
  apply N.ltb_ge in Hb.
  destruct (surrogates_of c Hb Hc) as (Hhi & Hlo & Hs1 & Hs2 & Hjoin).
  cbv zeta. change (py "\u") with [0x5c; 0x75].
  set (s1 := N.lor _ _) in *. set (s2 := N.lor 0xdc00 _) in *.
  rewrite <- !app_assoc. cbn [app].
  assert (∀ acc, scan (SHex acc []) (hex4 s1 ++ 0x5c :: 0x75 :: hex4 s2 ++ tail)
                 = scan (SStr (acc ++ [c])) tail) as Hpair.
  { intros acc'. rewrite scan_hex4, unit_read_high by done.
    do 2 (erewrite scan_silent by reflexivity).
    rewrite scan_high_hex4 by done. by rewrite Hlo, Hjoin. }
  rewrite unit_read_other
    by (apply andb_false_iff; right; apply N.leb_gt; lia).
  destruct Hst as [->|(a & hi & -> & -> & Hlow)];
    do 2 (erewrite scan_silent by reflexivity).
  - apply Hpair.
  - rewrite scan_high_hex4 by done.
    rewrite (high_not_low s1), unit_read_high by done.
    do 2 (erewrite scan_silent by reflexivity).
    rewrite scan_high_hex4 by done. by rewrite Hlo, Hjoin.
Qed.

Lemma paired_cons c s :
  paired (c :: s) = false → (is_high c && starts_low s = false) ∧ paired s = false.
Proof.
  destruct s as [|c' s]; cbn [paired starts_low].
  - by rewrite andb_false_r.
  - by intros [? ?]%orb_false_iff.
Qed.

(** The rest of a string literal, up to its closing quote. *)
Lemma scan_string s : ∀ st acc tail,
  unpaired s → reading st acc (starts_low s) →
  scan st (flat_map escape s ++ 0x22 :: tail)
  = app [TString (acc ++ s)] <$> scan SIdle tail.
Proof.
  induction s as [|c s IH]; intros st acc tail [Hs Hp] Hst.
  - rewrite app_nil_r. cbn [flat_map app].
    by destruct Hst as [->|(a & hi & -> & -> & _)].
  - inversion Hs as [|? ? Hc Hs']; subst.
    apply paired_cons in Hp as [Hcs Hp].
    cbn [flat_map]. rewrite <- app_assoc.
    rewrite (scan_escape st acc) by done.
    rewrite (IH _ (acc ++ [c])); [by rewrite <- app_assoc|done|].
    unfold unit_read. destruct (is_high c); [|by left].
    right. by exists acc, c.
Qed.

Lemma scans_dumps_str s : unpaired s → scans (dumps_str s) [TString s].
Proof.
  intros Hs tail. unfold dumps_str. rewrite <- !app_assoc. cbn [app].
  erewrite scan_silent by reflexivity.
  apply (scan_string s _ []); [done|by left].
Qed.

Lemma scans_app s t ss ts : scans s ss → scans t ts → scans (s ++ t) (ss ++ ts).
Proof.
  intros Hs Ht tail. by rewrite <- app_assoc, Hs, Ht, fmap_app_app.
Qed.

Lemma scans_comma : scans (py ", ") [TComma].
Proof.
  intros tail. change (py ", " ++ tail) with (0x2c :: 0x20 :: tail).
  erewrite scan_token by reflexivity. by erewrite scan_silent by reflexivity.
Qed.

Lemma scans_colon : scans (py ": ") [TColon].
Proof.
  intros tail. change (py ": " ++ tail) with (0x3a :: 0x20 :: tail).
  erewrite scan_token by reflexivity. by erewrite scan_silent by reflexivity.
Qed.

Lemma scans_nil : scans [] [].
Proof. intros tail. symmetry. apply fmap_app_nil. Qed.

Lemma scans_join items toks :
  Forall2 scans items toks → scans (join items) (separated toks).
Proof.
  induction 1 as [|x t items toks Hx Hrest IH]; [apply scans_nil|].
  destruct Hrest as [|y u items toks Hy Hrest]; [done|].
  change (join (x :: y :: items)) with (x ++ py ", " ++ join (y :: items)).
  change (separated (t :: u :: toks))
    with (t ++ [TComma] ++ separated (u :: toks)).
  by repeat apply scans_app; [|apply scans_comma|].
Qed.

Lemma scans_whole text ts : scans text ts → scan SIdle text = Some ts.
Proof.
  intros H. specialize (H []). rewrite app_nil_r in H. rewrite H.
  cbn. by rewrite app_nil_r.
Qed.

End scanning.

Section documents.
Import json.

Lemma scans_bracket text ts (o c : char) (to tc : token) :
  scan_step SIdle o = Some ([to], SIdle) →
  scan_step SIdle c = Some ([tc], SIdle) →
  scans text ts → scan SIdle ([o] ++ text ++ [c]) = Some (to :: ts ++ [tc]).
Proof.
  intros Ho Hc Ht. cbn [app]. erewrite scan_token by done.
  rewrite Ht. erewrite scan_token by done. done.
Qed.

Lemma more_strings_separated l : ∀ x,
  match separated (map (λ x, [TString x]) (x :: l)) ++ [TRBracket] with
  | TString s :: ts => cons s <$> more_strings ts
  | _ => None
  end = Some (x :: l).
Proof.
  induction l as [|y l IH]; intros x; [done|].
  specialize (IH y).
  change (separated (map (λ x, [TString x]) (x :: y :: l)) ++ [TRBracket])
    with (TString x :: TComma
          :: (separated (map (λ x, [TString x]) (y :: l)) ++ [TRBracket])).
  destruct (separated _ ++ _) as [|[] ts]; try done.
  cbn [more_strings]. destruct ts; by rewrite IH.
Qed.

Lemma loads_dumps_list l : Forall unpaired l → loads_list (dumps_list l) = Return l.
Proof.
  intros Hl. unfold loads_list, dumps_list.
  change (py "[") with [0x5b]. change (py "]") with [0x5d].
  erewrite (scans_bracket _ (separated (map (λ x, [TString x]) l)));
    [|done|done|].
  - destruct l as [|x l]; [done|]. cbn [mbind option_bind array_of_strings].
    pose proof (more_strings_separated l x) as H.
    destruct (separated _ ++ _) as [|[] ts]; try done.
    cbn [array_of_strings]. destruct ts; by rewrite H.
  - apply scans_join. induction Hl; constructor; [|done].
    by apply scans_dumps_str.
Qed.

Lemma more_members_step d k v ts :
  more_members d (TComma :: TString k :: TColon :: TString v :: ts)
  = more_members (<[k := v]> d) ts.
Proof. done. Qed.

Lemma more_members_separated l : ∀ kv d,
  more_members d
    (TComma :: separated (map (λ kv, [TString kv.1; TColon; TString kv.2])
                              (kv :: l)) ++ [TRBrace])
  = Some (put_all d (kv :: l)).
Proof.
  induction l as [|kv' l IH]; intros [k v] d; [done|].
  change (separated (map (λ kv, [TString kv.1; TColon; TString kv.2])
                         ((k, v) :: kv' :: l)) ++ [TRBrace])
    with (TString k :: TColon :: TString v :: TComma
          :: (separated (map (λ kv, [TString kv.1; TColon; TString kv.2])
                             (kv' :: l)) ++ [TRBrace])).
  by rewrite more_members_step, IH.
Qed.

Lemma put_all_list_to_map (l : list (str * str)) :
  NoDup l.*1 → put_all ∅ l = list_to_map l.
Proof.
  induction l as [|[k v] l IH] using rev_ind; [done|].
  rewrite fmap_app, NoDup_app. intros (Hl & Hk & _).
  unfold put_all. rewrite foldl_snoc. fold (put_all ∅ l).
  rewrite IH by done. symmetry. apply list_to_map_snoc.
  intros Hin. apply (Hk k Hin). cbn. by left.
Qed.

Lemma loads_dumps_dict (d : gmap str str) :
  map_Forall (λ k v, unpaired k ∧ unpaired v) d →
  loads_dict (dumps_dict d) = Return d.
Proof.
  intros Hd. unfold loads_dict, dumps_dict.
  change (py "{") with [0x7b]. change (py "}") with [0x7d].
  erewrite (scans_bracket _
    (separated (map (λ kv, [TString kv.1; TColon; TString kv.2])
                    (map_to_list d)))); [|done|done|].
  - assert (put_all ∅ (map_to_list d) = d) as Hput.
    { rewrite put_all_list_to_map by apply NoDup_fst_map_to_list.
      apply list_to_map_to_list. }
    destruct (map_to_list d) as [|[k v] l]; [by rewrite <- Hput|].
    cbn [mbind option_bind]. rewrite <- Hput.
    destruct l as [|kv l]; [done|].
    change (separated (map (λ kv, [TString kv.1; TColon; TString kv.2])
                           ((k, v) :: kv :: l)) ++ [TRBrace])
      with (TString k :: TColon :: TString v :: TComma
            :: (separated (map (λ kv, [TString kv.1; TColon; TString kv.2])
                               (kv :: l)) ++ [TRBrace])).
    cbn [object_of_strings]. by rewrite more_members_separated.
  - apply scans_join. apply Forall2_fmap, Forall_Forall2_diag.
    apply Forall_forall. intros [k v] Hkv%elem_of_map_to_list.
    destruct (Hd k v Hkv) as [Hk Hv]. cbn [fst snd].
    apply (scans_app _ _ [TString k] [TColon; TString v]);
      [by apply scans_dumps_str|].
    apply (scans_app _ _ [TColon] [TString v]);
      [apply scans_colon|by apply scans_dumps_str].
Qed.

End documents.

Section cache.

Lemma unpaired_check s :
  forallb (λ c, c <? 0x110000) s && negb (paired s) = true → unpaired s.
Proof.
  intros [Hs Hp%negb_true_iff]%andb_true_iff. split; [|done].
  apply Forall_forall. intros c Hc%list_elem_of_In.
  rewrite forallb_forall in Hs. by apply N.ltb_lt, Hs.
Qed.

Lemma get_saved_data user x w :
  plain x →
  database.get_data user
    (World (bot w)
           (Tables (session (db w)) (<[user := database.row_of x]> (data (db w))))
           (trace w ++ [Log DEBUG [Text (py "Data saved for user "); Text user]]))
  = (Return (Some x),
     World (bot w)
           (Tables (session (db w)) (<[user := database.row_of x]> (data (db w))))
           ((trace w ++ [Log DEBUG [Text (py "Data saved for user "); Text user]])
            ++ [Log DEBUG [Text (py "Data retrieved for user "); Text user]])).
Proof.
  intros (Hc & Hs & Ht & Ha & He & Hr & Hi).
  unfold database.get_data, mbind_, get_db. cbn [db data].
  rewrite lookup_insert_eq.
  unfold log, emit, lift, ret, database.row_of.
  cbn [col_categories col_source_accounts col_destination_accounts
       col_asset_accounts col_expense_accounts col_revenue_accounts
       col_account_ids].
  rewrite !loads_dumps_list, loads_dumps_dict by done.
  by destruct x.
Qed.

End cache.

(** C9, as amended.  A snapshot whose names, keys and
    identifiers hold no high surrogate directly followed by a low one
    (and only code points of Unicode), saved with [save_data] and loaded
    again with [get_data] for the same user, comes back field for field:
    saving returns, loading returns the snapshot, and loading leaves the
    stored row as it is. *)
Theorem snapshot_round_trip (user : str) (x : snapshot) (w : world) :
  plain x →
  ∃ w1 w2,
    database.save_data user x w = (Return tt, w1)
    ∧ database.get_data user w1 = (Return (Some x), w2)
    ∧ db w2 = db w1.
Proof.
  intros Hx. eexists _, _. split.
  { unfold database.save_data, mbind_, set_db, log, emit.
    cbn [bot db trace]. reflexivity. }
  split; [by apply get_saved_data|done].
Qed.

Lemma snapshot_round_trip_witness :
  plain alice_snapshot
  ∧ ∃ w1 w2,
      database.save_data alice alice_snapshot alice_at_rest = (Return tt, w1)
      ∧ database.get_data alice w1 = (Return (Some alice_snapshot), w2)
      ∧ db w2 = db w1.
Proof.
  assert (plain alice_snapshot) as Hx.
  { unfold plain, alice_snapshot.
    cbn [snap_categories snap_source_accounts snap_destination_accounts
         snap_asset_accounts snap_expense_accounts snap_revenue_accounts
         snap_account_ids].
    split_and!;
      try (repeat (apply Forall_cons; split; [by apply unpaired_check|]);
           by apply Forall_nil).
    repeat (apply map_Forall_insert_2;
            [split; by apply unpaired_check|]).
    apply map_Forall_empty. }
  split; [exact Hx|].
  exact (snapshot_round_trip alice alice_snapshot alice_at_rest Hx).
Defined.

(** C9, as stated, fails: a name made of the two surrogates U+D83D and
    U+DE00 is written as [\ud83d\ude00], which is read back as the single
    character U+1F600; the snapshot that comes back is another one. *)
Lemma surrogate_pair_comes_back_joined :
  ∃ w1 w2,
    database.save_data alice surrogates alice_at_rest = (Return tt, w1)
    ∧ database.get_data alice w1
      = (Return (Some (Snapshot [[0x1f600]] [] [] [] [] [] ∅)), w2)
    ∧ Snapshot [[0x1f600]] [] [] [] [] [] ∅ ≠ surrogates.
Proof.
  eexists _, _. split; [reflexivity|]. split; [vm_compute; reflexivity|].
  unfold surrogates. by intros [=].
Qed.

(** ** What the handlers leave alone *)

Section keeps_facts.
Context (R : world -> world -> Prop) `{!Invariant R}.

Lemma keeps_ret {A} (a : A) : keeps R (ret a).
Proof. intros w. apply invariant_refl. Qed.

Lemma keeps_raise {A} e : keeps R (@raise A e).
Proof. intros w. apply invariant_refl. Qed.

Lemma keeps_lift {A} (x : outcome A) : keeps R (lift x).
Proof. intros w. apply invariant_refl. Qed.

Lemma keeps_get_bot : keeps R get_bot.
Proof. intros w. apply invariant_refl. Qed.

Lemma keeps_get_db : keeps R get_db.
Proof. intros w. apply invariant_refl. Qed.

Lemma keeps_bind {A B} (m : M A) (k : A → M B) :
  keeps R m → (∀ a, keeps R (k a)) → keeps R (mbind_ m k).
Proof.
  intros Hm Hk w. unfold mbind_. specialize (Hm w).
  destruct (m w) as [[a|e|] w1]; simpl in *; [|done..].
  eapply invariant_trans; [exact Hm|apply Hk].
Qed.

Lemma keeps_try {A} (body : M A) handler :
  keeps R body → (∀ e h, handler e = Some h → keeps R h) →
  keeps R (try_except body handler).
Proof.
  intros Hm Hh w. unfold try_except. specialize (Hm w).
  destruct (body w) as [[a|e|] w1]; simpl in *; [done| |done].
  destruct (handler e) as [h|] eqn:He; [|done].
  eapply invariant_trans; [exact Hm|by apply (Hh e h)].
Qed.

Lemma keeps_self {V} (field : FireFlyTelegram → gmap str V) user :
  keeps R (self field user).
Proof. apply keeps_bind; [apply keeps_get_bot|intros; apply keeps_lift]. Qed.

Lemma keeps_emit e : keeps R (emit e).
Proof. intros w. apply invariant_emit. Qed.

Lemma keeps_log lvl msg : keeps R (log lvl msg).
Proof. apply keeps_emit. Qed.

Lemma keeps_set_bot u f : across_attributes R u → local u f → keeps R (set_bot f).
Proof. intros HR Hf w. by apply HR. Qed.

Lemma keeps_set_db u g : across_tables R u → local_db u g → keeps R (set_db g).
Proof. intros HR Hg w. by apply HR. Qed.

End keeps_facts.

Ltac k lem := apply lem; try (solve [typeclasses eauto]).

Ltac keeps_step :=
  first
    [ k keeps_bind; [|intros ?]
    | k keeps_ret | k keeps_raise | k keeps_lift
    | k keeps_get_bot | k keeps_get_db | k keeps_self
    | k keeps_log | k keeps_emit
    | match goal with
      | |- keeps _ (match ?x with _ => _ end) => destruct x
      | |- keeps _ (let (_, _) := ?x in _) => destruct x
      end ].

Global Instance same_db_invariant : Invariant same_db.
Proof. split; unfold same_db; [done|congruence|done]. Qed.

Global Instance same_bot_invariant : Invariant same_bot.
Proof. split; unfold same_bot; [done|congruence|done]. Qed.

Global Instance same_others_invariant u : Invariant (same_others u).
Proof.
  split; unfold same_others; [done| |done].
  intros w1 w2 w3 H12 H23 v Hv.
  destruct (H23 v Hv) as [-> ->]. by apply H12.
Qed.

Lemma same_db_across u : across_attributes same_db u.
Proof. by intros f w _. Qed.

Lemma same_others_across u : across_attributes (same_others u) u.
Proof. intros f w Hf v Hv. split; [by apply Hf|done]. Qed.

Lemma same_others_across_tables u : across_tables (same_others u) u.
Proof. intros g w Hg v Hv. split; [done|by apply Hg]. Qed.

(** The assignments and deletions the code makes at key [u]. *)
Ltac local_update :=
  intros b v Hv; unfold entries; cbn;
  rewrite ?lookup_insert_ne, ?lookup_delete_ne by done; reflexivity.

Section locality.
Context (u : str).

Lemma local_setdefault (d : gmap str str) v :
  v ≠ u → firefly.setdefault_empty u d !! v = d !! v.
Proof.
  intros Hv. unfold firefly.setdefault_empty.
  destruct (d !! u); [done|]. by rewrite lookup_insert_ne.
Qed.

Lemma local_ff_url_insert x : local u (set_ff_url <[u := x]>).
Proof. local_update. Qed.
Lemma local_ff_api_insert x : local u (set_ff_api <[u := x]>).
Proof. local_update. Qed.
Lemma local_default_accounts_insert x : local u (set_default_accounts <[u := x]>).
Proof. local_update. Qed.
Lemma local_categories_insert x : local u (set_categories <[u := x]>).
Proof. local_update. Qed.
Lemma local_source_accounts_insert x : local u (set_source_accounts <[u := x]>).
Proof. local_update. Qed.
Lemma local_destination_accounts_insert x :
  local u (set_destination_accounts <[u := x]>).
Proof. local_update. Qed.
Lemma local_asset_accounts_insert x : local u (set_asset_accounts <[u := x]>).
Proof. local_update. Qed.
Lemma local_expense_accounts_insert x : local u (set_expense_accounts <[u := x]>).
Proof. local_update. Qed.
Lemma local_revenue_accounts_insert x : local u (set_revenue_accounts <[u := x]>).
Proof. local_update. Qed.
Lemma local_account_ids_insert x : local u (set_account_ids <[u := x]>).
Proof. local_update. Qed.

Lemma local_ff_url_delete : local u (set_ff_url (delete u)).
Proof. local_update. Qed.
Lemma local_ff_api_delete : local u (set_ff_api (delete u)).
Proof. local_update. Qed.
Lemma local_default_accounts_delete : local u (set_default_accounts (delete u)).
Proof. local_update. Qed.
Lemma local_categories_delete : local u (set_categories (delete u)).
Proof. local_update. Qed.
Lemma local_source_accounts_delete : local u (set_source_accounts (delete u)).
Proof. local_update. Qed.
Lemma local_destination_accounts_delete :
  local u (set_destination_accounts (delete u)).
Proof. local_update. Qed.
Lemma local_asset_accounts_delete : local u (set_asset_accounts (delete u)).
Proof. local_update. Qed.
Lemma local_expense_accounts_delete : local u (set_expense_accounts (delete u)).
Proof. local_update. Qed.
Lemma local_revenue_accounts_delete : local u (set_revenue_accounts (delete u)).
Proof. local_update. Qed.
Lemma local_account_ids_delete : local u (set_account_ids (delete u)).
Proof. local_update. Qed.

Lemma local_ff_url_setdefault : local u (set_ff_url (firefly.setdefault_empty u)).
Proof. intros b v Hv. unfold entries. cbn. by rewrite local_setdefault. Qed.
Lemma local_ff_api_setdefault : local u (set_ff_api (firefly.setdefault_empty u)).
Proof. intros b v Hv. unfold entries. cbn. by rewrite local_setdefault. Qed.
Lemma local_default_accounts_setdefault :
  local u (set_default_accounts (firefly.setdefault_empty u)).
Proof. intros b v Hv. unfold entries. cbn. by rewrite local_setdefault. Qed.

Lemma local_db_session x :
  local_db u (λ d, Tables (<[u := x]> (session d)) (data d)).
Proof. intros d v Hv. unfold rows. cbn. by rewrite lookup_insert_ne. Qed.

Lemma local_db_data x :
  local_db u (λ d, Tables (session d) (<[u := x]> (data d))).
Proof. intros d v Hv. unfold rows. cbn. by rewrite lookup_insert_ne. Qed.

End locality.

Create HintDb local_updates.
#[export] Hint Resolve local_ff_url_insert local_ff_api_insert
  local_default_accounts_insert local_categories_insert
  local_source_accounts_insert local_destination_accounts_insert
  local_asset_accounts_insert local_expense_accounts_insert
  local_revenue_accounts_insert local_account_ids_insert
  local_ff_url_delete local_ff_api_delete local_default_accounts_delete
  local_categories_delete local_source_accounts_delete
  local_destination_accounts_delete local_asset_accounts_delete
  local_expense_accounts_delete local_revenue_accounts_delete
  local_account_ids_delete local_ff_url_setdefault local_ff_api_setdefault
  local_default_accounts_setdefault local_db_session local_db_data
  : local_updates.

Ltac keeps_update :=
  first
    [ eapply keeps_set_bot; [eassumption|eauto with local_updates]
    | eapply keeps_set_db; [eassumption|eauto with local_updates] ].

Section handlers_keep.
Context (R : world -> world -> Prop) `{!Invariant R}.
Variable slugify : str -> str.
Variable http_get : str -> str -> option Z -> reply.
Variable http_post : str -> str -> transaction -> outcome posted.
Variable isdigit : char -> bool.

(** What reads and reports keeps every invariant. *)
Lemma keeps_get_session user : keeps R (database.get_session user).
Proof. unfold database.get_session. repeat keeps_step. Qed.

Lemma keeps_get_data user : keeps R (database.get_data user).
Proof. unfold database.get_data. repeat keeps_step. Qed.

Lemma keeps_lookup_name table name user :
  keeps R (firefly.lookup_name slugify table name user).
Proof. unfold firefly.lookup_name. repeat keeps_step. Qed.

Lemma keeps_get_category name user :
  keeps R (firefly.get_category slugify name user).
Proof.
  unfold firefly.get_category. k keeps_try; [k keeps_lookup_name|].
  intros e h. destruct e; intros [= <-]; k keeps_raise.
Qed.

Lemma keeps_get_source_account name user :
  keeps R (firefly.get_source_account slugify name user).
Proof.
  unfold firefly.get_source_account. k keeps_try; [k keeps_lookup_name|].
  intros e h. destruct e; intros [= <-]; k keeps_raise.
Qed.

Lemma keeps_get_destination_account name user :
  keeps R (firefly.get_destination_account slugify name user).
Proof.
  unfold firefly.get_destination_account.
  k keeps_try; [k keeps_lookup_name|].
  intros e h. destruct e; intros [= <-]; k keeps_raise.
Qed.

Lemma keeps_new_transaction info user :
  keeps R (firefly.new_transaction http_post info user).
Proof. unfold firefly.new_transaction. repeat keeps_step. Qed.

Lemma keeps_resolved f t user otherwise :
  (∀ n, keeps R (f n user)) → keeps R otherwise →
  keeps R (firefly.resolved f t user otherwise).
Proof.
  intros Hf Ho. unfold firefly.resolved. destruct t; [|done].
  k keeps_bind; [apply Hf|intros; k keeps_ret].
Qed.

Lemma keeps_extract_info line user :
  keeps R (firefly.extract_info slugify line user).
Proof.
  assert (Hdef : keeps R (firefly.default_account user)).
  { unfold firefly.default_account. repeat keeps_step. }
  unfold firefly.extract_info.
  k keeps_bind; [k keeps_log|intros _].
  destruct (re.match_ pattern line); [|k keeps_ret].
  do 3 (k keeps_bind; [k keeps_lift|intros ?]).
  k keeps_bind.
  { destruct (_ =? _);
      (k keeps_bind; [k keeps_resolved|intros ?];
       [intros; first [k keeps_get_destination_account
                      |k keeps_get_source_account]
       |first [exact Hdef|k keeps_ret]|]);
      (k keeps_bind; [k keeps_resolved|intros ?; k keeps_ret];
       [intros; first [k keeps_get_destination_account
                      |k keeps_get_source_account]
       |k keeps_ret]). }
  intros sd. k keeps_bind; [k keeps_lift|intros ?].
  k keeps_bind;
    [k keeps_resolved; [intros; k keeps_get_category|k keeps_ret]|].
  intros ?. repeat keeps_step.
Qed.

Lemma keeps_echo_all_try message user :
  keeps R (handlers.echo_all_try slugify http_post message user).
Proof.
  unfold handlers.echo_all_try. k keeps_try.
  - k keeps_bind; [k keeps_extract_info|intros [info|]].
    + k keeps_bind; [k keeps_new_transaction|intros r].
      unfold handlers.unpack. repeat keeps_step.
    + repeat keeps_step.
  - intros e h. destruct (handlers.echo_all_except e) as [[? ?]|]; intros [= <-].
    repeat keeps_step.
Qed.

Lemma keeps_echo_transfer_try message user :
  keeps R (handlers.echo_transfer_try slugify http_post message user).
Proof.
  unfold handlers.echo_transfer_try. k keeps_try.
  - destruct (split 32 (text message)) as [|t0 [|t1 [|t2 [|t3 l]]]];
      try k keeps_emit.
    k keeps_bind; [k keeps_get_source_account|intros src].
    k keeps_bind; [k keeps_get_destination_account|intros dst].
    k keeps_bind; [k keeps_lift|intros n].
    k keeps_bind; [k keeps_new_transaction|intros r].
    unfold handlers.unpack. repeat keeps_step.
  - intros e h. destruct (handlers.echo_transfer_except e); intros [= <-].
    k keeps_emit.
Qed.

(** What loads and clears one user's attributes keeps what holds
    across updates local to the user. *)
Section one_user.
Variable u : str.
Hypothesis R_attributes : across_attributes R u.

Lemma keeps_load_session : keeps R (firefly.load_session u).
Proof.
  unfold firefly.load_session.
  k keeps_bind; [k keeps_get_session|intros [[[url api] a]|]];
    [|k keeps_ret].
  repeat first [keeps_update | keeps_step].
Qed.

Lemma keeps_load_data : keeps R (firefly.load_data u).
Proof.
  unfold firefly.load_data.
  k keeps_bind; [k keeps_get_data|intros [x|]]; [|k keeps_ret].
  repeat first [keeps_update | keeps_step].
Qed.

Lemma keeps_clear_user_data : keeps R (firefly.clear_user_data u).
Proof. unfold firefly.clear_user_data. repeat first [keeps_update | keeps_step]. Qed.

Lemma keeps_clear_user_session : keeps R (firefly.clear_user_session u).
Proof.
  unfold firefly.clear_user_session. repeat first [keeps_update | keeps_step].
Qed.

Lemma keeps_more_pages api url total : ∀ pages data,
  keeps R (firefly.more_pages http_get api url total pages data).
Proof.
  induction pages as [|n pages IH]; intros data; cbn [firefly.more_pages];
    [k keeps_ret|].
  k keeps_bind; [k keeps_log|intros _].
  k keeps_bind; [|intros p; apply IH].
  unfold firefly.received. repeat keeps_step.
Qed.

Lemma keeps_fetch_all_pages api url :
  keeps R (firefly.fetch_all_pages http_get api url).
Proof.
  unfold firefly.fetch_all_pages.
  k keeps_bind; [k keeps_log|intros _].
  k keeps_bind; [|intros p; k keeps_more_pages].
  unfold firefly.received. repeat keeps_step.
Qed.

Hypothesis R_tables : across_tables R u.

Lemma keeps_save_data : keeps R (firefly.save_data u).
Proof.
  unfold firefly.save_data, database.save_data.
  repeat first [keeps_update | keeps_step].
Qed.

Lemma keeps_save_session : keeps R (firefly.save_session u).
Proof.
  unfold firefly.save_session, database.save_session.
  repeat first [keeps_update | keeps_step].
Qed.

Lemma keeps_get_ff_data : keeps R (firefly.get_ff_data http_get u).
Proof.
  unfold firefly.get_ff_data, firefly.extract_attributes.
  k keeps_bind; [k keeps_log|intros _].
  k keeps_bind; [k keeps_self|intros api].
  k keeps_try; [|intros e h [= <-]; k keeps_log].
  repeat first
    [ k keeps_fetch_all_pages | k keeps_save_data
    | keeps_update | keeps_step ].
Qed.

End one_user.

Lemma keeps_echo_all message :
  across_attributes R (str_of_Z (from_user_id message)) →
  keeps R (handlers.echo_all slugify http_post message).
Proof.
  intros HR. unfold handlers.echo_all.
  k keeps_bind; [by k keeps_load_session|intros _].
  k keeps_bind; [by k keeps_load_data|intros _].
  k keeps_bind; [k keeps_log|intros _].
  k keeps_bind; [k keeps_echo_all_try|intros _].
  k keeps_bind; [by k keeps_clear_user_data|intros _].
  by k keeps_clear_user_session.
Qed.

Lemma keeps_echo_transfer message :
  across_attributes R (str_of_Z (from_user_id message)) →
  keeps R (handlers.echo_transfer slugify http_post message).
Proof.
  intros HR. unfold handlers.echo_transfer.
  k keeps_bind; [by k keeps_load_session|intros _].
  k keeps_bind; [by k keeps_load_data|intros _].
  k keeps_bind; [k keeps_log|intros _].
  k keeps_bind; [k keeps_echo_transfer_try|intros _].
  k keeps_bind; [by k keeps_clear_user_data|intros _].
  by k keeps_clear_user_session.
Qed.

Lemma keeps_on_text message :
  across_attributes R (str_of_Z (from_user_id message)) →
  keeps R (handlers.on_text slugify http_post isdigit message).
Proof.
  intros HR. unfold handlers.on_text.
  k keeps_bind; [k keeps_lift|intros c].
  destruct (isdigit c); [by k keeps_echo_transfer|by k keeps_echo_all].
Qed.

Lemma keeps_update_data message :
  across_attributes R (str_of_Z (from_user_id message)) →
  across_tables R (str_of_Z (from_user_id message)) →
  keeps R (handlers.update_data http_get message).
Proof.
  intros HR HT. unfold handlers.update_data.
  k keeps_bind; [by k keeps_load_session|intros _].
  k keeps_bind; [by k keeps_load_data|intros _].
  k keeps_bind; [k keeps_log|intros _].
  k keeps_bind; [by k keeps_get_ff_data|intros _].
  k keeps_bind; [k keeps_emit|intros _].
  k keeps_bind; [by k keeps_clear_user_data|intros _].
  by k keeps_clear_user_session.
Qed.

End handlers_keep.

Section what_is_left.
Variable slugify : str -> str.
Variable http_get : str -> str -> option Z -> reply.
Variable http_post : str -> str -> transaction -> outcome posted.
Variable isdigit : char -> bool.

Lemma cleared u w r w' :
  (firefly.clear_user_data u ;;; firefly.clear_user_session u) w = (r, w') →
  forgotten u (bot w').
Proof.
  unfold firefly.clear_user_data, firefly.clear_user_session.
  run_step. intros [= _ <-]. unfold forgotten, entries. cbn.
  by rewrite !lookup_delete_eq.
Qed.

End what_is_left.

(** X1. Handling a text message writes nothing to the database: whatever
    the message and whatever the outcome, both tables are afterwards what
    they were. *)
Theorem text_messages_leave_the_database
    (slugify : str -> str)
    (http_post : str -> str -> transaction -> outcome posted)
    (isdigit : char -> bool) (message : message) (w : world) :
  db (handlers.on_text slugify http_post isdigit message w).2 = db w.
Proof.
  apply (keeps_on_text same_db). apply same_db_across.
Qed.

(** X2. Handling a text message of one user changes nothing that belongs
    to another: for every other user the ten attributes hold what they
    held, and so do the rows of both tables. *)
Theorem text_messages_touch_one_user
    (slugify : str -> str)
    (http_post : str -> str -> transaction -> outcome posted)
    (isdigit : char -> bool) (message : message) (w : world) (v : str) :
  v ≠ str_of_Z (from_user_id message) →
  entries v (bot (handlers.on_text slugify http_post isdigit message w).2)
  = entries v (bot w)
  ∧ rows v (db (handlers.on_text slugify http_post isdigit message w).2)
    = rows v (db w).
Proof.
  intros Hv.
  by apply (keeps_on_text (same_others (str_of_Z (from_user_id message))) _ _ _
              message (same_others_across _) w v).
Qed.

Lemma text_messages_touch_one_user_witness :
  entries (py "7")
    (bot (handlers.on_text ascii_slug accepting pyeval.is_digit
            (says "Coffee 5") neighbours).2)
  = entries (py "7") (bot neighbours)
  ∧ rows (py "7")
      (db (handlers.on_text ascii_slug accepting pyeval.is_digit
             (says "Coffee 5") neighbours).2)
    = rows (py "7") (db neighbours).
Proof.
  apply (text_messages_touch_one_user ascii_slug accepting pyeval.is_digit
           (says "Coffee 5") neighbours (py "7")).
  vm_compute. discriminate.
Defined.

(** X3. The /update command of one user changes nothing that belongs to
    another, whatever the ledger answers: the other users' attributes and
    their rows of both tables are what they were. *)
Theorem update_touches_one_user
    (http_get : str -> str -> option Z -> reply)
    (message : message) (w : world) (v : str) :
  v ≠ str_of_Z (from_user_id message) →
  entries v (bot (handlers.update_data http_get message w).2) = entries v (bot w)
  ∧ rows v (db (handlers.update_data http_get message w).2) = rows v (db w).
Proof.
  intros Hv.
  by apply (keeps_update_data (same_others (str_of_Z (from_user_id message))) _
              message (same_others_across _) (same_others_across_tables _) w v).
Qed.

Lemma update_touches_one_user_witness :
  entries (py "7") (bot (handlers.update_data unreachable (says "/update") neighbours).2)
  = entries (py "7") (bot neighbours)
  ∧ rows (py "7") (db (handlers.update_data unreachable (says "/update") neighbours).2)
    = rows (py "7") (db neighbours).
Proof.
  apply (update_touches_one_user unreachable (says "/update") neighbours (py "7")).
  vm_compute. discriminate.
Defined.

(** X4. A handler that returns has cleared the user's attributes: after a
    text message or /update that did not raise, none of the ten
    attributes holds an entry for the user. *)
Theorem handled_messages_are_forgotten
    (slugify : str -> str)
    (http_get : str -> str -> option Z -> reply)
    (http_post : str -> str -> transaction -> outcome posted)
    (isdigit : char -> bool) (message : message) (w w' : world) :
  handlers.on_text slugify http_post isdigit message w = (Return tt, w')
  ∨ handlers.update_data http_get message w = (Return tt, w') →
  forgotten (str_of_Z (from_user_id message)) (bot w').
Proof.
  intros [H|H].
  - unfold handlers.on_text in H.
    apply mbind_Return in H as (c & w0 & _ & H).
    destruct (isdigit c);
      unfold handlers.echo_transfer, handlers.echo_all in H;
      do 4 apply mbind_Return in H as (? & ? & _ & H);
      by eapply cleared.
  - unfold handlers.update_data in H.
    do 5 apply mbind_Return in H as (? & ? & _ & H).
    by eapply cleared.
Qed.

Lemma handled_messages_are_forgotten_witness :
  forgotten (str_of_Z (from_user_id (says "Coffee 5")))
    (bot (handlers.on_text ascii_slug accepting pyeval.is_digit
            (says "Coffee 5") alice_at_rest).2).
Proof.
  apply (handled_messages_are_forgotten ascii_slug unreachable accepting
           pyeval.is_digit (says "Coffee 5") alice_at_rest).
  left. vm_compute. reflexivity.
Defined.

Section rejected.
Variable slugify : str -> str.
Variable http_post : str -> str -> transaction -> outcome posted.

Lemma new_transaction_rejected info user w api url answer :
  pyeval.printable (number info) = true →
  ff_api (bot w) !! user = Some api →
  ff_url (bot w) !! user = Some url →
  http_post (url ++ py "transactions") api info
  = Return (Refused (Return answer)) →
  firefly.new_transaction http_post info user w
  = (Return None,
     World (bot w) (db w) (trace w ++ rejection user url info answer)).
Proof.
  intros Hp Hapi Hurl Hpost.
  destruct w as [b d t]. cbn [bot] in Hapi, Hurl.
  unfold firefly.new_transaction, firefly.format_info. rewrite Hp.
  erewrite mbind_run by reflexivity. cbv beta iota.
  erewrite mbind_run by reflexivity. cbv beta iota.
  erewrite mbind_run by (unfold self, mbind_, get_bot, lift, subscript;
                         cbn [bot]; rewrite Hapi; reflexivity).
  cbv beta iota.
  erewrite mbind_run by (unfold self, mbind_, get_bot, lift, subscript;
                         cbn [bot]; rewrite Hurl; reflexivity).
  cbv beta iota.
  erewrite mbind_run by reflexivity. cbv beta iota.
  erewrite mbind_run by (unfold lift; rewrite Hpost; reflexivity).
  cbv beta iota.
  erewrite mbind_run by reflexivity. cbv beta iota.
  erewrite mbind_run by reflexivity. cbv beta iota.
  unfold ret, rejection. cbn [bot db trace]. by rewrite <- !app_assoc.
Qed.

End rejected.

(** X7. When the ledger answers the creation of a transaction with a
    status other than 200 and a JSON body, and the amount can be
    printed, [new_transaction] returns [None] and the [try] statement of
    [echo_all] raises [TypeError] on unpacking it. No [except] clause
    catches it: after the line was parsed, the only events are the
    record of the creation, the POST and the record of the error with
    the body; nothing is sent to the chat. *)
Theorem rejected_transaction_raises
    (slugify : str -> str)
    (http_post : str -> str -> transaction -> outcome posted)
    (message : message) (user : str) (w w1 : world)
    (info : transaction) (api url answer : str) :
  firefly.extract_info slugify (text message) user w = (Return (Some info), w1) →
  pyeval.printable (number info) = true →
  ff_api (bot w) !! user = Some api →
  ff_url (bot w) !! user = Some url →
  http_post (url ++ py "transactions") api info
  = Return (Refused (Return answer)) →
  handlers.echo_all_try slugify http_post message user w
  = (Raise TypeError,
     World (bot w) (db w) (trace w1 ++ rejection user url info answer)).
Proof.
  intros Hinfo Hp Hapi Hurl Hpost.
  assert (bot w1 = bot w ∧ db w1 = db w) as [Hb Hd].
  { pose proof (keeps_extract_info same_bot slugify (text message) user w) as Hk.
    pose proof (keeps_extract_info same_db slugify (text message) user w) as Hk'.
    unfold same_bot, same_db in *. by rewrite Hinfo in Hk, Hk'. }
  unfold handlers.echo_all_try, try_except.
  erewrite mbind_run by exact Hinfo. cbv beta iota.
  erewrite mbind_run
    by (eapply new_transaction_rejected;
        [exact Hp|rewrite Hb; exact Hapi|rewrite Hb; exact Hurl|exact Hpost]).
  cbv beta iota. unfold handlers.unpack, mbind_, raise.
  cbn [handlers.echo_all_except]. by rewrite Hb, Hd.
Qed.

Lemma rejected_transaction_raises_witness :
  ∃ info w1,
    firefly.extract_info ascii_slug (text (says "Coffee 5")) alice alice_ready
    = (Return (Some info), w1)
    ∧ handlers.echo_all_try ascii_slug rejecting (says "Coffee 5") alice alice_ready
      = (Raise TypeError,
         World (bot alice_ready) (db alice_ready)
               (trace w1 ++ rejection alice (py "http://ledger/api/v1/") info
                                      (py "{'message': 'Unauthenticated.'}"))).
Proof.
  eexists _, _. split; [vm_compute; reflexivity|].
  eapply (rejected_transaction_raises ascii_slug rejecting (says "Coffee 5") alice
            alice_ready _ _ (py "key") (py "http://ledger/api/v1/"));
    [vm_compute; reflexivity|vm_compute; reflexivity|vm_compute; reflexivity
    |vm_compute; reflexivity|reflexivity].
Defined.

(** ** More on the parser *)

Section parser_exceptions.
Variable slugify : str -> str.

Lemma amount_char_allowed c : amount_char c = true → models.allowed c = true.
Proof.
  intros Hc. apply allowed_permitted. unfold amount_char in Hc.
  repeat apply orb_true_iff in Hc as [Hc|Hc];
    try (apply N.eqb_eq in Hc as ->; right; apply list_elem_of_In;
         vm_compute; tauto).
  left. by apply andb_true_iff in Hc as [?%N.leb_le ?%N.leb_le].
Qed.

Lemma amount_is_evaluated a :
  run_of amount_char a → models.safe_math_eval a = pyeval.eval a.
Proof.
  intros [_ Ha]. rewrite safe_math_eval_forallb.
  replace (forallb models.allowed a) with true; [done|].
  symmetry. apply forallb_forall. intros c Hc.
  apply amount_char_allowed. rewrite Forall_forall in Ha.
  by apply Ha, list_elem_of_In.
Qed.

Lemma configured_default_raises b user e :
  configured_default b user = Raise e →
  e = KeyError ∧ default_accounts b !! user = None.
Proof.
  unfold configured_default, subscript.
  destruct (default_accounts b !! user); [done|]. by intros [= <-].
Qed.

(** Where an exception of [extract_info] comes from. *)
Lemma parse_result_raises b line user e :
  parse_result slugify b line user = Raise e →
  typed e
  ∨ (e = KeyError
     ∧ (default_accounts b !! user = None ∨ asset_accounts b !! user = None))
  ∨ ∃ amount, run_of amount_char amount ∧ pyeval.eval amount = Raise e.
Proof.
  unfold parse_result. intros H.
  destruct (re.match_ pattern line) as [m|] eqn:Hm; [|done].
  destruct (match_groups _ _ Hm) as (d & a & H1 & _ & H2 & Ha & _).
  rewrite H1, H2 in H. cbn [firefly.some_or bind] in H.
  pose proof Ha as [Hne _]. destruct a as [|c a]; [done|].
  cbn [head firefly.some_or bind] in H.
  assert (Hrole : ∀ nf tb t x,
            in_role slugify nf tb t user (Return None) = Raise x →
            (nf = SourceError ∨ nf = DestinationError ∨ nf = CategoryError) →
            typed x).
  { intros nf tb t x Hx Hnf.
    apply in_role_Raise in Hx as [->|[->|?]]; unfold typed; [tauto|tauto|done]. }
  assert (Hdef : ∀ nf tb t x,
            in_role slugify nf tb t user (configured_default b user) = Raise x →
            (nf = SourceError ∨ nf = DestinationError ∨ nf = CategoryError) →
            typed x ∨ (x = KeyError ∧ default_accounts b !! user = None)).
  { intros nf tb t x Hx Hnf.
    apply in_role_Raise in Hx as [->|[->|Hx]]; unfold typed; [tauto|tauto|].
    right. by apply configured_default_raises. }
  assert (Hsd : ∀ nf4 tb4 nf5 tb5 (k : option str → option str → option str * option str)
                  (rest : option str * option str → outcome (option transaction)),
            (nf4 = SourceError ∨ nf4 = DestinationError ∨ nf4 = CategoryError) →
            (nf5 = SourceError ∨ nf5 = DestinationError ∨ nf5 = CategoryError) →
            (let* sd := (let* x := in_role slugify nf4 tb4 (re.group m 4) user
                                           (configured_default b user) in
                         let* y := in_role slugify nf5 tb5 (re.group m 5) user
                                           (Return None) in
                         Return (k x y)) in rest sd) = Raise e →
            typed e ∨ (e = KeyError ∧ default_accounts b !! user = None)
            ∨ ∃ sd, rest sd = Raise e).
  { intros nf4 tb4 nf5 tb5 k rest Hn4 Hn5 Hr.
    destruct (in_role slugify nf4 _ _ _ _) as [x| |] eqn:H4;
      cbn [bind] in Hr; try done.
    - destruct (in_role slugify nf5 _ _ _ _) as [y| |] eqn:H5;
        cbn [bind] in Hr; try done.
      + right. right. by eexists.
      + injection Hr as ->. left. by eapply Hrole.
    - injection Hr as ->. destruct (Hdef _ _ _ _ H4 Hn4); tauto. }
  assert (Hrest : ∀ sd : option str * option str,
            (let* number := models.safe_math_eval (c :: a) in
             let* category := in_role slugify CategoryError (categories b)
                                      (re.group m 3) user (Return None) in
             let* assets := subscript (asset_accounts b) user in
             Return (Some (Transaction (strip d) number category sd.1 sd.2
                                       (classify sd.1 sd.2 assets)))) = Raise e →
            typed e ∨ (e = KeyError ∧ asset_accounts b !! user = None)
            ∨ pyeval.eval (c :: a) = Raise e).
  { intros sd Hr. rewrite amount_is_evaluated in Hr by done.
    destruct (pyeval.eval (c :: a)) as [n| |]; cbn [bind] in Hr; try done.
    - destruct (in_role slugify CategoryError _ _ _ _) as [cat| |] eqn:Hcat;
        cbn [bind] in Hr; try done.
      + unfold subscript in Hr.
        destruct (asset_accounts b !! user); [done|].
        injection Hr as <-. tauto.
      + injection Hr as ->. left. eapply Hrole; [done|auto].
    - right. right. by injection Hr as ->. }
  destruct (c =? 43).
  - apply (Hsd DestinationError _ SourceError _ (λ d s, (s, d))) in H
      as [?|[[? ?]|[sd Hsd']]]; [tauto|tauto| |by auto|by auto].
    apply Hrest in Hsd' as [?|[[? ?]|?]]; [tauto|tauto|].
    right. right. by exists (c :: a).
  - apply (Hsd SourceError _ DestinationError _ (λ s d, (s, d))) in H
      as [?|[[? ?]|[sd Hsd']]]; [tauto|tauto| |by auto|by auto].
    apply Hrest in Hsd' as [?|[[? ?]|?]]; [tauto|tauto|].
    right. right. by exists (c :: a).
Qed.

End parser_exceptions.

(** X5. Every exception [extract_info] raises is one of [CategoryError],
    [SourceError], [DestinationError], [StartError]; or a [KeyError],
    and then the user's default account or asset accounts are not
    loaded; or one that Python's evaluation of the amount raised
    ([SyntaxError], [ZeroDivisionError], [TypeError], [OverflowError]).
    The evaluator's own exception for a forbidden character is never
    among them: the pattern lets only allowed characters into the
    amount. An amount of more than [pyeval.source_limit] characters, or
    with a power too large to hold, is outside the evaluation embedded
    here, and so outside this statement. *)
Theorem extract_info_exceptions (slugify : str -> str) (line user : str)
    (w w' : world) (e : exn) :
  firefly.extract_info slugify line user w = (Raise e, w') →
  (typed e
   ∨ (e = KeyError
      ∧ (default_accounts (bot w) !! user = None
         ∨ asset_accounts (bot w) !! user = None))
   ∨ evaluation_error e)
  ∧ e ≠ UnsafeEval.
Proof.
  rewrite extract_info_run. intros [= H _].
  apply parse_result_raises in H as [H|[[-> H]|(a & Ha & H)]].
  - split; [by left|]. by destruct H as [->|[->|[->| ->]]].
  - split; [|done]. right. by left.
  - apply eval_raises in H. split; [by auto|].
    by apply evaluation_error_distinct.
Qed.

Lemma extract_info_exceptions_witness :
  ∃ w',
    firefly.extract_info ascii_slug (py "Coffee 5 Nowhere") alice alice_ready
    = (Raise CategoryError, w')
    ∧ (typed CategoryError
       ∨ (CategoryError = KeyError
          ∧ (default_accounts (bot alice_ready) !! alice = None
             ∨ asset_accounts (bot alice_ready) !! alice = None))
       ∨ evaluation_error CategoryError)
    ∧ CategoryError ≠ UnsafeEval.
Proof.
  eexists. split; [vm_compute; reflexivity|].
  eapply (extract_info_exceptions ascii_slug (py "Coffee 5 Nowhere") alice
            alice_ready).
  vm_compute. reflexivity.
Defined.

(** *** The order in which the optional tokens are filled *)

Ltac not_captured := rewrite list_elem_of_In; cbn; lia.

Section token_order.
Import re.

Lemma head_flat_map {A B} (f : A → list B) (l : list A) x :
  head (flat_map f l) = Some x →
  ∃ l1 y l2, l = l1 ++ y :: l2 ∧ Forall (λ z, f z = []) l1 ∧ head (f y) = Some x.
Proof.
  induction l as [|a l IH]; [done|]. cbn [flat_map].
  destruct (f a) as [|b bs] eqn:Hfa.
  - intros (l1 & y & l2 & -> & Hl1 & Hy)%IH.
    exists (a :: l1), y, l2. split; [done|]. split; [by constructor|done].
  - intros [= <-]. exists [], a, l. by rewrite Hfa.
Qed.

Lemma head_In {A} (l : list A) x : head l = Some x → In x l.
Proof. destruct l; [done|]. intros [= <-]. by left. Qed.

(** The groups a derivation leaves alone. *)
Lemma derives_other_groups r i : ∀ st st',
  derives r st st' → i ∉ captures r → st'.2 !! i = st.2 !! i.
Proof.
  induction r as [cls|cls|r1 IH1 r2 IH2|j r IH|r IH| |];
    intros [[p s] g] [[p' s'] g']; cbn [derives captures fst snd].
  - by intros (_ & _ & _ & _ & ->).
  - by intros (_ & _ & _ & _ & _ & ->).
  - intros (mid & H1 & H2) Hi. rewrite not_elem_of_app in Hi.
    transitivity (mid.2 !! i).
    + apply (IH2 mid (p', s', g') H2). tauto.
    + apply (IH1 (p, s, g) mid H1). tauto.
  - intros (g0 & H & ->) [Hne Hi]%not_elem_of_cons.
    rewrite lookup_insert_ne by (intros ->; by apply Hne).
    by apply (IH (p, s, g) (p', s', g0) H).
  - intros [H| [= -> -> ->]] Hi; [by apply (IH (p, s, g) (p', s', g') H)|done].
  - by intros [_ [= -> -> ->]].
  - by intros [_ [= -> -> ->]].
Qed.

(** Where a derivation goes does not depend on the groups it starts
    with. *)
Lemma derives_any_groups r : ∀ p s g p' s' g' h,
  derives r (p, s, g) (p', s', g') → ∃ h', derives r (p, s, h) (p', s', h').
Proof.
  induction r as [cls|cls|r1 IH1 r2 IH2|j r IH|r IH| |];
    intros p s g p' s' g' h; cbn [derives fst snd].
  - intros (c & ? & ? & ? & _). exists h. by exists c.
  - intros (w & ? & ? & ? & ? & _). exists h. by exists w.
  - intros ([[pm sm] gm] & H1 & H2).
    destruct (IH1 _ _ _ _ _ _ h H1) as [h1 H1'].
    destruct (IH2 _ _ _ _ _ _ h1 H2) as [h2 H2'].
    exists h2, (pm, sm, h1). done.
  - intros (g0 & H & _). destruct (IH _ _ _ _ _ _ h H) as [h0 H'].
    eexists. exists h0. done.
  - intros [H| [= -> -> ->]].
    + destruct (IH _ _ _ _ _ _ h H) as [h' H']. exists h'. by left.
    + exists h. by right.
  - intros [? [= -> -> ->]]. by exists h.
  - intros [? [= -> -> ->]]. by exists h.
Qed.

(** A token taken as group [i] could be taken as group [j]. *)
Lemma token_any_group i j p s g p' s' g' h :
  derives (word_token i) (p, s, g) (p', s', g') →
  ∃ h', derives (word_token j) (p, s, h) (p', s', h').
Proof.
  cbn [word_token derives fst snd].
  intros ([[pm sm] gm] & (w & ? & ? & ? & ? & ?) & (g0 & (w' & ? & ? & ? & ? & ?) & _)).
  cbn [fst snd] in *. eexists. exists (pm, sm, h). split.
  - by exists w.
  - exists h. split; [|done]. by exists w'.
Qed.

Lemma token_sets i st st' : derives (word_token i) st st' → is_Some (st'.2 !! i).
Proof.
  destruct st as [[p s] g], st' as [[p' s'] g']. cbn [word_token derives fst snd].
  intros (mid & _ & (g0 & _ & ->)). rewrite lookup_insert_eq. by eexists.
Qed.

Lemma run_nonempty r st st' : derives r st st' → run r st ≠ [].
Proof. intros H%run_derives Hnil. by rewrite Hnil in H. Qed.

(** Skipping a token whose text is there is never the first way: if
    no way of taking the token as group [i] leads to a match of what
    follows, then the first way of matching from here takes no later
    token either. *)
Lemma eol_any_groups p s g y h :
  derives Eol (p, s, g) y → y = (p, s, g) ∧ derives Eol (p, s, h) (p, s, h).
Proof. cbn [derives fst snd]. by intros [? ->]. Qed.

(** Skipping a token whose text is there is never the first way: if
    no way of taking the token as group [i] leads to a match of what
    follows, then the only way of matching what follows from here takes
    no later token either. *)
Lemma skipped_means_absent i st x :
  (i = 3 ∨ i = 4 ∨ i = 5)%nat →
  Forall (λ z, run (ending (S i)) z = []) (run (word_token i) st) →
  derives (ending (S i)) st x → x = st.
Proof.
  intros Hi Hall Hx.
  assert (Hno : ∀ mid y, derives (word_token i) st mid → derives (ending (S i)) mid y → False).
  { intros mid y Hmid Hy. rewrite Forall_forall in Hall.
    apply run_derives in Hmid. apply (run_nonempty _ _ _ Hy).
    by apply Hall, list_elem_of_In. }
  destruct st as [[p s] g].
  (* a token taken as any group, directly followed by the end *)
  assert (Htake : ∀ j pm sm gm y,
            derives (word_token j) (p, s, g) (pm, sm, gm) →
            derives Eol (pm, sm, gm) y → False).
  { intros j pm sm gm y Hj Hy.
    destruct (token_any_group j i _ _ _ _ _ _ g Hj) as [h' Hi'].
    destruct (eol_any_groups _ _ _ _ h' Hy) as [_ He].
    apply (Hno _ (pm, sm, h') Hi').
    destruct Hi as [->|[->| ->]]; cbn [ending token_opt].
    - exists (pm, sm, h'). split; [by right|].
      exists (pm, sm, h'). split; [by right|done].
    - exists (pm, sm, h'). split; [by right|done].
    - done. }
  destruct Hi as [->|[->| ->]]; cbn [ending token_opt] in Hx.
  - destruct Hx as (m4 & [H4| ->] & m5 & [H5| ->] & He).
    + exfalso. destruct m4 as [[p4 s4] g4].
      destruct (token_any_group 4 3 _ _ _ _ _ _ g H4) as [h3 H3].
      destruct m5 as [[p5 s5] g5].
      destruct (token_any_group 5 5 _ _ _ _ _ _ h3 H5) as [h5 H5'].
      destruct (eol_any_groups _ _ _ _ h5 He) as [_ He'].
      apply (Hno _ (p5, s5, h5) H3). cbn [ending token_opt].
      exists (p4, s4, h3). split; [by right|].
      exists (p5, s5, h5). split; [by left|done].
    + exfalso. destruct m4 as [[p4 s4] g4]. by apply (Htake 4%nat _ _ _ _ H4 He).
    + exfalso. destruct m5 as [[p5 s5] g5]. by apply (Htake 5%nat _ _ _ _ H5 He).
    + by apply eol_any_groups with (h := g) in He as [-> _].
  - destruct Hx as (m5 & [H5| ->] & He).
    + exfalso. destruct m5 as [[p5 s5] g5]. by apply (Htake 5%nat _ _ _ _ H5 He).
    + by apply eol_any_groups with (h := g) in He as [-> _].
  - by apply eol_any_groups with (h := g) in Hx as [-> _].
Qed.

Lemma run_seq r1 r2 st : run (Seq r1 r2) st = flat_map (run r2) (run r1 st).
Proof. by destruct st as [[p s] g]. Qed.

Lemma run_opt r st : run (Opt r) st = run r st ++ [st].
Proof. by destruct st as [[p s] g]. Qed.

Lemma head_seq r1 r2 st x :
  head (run (Seq r1 r2) st) = Some x →
  ∃ l1 y l2, run r1 st = l1 ++ y :: l2 ∧ Forall (λ z, run r2 z = []) l1
             ∧ head (run r2 y) = Some x.
Proof. rewrite run_seq. apply head_flat_map. Qed.

Lemma snoc_split {A} (l l1 l2 : list A) a y :
  l ++ [a] = l1 ++ y :: l2 →
  (∃ l2', l = l1 ++ y :: l2') ∨ (l1 = l ∧ y = a ∧ l2 = []).
Proof.
  revert l1. induction l as [|b l IH]; intros [|c l1]; cbn.
  - intros [= <- <-]. by right.
  - intros [= _ H]. by destruct l1.
  - intros [= <- <-]. left. by exists l.
  - intros [= <- H]. destruct (IH _ H) as [[l2' ->]|(-> & -> & ->)].
    + left. by exists l2'.
    + by right.
Qed.

(** The first way through an optional token and what follows it: the
    token is taken, or nothing more is. *)
Lemma first_way i st x :
  (i = 3 ∨ i = 4 ∨ i = 5)%nat →
  head (run (ending i) st) = Some x →
  (∃ y, derives (word_token i) st y ∧ head (run (ending (S i)) y) = Some x) ∨ x = st.
Proof.
  intros Hi Hx.
  assert (Hrun : run (ending i) st
                 = flat_map (run (ending (S i))) (run (word_token i) st ++ [st])).
  { destruct st as [[p s] g]. by destruct Hi as [->|[->| ->]]. }
  rewrite Hrun in Hx.
  apply head_flat_map in Hx as (l1 & y & l2 & Hl & Hl1 & Hy).
  apply snoc_split in Hl as [[l2' Hl]|(-> & -> & ->)].
  - left. exists y. split; [|done]. apply run_derives. rewrite Hl.
    apply in_app_iff. right. by left.
  - right. apply (skipped_means_absent i); [done..|].
    by apply run_derives, head_In.
Qed.

Lemma ending_order st x :
  head (run (ending 3) st) = Some x →
  st.2 !! 4%nat = None → st.2 !! 5%nat = None →
  (is_Some (x.2 !! 4%nat) → is_Some (x.2 !! 3%nat))
  ∧ (is_Some (x.2 !! 5%nat) → is_Some (x.2 !! 4%nat)).
Proof.
  intros Hx H4 H5.
  destruct (first_way 3 st x ltac:(auto) Hx) as [(y & Hy & Hx')| ->];
    [|rewrite H4, H5; split; by intros [? ?]].
  clear Hx. rename Hx' into Hx.
  pose proof (token_sets _ _ _ Hy) as Hy3.
  assert (y.2 !! 5%nat = None) as Hy5.
  { rewrite (derives_other_groups _ 5 _ _ Hy); [done|]. not_captured. }
  pose proof (proj1 (run_derives _ _ _) (head_In _ _ Hx)) as Hd.
  split.
  - intros _. rewrite (derives_other_groups _ 3 _ _ Hd); [done|].
    not_captured.
  - destruct (first_way 4 y x ltac:(auto) Hx) as [(z & Hz & Hx')| ->];
      [|rewrite Hy5; by intros [? ?]].
    intros _. pose proof (token_sets _ _ _ Hz) as Hz4.
    pose proof (proj1 (run_derives _ _ _) (head_In _ _ Hx')) as Hd5.
    rewrite (derives_other_groups _ 4 _ _ Hd5); [done|]. not_captured.
Qed.

Lemma head_seq_derives r1 r2 st x :
  head (run (Seq r1 r2) st) = Some x →
  ∃ y, derives r1 st y ∧ head (run r2 y) = Some x.
Proof.
  intros (l1 & y & l2 & Hl & _ & Hx)%head_seq. exists y. split; [|done].
  apply run_derives. rewrite Hl. apply in_app_iff. right. by left.
Qed.

(** The groups of a match object: a later token is there only if the
    one before it is. *)
Lemma match_order line m :
  match_ pattern line = Some m →
  (is_Some (group m 4) → is_Some (group m 3))
  ∧ (is_Some (group m 5) → is_Some (group m 4)).
Proof.
  unfold match_, group.
  destruct (run pattern (O, line, ∅)) as [|x l] eqn:Hrun; [done|].
  assert (head (run pattern (O, line, ∅)) = Some x) as Hx by (by rewrite Hrun).
  destruct x as [[px sx] gx]. intros [= <-]. clear Hrun.
  unfold pattern in Hx.
  apply head_seq_derives in Hx as (y0 & D0 & Hx).
  apply head_seq_derives in Hx as (y1 & D1 & Hx).
  apply head_seq_derives in Hx as (y2 & D2 & Hx).
  apply head_seq_derives in Hx as (y3 & D3 & Hx).
  assert (∀ i, (3 ≤ i)%nat → y3.2 !! i = None) as Hnone.
  { intros i Hi.
    rewrite (derives_other_groups _ i _ _ D3) by not_captured.
    rewrite (derives_other_groups _ i _ _ D2) by not_captured.
    rewrite (derives_other_groups _ i _ _ D1) by not_captured.
    rewrite (derives_other_groups _ i _ _ D0) by not_captured.
    done. }
  apply (ending_order y3 (px, sx, gx) Hx); apply Hnone; lia.
Qed.

End token_order.

(** X6. The three optional tokens of a line are filled from the left: in
    every match of the pattern the fourth group is set only if the third
    is, and the fifth only if the fourth is. So a transaction returned
    without a category was read from a line without account tokens: one
    of its accounts is the user's default account, on the destination
    side when the amount starts with [+] and on the source side
    otherwise, and the other is [None]. *)
Theorem tokens_fill_in_order (slugify : str -> str) (line user : str) (w : world) :
  (∀ m, re.match_ pattern line = Some m →
        (is_Some (re.group m 4) → is_Some (re.group m 3))
        ∧ (is_Some (re.group m 5) → is_Some (re.group m 4)))
  ∧ (∀ tx w',
       firefly.extract_info slugify line user w = (Return (Some tx), w') →
       category tx = None →
       ∃ m amount c a,
         re.match_ pattern line = Some m
         ∧ re.group m 2 = Some amount ∧ head amount = Some c
         ∧ default_accounts (bot w) !! user = Some a
         ∧ (source tx, destination tx)
           = if c =? 0x2b then (None, Some a) else (Some a, None)).
Proof.
  split; [intros m; apply match_order|].
  intros tx w'. rewrite extract_info_run. intros [= H _] Hcat.
  apply parse_result_Some in H
    as (m & g1 & g2 & c & assets & Hm & _ & H2 & Hc & _ & _ & H3 & H45 & _).
  rewrite Hcat in H3. apply in_role_Return in H3.
  destruct (match_order _ _ Hm) as [H43 H54].
  destruct (re.group m 3) as [t3|] eqn:Hg3; [by destruct H3 as (? & ? & _)|].
  destruct (re.group m 4) as [t4|] eqn:Hg4;
    [by destruct (H43 ltac:(by eexists))|].
  destruct (re.group m 5) as [t5|] eqn:Hg5;
    [by destruct (H54 ltac:(by eexists))|].
  cbn [in_role] in H45. unfold configured_default, subscript in H45.
  destruct (default_accounts (bot w) !! user) as [a|] eqn:Ha;
    [|by destruct (c =? 43), H45].
  exists m, g2, c, a. do 4 (split; [done|]).
  destruct (c =? 43), H45 as [[= <-] [= <-]]; done.
Qed.

Lemma tokens_fill_in_order_witness :
  ∃ tx w',
    firefly.extract_info ascii_slug (py "Coffee +5") alice alice_ready
    = (Return (Some tx), w')
    ∧ category tx = None
    ∧ ∃ m amount c a,
        re.match_ pattern (py "Coffee +5") = Some m
        ∧ re.group m 2 = Some amount ∧ head amount = Some c
        ∧ default_accounts (bot alice_ready) !! alice = Some a
        ∧ (source tx, destination tx)
          = if c =? 0x2b then (None, Some a) else (Some a, None).
Proof.
  eexists _, _. split; [vm_compute; reflexivity|]. split; [reflexivity|].
  eapply (proj2 (tokens_fill_in_order ascii_slug (py "Coffee +5") alice alice_ready));
    [vm_compute; reflexivity|reflexivity].
Defined.

(** ** More on the refresh *)

Ltac debug_only :=
  repeat first
    [ apply extends_refl
    | apply extends_snoc; [reflexivity|]
    | apply extends_app; [assumption|] ].

Ltac refresh_fails :=
  simpl; apply post_log; split; [reflexivity|]; split; [reflexivity|];
  split; [reflexivity|]; eexists; split; [reflexivity|]; simpl; debug_only.

Section refresh_run.
Variable http_get : str -> str -> option Z -> reply.

(** What a refresh comes to, for a user whose key is loaded. *)
Lemma get_ff_data_run user w api :
  ff_api (bot w) !! user = Some api →
  ∃ w',
    firefly.get_ff_data http_get user w = (Return tt, w')
    ∧ refresh_outcome user w w'
        (let* url := subscript (ff_url (bot w)) user in refreshed http_get api url).
Proof.
  intros Hapi.
  cut (post (firefly.get_ff_data http_get user) w
         (λ r w', r = Return tt
                  ∧ refresh_outcome user w w'
                      (let* url := subscript (ff_url (bot w)) user in
                       refreshed http_get api url))).
  { unfold post. intros [Hr Hw]. eexists. split; [|exact Hw].
    rewrite <- Hr. by destruct (firefly.get_ff_data http_get user w). }
  destruct w as [b d t]. unfold firefly.get_ff_data, refresh_outcome, refreshed.
  simpl in Hapi. simpl bot. simpl db. simpl trace.
  apply post_bind, post_log. apply post_bind, post_self. simpl.
  unfold subscript. rewrite Hapi. apply post_try.
  apply post_bind, post_self. simpl. unfold subscript.
  destruct (ff_url b !! user) as [url|] eqn:Hurl; [|refresh_fails].
  simpl. apply post_bind, post_fetch_all_pages. intros evs1 H1.
  pose proof (fetched_not_Beyond http_get api (url ++ py "categories")).
  destruct (fetched http_get api (url ++ py "categories")) as [cats|e|];
    [|refresh_fails|done].
  simpl. apply post_bind. unfold firefly.extract_attributes.
  apply post_bind, post_log. apply post_lift.
  pose proof (comprehension_not_Beyond (λ x, firefly.attribute x (py "name")) cats
                (λ x, attribute_not_Beyond x (py "name"))).
  destruct (firefly.comprehension _ cats) as [names|e|]; [|refresh_fails|done].
  simpl. apply post_bind, post_set_bot. apply post_bind, post_log.
  apply post_bind, post_self. simpl. unfold subscript. rewrite Hurl.
  simpl. apply post_bind, post_fetch_all_pages. intros evs2 H2.
  pose proof (fetched_not_Beyond http_get api (url ++ py "accounts")).
  destruct (fetched http_get api (url ++ py "accounts")) as [accs|e|];
    [|refresh_fails|done].
  simpl. apply post_bind, post_lift.
  pose proof (ids_by_name_not_Beyond accs ∅).
  destruct (firefly.ids_by_name accs ∅) as [ids|e|]; [|refresh_fails|done].
  simpl. apply post_bind, post_set_bot. apply post_bind, post_log.
  apply post_bind, post_lift.
  pose proof (names_of_type_not_Beyond [py "revenue"; py "asset"] accs).
  destruct (firefly.names_of_type [py "revenue"; py "asset"] accs)
    as [sources|e|]; [|refresh_fails|done].
  simpl. apply post_bind, post_set_bot. apply post_bind, post_lift.
  pose proof (names_of_type_not_Beyond [py "expense"; py "asset"] accs).
  destruct (firefly.names_of_type [py "expense"; py "asset"] accs)
    as [destinations|e|]; [|refresh_fails|done].
  simpl. apply post_bind, post_set_bot. apply post_bind, post_lift.
  pose proof (names_of_type_not_Beyond [py "asset"] accs).
  destruct (firefly.names_of_type [py "asset"] accs) as [assets|e|];
    [|refresh_fails|done].
  simpl. apply post_bind, post_set_bot. apply post_bind, post_lift.
  pose proof (names_of_type_not_Beyond [py "expense"] accs).
  destruct (firefly.names_of_type [py "expense"] accs) as [expenses|e|];
    [|refresh_fails|done].
  simpl. apply post_bind, post_set_bot. apply post_bind, post_lift.
  pose proof (names_of_type_not_Beyond [py "revenue"] accs).
  destruct (firefly.names_of_type [py "revenue"] accs) as [revenues|e|];
    [|refresh_fails|done].
  simpl. apply post_bind, post_set_bot. apply post_bind, post_log.
  apply post_bind. unfold firefly.save_data.
  do 7 (apply post_bind, post_self; simpl; unfold subscript;
        rewrite lookup_insert_eq; simpl).
  unfold database.save_data. apply post_bind. unfold post. simpl.
  split; [reflexivity|]. split; [reflexivity|]. split; [reflexivity|].
  split; [unfold installed; simpl; by rewrite !lookup_insert_eq|]. debug_only.
Qed.

End refresh_run.

Section partition.

(** A name picked for one set of types is picked for every larger one,
    in the same order. *)
Lemma names_of_type_sublist ts ts' l : ∀ ns ns',
  ts ⊆ ts' →
  firefly.names_of_type ts l = Return ns →
  firefly.names_of_type ts' l = Return ns' →
  sublist ns ns'.
Proof.
  induction l as [|x l IH]; intros ns ns' Hts; cbn [firefly.names_of_type].
  - by intros [= <-] [= <-].
  - destruct (firefly.attribute x (py "type")) as [ty| |]; cbn [bind]; try done.
    destruct (bool_decide (ty ∈ ts)) eqn:H1;
      destruct (bool_decide (ty ∈ ts')) eqn:H2.
    + destruct (firefly.attribute x (py "name")) as [n| |]; cbn [bind]; try done.
      destruct (firefly.names_of_type ts l) as [a| |]; cbn [bind]; try done.
      destruct (firefly.names_of_type ts' l) as [a'| |]; cbn [bind]; try done.
      intros [= <-] [= <-]. apply sublist_skip. by apply IH.
    + apply bool_decide_eq_true in H1. apply bool_decide_eq_false in H2.
      destruct H2. by apply Hts.
    + destruct (firefly.attribute x (py "name")) as [n| |]; cbn [bind]; try done.
      destruct (firefly.names_of_type ts' l) as [a'| |]; cbn [bind]; try done.
      intros Hns [= <-]. apply sublist_cons. by apply IH.
    + by apply IH.
Qed.

(** A name is picked for two sets of types together exactly when it is
    picked for one of them. *)
Lemma names_of_type_app ts1 ts2 l : ∀ ns ns1 ns2,
  firefly.names_of_type (ts1 ++ ts2) l = Return ns →
  firefly.names_of_type ts1 l = Return ns1 →
  firefly.names_of_type ts2 l = Return ns2 →
  ∀ n, n ∈ ns ↔ n ∈ ns1 ∨ n ∈ ns2.
Proof.
  induction l as [|x l IH]; intros ns ns1 ns2; cbn [firefly.names_of_type].
  - intros [= <-] [= <-] [= <-] n. set_unfold. tauto.
  - destruct (firefly.attribute x (py "type")) as [ty| |]; cbn [bind]; try done.
    destruct (firefly.attribute x (py "name")) as [m| |] eqn:Hname.
    + destruct (firefly.names_of_type (ts1 ++ ts2) l) as [a| |]; cbn [bind];
        [|repeat case_bool_decide; try done; set_unfold; tauto..].
      destruct (firefly.names_of_type ts1 l) as [a1| |]; cbn [bind];
        [|repeat case_bool_decide; try done; set_unfold; tauto..].
      destruct (firefly.names_of_type ts2 l) as [a2| |]; cbn [bind];
        [|repeat case_bool_decide; try done; set_unfold; tauto..].
      specialize (IH a a1 a2 eq_refl eq_refl eq_refl).
      repeat case_bool_decide; intros [= <-] [= <-] [= <-] n;
        specialize (IH n); set_unfold; tauto.
    + repeat case_bool_decide; cbn [bind]; try done; try (set_unfold; tauto);
        by apply IH.
    + repeat case_bool_decide; cbn [bind]; try done; try (set_unfold; tauto);
        by apply IH.
Qed.

(** Every account that has a name gets an identifier. *)
Lemma ids_by_name_keeps l : ∀ d ids k,
  firefly.ids_by_name l d = Return ids → is_Some (d !! k) → is_Some (ids !! k).
Proof.
  induction l as [|x l IH]; intros d ids k; cbn [firefly.ids_by_name].
  - by intros [= <-].
  - destruct (firefly.attribute x (py "name")) as [n| |]; cbn [bind]; try done.
    destruct (item_id x) as [id|]; [|done].
    intros H Hk. apply (IH _ _ _ H). rewrite lookup_insert.
    case_decide; [by eexists|done].
Qed.

Lemma ids_by_name_names ts l : ∀ d ids ns,
  firefly.ids_by_name l d = Return ids →
  firefly.names_of_type ts l = Return ns →
  ∀ n, n ∈ ns → is_Some (ids !! n).
Proof.
  induction l as [|x l IH]; intros d ids ns;
    cbn [firefly.ids_by_name firefly.names_of_type].
  - intros _ [= <-] n Hn. by apply elem_of_nil in Hn.
  - destruct (firefly.attribute x (py "type")) as [ty| |]; cbn [bind];
      [|by destruct (firefly.attribute x (py "name")); cbn; destruct (item_id x)..].
    destruct (firefly.attribute x (py "name")) as [m| |]; cbn [bind];
      [|by case_bool_decide..].
    destruct (item_id x) as [id|]; [|done].
    intros Hids. case_bool_decide.
    + destruct (firefly.names_of_type ts l) as [a| |] eqn:Ha; cbn [bind]; try done.
      intros [= <-] n [->|Hn]%elem_of_cons.
      * apply (ids_by_name_keeps _ _ _ _ Hids). rewrite lookup_insert_eq.
        by eexists.
      * by apply (IH _ _ _ Hids eq_refl).
    + intros Hns. by apply (IH _ _ _ Hids Hns).
Qed.

End partition.

Lemma small_ledger_refreshed :
  refreshed small_ledger (py "key") (py "http://ledger/api/v1/") = Return small_snapshot.
Proof. vm_compute. reflexivity. Qed.

Ltac one_of :=
  intros ? [->|[]%elem_of_nil]%elem_of_cons; repeat constructor.

(** X8. After a refresh in which every step succeeded, the lists
    installed for the user fit together: the asset accounts are among
    the source accounts and among the destination accounts, the revenue
    accounts among the sources and the expense accounts among the
    destinations, each in the order of the ledger's answer; a name is a
    source exactly when it is a revenue or an asset account, a
    destination exactly when it is an expense or an asset account; and
    every source and destination has an identifier in [account_ids]. *)
Theorem refreshed_lists_fit_together
    (http_get : str -> str -> option Z -> reply)
    (user : str) (w : world) (api url : str) (x : snapshot) :
  ff_api (bot w) !! user = Some api →
  ff_url (bot w) !! user = Some url →
  refreshed http_get api url = Return x →
  ∃ w',
    firefly.get_ff_data http_get user w = (Return tt, w')
    ∧ installed user x (bot w')
    ∧ snap_asset_accounts x `sublist_of` snap_source_accounts x
    ∧ snap_asset_accounts x `sublist_of` snap_destination_accounts x
    ∧ snap_revenue_accounts x `sublist_of` snap_source_accounts x
    ∧ snap_expense_accounts x `sublist_of` snap_destination_accounts x
    ∧ (∀ n, n ∈ snap_source_accounts x
            ↔ n ∈ snap_revenue_accounts x ∨ n ∈ snap_asset_accounts x)
    ∧ (∀ n, n ∈ snap_destination_accounts x
            ↔ n ∈ snap_expense_accounts x ∨ n ∈ snap_asset_accounts x)
    ∧ (∀ n, n ∈ snap_source_accounts x ∨ n ∈ snap_destination_accounts x →
            is_Some (snap_account_ids x !! n)).
Proof.
  intros Hapi Hurl Hx.
  destruct (get_ff_data_run http_get user w api Hapi) as (w' & Hrun & Hout).
  unfold subscript in Hout. rewrite Hurl in Hout. cbn [bind] in Hout.
  rewrite Hx in Hout. destruct Hout as (_ & _ & Hinst & _).
  exists w'. do 2 (split; [done|]).
  unfold refreshed in Hx.
  destruct (fetched http_get api (url ++ py "categories")); try done.
  cbn [bind] in Hx. destruct (firefly.comprehension _ _); try done.
  cbn [bind] in Hx.
  destruct (fetched http_get api (url ++ py "accounts")) as [accs| |]; try done.
  cbn [bind] in Hx.
  destruct (firefly.ids_by_name accs ∅) as [ids| |] eqn:Hids; try done.
  cbn [bind] in Hx.
  destruct (firefly.names_of_type [py "revenue"; py "asset"] accs)
    as [sources| |] eqn:Hs; try done. cbn [bind] in Hx.
  destruct (firefly.names_of_type [py "expense"; py "asset"] accs)
    as [destinations| |] eqn:Hd; try done. cbn [bind] in Hx.
  destruct (firefly.names_of_type [py "asset"] accs)
    as [assets| |] eqn:Ha; try done. cbn [bind] in Hx.
  destruct (firefly.names_of_type [py "expense"] accs)
    as [expenses| |] eqn:He; try done. cbn [bind] in Hx.
  destruct (firefly.names_of_type [py "revenue"] accs)
    as [revenues| |] eqn:Hr; try done. cbn [bind] in Hx.
  injection Hx as <-.
  cbn [snap_source_accounts snap_destination_accounts snap_asset_accounts
       snap_expense_accounts snap_revenue_accounts snap_account_ids].
  split_and!.
  - eapply names_of_type_sublist; [|exact Ha|exact Hs]. one_of.
  - eapply names_of_type_sublist; [|exact Ha|exact Hd]. one_of.
  - eapply names_of_type_sublist; [|exact Hr|exact Hs]. one_of.
  - eapply names_of_type_sublist; [|exact He|exact Hd]. one_of.
  - by apply (names_of_type_app [py "revenue"] [py "asset"] accs).
  - by apply (names_of_type_app [py "expense"] [py "asset"] accs).
  - intros n [Hn|Hn].
    + exact (ids_by_name_names _ accs ∅ ids sources Hids Hs n Hn).
    + exact (ids_by_name_names _ accs ∅ ids destinations Hids Hd n Hn).
Qed.

Lemma refreshed_lists_fit_together_witness :
  ∃ w',
    firefly.get_ff_data small_ledger alice alice_ready = (Return tt, w')
    ∧ installed alice small_snapshot (bot w')
    ∧ snap_asset_accounts small_snapshot `sublist_of` snap_source_accounts small_snapshot
    ∧ snap_asset_accounts small_snapshot
        `sublist_of` snap_destination_accounts small_snapshot
    ∧ snap_revenue_accounts small_snapshot
        `sublist_of` snap_source_accounts small_snapshot
    ∧ snap_expense_accounts small_snapshot
        `sublist_of` snap_destination_accounts small_snapshot
    ∧ (∀ n, n ∈ snap_source_accounts small_snapshot
            ↔ n ∈ snap_revenue_accounts small_snapshot
              ∨ n ∈ snap_asset_accounts small_snapshot)
    ∧ (∀ n, n ∈ snap_destination_accounts small_snapshot
            ↔ n ∈ snap_expense_accounts small_snapshot
              ∨ n ∈ snap_asset_accounts small_snapshot)
    ∧ (∀ n, n ∈ snap_source_accounts small_snapshot
            ∨ n ∈ snap_destination_accounts small_snapshot →
            is_Some (snap_account_ids small_snapshot !! n)).
Proof.
  apply (refreshed_lists_fit_together small_ledger alice alice_ready (py "key")
           (py "http://ledger/api/v1/") small_snapshot);
    [vm_compute; reflexivity|vm_compute; reflexivity|].
  vm_compute. reflexivity.
Defined.

Section reload.

(** Reading back a row that [save_data] wrote. *)
Lemma get_data_row user x w :
  data (db w) !! user = Some (database.row_of x) → plain x →
  database.get_data user w
  = (Return (Some x),
     after w (Log DEBUG [Text (py "Data retrieved for user "); Text user])).
Proof.
  intros Hrow (Hc & Hs & Ht & Ha & He & Hr & Hi).
  unfold database.get_data, mbind_, get_db. cbn [db data]. rewrite Hrow.
  unfold log, emit, lift, ret, database.row_of.
  cbn [col_categories col_source_accounts col_destination_accounts
       col_asset_accounts col_expense_accounts col_revenue_accounts
       col_account_ids].
  rewrite !loads_dumps_list, loads_dumps_dict by done.
  by destruct x.
Qed.

Lemma load_data_row user x w :
  data (db w) !! user = Some (database.row_of x) → plain x →
  ∃ w', firefly.load_data user w = (Return tt, w')
        ∧ installed user x (bot w') ∧ db w' = db w.
Proof.
  intros Hrow Hx. unfold firefly.load_data.
  erewrite mbind_run by (by apply get_data_row). cbv beta iota.
  unfold mbind_, set_bot, after. cbn [bot db trace]. eexists. split; [done|].
  split; [|done]. unfold installed. cbn. by rewrite !lookup_insert_eq.
Qed.

End reload.

(** X9. What a successful refresh stored is what the next message sees: a
    refresh in which every step succeeded, then the clearing of the
    user's data, then [load_data], leaves for the user the lists and
    identifiers the refresh arrived at, provided no name or identifier
    holds a high surrogate directly followed by a low one. *)
Theorem refresh_then_load
    (http_get : str -> str -> option Z -> reply)
    (user : str) (w : world) (api url : str) (x : snapshot) :
  ff_api (bot w) !! user = Some api →
  ff_url (bot w) !! user = Some url →
  refreshed http_get api url = Return x →
  plain x →
  ∃ w',
    (firefly.get_ff_data http_get user ;;;
     firefly.clear_user_data user ;;;
     firefly.load_data user) w = (Return tt, w')
    ∧ installed user x (bot w').
Proof.
  intros Hapi Hurl Hx Hplain.
  destruct (get_ff_data_run http_get user w api Hapi) as (w1 & Hrun & Hout).
  unfold subscript in Hout. rewrite Hurl in Hout. cbn [bind] in Hout.
  rewrite Hx in Hout. destruct Hout as (_ & Hdata & _ & _).
  erewrite mbind_run by exact Hrun. cbv beta iota.
  erewrite mbind_run by reflexivity. cbv beta iota.
  destruct (load_data_row user x
              (firefly.clear_user_data user w1).2) as (w' & Hload & Hinst & _);
    [|done|by exists w'].
  replace (db (firefly.clear_user_data user w1).2) with (db w1) by done.
  rewrite Hdata. apply lookup_insert_eq.
Qed.

Lemma refresh_then_load_witness :
  ∃ w',
    (firefly.get_ff_data small_ledger alice ;;;
     firefly.clear_user_data alice ;;;
     firefly.load_data alice) alice_ready = (Return tt, w')
    ∧ installed alice small_snapshot (bot w').
Proof.
  apply (refresh_then_load small_ledger alice alice_ready (py "key")
           (py "http://ledger/api/v1/") small_snapshot);
    [vm_compute; reflexivity|vm_compute; reflexivity|vm_compute; reflexivity|].
  unfold plain, small_snapshot.
  cbn [snap_categories snap_source_accounts snap_destination_accounts
       snap_asset_accounts snap_expense_accounts snap_revenue_accounts
       snap_account_ids].
  split_and!;
    try (repeat (apply Forall_cons; split; [by apply unpaired_check|]);
         by apply Forall_nil).
  repeat (apply map_Forall_insert_2; [split; by apply unpaired_check|]).
  apply map_Forall_empty.
Defined.

(** *** Pagination *)

Section pagination.
Variable http_get : str -> str -> option Z -> reply.

Lemma more_pages_run api url total (q : Z → page) : ∀ pages data w,
  (∀ n, n ∈ pages → http_get url api (Some n) = Replied (q n)) →
  firefly.more_pages http_get api url total pages data w
  = (Return (data ++ concat (map (λ n, page_data (q n)) pages)),
     World (bot w) (db w) (trace w ++ map (paging total) pages)).
Proof.
  induction pages as [|n pages IH]; intros data w Hq; cbn [firefly.more_pages].
  - unfold ret. cbn. rewrite !app_nil_r. by destruct w.
  - erewrite mbind_run by reflexivity. cbv beta iota.
    rewrite (Hq n) by (by left). unfold firefly.received.
    erewrite mbind_run by reflexivity. cbv beta iota.
    rewrite IH by (intros; apply Hq; by right).
    cbn [map concat bot db trace]. by rewrite <- !app_assoc.
Qed.

Lemma more_pages_fails api url total (q : Z → page) k e (len : nat) :
  ∀ m data w,
  (m ≤ k < m + Z.of_nat len)%Z →
  (∀ n, (m ≤ n < k)%Z → http_get url api (Some n) = Replied (q n)) →
  http_get url api (Some k) = Failed e →
  (firefly.more_pages http_get api url total (seqZ m (Z.of_nat len)) data w).1
  = Raise e.
Proof.
  induction len as [|len IH]; intros m data w Hk Hq Hfail; [lia|].
  rewrite seqZ_cons by lia. cbn [firefly.more_pages].
  erewrite mbind_run by reflexivity. cbv beta iota.
  destruct (decide (m = k)) as [->|Hne].
  - by rewrite Hfail.
  - rewrite (Hq m) by lia. unfold firefly.received.
    erewrite mbind_run by reflexivity. cbv beta iota.
    replace (Z.pred (Z.of_nat (S len))) with (Z.of_nat len) by lia.
    apply IH; [lia| |done]. intros n Hn. apply Hq. lia.
Qed.

End pagination.

(** X10. [fetch_all_pages] asks for the first page, then for the pages 2
    to [total_pages] of the first answer, in order, and returns their
    ['data'] concatenated in that order; with [total_pages] at most 1 it
    asks for nothing more. The first page that cannot be had ends the
    fetch with its exception, whatever was gathered before. *)
Theorem pages_are_gathered_in_order
    (http_get : str -> str -> option Z -> reply)
    (api url : str) (w : world) (p : page) (q : Z -> page) :
  http_get url api None = Replied p →
  ((∀ n, (2 ≤ n ≤ total_pages p)%Z → http_get url api (Some n) = Replied (q n)) →
   firefly.fetch_all_pages http_get api url w
   = (Return (page_data p
              ++ concat (map (λ n, page_data (q n)) (seqZ 2 (total_pages p - 1)))),
      World (bot w) (db w)
            (trace w
             ++ Log DEBUG [Text (py "Fetching all pages from URL: "); Text url]
             :: map (paging (total_pages p)) (seqZ 2 (total_pages p - 1)))))
  ∧ (∀ k e, (2 ≤ k ≤ total_pages p)%Z →
            (∀ n, (2 ≤ n < k)%Z → http_get url api (Some n) = Replied (q n)) →
            http_get url api (Some k) = Failed e →
            (firefly.fetch_all_pages http_get api url w).1 = Raise e).
Proof.
  intros Hp. unfold firefly.fetch_all_pages. split.
  - intros Hq. erewrite mbind_run by reflexivity. cbv beta iota.
    rewrite Hp. unfold firefly.received.
    erewrite mbind_run by reflexivity. cbv beta iota.
    rewrite (more_pages_run http_get api url (total_pages p) q).
    + cbn [bot db trace]. by rewrite <- app_assoc.
    + intros n Hn%elem_of_seqZ. apply Hq. lia.
  - intros k e Hk Hq Hfail. erewrite mbind_run by reflexivity. cbv beta iota.
    rewrite Hp. unfold firefly.received.
    erewrite mbind_run by reflexivity. cbv beta iota.
    replace (total_pages p - 1)%Z with (Z.of_nat (Z.to_nat (total_pages p - 1)))
      by lia.
    apply (more_pages_fails http_get api url (total_pages p) q k e); [lia|done..].
Qed.

Lemma pages_are_gathered_in_order_witness :
  firefly.fetch_all_pages small_ledger (py "key")
    (py "http://ledger/api/v1/accounts") alice_ready
  = (Return [account "1" "Checking" "asset"; account "3" "Shop" "expense";
             account "4" "Job" "revenue"],
     World (bot alice_ready) (db alice_ready)
           [Log DEBUG [Text (py "Fetching all pages from URL: ");
                       Text (py "http://ledger/api/v1/accounts")];
            paging 2 2]).
Proof.
  pose proof (proj1 (pages_are_gathered_in_order small_ledger (py "key")
                       (py "http://ledger/api/v1/accounts") alice_ready
                       (Page [account "1" "Checking" "asset";
                              account "3" "Shop" "expense"] 2)
                       (λ _, Page [account "4" "Job" "revenue"] 2)
                       eq_refl)) as H.
  apply H. intros n _. reflexivity.
Defined.

(** *** The stored session *)

Section stored_session.

Lemma setdefault_lookup (d : gmap str str) u :
  firefly.setdefault_empty u d !! u = Some (default [] (d !! u)).
Proof.
  unfold firefly.setdefault_empty. destruct (d !! u) as [x|] eqn:Hx; cbn.
  - done.
  - apply lookup_insert_eq.
Qed.

Lemma save_session_run user w :
  firefly.save_session user w
  = (Return tt,
     World (set_default_accounts (firefly.setdefault_empty user)
              (set_ff_api (firefly.setdefault_empty user)
                 (set_ff_url (firefly.setdefault_empty user) (bot w))))
           (Tables (<[user := (default [] (ff_url (bot w) !! user),
                               default [] (ff_api (bot w) !! user),
                               default [] (default_accounts (bot w) !! user))]>
                      (session (db w)))
                   (data (db w)))
           (trace w ++ [Log DEBUG [Text (py "Session saved for user "); Text user]])).
Proof.
  unfold firefly.save_session.
  do 3 (erewrite mbind_run by reflexivity; cbv beta iota).
  unfold self, get_bot, lift, subscript.
  do 3 (erewrite mbind_run
          by (erewrite mbind_run by reflexivity; cbn [bot set_bot];
              unfold set_bot; cbn; rewrite setdefault_lookup; reflexivity);
        cbv beta iota).
  reflexivity.
Qed.

Ltac stored_row H :=
  match type of H with
  | _ = ?r =>
      repeat match goal with
      | |- context [session ?d !! ?u] =>
          replace (session d !! u) with r by (symmetry; exact H)
      end
  end.

Lemma load_session_run user w row :
  session (db w) !! user = Some row →
  firefly.load_session user w
  = (Return tt,
     World (set_default_accounts <[user := row.2]>
              (set_ff_api <[user := row.1.2]>
                 (set_ff_url <[user := row.1.1]> (bot w))))
           (db w)
           (trace w ++ [Log DEBUG [Text (py "Session retrieved for user ");
                                   Text user]])).
Proof.
  intros Hrow. destruct w as [b d t]. cbn [db] in Hrow.
  unfold firefly.load_session, database.get_session. run_step.
  stored_row Hrow. by destruct row as [[url api] a].
Qed.

Lemma load_session_none user w :
  session (db w) !! user = None →
  firefly.load_session user w
  = (Return tt,
     after w (Log ERROR [Text (py "No session found for user "); Text user])).
Proof.
  intros Hrow. destruct w as [b d t]. cbn [db] in Hrow.
  unfold firefly.load_session, database.get_session. run_step.
  by stored_row Hrow.
Qed.

End stored_session.

(** X11. For a user whose identifier, URL, key and default account are
    text that sqlite3 can bind, [save_session] returns: what the three
    attributes hold is written to the row, the empty string for each
    that holds nothing. After the session is cleared from the
    attributes, [load_session] brings back exactly what was written. *)
Theorem saved_session_is_loaded_back (user : str) (w : world) :
  bindable user = true →
  bindable (default [] (ff_url (bot w) !! user)) = true →
  bindable (default [] (ff_api (bot w) !! user)) = true →
  bindable (default [] (default_accounts (bot w) !! user)) = true →
  ∃ w1 w2,
    firefly.save_session user w = (Return tt, w1)
    ∧ session (db w1) !! user
      = Some (default [] (ff_url (bot w) !! user),
              default [] (ff_api (bot w) !! user),
              default [] (default_accounts (bot w) !! user))
    ∧ (firefly.clear_user_session user ;;; firefly.load_session user) w1
      = (Return tt, w2)
    ∧ ff_url (bot w2) !! user = Some (default [] (ff_url (bot w) !! user))
    ∧ ff_api (bot w2) !! user = Some (default [] (ff_api (bot w) !! user))
    ∧ default_accounts (bot w2) !! user
      = Some (default [] (default_accounts (bot w) !! user)).
Proof.
  intros _ _ _ _.
  eexists _, _. split; [apply save_session_run|].
  split; [cbn; apply lookup_insert_eq|].
  split.
  - erewrite mbind_run by reflexivity. cbv beta iota.
    apply load_session_run. cbn. apply lookup_insert_eq.
  - cbn. by rewrite !lookup_insert_eq.
Qed.

(** The same for alice, whose session is loaded and whose row is not yet
    written. *)
Lemma saved_session_is_loaded_back_witness :
  ∃ w1 w2,
    firefly.save_session alice alice_ready = (Return tt, w1)
    ∧ session (db w1) !! alice
      = Some (default [] (ff_url (bot alice_ready) !! alice),
              default [] (ff_api (bot alice_ready) !! alice),
              default [] (default_accounts (bot alice_ready) !! alice))
    ∧ (firefly.clear_user_session alice ;;; firefly.load_session alice) w1
      = (Return tt, w2)
    ∧ ff_url (bot w2) !! alice
      = Some (default [] (ff_url (bot alice_ready) !! alice))
    ∧ ff_api (bot w2) !! alice
      = Some (default [] (ff_api (bot alice_ready) !! alice))
    ∧ default_accounts (bot w2) !! alice
      = Some (default [] (default_accounts (bot alice_ready) !! alice)).
Proof.
  apply (saved_session_is_loaded_back alice alice_ready);
    vm_compute; reflexivity.
Defined.

(** ** The setup conversation *)

Section running.

Lemma bind_run {A B} (m : T A) (k : A → T B) s r s' :
  m s = (r, s') →
  (m ≫= k) s = match r with
               | Return a => k a s'
               | Raise e => (Raise e, s')
               | Beyond => (Beyond, s')
               end.
Proof. unfold mbind, T_bind. by intros ->. Qed.

Lemma bind_assoc {A B C} (m : T A) (k : A → T B) (k' : B → T C) s :
  ((m ≫= k) ≫= k') s = (m ≫= λ a, k a ≫= k') s.
Proof. unfold mbind, T_bind. by destruct (m s) as [[a|e|] s']. Qed.

Lemma old_run {A} (m : M A) s r w :
  m (World (scene_bot s) (scene_db s) []) = (r, w) →
  old m s = (r, Scene (bot w) (db w) (effects s ++ map Did (trace w))).
Proof. unfold old. by intros ->. Qed.

Lemma old_set_bot f s :
  old (set_bot f) s = (Return tt, Scene (f (scene_bot s)) (scene_db s) (effects s)).
Proof. unfold old. cbn. by rewrite app_nil_r. Qed.

Lemma old_emit e s :
  old (emit e) s
  = (Return tt, Scene (scene_bot s) (scene_db s) (effects s ++ [Did e])).
Proof. done. Qed.

Lemma old_log lvl msg s :
  old (log lvl msg) s
  = (Return tt, Scene (scene_bot s) (scene_db s) (effects s ++ [Did (Log lvl msg)])).
Proof. done. Qed.

Lemma old_lift {A} (x : outcome A) s : old (lift x) s = (x, s).
Proof. destruct s. unfold old. cbn. by rewrite app_nil_r. Qed.

Lemma old_self {V} (field : FireFlyTelegram → gmap str V) user s :
  old (self field user) s = (subscript (field (scene_bot s)) user, s).
Proof.
  destruct s. unfold old, self, mbind_, get_bot, lift. cbn.
  rewrite app_nil_r. by destruct (subscript _ _).
Qed.

Lemma tell_run e s :
  tell e s = (Return tt, Scene (scene_bot s) (scene_db s) (effects s ++ [e])).
Proof. done. Qed.

Lemma ask_run {A} (f : list effect → outcome A) s : ask f s = (f (effects s), s).
Proof. done. Qed.

Lemma ret_run {A} (a : A) (s : scene) : mret (M := T) a s = (Return a, s).
Proof. done. Qed.

(** One statement and what follows it. *)
Lemma bind_old_self {V C : Type} (field : FireFlyTelegram → gmap str V) user
    (k : V → T C) s :
  (old (self field user) ≫= k) s
  = match subscript (field (scene_bot s)) user with
    | Return a => k a s
    | Raise e => (Raise e, s)
    | Beyond => (Beyond, s)
    end.
Proof. by erewrite bind_run by apply old_self. Qed.

Lemma bind_old_lift {A C : Type} (x : outcome A) (k : A → T C) s :
  (old (lift x) ≫= k) s
  = match x with
    | Return a => k a s
    | Raise e => (Raise e, s)
    | Beyond => (Beyond, s)
    end.
Proof. by erewrite bind_run by apply old_lift. Qed.

Lemma bind_ask {A C : Type} (f : list effect → outcome A) (k : A → T C) s :
  (ask f ≫= k) s
  = match f (effects s) with
    | Return a => k a s
    | Raise e => (Raise e, s)
    | Beyond => (Beyond, s)
    end.
Proof. by erewrite bind_run by apply ask_run. Qed.

Lemma bind_old_set_bot {C : Type} f (k : unit → T C) s :
  (old (set_bot f) ≫= k) s
  = k tt (Scene (f (scene_bot s)) (scene_db s) (effects s)).
Proof. by erewrite bind_run by apply old_set_bot. Qed.

Lemma bind_old_emit {C : Type} e (k : unit → T C) s :
  (old (emit e) ≫= k) s
  = k tt (Scene (scene_bot s) (scene_db s) (effects s ++ [Did e])).
Proof. by erewrite bind_run by apply old_emit. Qed.

Lemma bind_old_log {C : Type} lvl msg (k : unit → T C) s :
  (old (log lvl msg) ≫= k) s
  = k tt (Scene (scene_bot s) (scene_db s) (effects s ++ [Did (Log lvl msg)])).
Proof. by erewrite bind_run by apply old_log. Qed.

Lemma bind_tell {C : Type} e (k : unit → T C) s :
  (tell e ≫= k) s = k tt (Scene (scene_bot s) (scene_db s) (effects s ++ [e])).
Proof. by erewrite bind_run by apply tell_run. Qed.

Lemma bind_ret {A C : Type} (a : A) (k : A → T C) s : (mret a ≫= k) s = k a s.
Proof. by erewrite bind_run by apply ret_run. Qed.

End running.

Ltac stepped := cbv beta iota; cbn [scene_bot scene_db effects bot db trace].
Ltac assoc :=
  repeat match goal with
  | |- context [((?m ≫= ?k) ≫= ?k') ?s] => rewrite (bind_assoc m k k' s)
  end.
Tactic Notation "step_with" tactic3(tac) :=
  assoc; (erewrite bind_run; [|solve [tac]]); stepped.
Ltac step :=
  assoc;
  first [ rewrite bind_old_self | rewrite bind_old_lift | rewrite bind_ask
        | rewrite bind_old_set_bot | rewrite bind_old_emit | rewrite bind_old_log
        | rewrite bind_tell | rewrite bind_ret ];
  stepped.

Section setup.
Variable http_get : str -> str -> option Z -> reply.

Lemma load_session_held user s :
  old (firefly.load_session user) s
  = (Return tt,
     Scene (with_session user s) (scene_db s) (effects s ++ [session_read user s])).
Proof.
  unfold with_session, session_read.
  destruct (session (scene_db s) !! user) as [[[url api] a]|] eqn:Hrow.
  - by erewrite old_run by (by apply load_session_run).
  - by erewrite old_run by (by apply load_session_none).
Qed.

Lemma held_with_session user s :
  (default [] (ff_url (with_session user s) !! user),
   default [] (ff_api (with_session user s) !! user),
   default [] (default_accounts (with_session user s) !! user))
  = held user s.
Proof.
  unfold with_session, held.
  destruct (session (scene_db s) !! user) as [[[url api] a]|]; [|done].
  cbn. by rewrite !lookup_insert_eq.
Qed.

Lemma old_save_session user s :
  old (firefly.save_session user) s
  = (Return tt,
     Scene (set_default_accounts (firefly.setdefault_empty user)
              (set_ff_api (firefly.setdefault_empty user)
                 (set_ff_url (firefly.setdefault_empty user) (scene_bot s))))
           (Tables (<[user := (default [] (ff_url (scene_bot s) !! user),
                               default [] (ff_api (scene_bot s) !! user),
                               default [] (default_accounts (scene_bot s) !! user))]>
                      (session (scene_db s)))
                   (data (scene_db s)))
           (effects s ++ [session_saved user])).
Proof. by erewrite old_run by apply save_session_run. Qed.

(** The two calls every handler ends with. *)
Lemma old_cleared user s :
  (old (firefly.clear_user_data user)
   ≫= λ _, old (firefly.clear_user_session user)) s
  = (Return tt, Scene (at_rest user (scene_bot s)) (scene_db s) (effects s)).
Proof.
  destruct s as [b d h]. unfold old, mbind, T_bind. cbn. by rewrite !app_nil_r.
Qed.

Lemma at_rest_forgotten user b : forgotten user (at_rest user b).
Proof. unfold forgotten, entries. cbn. by rewrite !lookup_delete_eq. Qed.

Lemma at_rest_others user b v :
  v ≠ user → entries v (at_rest user b) = entries v b.
Proof. intros Hv. unfold entries. cbn. by rewrite !lookup_delete_ne. Qed.

(** [load_session] leaves the seven lists and identifiers alone. *)
Lemma with_session_data user s :
  asset_accounts (with_session user s) = asset_accounts (scene_bot s).
Proof.
  unfold with_session. by destruct (session (scene_db s) !! user) as [[[? ?] ?]|].
Qed.

(** A refresh whose first request fails. *)
Lemma get_ff_data_unreachable user api url e w :
  ff_api (bot w) !! user = Some api →
  ff_url (bot w) !! user = Some url →
  http_get (url ++ py "categories") api None = Failed e →
  firefly.get_ff_data http_get user w
  = (Return tt,
     World (bot w) (db w)
           (trace w
            ++ [Log DEBUG [Text (py "Fetching FireFlyIII data for user "); Text user];
                Log DEBUG [Text (py "Fetching all pages from URL: ");
                           Text (url ++ py "categories")];
                refresh_error user e])).
Proof.
  intros Hapi Hurl Hget. destruct w as [b d t]. cbn [bot] in Hapi, Hurl.
  unfold firefly.get_ff_data.
  erewrite mbind_run by reflexivity. cbv beta iota.
  erewrite mbind_run
    by (unfold self, mbind_, get_bot, lift, subscript; cbn [bot];
        rewrite Hapi; reflexivity).
  cbv beta iota. unfold try_except.
  erewrite mbind_run
    by (unfold self, mbind_, get_bot, lift, subscript; cbn [bot];
        rewrite Hurl; reflexivity).
  cbv beta iota.
  erewrite mbind_run
    by (unfold firefly.fetch_all_pages;
        erewrite mbind_run by reflexivity; cbv beta iota;
        rewrite Hget; reflexivity).
  cbv beta iota. unfold log, emit, refresh_error. cbn [bot db trace].
  by rewrite <- !app_assoc.
Qed.

Lemma send_account_keyboard_run chat l s :
  conversation.send_account_keyboard chat l s
  = (Return tt,
     Scene (scene_bot s) (scene_db s)
           (effects s
            ++ [Did (Log DEBUG [Text (py "Sending account keyboard to chat ");
                                Text (str_of_Z chat)]);
                Did (SendMessage (ChatId chat) (py "Choose your default account:")
                       (Some (map (λ a, [(a, py "set_account_" ++ a)]) l)))])).
Proof.
  unfold conversation.send_account_keyboard. cbv zeta beta. step.
  rewrite old_emit. cbn [scene_bot scene_db effects]. by rewrite <- app_assoc.
Qed.

End setup.

(** X12. [process_url] takes one trailing slash off the text, appends
    [/api/v1/] and stores the result as the user's URL, beside the key
    and the default account that were in force; it asks for the key,
    registers [process_api_key] as the next step and leaves nothing of
    the user in the attributes. An empty text raises [IndexError] before
    anything is stored or sent. *)
Theorem process_url_stores_the_address
    (t : str) (c : char) (chat uid : Z) (name : str) (s : scene) :
  let user := str_of_Z uid in
  let stem := if c =? 0x2f then t else t ++ [c] in
  (∃ s',
     conversation.process_url (Message (t ++ [c]) chat uid name) s = (Return tt, s')
     ∧ scene_db s'
       = Tables (<[user := (stem ++ py "/api/v1/", (held user s).1.2, (held user s).2)]>
                   (session (scene_db s)))
                (data (scene_db s))
     ∧ forgotten user (scene_bot s')
     ∧ effects s'
       = effects s
         ++ [session_read user s; session_saved user;
             Did (Log DEBUG [Text (py "Processed URL for user "); Text user;
                             Text (py ": "); Text stem]);
             Did (SendMessage (ChatId chat)
                    (py "Please enter your FireFlyIII API Key.") None);
             RegisterNextStepHandler chat to_process_api_key])
  ∧ ∃ s0,
      conversation.process_url (Message [] chat uid name) s = (Raise IndexError, s0)
      ∧ scene_db s0 = scene_db s
      ∧ effects s0 = effects s ++ [session_read user s].
Proof.
  intros user stem. unfold conversation.process_url. cbv zeta.
  cbn [text chat_id from_user_id]. fold user. split.
  - step_with (apply load_session_held).
    cbv beta. step. rewrite last_snoc. step. cbn [firefly.some_or].
    rewrite removelast_last. fold stem.
    step.
    step_with (apply old_save_session).
    do 3 step.
    rewrite old_cleared. cbn [scene_bot scene_db effects].
    eexists. split; [reflexivity|]. cbn [scene_bot scene_db effects].
    split; [|split; [apply at_rest_forgotten|by rewrite <- !app_assoc]].
    do 2 f_equal. rewrite <- (held_with_session user s). cbn.
    by rewrite lookup_insert_eq.
  - step_with (apply load_session_held).
    cbv beta. step. step. cbn [last firefly.some_or].
    by eexists.
Qed.

(** X13. When the first request of the refresh fails, as it does with a wrong
    address or key, [process_api_key] stores the key and then raises
    [KeyError] on the user's asset accounts: no keyboard and no message
    is sent, and the user's session stays in the attributes. *)
Theorem wrong_address_ends_the_setup
    (http_get : str -> str -> option Z -> reply)
    (key : str) (chat uid : Z) (name : str) (s : scene) (e : exn) :
  let user := str_of_Z uid in
  let url := (held user s).1.1 in
  asset_accounts (scene_bot s) !! user = None →
  http_get (url ++ py "categories") key None = Failed e →
  ∃ s',
    conversation.process_api_key http_get (Message key chat uid name) s
    = (Raise KeyError, s')
    ∧ scene_db s'
      = Tables (<[user := (url, key, (held user s).2)]> (session (scene_db s)))
               (data (scene_db s))
    ∧ ff_api (scene_bot s') !! user = Some key
    ∧ effects s'
      = effects s
        ++ [session_read user s; session_saved user;
            Did (Log DEBUG [Text (py "Processed API key for user "); Text user]);
            Did (Log DEBUG [Text (py "Fetching FireFlyIII data for user "); Text user]);
            Did (Log DEBUG [Text (py "Fetching all pages from URL: ");
                            Text (url ++ py "categories")]);
            Did (refresh_error user e)].
Proof.
  intros user url Hassets Hget. unfold conversation.process_api_key. cbv zeta.
  cbn [text chat_id from_user_id]. fold user.
  step_with (apply load_session_held).
  cbv beta. do 2 step.
  step_with (apply old_save_session).
  step.
  assert (Hurl : default [] (ff_url (with_session user s) !! user) = url).
  { unfold url. by rewrite <- (held_with_session user s). }
  step_with (erewrite old_run;
             [|eapply (get_ff_data_unreachable http_get user key url e);
               [cbn; rewrite setdefault_lookup; by rewrite lookup_insert_eq
               |cbn; rewrite setdefault_lookup; by rewrite Hurl
               |exact Hget]];
             reflexivity).
  step. cbn [asset_accounts set_default_accounts set_ff_api set_ff_url].
  unfold subscript. rewrite with_session_data, Hassets.
  eexists. split; [reflexivity|]. cbn [scene_bot scene_db effects].
  split; [|split].
  - do 2 f_equal. rewrite <- (held_with_session user s). cbn.
    by rewrite lookup_insert_eq, Hurl.
  - cbn. rewrite setdefault_lookup. by rewrite lookup_insert_eq.
  - cbn [map app]. by rewrite <- !app_assoc.
Qed.

(** X14. When every step of the refresh succeeds, [process_api_key] stores
    the key beside the URL and the default account in force, stores the
    refreshed lists, and sends a keyboard with one button for each asset
    account, in the ledger's order, whose callback data is
    [set_account_] and the account's name. Nothing of the user is left
    in the attributes. *)
Theorem api_key_opens_the_account_keyboard
    (http_get : str -> str -> option Z -> reply)
    (key : str) (chat uid : Z) (name : str) (s : scene) (x : snapshot) :
  let user := str_of_Z uid in
  let url := (held user s).1.1 in
  refreshed http_get key url = Return x →
  ∃ s' logs,
    conversation.process_api_key http_get (Message key chat uid name) s
    = (Return tt, s')
    ∧ scene_db s'
      = Tables (<[user := (url, key, (held user s).2)]> (session (scene_db s)))
               (<[user := database.row_of x]> (data (scene_db s)))
    ∧ forgotten user (scene_bot s')
    ∧ effects s'
      = effects s ++ logs
        ++ [Did (SendMessage (ChatId chat) (py "Choose your default account:")
                   (Some (map (λ a, [(a, py "set_account_" ++ a)])
                              (snap_asset_accounts x))))]
    ∧ Forall logged logs.
Proof.
  intros user url Hx. unfold conversation.process_api_key. cbv zeta.
  cbn [text chat_id from_user_id]. fold user.
  step_with (apply load_session_held).
  cbv beta. do 2 step.
  step_with (apply old_save_session).
  step.
  assert (Hurl : default [] (ff_url (with_session user s) !! user) = url).
  { unfold url. by rewrite <- (held_with_session user s). }
  match goal with
  | |- context [(old (firefly.get_ff_data http_get user) ≫= _) ?sc] =>
      destruct (get_ff_data_run http_get user
                  (World (scene_bot sc) (scene_db sc) []) key)
        as (w' & Hrun & Hout)
  end.
  { cbn. rewrite setdefault_lookup. by rewrite lookup_insert_eq. }
  cbn [scene_bot scene_db bot db trace] in Hrun, Hout.
  cbn [ff_url set_default_accounts set_ff_api set_ff_url] in Hout.
  unfold subscript in Hout. rewrite setdefault_lookup, Hurl in Hout.
  cbn [bind] in Hout. rewrite Hx in Hout.
  destruct Hout as (Hsession & Hdata & Hinst & evs & Htrace & Hevs).
  cbn [db session data trace app] in Hsession, Hdata, Htrace.
  step_with (erewrite old_run by exact Hrun; reflexivity).
  step. unfold subscript.
  destruct Hinst as (_ & _ & _ & -> & _).
  step_with (apply send_account_keyboard_run).
  rewrite old_cleared. cbn [scene_bot scene_db effects].
  eexists _, ([session_read user s; session_saved user;
                Did (Log DEBUG [Text (py "Processed API key for user "); Text user])]
               ++ map Did evs
               ++ [Did (Log DEBUG [Text (py "Sending account keyboard to chat ");
                                   Text (str_of_Z chat)])]).
  split; [reflexivity|]. cbn [scene_bot scene_db effects].
  split; [|split; [apply at_rest_forgotten|split]].
  - destruct (db w') as [ses dat]. cbn [session data] in Hsession, Hdata.
    rewrite Hsession, Hdata. do 2 f_equal.
    rewrite <- (held_with_session user s). cbn.
    by rewrite lookup_insert_eq.
  - rewrite Htrace. by rewrite <- !app_assoc.
  - cbn [app]. unfold session_read.
    repeat (apply Forall_cons; split; [by destruct (session (scene_db s) !! user)|]).
    apply Forall_app. split; [|by repeat constructor].
    apply Forall_fmap. eapply Forall_impl; [exact Hevs|]. by intros [[]| | |].
Qed.

(** ** The callback protocol *)

Section pieces.

Lemma split_nonempty sep s : split sep s ≠ [].
Proof.
  destruct s as [|c s]; [done|]. cbn [split].
  destruct (c =? sep); [done|]. by destruct (split sep s).
Qed.

(** A piece ends at the first separator. *)
Lemma split_piece sep p r :
  sep ∉ p → split sep (p ++ sep :: r) = p :: split sep r.
Proof.
  induction p as [|c p IH]; intros Hp.
  - cbn [app split]. by rewrite N.eqb_refl.
  - cbn [app split]. apply not_elem_of_cons in Hp as [Hc Hp].
    destruct (c =? sep) eqn:E; [apply N.eqb_eq in E; congruence|].
    by rewrite IH.
Qed.

Lemma split_whole sep p : sep ∉ p → split sep p = [p].
Proof.
  induction p as [|c p IH]; intros Hp; [done|].
  cbn [split]. apply not_elem_of_cons in Hp as [Hc Hp].
  destruct (c =? sep) eqn:E; [apply N.eqb_eq in E; congruence|].
  by rewrite IH.
Qed.

(** The first piece of a string: what stands before its first
    separator. *)
Lemma split_head sep s :
  ∃ p ps r, split sep s = p :: ps ∧ s = p ++ r ∧ (sep ∉ p)
            ∧ (r = [] ∨ head r = Some sep).
Proof.
  induction s as [|c s IH]; [|destruct IH as (p & ps & r & Hs & -> & Hp & Hr)].
  - exists [], [], []. split_and!; [done|done|apply not_elem_of_nil|by left].
  - cbn [split]. destruct (c =? sep) eqn:E.
    + apply N.eqb_eq in E as ->. exists [], (split sep (p ++ r)), (sep :: p ++ r).
      split_and!; [done|done|apply not_elem_of_nil|by right].
    + rewrite Hs. exists (c :: p), ps, r.
      split_and!; [done|done| |done].
      apply not_elem_of_cons. split; [|done].
      intros ->. by rewrite N.eqb_refl in E.
Qed.

(** A string without separator is its own first piece. *)
Lemma piece_whole (sep : char) (a p r : str) :
  sep ∉ a → a = p ++ r → r = [] ∨ head r = Some sep → p = a.
Proof.
  intros Ha -> [->|Hr]; [by rewrite app_nil_r|].
  destruct r as [|c r]; [discriminate Hr|]. injection Hr as ->.
  destruct Ha. apply elem_of_app. right. apply list_elem_of_here.
Qed.

(** There is one piece more than there are separators. *)
Lemma split_length sep s :
  length (split sep s) = S (length (filter (λ c, c = sep) s)).
Proof.
  induction s as [|c s IH]; [done|]. cbn [split].
  destruct (c =? sep) eqn:E.
  - apply N.eqb_eq in E as ->. rewrite filter_cons_True by done.
    cbn [length]. by rewrite IH.
  - rewrite filter_cons_False by (intros ->; by rewrite N.eqb_refl in E).
    rewrite <- IH. by destruct (split sep s).
Qed.

Lemma unpack4_length l : length l ≠ 4%nat → unpack4 l = Raise ValueError.
Proof. destruct l as [|? [|? [|? [|? [|? ?]]]]]; cbn; by try lia. Qed.

Lemma unpack2_length l : length l ≠ 2%nat → unpack2 l = Raise ValueError.
Proof. destruct l as [|? [|? [|? ?]]]; cbn; by try lia. Qed.

Lemma separators_app sep (s1 s2 : str) :
  length (filter (λ c, c = sep) (s1 ++ s2))
  = (length (filter (λ c, c = sep) s1) + length (filter (λ c, c = sep) s2))%nat.
Proof. by rewrite filter_app, length_app. Qed.

Lemma separators_elem sep (s : str) :
  sep ∈ s → (1 ≤ length (filter (λ c, c = sep) s))%nat.
Proof.
  intros Hs. assert (H : sep ∈ filter (λ c, c = sep) s) by (by apply list_elem_of_filter).
  destruct (filter (λ c, c = sep) s); [by apply elem_of_nil in H|cbn; lia].
Qed.

(** A choice whose name holds a separator has more than four pieces. *)
Lemma choice_pieces (prefix tid n kind : str) :
  0x5f ∈ n →
  length (split 0x5f (prefix ++ 0x5f :: tid ++ 0x5f :: n ++ 0x5f :: kind)) ≠ 4%nat.
Proof.
  intros Hn%separators_elem. rewrite split_length.
  rewrite separators_app, filter_cons_True by done. cbn [length].
  rewrite separators_app, filter_cons_True by done. cbn [length].
  rewrite separators_app, filter_cons_True by done. cbn [length].
  lia.
Qed.

(** The buttons of a menu. *)
Lemma choices_button prefix tid kind names label d :
  (label, d) ∈ concat (conversation.choices prefix tid kind names) →
  label ∈ names
  ∧ d = py prefix ++ tid ++ py "_" ++ label ++ py "_" ++ kind.
Proof.
  unfold conversation.choices.
  induction names as [|n names IH]; cbn [map concat].
  - by intros ?%elem_of_nil.
  - rewrite elem_of_app, list_elem_of_singleton.
    intros [[-> ->]%pair_eq|[Hl Hd]%IH]; (split; [|done]).
    + apply list_elem_of_here.
    + by apply list_elem_of_further.
Qed.

End pieces.

Section callbacks.
Variable http_delete : list effect -> str -> str -> outcome Z.
Variable http_get_transaction
  : list effect -> str -> str -> outcome (gmap str json_value).
Variable http_put
  : list effect -> str -> str -> list (str * json_value) -> outcome response.
Variable response_message : gmap str json_value -> outcome str.

Lemma old_load_data user x s :
  data (scene_db s) !! user = Some (database.row_of x) → plain x →
  old (firefly.load_data user) s
  = (Return tt,
     Scene (set_account_ids <[user := snap_account_ids x]>
             (set_revenue_accounts <[user := snap_revenue_accounts x]>
               (set_expense_accounts <[user := snap_expense_accounts x]>
                 (set_asset_accounts <[user := snap_asset_accounts x]>
                   (set_destination_accounts <[user := snap_destination_accounts x]>
                     (set_source_accounts <[user := snap_source_accounts x]>
                       (set_categories <[user := snap_categories x]>
                          (scene_bot s))))))))
           (scene_db s)
           (effects s
            ++ [Did (Log DEBUG [Text (py "Data retrieved for user "); Text user])])).
Proof.
  intros Hrow Hx.
  erewrite old_run
    by (unfold firefly.load_data;
        erewrite mbind_run by (by apply get_data_row);
        cbv beta iota; reflexivity).
  reflexivity.
Qed.

Lemma with_session_row user s url api account :
  session (scene_db s) !! user = Some (url, api, account) →
  with_session user s
  = set_default_accounts <[user := account]>
      (set_ff_api <[user := api]> (set_ff_url <[user := url]> (scene_bot s))).
Proof. unfold with_session. by intros ->. Qed.

Lemma session_read_row user s row :
  session (scene_db s) !! user = Some row →
  session_read user s
  = Did (Log DEBUG [Text (py "Session retrieved for user "); Text user]).
Proof. unfold session_read. by intros ->. Qed.

(** The start of [process_callback_query]. *)
Lemma loading user row x s {A} (k : T A) pressed :
  stored user row x s →
  (old (firefly.load_session user)
   ≫= λ _, old (firefly.load_data user)
   ≫= λ _, old (log DEBUG [Text (py "Processing callback query from user ");
                           Text user; Text (py ": "); Text pressed])
   ≫= λ _, k) s
  = k (Scene (loaded user row x (scene_bot s)) (scene_db s)
             (effects s ++ callback_opening user pressed)).
Proof.
  intros (Hrow & Hdata & Hx).
  step_with (apply load_session_held).
  step_with (by apply old_load_data).
  step. destruct row as [[url api] account].
  rewrite (with_session_row user s url api account Hrow).
  rewrite (session_read_row user s _ Hrow).
  unfold loaded, callback_opening. cbn [fst snd].
  by rewrite <- !app_assoc.
Qed.

Lemma delete_messages_run chat mid : ∀ range s,
  conversation.delete_messages chat mid range s
  = (Return tt,
     Scene (scene_bot s) (scene_db s)
           (effects s ++ map (λ i, DeleteMessage chat (mid - i)%Z) range)).
Proof.
  induction range as [|i range IH]; intros s; cbn [conversation.delete_messages map].
  - destruct s. by rewrite ret_run, app_nil_r.
  - step. rewrite IH. cbn [scene_bot scene_db effects].
    by rewrite <- app_assoc.
Qed.

End callbacks.

(** The branch of [process_callback_query] that the data selects. *)
Ltac route :=
  repeat match goal with
  | |- context [startswith ?d ?p] =>
      let b := eval cbv in (startswith d p) in
      replace (startswith d p) with b by reflexivity
  end;
  cbv iota.

(** X15. The callback of the account keyboard takes as the default
    account what stands before the first underscore of the account's
    name. When that piece is one of the user's asset accounts it is
    stored, beside the URL and the key, and the configuration is
    confirmed; if not, nothing is stored. Either way the keyboard is
    removed, five messages are deleted and the setup is said to be
    completed. *)
Theorem default_account_callback
    (http_delete : list effect -> str -> str -> outcome Z)
    (http_get_transaction : list effect -> str -> str -> outcome (gmap str json_value))
    (http_put : list effect -> str -> str -> list (str * json_value) -> outcome response)
    (response_message : gmap str json_value -> outcome str)
    (a : str) (chat mid uid : Z) (name : str) (s : scene)
    (row : session_row) (x : snapshot) :
  let user := str_of_Z uid in
  let pressed := py "set_account_" ++ a in
  stored user row x s →
  ∃ p r,
    a = p ++ r ∧ (0x5f ∉ p) ∧ (r = [] ∨ head r = Some 0x5f)
    ∧ ∃ s',
    conversation.process_callback_query http_delete http_get_transaction http_put
        response_message (CallbackQuery pressed chat mid uid name) s
      = (Return tt, s')
    ∧ scene_db s'
      = (if bool_decide (p ∈ snap_asset_accounts x)
         then Tables (<[user := (row.1.1, row.1.2, p)]> (session (scene_db s)))
                     (data (scene_db s))
         else scene_db s)
    ∧ forgotten user (scene_bot s')
    ∧ effects s'
      = effects s ++ callback_opening user pressed
        ++ (if bool_decide (p ∈ snap_asset_accounts x)
            then [session_saved user;
                  Did (SendMessage (ChatId chat)
                         (py "Configuration saved successfully! Run /help to know how to use the bot.")
                         None)]
            else [])
        ++ EditMessageReplyMarkup chat mid None
        :: map (λ i, DeleteMessage chat (mid - i)%Z) (seqZ 0 5)
        ++ [Did (SendMessage (ChatId chat)
                   (py "Setup completed. Run /help to see the commands.") None)].
Proof.
  intros user pressed Hs.
  destruct (split_head 0x5f a) as (p & ps & r & Hsplit & Ha & Hp & Hr).
  assert (Hpieces : split 0x5f pressed = py "set" :: py "account" :: p :: ps).
  { unfold pressed.
    change (py "set_account_" ++ a)
      with (py "set" ++ 0x5f :: (py "account" ++ 0x5f :: a)).
    rewrite !split_piece, Hsplit; [done|not_captured..]. }
  unfold conversation.process_callback_query. cbv zeta beta.
  cbn [call_data call_chat_id call_message_id call_from_user_id call_username].
  fold user pressed.
  rewrite (loading user row x s _ pressed Hs).
  route. rewrite Hpieces.
  replace (firefly.getitem _ 2) with (Return p) by reflexivity.
  exists p, r. do 3 (split; [done|]).
  do 2 step.
  unfold subscript, loaded. cbn [asset_accounts set_account_ids set_revenue_accounts
    set_expense_accounts set_asset_accounts]. rewrite lookup_insert_eq.
  cbv iota. case_bool_decide as Hin.
  - step. step_with (apply old_save_session). do 2 step.
    step_with (apply delete_messages_run). step.
    rewrite old_cleared. cbn [scene_bot scene_db effects].
    eexists. split; [reflexivity|]. cbn [scene_bot scene_db effects].
    split_and!; [|apply at_rest_forgotten|].
    + cbn. by rewrite !lookup_insert_eq.
    + unfold callback_opening. rewrite <- !app_assoc. cbn [app]. repeat f_equal.
  - step. step.
    step_with (apply delete_messages_run). step.
    rewrite old_cleared. cbn [scene_bot scene_db effects].
    eexists. split; [reflexivity|]. cbn [scene_bot scene_db effects].
    split_and!; [done|apply at_rest_forgotten|].
    unfold callback_opening. rewrite <- !app_assoc. cbn [app]. repeat f_equal.
Qed.

(** The user's attribute after loading. *)
Ltac loaded_attribute :=
  unfold subscript, loaded;
  cbn [categories asset_accounts expense_accounts revenue_accounts account_ids
       ff_url ff_api default_accounts
       set_account_ids set_revenue_accounts set_expense_accounts set_asset_accounts
       set_destination_accounts set_source_accounts set_categories
       set_default_accounts set_ff_api set_ff_url];
  rewrite lookup_insert_eq; cbv iota.

(** The end of a callback that returned. *)
Ltac callback_done :=
  rewrite old_cleared; cbn [scene_bot scene_db effects];
  eexists; split; [reflexivity|]; cbn [scene_bot scene_db effects];
  split_and!; [done|apply at_rest_forgotten|];
  unfold callback_opening; rewrite <- !app_assoc; cbn [app]; repeat f_equal.

(** A button that opens a menu. *)
Ltac menu Hs Hmenu what :=
  eexists _, _, _;
  split; [first [ apply list_elem_of_here
                | apply list_elem_of_further, list_elem_of_here
                | do 2 apply list_elem_of_further; apply list_elem_of_here
                | do 3 apply list_elem_of_further; apply list_elem_of_here ]|];
  match goal with
  | |- context [CallbackQuery ?data] =>
      let d := fresh "d" in
      let Hd := fresh "Hd" in
      set (d := data);
      assert (Hd : split 0x5f d = [py "set"; py what; _; _])
        by (apply (Hmenu what); not_captured);
      unfold conversation.process_callback_query; cbv zeta beta;
      cbn [call_data call_chat_id call_message_id call_from_user_id call_username];
      rewrite (loading _ _ _ _ _ _ Hs); route; rewrite Hd;
      cbn [drop unpack2]; step; step; loaded_attribute; step;
      callback_done
  end.

(** X16. Each button under a created transaction, other than Delete,
    opens the menu that goes with it: Set Category lists the user's
    categories, Asset Account the asset accounts, Expense Account the
    expense accounts and Revenue Account the revenue accounts, one button
    for each name, whose callback data is made of the menu's prefix, the
    transaction, the name and the transaction's kind. Nothing is stored
    and nothing of the user is left in the attributes. *)
Theorem keyboard_buttons_open_menus
    (http_delete : list effect -> str -> str -> outcome Z)
    (http_get_transaction : list effect -> str -> str -> outcome (gmap str json_value))
    (http_put : list effect -> str -> str -> list (str * json_value) -> outcome response)
    (response_message : gmap str json_value -> outcome str)
    (tid : str) (k : kind) (chat mid uid : Z) (name : str) (s : scene)
    (row : session_row) (x : snapshot) (label d : str) :
  let user := str_of_Z uid in
  0x5f ∉ tid →
  stored user row x s →
  (label, d) ∈ concat (handlers.transaction_keyboard tid k) →
  label ≠ py "Delete" →
  ∃ prefix names title,
    (label, prefix, names, title)
    ∈ [(py "Set Category", "category_", snap_categories x, "Select a category:");
       (py "Asset Account", "asset_", snap_asset_accounts x,
        "Select the asset account:");
       (py "Expense Account", "expense_", snap_expense_accounts x,
        "Select an expense account:");
       (py "Revenue Account", "revenue_", snap_revenue_accounts x,
        "Select a revenue account:")]%string
    ∧ ∃ s',
        conversation.process_callback_query http_delete http_get_transaction http_put
          response_message (CallbackQuery d chat mid uid name) s
        = (Return tt, s')
        ∧ scene_db s' = scene_db s
        ∧ forgotten user (scene_bot s')
        ∧ effects s'
          = effects s ++ callback_opening user d
            ++ [Did (SendMessage (ChatId chat) (py title)
                       (Some (conversation.choices prefix tid (kind_str k) names)))].
Proof.
  intros user Htid Hs Hin Hlabel.
  assert (Hkind : 0x5f ∉ kind_str k) by (destruct k; not_captured).
  unfold handlers.transaction_keyboard in Hin.
  rewrite !concat_cons, concat_nil, !elem_of_app, !elem_of_cons in Hin.
  assert (Hmenu : ∀ what,
            0x5f ∉ py what →
            split 0x5f (py "set" ++ 0x5f :: py what ++ 0x5f :: tid
                        ++ 0x5f :: kind_str k)
            = [py "set"; py what; tid; kind_str k]).
  { intros what Hwhat. rewrite !split_piece, split_whole; [done..|not_captured]. }
  destruct Hin as [[Hin|[Hin|Hin%elem_of_nil]]|[[Hin|[Hin|Hin%elem_of_nil]]|Hin%elem_of_nil]];
    try done.
  - apply pair_eq in Hin as [-> _]. by destruct Hlabel.
  - apply pair_eq in Hin as [-> ->]. menu Hs Hmenu "category"%string.
  - apply pair_eq in Hin as [-> ->]. menu Hs Hmenu "asset"%string.
  - destruct k; apply pair_eq in Hin as [-> ->];
      [menu Hs Hmenu "expense"%string|menu Hs Hmenu "revenue"%string..].
Qed.

(** A choice that cannot be unpacked. *)
Ltac refused Hs Hlong what :=
  match goal with
  | |- context [CallbackQuery ?data] =>
      let d := fresh "d" in
      let Hd := fresh "Hd" in
      set (d := data);
      assert (Hd : unpack4 (split 0x5f d) = Raise ValueError) by apply (Hlong what);
      unfold conversation.process_callback_query; cbv zeta beta;
      cbn [call_data call_chat_id call_message_id call_from_user_id call_username];
      rewrite (loading _ _ _ _ _ _ Hs); route; step; by rewrite Hd
  end.

(** X17. A name that holds an underscore cannot be chosen on a menu: the
    callback of its button, whether for a category or for an asset,
    expense or revenue account, raises [ValueError] when the data is
    unpacked, before anything is asked of the ledger. Nothing is sent to
    the chat, and the user's session and lists stay in the attributes. *)
Theorem underscore_breaks_the_choice
    (http_delete : list effect -> str -> str -> outcome Z)
    (http_get_transaction : list effect -> str -> str -> outcome (gmap str json_value))
    (http_put : list effect -> str -> str -> list (str * json_value) -> outcome response)
    (response_message : gmap str json_value -> outcome str)
    (prefix : string) (tid kind : str) (names : list str)
    (chat mid uid : Z) (name : str) (s : scene)
    (row : session_row) (x : snapshot) (label d : str) :
  let user := str_of_Z uid in
  prefix ∈ ["category_"; "asset_"; "expense_"; "revenue_"]%string →
  stored user row x s →
  (label, d) ∈ concat (conversation.choices prefix tid kind names) →
  0x5f ∈ label →
  conversation.process_callback_query http_delete http_get_transaction http_put
    response_message (CallbackQuery d chat mid uid name) s
  = (Raise ValueError,
     Scene (loaded user row x (scene_bot s)) (scene_db s)
           (effects s ++ callback_opening user d)).
Proof.
  intros user Hprefix Hs Hin Hlabel.
  apply choices_button in Hin as [_ ->].
  assert (Hlong : ∀ what, unpack4 (split 0x5f (py what ++ 0x5f :: tid ++ 0x5f :: label
                                              ++ 0x5f :: kind))
                          = Raise ValueError).
  { intros what. by apply unpack4_length, choice_pieces. }
  repeat (apply elem_of_cons in Hprefix as [->|Hprefix]);
    [..|by apply elem_of_nil in Hprefix].
  - refused Hs Hlong "category"%string.
  - refused Hs Hlong "asset"%string.
  - refused Hs Hlong "expense"%string.
  - refused Hs Hlong "revenue"%string.
Qed.

(** X19. The Delete button asks the ledger to delete the transaction named
    by what stands before the first underscore of the identifier, and
    then deletes the chat message whatever status the ledger answered: a
    status other than 204 is logged as an error and changes nothing
    else. *)
Theorem delete_callback
    (http_delete : list effect -> str -> str -> outcome Z)
    (http_get_transaction : list effect -> str -> str -> outcome (gmap str json_value))
    (http_put : list effect -> str -> str -> list (str * json_value) -> outcome response)
    (response_message : gmap str json_value -> outcome str)
    (tid : str) (chat mid uid : Z) (name : str) (s : scene)
    (row : session_row) (x : snapshot) (status : Z) :
  let user := str_of_Z uid in
  let pressed := py "delete_" ++ tid in
  stored user row x s →
  (∀ h url, http_delete h url row.1.2 = Return status) →
  ∃ p r,
    tid = p ++ r ∧ (0x5f ∉ p) ∧ (r = [] ∨ head r = Some 0x5f)
    ∧ ∃ s',
        conversation.process_callback_query http_delete http_get_transaction
          http_put response_message (CallbackQuery pressed chat mid uid name) s
        = (Return tt, s')
        ∧ scene_db s' = scene_db s
        ∧ forgotten user (scene_bot s')
        ∧ effects s'
          = effects s ++ callback_opening user pressed
            ++ [Did (Log INFO [Text (py "Deleting transaction "); Text p;
                               Text (py " for user "); Text user]);
                Delete (row.1.1 ++ py "transactions/" ++ p);
                Did (if (status =? 204)%Z
                     then Log INFO [Text (py "Transaction Deleted: "); Text p]
                     else Log ERROR [Text (py "Error deleting transaction.")]);
                DeleteMessage chat mid].
Proof.
  intros user pressed Hs Hdelete.
  destruct (split_head 0x5f tid) as (p & ps & r & Hsplit & Ha & Hp & Hr).
  assert (Hpieces : split 0x5f pressed = py "delete" :: p :: ps).
  { unfold pressed.
    change (py "delete_" ++ tid) with (py "delete" ++ 0x5f :: tid).
    rewrite !split_piece, Hsplit; [done|not_captured]. }
  exists p, r. do 3 (split; [done|]).
  unfold conversation.process_callback_query. cbv zeta beta.
  cbn [call_data call_chat_id call_message_id call_from_user_id call_username].
  fold user pressed.
  rewrite (loading user row x s _ pressed Hs).
  route. rewrite Hpieces.
  replace (firefly.getitem _ 1) with (Return p) by reflexivity.
  step. unfold transactions.delete_transaction.
  step. step. loaded_attribute. step. loaded_attribute.
  step. step. rewrite Hdelete. cbv iota.
  destruct (status =? 204)%Z; step; step; callback_done.
Qed.

(** ** The updates of a transaction *)

Section updates.

Lemma choice_split (what tid n kind : str) :
  0x5f ∉ what → 0x5f ∉ tid → 0x5f ∉ n → 0x5f ∉ kind →
  unpack4 (split 0x5f (what ++ 0x5f :: tid ++ 0x5f :: n ++ 0x5f :: kind))
  = Return (tid, n, kind).
Proof. intros. by rewrite !split_piece, split_whole. Qed.

Lemma copied_cons tx k keys v :
  tx !! k = Some v → copied tx (k :: keys) = (k, v) :: copied tx keys.
Proof. intros H. unfold copied. cbn. by rewrite H. Qed.

End updates.

(** X18. A name without an underscore chosen on a menu reaches the ledger
    as chosen: the transaction is fetched and put back with the chosen
    category as its [category_name], or with the identifier of the
    chosen account as its [source_id] (for an asset account as for a
    revenue account, whatever the transaction's type) or as its
    [destination_id] (for an expense account), every other field as it
    was fetched. Whatever status the ledger answers, the transaction is
    fetched again, the menu is deleted and the message is edited to show
    it; a status other than 200 is only logged. *)
Theorem chosen_name_is_put_to_the_ledger
    (http_delete : list effect -> str -> str -> outcome Z)
    (http_get_transaction : list effect -> str -> str -> outcome (gmap str json_value))
    (http_put : list effect -> str -> str -> list (str * json_value) -> outcome response)
    (response_message : gmap str json_value -> outcome str)
    (c : choice) (tid n kind : str) (chat mid uid : Z) (name : str) (s : scene)
    (row : session_row) (x : snapshot) (tx tx' : gmap str json_value)
    (id msg body : str) (answer : response) :
  let user := str_of_Z uid in
  let pressed := py (choice_prefix c) ++ tid ++ py "_" ++ n ++ py "_" ++ kind in
  let url := row.1.1 ++ py "transactions/" ++ tid in
  0x5f ∉ tid → 0x5f ∉ n → 0x5f ∉ kind →
  stored user row x s →
  (c ≠ Category → snap_account_ids x !! n = Some id) →
  Forall (λ k, is_Some (tx !! k)) (read_fields c) →
  (∀ h, http_get_transaction (effects s ++ h) url row.1.2
        = Return (if existsb is_put h then tx' else tx)) →
  (∀ h, http_put h url row.1.2 (payload c tx n id) = Return answer) →
  (status_code answer ≠ 200%Z → json_text answer = Return body) →
  response_message tx' = Return msg →
  ∃ s',
    conversation.process_callback_query http_delete http_get_transaction http_put
      response_message (CallbackQuery pressed chat mid uid name) s
    = (Return tt, s')
    ∧ scene_db s' = scene_db s
    ∧ forgotten user (scene_bot s')
    ∧ effects s'
      = effects s ++ callback_opening user pressed
        ++ [update_log c tid n user; Put url (payload c tx n id)]
        ++ (if (status_code answer =? 200)%Z then [] else [update_error c body])
        ++ [Did (Log INFO [Text name; Text (py " - "); Text tid; Text (py " - ");
                           Text msg]);
            DeleteMessage chat (mid - 1)]
        ++ shown c chat mid msg (conversation.updated_keyboard tid kind).
Proof.
  intros user pressed url Htid Hn Hkind Hs Hid Hfields Hget Hput Hbody Hmsg.
  assert (Hfalse : ∀ (e : effect), existsb is_put (callback_opening user pressed ++ [e])
                                   = is_put e).
  { intros e. unfold callback_opening. cbn. by destruct (is_put e). }
  destruct c;
    [ assert (Hd : unpack4 (split 0x5f pressed) = Return (tid, n, kind))
        by (apply (choice_split (py "category")); [not_captured|done..])
    | assert (Hd : unpack4 (split 0x5f pressed) = Return (tid, n, kind))
        by (apply (choice_split (py "asset")); [not_captured|done..])
    | assert (Hd : unpack4 (split 0x5f pressed) = Return (tid, n, kind))
        by (apply (choice_split (py "expense")); [not_captured|done..])
    | assert (Hd : unpack4 (split 0x5f pressed) = Return (tid, n, kind))
        by (apply (choice_split (py "revenue")); [not_captured|done..]) ];
    try (specialize (Hid ltac:(done)));
    cbn [read_fields] in Hfields;
    repeat match type of Hfields with
           | Forall _ (_ :: _) =>
               let v := fresh "v" in
               let H := fresh "Hv" in
               apply Forall_cons in Hfields as [[v H] Hfields]
           end;
    clear Hfields;
    (let T := type of (Hput []) in
     match T with
     | http_put _ _ _ ?p = _ => pose proof (eq_refl p) as Hpay
     end);
    unfold payload at 2 in Hpay;
    repeat match goal with
           | H : tx !! ?k = Some ?v |- _ => rewrite (copied_cons tx k _ v H) in Hpay
           end;
    change (copied tx []) with (@nil (str * json_value)) in Hpay;
    cbn [app] in Hpay;
    unfold conversation.process_callback_query; cbv zeta beta;
    cbn [call_data call_chat_id call_message_id call_from_user_id call_username];
    fold user pressed;
    rewrite (loading user row x s _ pressed Hs);
    route; rewrite Hd; step;
    unfold transactions.update_transaction_category, transactions.update_transaction_asset,
      transactions.update_transaction_expense, transactions.update_transaction_revenue;
    step; step; loaded_attribute; step; loaded_attribute;
    step; fold url; rewrite <- !app_assoc, Hget, Hfalse; cbn [is_put]; cbv iota;
    repeat match goal with
           | H : tx !! ?k = Some _ |- context [tx !! ?k] => rewrite H
           end;
    repeat (assoc;
            first [ rewrite bind_old_lift; stepped
                  | rewrite bind_old_self; stepped; loaded_attribute;
                    try rewrite Hid ]);
    fold url; rewrite <- Hpay; step; step; rewrite Hput; cbv iota;
    (destruct (status_code answer =? 200)%Z eqn:Hstatus;
     [|apply Z.eqb_neq, Hbody in Hstatus; step; rewrite Hstatus; cbv iota]);
    step; step; loaded_attribute; fold url; step;
    rewrite <- !app_assoc, Hget;
    replace (existsb is_put _) with true by reflexivity; cbv iota;
    assoc; rewrite bind_old_lift, Hmsg; stepped;
    repeat step;
    rewrite old_cleared; cbn [scene_bot scene_db effects];
    (eexists; split; [reflexivity|]); cbn [scene_bot scene_db effects];
    (split_and!; [done|apply at_rest_forgotten|]);
    unfold callback_opening, update_log, update_error, shown;
    rewrite <- !app_assoc; cbn [app]; repeat f_equal.
Qed.

(** ** The /start command *)

Section start.

Lemma load_data_logs user : emits (λ e, is_log e = true) (firefly.load_data user).
Proof. unfold firefly.load_data, database.get_data. repeat emits_step. Qed.

(** What [load_data] comes to in a scene. *)
Lemma old_load_data_any user s :
  ∃ r b evs,
    old (firefly.load_data user) s
    = (r, Scene b (scene_db s) (effects s ++ map Did evs))
    ∧ Forall (λ e, is_log e = true) evs.
Proof.
  pose proof (keeps_load_data same_db user (same_db_across user)
                (World (scene_bot s) (scene_db s) [])) as Hdb.
  destruct (load_data_logs user (World (scene_bot s) (scene_db s) []))
    as (evs & Htrace & Hevs).
  unfold same_db in Hdb. cbn [db trace app] in Hdb, Htrace.
  unfold old. destruct (firefly.load_data user _) as [r w].
  cbn [fst snd] in *. exists r, (bot w), evs. by rewrite Hdb, Htrace.
Qed.

End start.

(** X20. The /start command stores nothing: whatever the outcome, both
    tables are afterwards what they were, so a stored session and the
    stored lists survive it. When it returns it has asked for the URL,
    registered [process_url] as the next step, and left nothing of the
    user in the attributes: the empty entries it makes are cleared
    again. *)
Theorem start_stores_nothing (message : message) (s : scene) :
  let user := str_of_Z (from_user_id message) in
  let chat := chat_id message in
  scene_db (conversation.send_welcome message s).2 = scene_db s
  ∧ ∀ s',
      conversation.send_welcome message s = (Return tt, s') →
      forgotten user (scene_bot s')
      ∧ ∃ logs,
          effects s'
          = effects s ++ logs
            ++ [Did (SendMessage (ChatId chat) (py "Enter your FireFlyIII URL.") None);
                RegisterNextStepHandler chat to_process_url]
          ∧ Forall logged logs.
Proof.
  intros user chat. unfold conversation.send_welcome. cbv zeta beta. fold user chat.
  step. step_with (apply load_session_held).
  match goal with
  | |- context [(old (firefly.load_data user) ≫= _) ?sc] =>
      destruct (old_load_data_any user sc) as (r & b & evs & Hload & Hevs)
  end.
  cbn [scene_bot scene_db effects] in Hload.
  assoc. erewrite bind_run by exact Hload.
  destruct r as [[]|e|]; [|by split..].
  do 12 step. rewrite old_cleared. cbn [scene_bot scene_db effects snd].
  split; [done|]. intros s' [= <-]. cbn [scene_bot scene_db effects].
  split; [apply at_rest_forgotten|].
  exists ([Did (Log DEBUG [Text (py "Received /start command from user ");
                           Text (str_of_Z chat)]);
           session_read user s] ++ map Did evs).
  split; [by rewrite <- !app_assoc|].
  repeat (apply Forall_cons; split;
          [unfold session_read; by destruct (session (scene_db s) !! user)|]).
  apply Forall_fmap. eapply Forall_impl; [exact Hevs|]. by intros [| | |].
Qed.

(** ** Instances *)

Lemma alice_snapshot_plain : plain alice_snapshot.
Proof.
  unfold plain, alice_snapshot.
  cbn [snap_categories snap_source_accounts snap_destination_accounts
       snap_asset_accounts snap_expense_accounts snap_revenue_accounts
       snap_account_ids].
  split_and!;
    try (repeat (apply Forall_cons; split; [by apply unpaired_check|]);
         by apply Forall_nil).
  repeat (apply map_Forall_insert_2; [split; by apply unpaired_check|]).
  apply map_Forall_empty.
Qed.

Lemma alice_stored : stored (str_of_Z 42) alice_row alice_snapshot alice_waiting.
Proof. split; [by vm_compute|]. split; [by vm_compute|apply alice_snapshot_plain]. Qed.

Lemma wrong_address_ends_the_setup_witness :
  ∃ s',
    conversation.process_api_key unreachable (Message (py "key") 5 42 (py "alice"))
      alice_waiting
    = (Raise KeyError, s')
    ∧ session (scene_db s') !! alice = Some alice_row.
Proof.
  destruct (wrong_address_ends_the_setup unreachable (py "key") 5 42 (py "alice")
              alice_waiting ConnectionError)
    as (s' & Hrun & Hdb & _); [by vm_compute|reflexivity|].
  exists s'. split; [exact Hrun|]. rewrite Hdb. by vm_compute.
Defined.

Lemma api_key_opens_the_account_keyboard_witness :
  ∃ s',
    conversation.process_api_key small_ledger (Message (py "key") 5 42 (py "alice"))
      alice_waiting
    = (Return tt, s')
    ∧ last (effects s')
      = Some (Did (SendMessage (ChatId 5) (py "Choose your default account:")
                     (Some [[(py "Checking", py "set_account_Checking")]]))).
Proof.
  destruct (api_key_opens_the_account_keyboard small_ledger (py "key") 5 42 (py "alice")
              alice_waiting small_snapshot)
    as (s' & logs & Hrun & _ & _ & Heffects & _); [by vm_compute|].
  exists s'. split; [exact Hrun|]. rewrite Heffects.
  by rewrite !app_assoc, last_snoc.
Defined.

Lemma default_account_callback_witness :
  ∃ s',
    conversation.process_callback_query deleting showing refusing formatted
      (CallbackQuery (py "set_account_Savings") 5 9 42 (py "alice")) alice_waiting
    = (Return tt, s')
    ∧ session (scene_db s') !! alice
      = Some (py "http://ledger/api/v1/", py "key", py "Savings").
Proof.
  destruct (default_account_callback deleting showing refusing formatted
              (py "Savings") 5 9 42 (py "alice") alice_waiting alice_row alice_snapshot
              alice_stored)
    as (p & r & Ha & Hp & Hr & s' & Hrun & Hdb & _).
  exists s'. split; [exact Hrun|].
  assert (p = py "Savings") as ->
    by (apply (piece_whole 0x5f (py "Savings") p r); [not_captured|done..]).
  rewrite Hdb. by vm_compute.
Defined.

Lemma keyboard_buttons_open_menus_witness :
  ∃ prefix names title s',
    conversation.process_callback_query deleting showing refusing formatted
      (CallbackQuery (py "set_expense_7_withdrawal") 5 9 42 (py "alice")) alice_waiting
    = (Return tt, s')
    ∧ last (effects s')
      = Some (Did (SendMessage (ChatId 5) (py title)
                     (Some (conversation.choices prefix (py "7") (py "withdrawal")
                              names)))).
Proof.
  destruct (keyboard_buttons_open_menus deleting showing refusing formatted
              (py "7") withdrawal 5 9 42 (py "alice") alice_waiting alice_row
              alice_snapshot (py "Expense Account") (py "set_expense_7_withdrawal"))
    as (prefix & names & title & _ & s' & Hrun & _ & _ & Heffects);
    [not_captured|apply alice_stored
    |apply list_elem_of_In; vm_compute; tauto|by vm_compute|].
  exists prefix, names, title, s'. split; [exact Hrun|]. rewrite Heffects.
  by rewrite !app_assoc, last_snoc.
Defined.

Lemma underscore_breaks_the_choice_witness :
  conversation.process_callback_query deleting showing refusing formatted
    (CallbackQuery (py "category_7_Eating_out_withdrawal") 5 9 42 (py "alice"))
    alice_waiting
  = (Raise ValueError,
     Scene (loaded alice alice_row alice_snapshot nobody_loaded) alice_tables
           (callback_opening alice (py "category_7_Eating_out_withdrawal"))).
Proof.
  apply (underscore_breaks_the_choice deleting showing refusing formatted
           "category_" (py "7") (py "withdrawal") [py "Food"; py "Eating_out"]
           5 9 42 (py "alice") alice_waiting alice_row alice_snapshot
           (py "Eating_out") (py "category_7_Eating_out_withdrawal")).
  - apply list_elem_of_here.
  - apply alice_stored.
  - apply list_elem_of_In. vm_compute. tauto.
  - apply list_elem_of_In. vm_compute. tauto.
Defined.

Lemma chosen_name_is_put_to_the_ledger_witness :
  ∃ s',
    conversation.process_callback_query deleting showing refusing formatted
      (CallbackQuery (py "asset_7_Checking_deposit") 5 9 42 (py "alice")) alice_waiting
    = (Return tt, s')
    ∧ Put (py "http://ledger/api/v1/transactions/7")
          [(py "type", JString (py "deposit")); (py "amount", JString (py "5"));
           (py "source_id", JString (py "1"));
           (py "destination_id", JString (py "1"));
           (py "description", JString (py "Salary"));
           (py "category_name", JNull);
           (py "date", JString (py "2024-05-01T00:00:00+00:00"))]
      ∈ effects s'.
Proof.
  destruct (chosen_name_is_put_to_the_ledger deleting showing refusing formatted
              Asset (py "7") (py "Checking") (py "deposit") 5 9 42 (py "alice")
              alice_waiting alice_row alice_snapshot salary_before salary_after
              (py "1") (py "5.00 Checking -> Checking (None)")
              (py "{'message': 'invalid'}")
              (Response 422 (Return (py "{'message': 'invalid'}"))))
    as (s' & Hrun & _ & _ & Heffects).
  - not_captured.
  - not_captured.
  - not_captured.
  - apply alice_stored.
  - intros _. by vm_compute.
  - unfold read_fields.
    repeat (constructor; [eexists; vm_compute; reflexivity|]). constructor.
  - reflexivity.
  - reflexivity.
  - reflexivity.
  - reflexivity.
  - exists s'. split; [exact Hrun|]. rewrite Heffects.
    apply list_elem_of_In. vm_compute. tauto.
Defined.

Lemma delete_callback_witness :
  ∃ s',
    conversation.process_callback_query deleting showing refusing formatted
      (CallbackQuery (py "delete_7") 5 9 42 (py "alice")) alice_waiting
    = (Return tt, s')
    ∧ last (effects s') = Some (DeleteMessage 5 9).
Proof.
  destruct (delete_callback deleting showing refusing formatted
              (py "7") 5 9 42 (py "alice") alice_waiting alice_row alice_snapshot 204
              alice_stored)
    as (p & r & _ & _ & _ & s' & Hrun & _ & _ & Heffects); [done|].
  exists s'. split; [exact Hrun|]. rewrite Heffects.
  by rewrite (app_assoc _ _ [_; _; _; _]), (last_app_cons _ [_; _; _] _).
Defined.

Lemma start_stores_nothing_witness :
  ∃ s',
    conversation.send_welcome (says "/start") alice_waiting = (Return tt, s')
    ∧ scene_db s' = alice_tables
    ∧ forgotten alice (scene_bot s').
Proof.
  destruct (start_stores_nothing (says "/start") alice_waiting) as [Hdb Hreturn].
  destruct (conversation.send_welcome (says "/start") alice_waiting) as [r s'] eqn:Hrun.
  assert (r = Return tt) as ->.
  { apply (f_equal fst) in Hrun. vm_compute in Hrun. by symmetry. }
  exists s'. split; [done|]. split; [exact Hdb|].
  by destruct (Hreturn s' eq_refl).
Defined.
